(* ===== verification/_CoqProject ===== *)
-Q . S2P
Prelude.v
QtArg.v
Json.v
Crypto.v
Reference.v
Protocol.v
DeviceInfo.v
SecureStore.v
Certificate.v
TlsClient.v
KnownDevices.v
AppSettings.v
HistoryModel.v
SelectionModel.v
DeviceModel.v
FileNames.v
Network.v
JsNumber.v
JsText.v
Formatting.v
DeviceLook.v
Discovery.v
RateLimiter.v
TransferModel.v
TransferFacts.v
HttpConnection.v
HttpFacts.v
HttpBody.v
HttpFrame.v
ReferenceHttp.v
HttpServer.v
SendService.v
SendFacts.v
ReceiveService.v
ReceiveFacts.v
ReceiveHttp.v
ReceiveSizes.v
ReceiveChecks.v
Handover.v
Permission.v
App.v
AppFacts.v
Pages.v
PagesFacts.v
ReferenceReceive.v
ReferenceSend.v
ReferenceApp.v
ReferencePages.v
