(* ===== verification/Prelude.v ===== *)
(** * harbour-localsend: a verified model of the program, and its prelude

    harbour-localsend is a LocalSend client for Sailfish OS: two devices on one
    network find each other, one asks, a person agrees, and the files come over
    HTTP or HTTPS. This library translates the C++ services (src/src/), the
    JavaScript helpers of the pages (src/qml/components/) and what the pages
    themselves do (src/qml/harbour-localsend.qml, src/qml/pages/) into executable Rocq
    definitions that keep the names, the guards and the order of the source, and
    proves what makes them right.

    ** How the program is put together

    [main] (src/src/harbour-localsend.cpp) makes one settings object, one transfer,
    one history, one catalogue of known devices and one network manager, and hands
    them to three services:

    - Discovery (discovery.cpp) announces the device over multicast, answers the
      announcements of others, sweeps the subnet, looks up addresses by hand, and
      keeps the device list (devicemodel.cpp);
    - ReceiveService (receiveservice.cpp) listens (httpserver.cpp), screens each
      request to send, shows it, hands out a session and one token per file when
      the person agrees, writes the files (hashingfile.cpp) and ends the session;
    - SendService (sendservice.cpp) asks a peer, gives the PIN when asked, uploads
      one file after another and reports every end.

    Under them lie the settings and the PIN (appsettings.cpp), the device's TLS
    identity (certificate.cpp), the pinning of peers (tlsclient.cpp), the encrypted
    files (securestore.cpp) on the primitives of crypto.cpp, the log
    (historymodel.cpp), the block list (knowndevices.cpp) and the rows the pages
    show (transfermodel.cpp, selectionmodel.cpp). On top, a window of pages
    (harbour-localsend.qml) shows the requests and the transfers as the services
    signal them, and makes the calls a person makes.

    ** Which file models what

    A file's module has the name of the class or namespace it models; its state is
    a record with the source's members, and each method is a definition of the same
    name that takes the state last and returns the new one. The time a call is made
    is its argument [t], in milliseconds. Signals are appended to a list of the
    state, newest first.

    Foundations. Prelude (this file): record update, pipes, Qt strings as lists of
    UTF-16 units, 32- and 64-bit wrap-around, decimal numbers, QVariant. QtArg:
    QString::arg. Json: QJsonObject and its lookups, the text form as a class.
    Network: requests and the outcome of a reply.

    Leaves. Crypto, Protocol, DeviceInfo, SecureStore, Certificate, TlsClient,
    KnownDevices, AppSettings, HistoryModel, SelectionModel, DeviceModel,
    RateLimiter, TransferModel (with TransferFacts), FileNames (the destination
    names of receiveservice.cpp).

    Display. JsNumber and JsText model the JavaScript numbers and strings that
    Formatting (Formatting.js) and DeviceLook (DeviceLook.js) use.

    HTTP. HttpConnection is the request reader of httpserver.cpp, one socket event
    at a time, over any world of the class [HttpWorld]; HttpFacts, HttpBody and
    HttpFrame are its theorems. HttpFrame has two interfaces through which a client
    proves that every event of a connection keeps an invariant of its own: [Framed],
    and [Metered] for one over what the connection has counted of its body.
    HttpServer is the listener with its slots and TLS handshakes.

    Services. Discovery; ReceiveService, with ReceiveFacts (its invariant),
    ReceiveHttp (as a client of HttpConnection), ReceiveSizes (what an upload may
    write) and ReceiveChecks (a request, a file); SendService, with SendFacts. What a service may be told is the type
    [event] of its module, [handle] is one event and [run] a history; the theorems
    quantify over every history from the constructor on.

    Together. Handover composes the two ends over the body of /prepare-upload,
    Permission over its answer and the upload it leads to. App is [main] with both
    services on the shared objects, AppFacts its theorems.

    Pages is the window over App: the stack of pages, the slots on the services'
    signals (harbour-localsend.qml), and for each gesture of the person the calls
    its handler makes, [call] being one call with the signals it sends back. The
    pages are objects that live until they are destroyed, for one that goes
    unanswered declines. PagesFacts are its theorems.

    Reference, ReferenceHttp, ReferenceReceive, ReferenceSend, ReferenceApp,
    ReferencePages and the Reference modules at the end of the component files give concrete instances of
    the parameters, on which the witnesses of the theorems are computed.

    ** What is proved

    Receiving: [done_means_delivered] (a file marked done is complete, matches its
    digest and is on the disk), [files_survive] (no peer can change a file that is
    already there), [request_is_screened] (what reaches the person, and the answer
    to everything else), [consent_needed], [upload_needs_capability],
    [nothing_waits_forever], [service_invariant], [finish_settles],
    [service_answers_once] (one answer to a request, and no more of a file than was
    agreed to).

    Sending: [nothing_leaves_unpinned] (every request to a device that was picked,
    under its pin), [sender_never_stuck] (busy means one request outstanding or a
    PIN asked for), [upload_reply_settles] (each reply settles its row and moves
    on), [offer_arrives] and [permission_arrives] (what one end says is what the
    other understands), [partial_acceptance_fails].

    The program: [switched_off_is_silent]; and under its pages [pages_ask_in_turn]
    (a PIN is given only to a sender that waits for one, which the theorems on the
    sender assume, and both services keep their invariants side by side) and
    [receiving_takes_a_tap].

    HTTP: [one_request_one_answer], [chunked_body_decoded] and
    [declared_body_read] (the reader against the grammar of bodies, in any pieces),
    [body_loops_end], [body_within_bounds], [headers_unambiguous],
    [response_framing], [slots_are_bounded].

    Discovery: [sweep_ends], [register_reply_believed], [reflection_is_bounded] (what
    forged announcements can make the device send, datagrams and POSTs).

    State and storage: [accounting] and [pages_in_step] (the counters and the
    coalesced repaints of the transfer), [settings_stay_well_formed], [pin_guard],
    [guess_rate_bounded], [store_refines_map], [sealed_at_rest], [encrypt_decrypt],
    [identity_persists], [pin_decides], [history_survives], [restart_restores],
    [blocks_are_the_users], [device_list_ok], [payload_roundtrip],
    [fromPayload_sanitised], [sanitized_name_is_safe], [reserved_path_is_free].

    Display: [fileSize_spec], [duration_spec], [fileUrl_opens],
    [fingerprint_readable], [hash_polynomial], [accent_toned].

    ** Parameters

    What the sources only call is a class, with the documented behaviour the code
    relies on as its laws, and a reference instance that satisfies them: [OpenSSL]
    (random bytes, digests, key derivation, sealing), [X509] (key pairs, PEM),
    [QtText] (case folding, UTF-8), [QHashOrder] (iteration order of a QHash),
    [JsonText] (reading back what was printed), [HttpText] (percent-decoding of a
    target), [UrlText], [Storage], [FileSystem], [Keystore], [StoredFiles],
    [AppPaths], [SettingsHost], [Platform] (the host's double-to-integer
    conversion), [NetworkState] (interfaces and sockets), [Disk] (where received
    files go), [LocalFiles] and [OpenFiles] (what is sent), [PageStack] (Silica's
    stack of pages, which may refuse an operation while a transition runs),
    [Translations] (which translation files load). Replies, datagrams,
    socket data and the timer's firing are events, in any order and number.

    ** Bounds and fuel

    Loops over a list are folds over it. Where the source loops on a condition, the
    definition takes fuel, and a lemma shows that it is enough: the body readers
    take one turn more than the buffer has bytes ([body_loops_end] shows that more
    changes nothing), [pump_loop] one per queued target ([pump_loop_ok]),
    [trim_loop] one per record ([trim_loop_spec]); [reserve_loop] goes over the source's own
    range of numbers. Integers of 32 and 64 bits wrap as in C++ ([wrap32],
    [wrap64]); a double is exact up to 2^53 ([double_of_Z], [qint64_of_exact]), and
    a JavaScript number is the rational it stands for, rounded only where the
    source's arithmetic rounds.

    ** Not modelled

    Of the pages and the cover: layout, labels, colours and animation; remorse
    timers, whose outcome is an event that may come at any time; the switches of
    SettingsPage that write a setting straight through, which are events of the
    settings. The texts of the translations (tr() stands for the source text),
    packaging, scripts and the tests of the repository. The TLS handshake itself,
    Qt's event loop and sockets; Silica's own pages; the JSON and URL grammars;
    sniffing of MIME types. Logging is left out everywhere. What the code does not
    ensure a theorem names as its hypothesis: that a file's name is not that of the
    writability probe ([files_survive]), that a row has one writer
    ([done_means_delivered]), that a PIN is submitted in turn ([sender_never_stuck]),
    that no more than 512 addresses try PINs ([guess_rate_bounded]), that a device's
    own texts are within the caps of the protocol ([offer_arrives]). *)
From stdpp Require Export base tactics numbers list gmap sets strings pretty sorting.
From Stdlib Require Export ZArith Lia Ascii String.

#[export] Set Default Goal Selector "!".
Declare Scope localsend_scope.
Delimit Scope localsend_scope with LS.
#[global] Open Scope Z_scope.
#[global] Open Scope localsend_scope.

(** ** Record update

    A record type declares its eta expansion once ([Settable]); the setter of
    a projection is computed from it. [r <| f := v |>] replaces a field,
    [r <| f ::= g |>] applies [g] to it. *)
Class Settable (R : Type) := eta_of : R -> R.
Class Setter {R T : Type} (proj : R -> T) := set_with : (T -> T) -> R -> R.

Ltac solve_setter :=
  lazymatch goal with
  | |- @Setter ?R ?T ?proj =>
      let eta := constr:(_ : Settable R) in
      let body := eval hnf in eta in
      lazymatch eval pattern proj in body with
      | ?abs _ =>
          let r := constr:(fun (u : T -> T) (x : R) => abs (fun y => u (proj y)) x) in
          let r' := eval cbv beta in r in
          exact r'
      end
  end.
#[export] Hint Extern 1 (Setter _) => solve_setter : typeclass_instances.

Definition set_field {R T : Type} (proj : R -> T) `{S : !Setter proj}
    (u : T -> T) (r : R) : R := S u r.
Arguments set_field {R T} proj {S} u r /.

Notation "r <| f := v |>" := (set_field f (fun _ => v) r)
  (at level 1, left associativity, f at level 9, v at level 200) : localsend_scope.
Notation "r <| f ::= g |>" := (set_field f g r)
  (at level 1, left associativity, f at level 9, g at level 200) : localsend_scope.
(** Statement sequencing of a handler that threads one state. *)
Notation "x |>> f" := (f x)
  (at level 61, left associativity, only parsing) : localsend_scope.

(** ** Strings and byte arrays

    A [QString] is its list of UTF-16 code units, a [QByteArray] its list of
    bytes, both as [Z]. *)
Abbreviation qstring := (list Z) (only parsing).
Abbreviation bytes := (list Z) (only parsing).

Definition lit (s : string) : list Z :=
  map (fun a => Z.of_N (N_of_ascii a)) (list_ascii_of_string s).

(** [isEmpty()], [length()] / [size()] *)
Definition is_empty {A} (s : list A) : bool :=
  match s with [] => true | _ => false end.
Definition len {A} (s : list A) : Z := Z.of_nat (List.length s).
(** [left(n)]: the whole value when [n] is negative or past the end. *)
Definition qleft {A} (n : Z) (s : list A) : list A :=
  if (n <? 0) || (len s <=? n) then s else take (Z.to_nat n) s.
(** [mid(n)] and [remove(0, n)] *)
Definition qmid {A} (n : Z) (s : list A) : list A := drop (Z.to_nat n) s.
(** Equality of strings. *)
Definition qeq (a b : list Z) : bool := bool_decide (a = b).
Definition starts_with (p s : list Z) : bool := bool_decide (p `prefix_of` s).

(** [indexOf(pattern)], [None] for -1. *)
Fixpoint index_of (pat s : list Z) : option nat :=
  if starts_with pat s then Some 0%nat
  else match s with
       | [] => None
       | _ :: s' => S <$> index_of pat s'
       end.
(** [lastIndexOf(c)], [None] for -1. *)
Fixpoint last_index_of (c : Z) (s : list Z) : option nat :=
  match s with
  | [] => None
  | x :: s' => match last_index_of c s' with
               | Some i => Some (S i)
               | None => if x =? c then Some 0%nat else None
               end
  end.
Definition contains_sub (pat s : list Z) : bool :=
  match index_of pat s with Some _ => true | None => false end.

(** [split(c)]: always at least one field. *)
Fixpoint split_on (c : Z) (s : list Z) : list (list Z) :=
  match s with
  | [] => [[]]
  | x :: s' =>
      if x =? c then [] :: split_on c s'
      else match split_on c s' with
           | [] => [[x]]
           | f :: fs => (x :: f) :: fs
           end
  end.

(** [trimmed()] for a given notion of white space. *)
Fixpoint drop_while {A} (p : A -> bool) (s : list A) : list A :=
  match s with
  | [] => []
  | x :: s' => if p x then drop_while p s' else s
  end.
Definition trim_by {A} (p : A -> bool) (s : list A) : list A :=
  reverse (drop_while p (reverse (drop_while p s))).

(** C++ [isspace] in the C locale; what [QByteArray::trimmed] strips. *)
Definition is_space (c : Z) : bool := (c =? 32) || ((9 <=? c) && (c <=? 13)).
Definition trimmed (s : bytes) : bytes := trim_by is_space s.

(** [replace(from, to)] on characters. *)
Definition replace_char (a b : Z) (s : list Z) : list Z :=
  map (fun c => if c =? a then b else c) s.
Definition remove_char (a : Z) (s : list Z) : list Z :=
  List.filter (fun c => negb (c =? a)) s.

(** Decimal rendering, [QByteArray::number] / [QString::number]. *)
Definition number (z : Z) : list Z := lit (pretty z).

(** [operator<] of [QString] compares code units. *)
Fixpoint str_compare (a b : list Z) : comparison :=
  match a, b with
  | [], [] => Eq
  | [], _ :: _ => Lt
  | _ :: _, [] => Gt
  | x :: a, y :: b => match Z.compare x y with Eq => str_compare a b | c => c end
  end.
Definition str_gt (a b : list Z) : bool :=
  match str_compare a b with Gt => true | _ => false end.

(** ** Machine integers *)
Definition int64_min : Z := - 2 ^ 63.
Definition int64_max : Z := 2 ^ 63 - 1.
Definition in_int64 (z : Z) : Prop := int64_min <= z <= int64_max.
Definition wrap64 (z : Z) : Z := (z + 2 ^ 63) mod 2 ^ 64 - 2 ^ 63.
Definition wrap32 (z : Z) : Z := (z + 2 ^ 31) mod 2 ^ 32 - 2 ^ 31.

(** [QVariant], as far as the list models hand values to the pages. A [qreal]
    quotient is kept as its two integers. *)
Inductive variant :=
| VInvalid
| VString (s : list Z)
| VInt (z : Z)
| VBool (b : bool)
| VDate (d : option Z)
| VStrings (l : list (list Z))
| VRatio (num den : Z).

(** ** QHash iteration order

    Qt documents the order in which a [QHash] is walked as arbitrary. A
    [gmap] models the contents; the walk is a parameter that lists the
    contents in some order. *)
Class QHashOrder := {
  hash_items : forall {K} `{Countable K} {A : Type}, gmap K A -> list (K * A);
  hash_items_perm : forall {K} `{Countable K} {A} (m : gmap K A),
    hash_items m ≡ₚ map_to_list m
}.
Definition hash_keys `{QHashOrder} {K} `{Countable K} {A} (m : gmap K A) : list K :=
  (hash_items m).*1.

(** ** Qt's Unicode tables

    White space, case mapping and UTF-8 encoding of [QString] are Qt code; the
    laws are what Qt documents of them and this program relies on. *)
Class QtText := {
  q_is_space : Z -> bool;                (* QChar::isSpace *)
  q_upper : qstring -> qstring;          (* QString::toUpper *)
  q_utf8 : qstring -> bytes;             (* QString::toUtf8 *)
  q_compare_ci : qstring -> qstring -> Z; (* QString::compare, CaseInsensitive *)
  q_is_space_ascii : forall c, is_space c = true -> q_is_space c = true;
  q_is_space_graph : forall c, 33 <= c <= 126 -> q_is_space c = false;
  q_upper_idem : forall s, q_upper (q_upper s) = q_upper s;
  q_upper_nil : forall s, q_upper s = [] <-> s = [];
  q_utf8_ascii : forall s,
    Forall (fun c => 0 <= c < 128) s \/ Forall (fun c => 0 <= c < 128) (q_utf8 s) ->
    q_utf8 s = s;
  q_compare_refl : forall s, q_compare_ci s s = 0;
  q_compare_sym : forall s t, Z.sgn (q_compare_ci s t) = - Z.sgn (q_compare_ci t s);
  q_compare_trans : forall s t u,
    q_compare_ci s t <= 0 -> q_compare_ci t u <= 0 -> q_compare_ci s u <= 0
}.
Definition q_trimmed `{QtText} (s : qstring) : qstring := trim_by q_is_space s.

(** ** Lemmas on strings *)

Lemma str_compare_refl a : str_compare a a = Eq.
Proof. induction a as [|x a IH]; cbn; [done|]. by rewrite Z.compare_refl. Qed.
Lemma str_compare_eq a b : str_compare a b = Eq <-> a = b.
Proof.
  split; [|intros ->; apply str_compare_refl].
  revert b. induction a as [|x a IH]; intros [|y b]; cbn; try done.
  destruct (Z.compare_spec x y); [|done..]. subst. intros ?. f_equal. by apply IH.
Qed.
Lemma str_compare_antisym a b : str_compare b a = CompOpp (str_compare a b).
Proof.
  revert b. induction a as [|x a IH]; intros [|y b]; cbn; try done.
  rewrite (Z.compare_antisym x y). destruct (x ?= y); cbn; [apply IH|done..].
Qed.
Lemma str_compare_lt_trans a b c :
  str_compare a b = Lt -> str_compare b c = Lt -> str_compare a c = Lt.
Proof.
  revert b c. induction a as [|x a IH]; intros [|y b] [|z c]; cbn; try done.
  destruct (Z.compare_spec x y), (Z.compare_spec y z); try done; subst.
  - rewrite Z.compare_refl. apply IH.
  - intros _ _. by rewrite (proj2 (Z.compare_lt_iff _ _)).
  - intros _ _. by rewrite (proj2 (Z.compare_lt_iff _ _)).
  - intros _ _. by rewrite (proj2 (Z.compare_lt_iff _ _)) by lia.
Qed.

Lemma qeq_spec a b : qeq a b = true <-> a = b.
Proof. apply bool_decide_eq_true. Qed.
Lemma qeq_refl a : qeq a a = true.
Proof. by apply qeq_spec. Qed.
Lemma qeq_false a b : qeq a b = false <-> a <> b.
Proof. apply bool_decide_eq_false. Qed.
Lemma lit_inj a b : lit a = lit b -> a = b.
Proof.
  revert b. induction a as [|x a IH]; intros [|y b]; cbn; try done. intros [= Hx Hs].
  f_equal; [|by apply IH].
  rewrite <- (ascii_N_embedding x), <- (ascii_N_embedding y). f_equal. lia.
Qed.
Lemma qeq_lit a b : qeq (lit a) (lit b) = String.eqb a b.
Proof.
  destruct (String.eqb_spec a b) as [->|Hn]; [apply qeq_refl|].
  apply qeq_false. by intros ?%lit_inj.
Qed.
Lemma is_empty_spec {A} (s : list A) : is_empty s = true <-> s = [].
Proof. by destruct s. Qed.
Lemma is_empty_false {A} (s : list A) : is_empty s = false <-> s <> [].
Proof. by destruct s. Qed.
Lemma len_nonneg {A} (s : list A) : 0 <= len s.
Proof. unfold len. lia. Qed.
Lemma len_app {A} (s t : list A) : len (s ++ t) = len s + len t.
Proof. unfold len. rewrite length_app. lia. Qed.
Lemma len_cons {A} (x : A) s : len (x :: s) = 1 + len s.
Proof. unfold len. cbn. lia. Qed.
Lemma len_nil {A} : len (@nil A) = 0.
Proof. done. Qed.
Lemma len_map {A B} (f : A -> B) s : len (map f s) = len s.
Proof. unfold len. by rewrite length_map. Qed.
#[export] Hint Rewrite @len_app @len_cons @len_nil @len_map : len.
#[export] Hint Resolve len_nonneg : core.

Ltac len_simpl := autorewrite with len in *.

(** Comparisons of literal strings, decided. *)
Ltac lit_simpl :=
  rewrite ?qeq_lit; cbn [String.eqb Ascii.eqb Bool.eqb andb orb negb]; cbv iota.

(** Trimming keeps a sublist, drops only white space at the ends, and is
    idempotent. *)
Lemma drop_while_suffix {A} (p : A -> bool) s : drop_while p s `suffix_of` s.
Proof.
  induction s as [|x s IH]; cbn; [done|]. case_match; [|done]. by apply suffix_cons_r.
Qed.
Lemma drop_while_head {A} (p : A -> bool) s x s' : drop_while p s = x :: s' -> p x = false.
Proof.
  induction s as [|y s IH]; cbn; [done|]. case_match; [done|]. by intros [= <- <-].
Qed.
Lemma drop_while_id {A} (p : A -> bool) s :
  (forall x s', s = x :: s' -> p x = false) -> drop_while p s = s.
Proof. destruct s as [|x s]; cbn; [done|]. intros Hx. by rewrite (Hx x s). Qed.
Lemma trim_by_sublist {A} (p : A -> bool) s : trim_by p s `sublist_of` s.
Proof.
  unfold trim_by. trans (drop_while p s).
  - set (t := drop_while p s). destruct (drop_while_suffix p (reverse t)) as [k Hk].
    rewrite <- (reverse_involutive t) at 2. rewrite Hk at 2. rewrite reverse_app.
    by apply sublist_inserts_r.
  - destruct (drop_while_suffix p s) as [k Hk]. rewrite Hk at 2. by apply sublist_inserts_l.
Qed.
Lemma filter_sublist {A} (p : A -> bool) s : List.filter p s `sublist_of` s.
Proof. induction s as [|x s IH]; cbn; [done|]. case_match; by constructor. Qed.
Lemma sublist_Forall {A} (P : A -> Prop) s t : s `sublist_of` t -> Forall P t -> Forall P s.
Proof. induction 1; intros Ht; inversion Ht; subst; auto. Qed.
Lemma sublist_len {A} (s t : list A) : s `sublist_of` t -> len s <= len t.
Proof. intros H%sublist_length. unfold len. lia. Qed.

(** What [trim_by] leaves has no white space at either end. *)
Definition trimmed_by {A} (p : A -> bool) (s : list A) : Prop :=
  (forall x s', s = x :: s' -> p x = false) /\ (forall x s', s = s' ++ [x] -> p x = false).
Lemma trim_by_id {A} (p : A -> bool) s : trimmed_by p s -> trim_by p s = s.
Proof.
  intros [Hl Hr]. unfold trim_by. rewrite (drop_while_id p s) by done.
  rewrite drop_while_id; [apply reverse_involutive|].
  intros x s' Hs. apply (Hr x (reverse s')). rewrite <- (reverse_involutive s), Hs.
  by rewrite reverse_cons.
Qed.
Lemma trim_by_trimmed {A} (p : A -> bool) s : trimmed_by p (trim_by p s).
Proof.
  unfold trim_by. set (t := drop_while p s). split.
  - intros x s' Hx.
    assert (exists k, t = x :: k) as [k Hk].
    { destruct (drop_while_suffix p (reverse t)) as [k Hk].
      exists (s' ++ reverse k). rewrite <- (reverse_involutive t), Hk, reverse_app, Hx.
      done. }
    by eapply drop_while_head.
  - intros x s' Hx. apply (f_equal reverse) in Hx.
    rewrite reverse_involutive, reverse_app in Hx. cbn in Hx. by eapply drop_while_head.
Qed.
Lemma trim_by_idem {A} (p : A -> bool) s : trim_by p (trim_by p s) = trim_by p s.
Proof. apply trim_by_id, trim_by_trimmed. Qed.

(** Decimal digits. *)
Lemma pretty_digits n s :
  Forall (fun c => 48 <= c <= 57) (lit s) -> Forall (fun c => 48 <= c <= 57) (lit (pretty_N_go n s)).
Proof.
  revert s. induction n as [n IH] using (well_founded_induction N.lt_wf_0). intros s Hs.
  destruct (decide (0 < n)%N) as [Hn|Hn].
  - rewrite pretty_N_go_step by done. apply IH; [apply N.div_lt; lia|].
    unfold lit. cbn. constructor; [|done]. unfold pretty_N_char. repeat case_match; cbn; lia.
  - replace n with 0%N by lia. by rewrite pretty_N_go_0.
Qed.
Lemma number_nat_digits n : Forall (fun c => 48 <= c <= 57) (number (Z.of_nat n)).
Proof.
  unfold number. destruct (Z.of_nat n) eqn:En; [by apply (bool_decide_unpack _)| |lia].
  unfold pretty, pretty_Z, pretty, pretty_positive, pretty, pretty_N.
  case_decide; [by apply (bool_decide_unpack _)|]. by apply pretty_digits.
Qed.

(** ** Machine integers, the laws *)
Lemma wrap64_id z : in_int64 z -> wrap64 z = z.
Proof.
  unfold in_int64, int64_min, int64_max, wrap64. intros Hz. rewrite Z.mod_small by lia. lia.
Qed.
Lemma wrap64_range z : in_int64 (wrap64 z).
Proof.
  unfold in_int64, int64_min, int64_max, wrap64.
  pose proof (Z.mod_pos_bound (z + 2 ^ 63) (2 ^ 64)). lia.
Qed.
Lemma wrap64_add_l a b : wrap64 (wrap64 a + b) = wrap64 (a + b).
Proof.
  unfold wrap64. f_equal.
  replace ((a + 2 ^ 63) mod 2 ^ 64 - 2 ^ 63 + b + 2 ^ 63)
    with ((a + 2 ^ 63) mod 2 ^ 64 + b) by lia.
  rewrite Z.add_mod_idemp_l by lia. f_equal. lia.
Qed.
Lemma wrap64_add_r a b : wrap64 (a + wrap64 b) = wrap64 (a + b).
Proof. rewrite (Z.add_comm a (wrap64 b)), wrap64_add_l. f_equal. lia. Qed.

(** ** Sums over lists *)
Definition zsum {A} (f : A -> Z) (l : list A) : Z := foldr (fun x acc => f x + acc) 0 l.
Lemma zsum_app {A} (f : A -> Z) l k : zsum f (l ++ k) = zsum f l + zsum f k.
Proof. unfold zsum. induction l as [|x l IH]; cbn in *; lia. Qed.
Lemma zsum_alter {A} (f : A -> Z) (g : A -> A) i l x :
  l !! i = Some x -> zsum f (alter g i l) = zsum f l - f x + f (g x).
Proof.
  revert i. induction l as [|y l IH]; intros [|i] Hi; try done.
  - injection Hi as ->. cbn. lia.
  - cbn [zsum foldr alter list_alter] in *. specialize (IH i Hi). unfold zsum in IH. cbn. lia.
Qed.
Lemma zsum_nonneg {A} (f : A -> Z) l : Forall (fun x => 0 <= f x) l -> 0 <= zsum f l.
Proof. induction 1; cbn; [done|]. unfold zsum in *. lia. Qed.
#[global] Arguments zsum {A} f l : simpl never.

(** ** Walks of a hash *)
Section hash_lemmas.
Context `{QHashOrder} {K} `{Countable K} {A : Type}.
Lemma hash_items_elem (m : gmap K A) k a : (k, a) ∈ hash_items m <-> m !! k = Some a.
Proof. rewrite (hash_items_perm m). apply elem_of_map_to_list. Qed.
Lemma hash_items_nodup (m : gmap K A) : NoDup (hash_items m).*1.
Proof. rewrite (hash_items_perm m). apply NoDup_fst_map_to_list. Qed.
Lemma hash_items_empty (m : gmap K A) : hash_items m = [] <-> m = ∅.
Proof.
  rewrite <- map_to_list_empty_iff. rewrite <- !Permutation_nil_r. by rewrite (hash_items_perm m).
Qed.
Lemma hash_keys_elem (m : gmap K A) k : k ∈ hash_keys m <-> is_Some (m !! k).
Proof.
  unfold hash_keys. rewrite list_elem_of_fmap. split.
  - intros ([k' a] & -> & Hk%hash_items_elem). eauto.
  - intros [a Ha]. exists (k, a). by rewrite hash_items_elem.
Qed.

(** A loop that walks a hash and inserts into another. *)
Lemma foldl_insert_lookup {B} (g : K * A -> option B) (l : list (K * A)) (acc : gmap K B) k :
  NoDup l.*1 ->
  foldl (fun acc ka => match g ka with Some b => <[ka.1 := b]> acc | None => acc end) acc l !! k
  = match list_to_map (M := gmap K A) l !! k with
    | Some a => match g (k, a) with Some b => Some b | None => acc !! k end
    | None => acc !! k
    end.
Proof.
  revert acc. induction l as [|[k0 a0] l IH]; intros acc; cbn; [done|].
  intros [Hn Hd]%NoDup_cons. rewrite IH by done.
  assert (Hl : list_to_map (M := gmap K A) l !! k0 = None) by by apply not_elem_of_list_to_map.
  destruct (decide (k = k0)) as [->|Hne].
  - rewrite Hl, lookup_insert_eq. destruct (g (k0, a0)); [by rewrite lookup_insert_eq|done].
  - rewrite lookup_insert_ne by done. destruct (g (k0, a0)); [|done].
    by rewrite lookup_insert_ne by done.
Qed.
Lemma hash_items_map (m : gmap K A) : list_to_map (hash_items m) = m.
Proof.
  rewrite <- (list_to_map_to_list m) at 2. apply list_to_map_proper; [apply hash_items_nodup|].
  apply hash_items_perm.
Qed.
End hash_lemmas.
Lemma foldl_ext_elem {A B} (f g : A -> B -> A) a l :
  (forall a b, b ∈ l -> f a b = g a b) -> foldl f a l = foldl g a l.
Proof.
  revert a. induction l as [|b l IH]; intros a Hfg; [done|]. cbn. rewrite Hfg by by left.
  apply IH. intros a' b' Hb. apply Hfg. by right.
Qed.
Lemma foldl_insert_keys {K} `{Countable K} {B} (f : K -> B) ks (m : gmap K B) k :
  foldl (fun m k => <[k := f k]> m) m ks !! k = if decide (k ∈ ks) then Some (f k) else m !! k.
Proof.
  revert m. induction ks as [|k0 ks IH]; intros m; [by rewrite decide_False by apply not_elem_of_nil|].
  cbn [foldl]. rewrite IH. destruct (decide (k ∈ ks)) as [Hk|Hk].
  - by rewrite decide_True by by right.
  - destruct (decide (k = k0)) as [->|Hne].
    + rewrite decide_True by by left. by rewrite lookup_insert_eq.
    + rewrite decide_False by by rewrite elem_of_cons; intros [].
      by rewrite lookup_insert_ne.
Qed.
