(* ===== verification/QtArg.v ===== *)
(** * QtArg: QString::arg

    Qt fills the markers [%1] .. [%99] of a text one call at a time, always those of
    the lowest number: a value that holds a marker itself is filled in by the next
    call. Digits other than ASCII ones are not taken for markers. *)
From S2P Require Import Prelude.

Module QtArg.

(** A place marker: [%], perhaps [L], one or two digits. *)
Definition digit (c : Z) : option Z := if (48 <=? c) && (c <=? 57) then Some (c - 48) else None.
Definition marker_at (s : qstring) : option (Z * nat) :=
  match s with
  | 37 :: s =>
      let '(s, skipped) := match s with 76 :: s' => (s', 2%nat) | _ => (s, 1%nat) end in
      match s with
      | c :: s =>
          match digit c with
          | None => None
          | Some d => match s with
                      | c' :: _ => match digit c' with
                                   | Some d' => Some (10 * d + d', (skipped + 2)%nat)
                                   | None => Some (d, (skipped + 1)%nat)
                                   end
                      | [] => Some (d, (skipped + 1)%nat)
                      end
          end
      | [] => None
      end
  | _ => None
  end.
Inductive piece := Plain (c : Z) | Marker (n : Z) (text : qstring).
Fixpoint pieces (skip : nat) (s : qstring) : list piece :=
  match s with
  | [] => []
  | c :: s' =>
      match skip with
      | S k => pieces k s'
      | O => match marker_at s with
             | Some (n, size) => Marker n (take size s) :: pieces (size - 1) s'
             | None => Plain c :: pieces 0 s'
             end
      end
  end.
Definition lowest (l : list piece) : option Z :=
  foldl (fun acc p => match p, acc with
                      | Marker n _, None => Some n
                      | Marker n _, Some m => Some (Z.min n m)
                      | Plain _, _ => acc
                      end) None l.
(** Every marker of the lowest number is replaced. *)
Definition arg (value template : qstring) : qstring :=
  let l := pieces 0 template in
  List.concat (map (fun p => match p with
                             | Plain c => [c]
                             | Marker n text => if bool_decide (lowest l = Some n) then value else text
                             end) l).


(** ** Texts without markers of their own *)

Definition unmarked (s : qstring) : Prop := 37 ∉ s.
Lemma pieces_plain s rest : unmarked s -> pieces 0 (s ++ rest) = map Plain s ++ pieces 0 rest.
Proof.
  unfold unmarked. induction s as [|c s IH]; intros Hs; [done|]. rewrite not_elem_of_cons in Hs. destruct Hs as [Hc Hs].
  cbn [app pieces]. assert (marker_at (c :: s ++ rest) = None) as ->.
  { unfold marker_at. destruct (Z.eq_dec c 37) as [->|Hn]; [done|]. by repeat case_match. }
  cbn [map app]. f_equal. by apply IH.
Qed.
Lemma lowest_plain s l : lowest (map Plain s ++ l) = lowest l.
Proof. unfold lowest. by induction s as [|c s IH]. Qed.
(** What stands before the first marker is left alone. *)
Lemma arg_prefix v s t : unmarked s -> arg v (s ++ t) = s ++ arg v t.
Proof.
  intros Hs. unfold arg. cbv zeta. rewrite pieces_plain, lowest_plain by done. rewrite map_app, concat_app. f_equal.
  induction s as [|c s IH]; [done|]. cbn. f_equal. apply IH. unfold unmarked in *. set_solver.
Qed.
Lemma number_unmarked z : 0 <= z -> unmarked (number z).
Proof.
  intros Hz Hin. pose proof (number_nat_digits (Z.to_nat z)) as Hd. rewrite Z2Nat.id, Forall_forall in Hd by done.
  specialize (Hd 37 Hin). lia.
Qed.
End QtArg.
