(* ===== verification/Json.v ===== *)
(** * JSON values, objects and numbers as Qt keeps them

    [QJsonValue] / [QJsonObject] / [double]. The text form is Qt code: printing
    and parsing are parameters ([JsonText]). *)
From S2P Require Import Prelude.

(** ** double

    A finite double is [m * 2^e]. Only conversions are used by the program. *)
Inductive double :=
| DNaN
| DInf (negative : bool)
| DFin (m e : Z).

(** [double(qint64)]: exact up to 2^53, rounded to nearest even above. *)
Definition double_of_Z (z : Z) : double :=
  if Z.abs z <=? 2 ^ 53 then DFin z 0
  else
    let k := Z.log2 (Z.abs z) - 52 in
    let q := Z.abs z / 2 ^ k in
    let r := Z.abs z mod 2 ^ k in
    let half := 2 ^ (k - 1) in
    let q := if (half <? r) || ((half =? r) && Z.odd q) then q + 1 else q in
    DFin (Z.sgn z * q) k.

(** Truncation towards zero, [None] for NaN and the infinities. *)
Definition double_trunc (d : double) : option Z :=
  match d with
  | DFin m e => Some (if 0 <=? e then m * 2 ^ e else Z.quot m (2 ^ (- e)))
  | _ => None
  end.
Definition double_is_whole (d : double) : bool :=
  match d with
  | DFin m e => (0 <=? e) || (m mod 2 ^ (- e) =? 0)
  | _ => false
  end.

(** A cast of a double that does not fit is undefined in C++: what comes out
    of [qint64(d)] then is up to the platform. *)
Class Platform := {
  cast_overflow : double -> Z;
  cast_overflow_range : forall d, int64_min <= cast_overflow d <= int64_max
}.
Definition qint64_of `{Platform} (d : double) : Z :=
  match double_trunc d with
  | Some z => if (int64_min <=? z) && (z <=? int64_max) then z else cast_overflow d
  | None => cast_overflow d
  end.

Lemma qint64_of_exact `{Platform} z : Z.abs z <= 2 ^ 53 -> qint64_of (double_of_Z z) = z.
Proof.
  intros Hz. unfold qint64_of, double_of_Z. rewrite (proj2 (Z.leb_le _ _)) by done.
  cbn [double_trunc Z.leb]. cbn -[Z.pow]. rewrite Z.mul_1_r.
  unfold int64_min, int64_max. rewrite !(proj2 (Z.leb_le _ _)) by lia. done.
Qed.
Lemma qint64_of_range `{Platform} d : int64_min <= qint64_of d <= int64_max.
Proof.
  unfold qint64_of. pose proof (cast_overflow_range d).
  destruct (double_trunc d); [|done]. case_match eqn:E; [|done].
  apply andb_true_iff in E as [?%Z.leb_le ?%Z.leb_le]. done.
Qed.

(** ** Values *)
Inductive json :=
| JNull
| JBool (b : bool)
| JNum (d : double)
| JString (s : qstring)
| JArray (l : list json)
| JObject (o : list (qstring * json)).
Abbreviation jobject := (list (qstring * json)).

(** [QJsonObject]: keys are unique and kept sorted. A missing key reads as
    [Undefined], which converts as [Null] does. *)
Fixpoint jlookup (k : qstring) (o : jobject) : option json :=
  match o with
  | [] => None
  | (k', v) :: o => if qeq k k' then Some v else jlookup k o
  end.
Definition jvalue (k : qstring) (o : jobject) : json := default JNull (jlookup k o).
Fixpoint jinsert (k : qstring) (v : json) (o : jobject) : jobject :=
  match o with
  | [] => [(k, v)]
  | (k', v') :: o' =>
      match str_compare k k' with
      | Lt => (k, v) :: o
      | Eq => (k, v) :: o'
      | Gt => (k', v') :: jinsert k v o'
      end
  end.
Definition jkeys (o : jobject) : list qstring := o.*1.

(** [toString(default)], [toBool(default)], [toObject()], [toArray()],
    [toDouble()], [toInt(default)]. *)
Definition jstring_or (d : qstring) (j : json) : qstring :=
  match j with JString s => s | _ => d end.
Definition jstring : json -> qstring := jstring_or [].
Definition jbool_or (d : bool) (j : json) : bool := match j with JBool b => b | _ => d end.
Definition jobj (j : json) : jobject := match j with JObject o => o | _ => [] end.
Definition jarr (j : json) : list json := match j with JArray l => l | _ => [] end.
Definition jdouble (j : json) : double := match j with JNum d => d | _ => DFin 0 0 end.
Definition jint_or (d : Z) (j : json) : Z :=
  match j with
  | JNum x =>
      match double_trunc x with
      | Some z => if double_is_whole x && (- 2 ^ 31 <=? z) && (z <? 2 ^ 31) then z else d
      | None => d
      end
  | _ => d
  end.

(** ** Objects *)
Lemma jlookup_jinsert k k' v o :
  jlookup k (jinsert k' v o) = if qeq k k' then Some v else jlookup k o.
Proof.
  induction o as [|[k1 v1] o IH]; cbn; [by destruct (qeq k k')|].
  destruct (str_compare k' k1) eqn:E; cbn.
  - apply str_compare_eq in E as ->. by destruct (qeq k k1).
  - by destruct (qeq k k').
  - rewrite IH. destruct (qeq k k1) eqn:E1; [|done].
    apply qeq_spec in E1 as ->. destruct (qeq k1 k') eqn:E2; [|done].
    apply qeq_spec in E2 as ->. by rewrite str_compare_refl in E.
Qed.
Lemma jvalue_jinsert k k' v o :
  jvalue k (jinsert k' v o) = if qeq k k' then v else jvalue k o.
Proof. unfold jvalue. rewrite jlookup_jinsert. by destruct (qeq k k'). Qed.

Lemma jkeys_elem k o : k ∈ jkeys o <-> is_Some (jlookup k o).
Proof.
  unfold jkeys. induction o as [|[k1 v1] o IH]; cbn; [split; [intros ?%not_elem_of_nil|intros []]; done|].
  rewrite elem_of_cons, IH. destruct (qeq k k1) eqn:E.
  - apply qeq_spec in E as ->. split; [by eauto|by left].
  - apply qeq_false in E. split; [by intros [?|?]|by right].
Qed.
(** A loop that builds an object from distinct keys. *)
Lemma jlookup_foldl_jinsert {A} (f : A -> json) (l : list (qstring * A)) o k :
  NoDup l.*1 ->
  jlookup k (foldl (fun o ka => jinsert ka.1 (f ka.2) o) o l)
  = match list_to_map (M := gmap qstring A) l !! k with
    | Some a => Some (f a)
    | None => jlookup k o
    end.
Proof.
  revert o. induction l as [|[k0 a0] l IH]; intros o; cbn; [done|].
  intros [Hn Hd]%NoDup_cons. rewrite IH by done.
  assert (Hl : list_to_map (M := gmap qstring A) l !! k0 = None) by by apply not_elem_of_list_to_map.
  rewrite jlookup_jinsert. destruct (decide (k = k0)) as [->|Hne].
  - by rewrite Hl, lookup_insert_eq, qeq_refl.
  - rewrite lookup_insert_ne by done. by rewrite (proj2 (qeq_false _ _) Hne).
Qed.

(** Strictly sorted keys. *)
Definition above (k : qstring) (o : jobject) : Prop :=
  match o with [] => True | (k', _) :: _ => str_compare k k' = Lt end.
Fixpoint jsorted (o : jobject) : Prop :=
  match o with [] => True | (k, _) :: o => above k o /\ jsorted o end.

Lemma jsorted_jinsert k v o : jsorted o -> jsorted (jinsert k v o).
Proof.
  induction o as [|[k1 v1] o IH]; cbn; [done|]. intros [Ha Hs].
  destruct (str_compare k k1) eqn:E; cbn.
  - apply str_compare_eq in E as ->. done.
  - done.
  - split; [|by apply IH]. specialize (IH Hs).
    assert (Hk : str_compare k1 k = Lt) by (by rewrite str_compare_antisym, E).
    destruct o as [|[k2 v2] o]; cbn; [done|]. destruct (str_compare k k2); done.
Qed.

(** ** Text *)

(** A [QString] may hold an unpaired surrogate, which no UTF-8 text can. *)
Fixpoint valid_utf16 (s : qstring) : bool :=
  match s with
  | [] => true
  | c :: s =>
      if (55296 <=? c) && (c <=? 56319)
      then match s with
           | d :: s => (56320 <=? d) && (d <=? 57343) && valid_utf16 s
           | [] => false
           end
      else negb ((56320 <=? c) && (c <=? 57343)) && valid_utf16 s
  end.

(** The values that survive the text form: numbers that are exact integers and
    strings that are valid Unicode. *)
Fixpoint storable (j : json) : Prop :=
  match j with
  | JNull | JBool _ => True
  | JString s => valid_utf16 s = true
  | JNum d => exists z, d = DFin z 0 /\ Z.abs z <= 2 ^ 53
  | JArray l => (fix all l := match l with [] => True | x :: l => storable x /\ all l end) l
  | JObject o =>
      jsorted o
      /\ (fix all o := match o with
                        | [] => True
                        | (k, x) :: o => (valid_utf16 k = true /\ storable x) /\ all o
                        end) o
  end.
Definition all_storable : list json -> Prop :=
  fix all l := match l with [] => True | x :: l => storable x /\ all l end.
Definition fields_storable : jobject -> Prop :=
  fix all o := match o with
               | [] => True
               | (k, x) :: o => (valid_utf16 k = true /\ storable x) /\ all o
               end.

(** [QJsonDocument::fromJson] ([None] for a null document) and [toJson]. *)
Class JsonText := {
  from_json : bytes -> option json;
  to_json : json -> bytes;
  from_to_json : forall j, storable j -> from_json (to_json j) = Some j;
  (* a document is printed between its brackets *)
  to_json_object : forall o, exists t, to_json (JObject o) = 123 :: t;
  to_json_array : forall l, exists t, to_json (JArray l) = 91 :: t
}.

Lemma fields_storable_jinsert k v o :
  valid_utf16 k = true -> storable v -> fields_storable o -> fields_storable (jinsert k v o).
Proof.
  intros Hk Hv. induction o as [|[k1 v1] o IH]; cbn; [done|]. intros [H1 H2].
  destruct (str_compare k k1); cbn; auto.
Qed.
Lemma storable_jinsert k v o :
  valid_utf16 k = true -> storable v -> storable (JObject o) ->
  storable (JObject (jinsert k v o)).
Proof.
  intros Hk Hv [Hs Hf]. split; [by apply jsorted_jinsert|by apply fields_storable_jinsert].
Qed.
Lemma storable_foldl_jinsert {A} (f : A -> json) (l : list (qstring * A)) o :
  Forall (fun ka => valid_utf16 ka.1 = true /\ storable (f ka.2)) l ->
  storable (JObject o) ->
  storable (JObject (foldl (fun o ka => jinsert ka.1 (f ka.2) o) o l)).
Proof.
  intros Hl. revert o. induction Hl as [|[k a] l [Hk Ha] _ IH]; intros o Ho; cbn [foldl]; [done|].
  apply IH. by apply storable_jinsert.
Qed.
Lemma storable_num z : Z.abs z <= 2 ^ 53 -> storable (JNum (double_of_Z z)).
Proof.
  intros Hz. unfold double_of_Z. rewrite (proj2 (Z.leb_le _ _)) by done. cbn. eauto.
Qed.
Lemma storable_array l : all_storable l -> storable (JArray l).
Proof. done. Qed.
#[export] Hint Resolve storable_jinsert storable_num storable_array : json.

(** [isObject() ? object() : QJsonObject()] *)
Definition json_object `{JsonText} (text : bytes) : jobject :=
  match from_json text with Some (JObject o) => o | _ => [] end.

(** ** A concrete text form

    An encoding that satisfies [from_to_json]; witnesses run on it. *)
#[export] Instance double_eq_dec : EqDecision double.
Proof. solve_decision. Defined.
#[export] Program Instance double_countable : Countable double :=
  inj_countable'
    (fun d => match d with DNaN => inl true | DInf b => inr (inl b) | DFin m e => inr (inr (m, e)) end)
    (fun x => match x with inl _ => DNaN | inr (inl b) => DInf b | inr (inr (m, e)) => DFin m e end) _.
Next Obligation. by intros []. Qed.

Fixpoint json_tree (j : json) : gen_tree (bool + double + list Z) :=
  match j with
  | JNull => GenNode 0 []
  | JBool b => GenLeaf (inl (inl b))
  | JNum d => GenLeaf (inl (inr d))
  | JString s => GenLeaf (inr s)
  | JArray l => GenNode 1 (map json_tree l)
  | JObject o => GenNode 2 (map (fun kv => GenNode 0 [GenLeaf (inr kv.1); json_tree kv.2]) o)
  end.
Fixpoint tree_json (t : gen_tree (bool + double + list Z)) : json :=
  match t with
  | GenLeaf (inl (inl b)) => JBool b
  | GenLeaf (inl (inr d)) => JNum d
  | GenLeaf (inr s) => JString s
  | GenNode 1 l => JArray (map tree_json l)
  | GenNode 2 l =>
      JObject (map (fun t => match t with
                             | GenNode _ [GenLeaf (inr k); v] => (k, tree_json v)
                             | _ => ([], JNull)
                             end) l)
  | _ => JNull
  end.

Lemma tree_json_tree : forall j, tree_json (json_tree j) = j.
Proof.
  fix IH 1. intros [|b|d|s|l|o]; cbn; try done.
  - f_equal. induction l as [|x l IHl]; cbn; [done|]. by rewrite IH, IHl.
  - f_equal. induction o as [|[k x] o IHo]; cbn; [done|]. by rewrite IH, IHo.
Qed.

Module ReferenceJson.
Definition bracket (j : json) : Z :=
  match j with JObject _ => 123 | JArray _ => 91 | _ => 32 end.
Definition print (j : json) : bytes := [bracket j; Zpos (encode (json_tree j))].
Definition parse (t : bytes) : option json :=
  match t with [_; Zpos p] => tree_json <$> decode p | _ => None end.
#[export] Program Instance tree_text : JsonText := {| from_json := parse; to_json := print |}.
Next Obligation. intros j _. cbn. rewrite decode_encode. cbn. by rewrite tree_json_tree. Qed.
Next Obligation. intros o. cbn. eauto. Qed.
Next Obligation. intros l. cbn. eauto. Qed.
Definition saturate (d : double) : Z :=
  match d with
  | DFin m _ => if m <? 0 then int64_min else int64_max
  | DInf true => int64_min
  | _ => int64_max
  end.
Lemma saturate_range d : int64_min <= saturate d <= int64_max.
Proof.
  assert (int64_min <= int64_max) by done.
  destruct d as [|[]|m e]; cbn [saturate]; [lia..|]. destruct (m <? 0); lia.
Qed.
#[export] Instance saturating : Platform := {|
  cast_overflow := saturate; cast_overflow_range := saturate_range
|}.
End ReferenceJson.
