(* ===== verification/Crypto.v ===== *)
(** * Crypto: src/src/crypto.cpp

    OpenSSL's primitives are parameters ([OpenSSL]); the laws are the ones its
    documentation states and the code relies on. What the file models is the
    code around them: sizes, framing, failure paths, the comparisons. *)
From S2P Require Import Prelude.

Definition is_byte (b : Z) : Prop := 0 <= b < 256.

(** OpenSSL, [QCryptographicHash] and [QByteArray::fromHex].
    [RAND_bytes i n] is the answer to the [i]-th request made of the CSPRNG. *)
Class OpenSSL := {
  RAND_bytes : nat -> Z -> option bytes;
  CRYPTO_memcmp : bytes -> bytes -> Z;
  PKCS5_PBKDF2_HMAC : bytes -> bytes -> Z -> Z -> option bytes;
  sha256 : bytes -> bytes;
  (* AES-256-GCM: key, nonce, plaintext to ciphertext and tag, and back *)
  gcm_encrypt : bytes -> bytes -> bytes -> option (bytes * bytes);
  gcm_decrypt : bytes -> bytes -> bytes -> bytes -> option bytes;
  from_hex : bytes -> bytes;
  RAND_bytes_length : forall i n b, RAND_bytes i n = Some b -> len b = n /\ Forall is_byte b;
  CRYPTO_memcmp_spec : forall a b, len a = len b -> (CRYPTO_memcmp a b = 0 <-> a = b);
  PBKDF2_length : forall p s i n k, PKCS5_PBKDF2_HMAC p s i n = Some k ->
    len k = n /\ Forall is_byte k;
  sha256_length : forall d, len (sha256 d) = 32 /\ Forall is_byte (sha256 d);
  gcm_roundtrip : forall k n p c t, gcm_encrypt k n p = Some (c, t) ->
    len c = len p /\ len t = 16 /\ gcm_decrypt k n c t = Some p
}.

(** [QByteArray::toHex] and Latin-1 case mapping. *)
Definition hex_digit (d : Z) : Z := if d <? 10 then 48 + d else 97 + (d - 10).
Definition to_hex (b : bytes) : bytes :=
  List.concat (map (fun x => [hex_digit (x / 16); hex_digit (x mod 16)]) b).
Definition latin1_upper (s : bytes) : bytes :=
  map (fun c => if ((97 <=? c) && (c <=? 122))
                   || ((224 <=? c) && (c <=? 254) && negb (c =? 247))
                then c - 32 else c) s.
Definition latin1_lower (s : bytes) : bytes :=
  map (fun c => if ((65 <=? c) && (c <=? 90))
                   || ((192 <=? c) && (c <=? 222) && negb (c =? 215))
                then c + 32 else c) s.

(** [fromHex] documented on what [toHex] prints. *)
Class HexLaw `{OpenSSL} := from_hex_to_hex : forall b, Forall is_byte b -> from_hex (to_hex b) = b.

Module Crypto.
Section Crypto.
Context `{OpenSSL} `{QtText}.

Definition KeyBytes : Z := 32.
Definition NonceBytes : Z := 12.
Definition TagBytes : Z := 16.

(** [s_seen] and the number of requests made of the CSPRNG so far. *)
Record Pool := mkPool { s_seen : bool; draws : nat }.

Definition isAvailable (p : Pool) : bool * Pool :=
  if s_seen p then (true, p)
  else match RAND_bytes (draws p) 1 with
       | Some _ => (true, mkPool true (S (draws p)))
       | None => (false, mkPool false (S (draws p)))
       end.

Definition randomBytes (count : Z) (p : Pool) : bytes * Pool :=
  if count <=? 0 then ([], p)
  else match RAND_bytes (draws p) count with
       | Some buffer => (buffer, mkPool true (S (draws p)))
       | None => ([], mkPool (s_seen p) (S (draws p)))
       end.

Definition randomHex (byteCount : Z) (p : Pool) : qstring * Pool :=
  let '(b, p') := randomBytes byteCount p in (to_hex b, p').

Definition equals (left right : bytes) : bool :=
  if negb (len left =? len right) then false
  else if is_empty left then true
  else CRYPTO_memcmp left right =? 0.

(** The [QString] overload. *)
Definition equals_str (left right : qstring) : bool := equals (q_utf8 left) (q_utf8 right).

Definition equalsFold (left right : qstring) : bool :=
  equals_str (q_upper left) (q_upper right).

Definition deriveKey (secret : qstring) (salt : bytes) (iterations length : Z) : bytes :=
  if (length <=? 0) || (iterations <=? 0) then []
  else default [] (PKCS5_PBKDF2_HMAC (q_utf8 secret) salt iterations length).

(** [nonce ++ ciphertext ++ tag], or nothing when any step fails. *)
Definition encrypt (plaintext key : bytes) (p : Pool) : bytes * Pool :=
  if negb (len key =? KeyBytes) then ([], p)
  else
    let '(nonce, p) := randomBytes NonceBytes p in
    if is_empty nonce then ([], p)
    else match gcm_encrypt key nonce plaintext with
         | None => ([], p)
         | Some (body, tag) => (nonce ++ body ++ tag, p)
         end.

Definition decrypt (blob key : bytes) : bytes :=
  if negb (len key =? KeyBytes) || (len blob <? NonceBytes + TagBytes) then []
  else
    let nonce := qleft NonceBytes blob in
    let bodySize := len blob - NonceBytes - TagBytes in
    let rest := qmid NonceBytes blob in
    let body := take (Z.to_nat bodySize) rest in
    let tag := drop (Z.to_nat bodySize) rest in
    default [] (gcm_decrypt key nonce body tag).

Definition sha256Hex (data : bytes) : qstring := latin1_upper (to_hex (sha256 data)).

(** ** Facts *)

Lemma equals_spec a b : equals a b = true <-> a = b.
Proof.
  unfold equals. destruct (Z.eqb_spec (len a) (len b)) as [Hl|Hl]; cbn [negb]; last first.
  { split; [done|]. intros ->. done. }
  destruct a as [|x a]; cbn [is_empty].
  { split; [|done]. destruct b; [done|]. unfold len in Hl. cbn in Hl. lia. }
  rewrite Z.eqb_eq. by apply CRYPTO_memcmp_spec.
Qed.

Lemma equals_str_refl a : equals_str a a = true.
Proof. by apply equals_spec. Qed.

Lemma equalsFold_spec a b : equalsFold a b = true <-> q_utf8 (q_upper a) = q_utf8 (q_upper b).
Proof. apply equals_spec. Qed.

(** A comparison against plain ASCII text is an equality. *)
Lemma equals_str_ascii a b :
  Forall (fun c => 0 <= c < 128) a -> equals_str a b = true -> a = b.
Proof.
  intros Ha Heq%equals_spec. rewrite (q_utf8_ascii a) in Heq by by left.
  by rewrite <- (q_utf8_ascii b) by (rewrite <- Heq; by right).
Qed.

Lemma randomBytes_length n p :
  (randomBytes n p).1 = [] \/ (len (randomBytes n p).1 = n /\ Forall is_byte (randomBytes n p).1).
Proof.
  unfold randomBytes. case_match; [by left|].
  destruct (RAND_bytes _ _) eqn:E; [|by left]. right. cbn. by eapply RAND_bytes_length.
Qed.

Lemma to_hex_length b : len (to_hex b) = 2 * len b.
Proof. unfold to_hex, len. induction b; cbn in *; lia. Qed.

Definition is_lower_hex (c : Z) : Prop := 48 <= c <= 57 \/ 97 <= c <= 102.
Definition is_upper_hex (c : Z) : Prop := 48 <= c <= 57 \/ 65 <= c <= 70.

Lemma hex_digit_range d : 0 <= d < 16 -> is_lower_hex (hex_digit d).
Proof. intros. unfold hex_digit, is_lower_hex. case_match; lia. Qed.

Lemma to_hex_range b : Forall is_byte b -> Forall is_lower_hex (to_hex b).
Proof.
  induction 1 as [|x b Hx _ IH]; [constructor|]. cbn.
  unfold is_byte in Hx. pose proof (Z.div_mod x 16). pose proof (Z.mod_pos_bound x 16).
  constructor; [apply hex_digit_range; lia|]. constructor; [apply hex_digit_range; lia|done].
Qed.

Lemma latin1_upper_hex s : Forall is_lower_hex s -> Forall is_upper_hex (latin1_upper s).
Proof.
  induction 1 as [|c s Hc _ IH]; [constructor|]. constructor; [|done].
  unfold is_lower_hex, is_upper_hex in *. case_match; lia.
Qed.

Lemma sha256Hex_shape d :
  len (sha256Hex d) = 64 /\ Forall is_upper_hex (sha256Hex d).
Proof.
  destruct (sha256_length d) as [Hl Hb]. split.
  - unfold sha256Hex, latin1_upper, len. rewrite length_map.
    fold (len (to_hex (sha256 d))). rewrite to_hex_length. lia.
  - by apply latin1_upper_hex, to_hex_range.
Qed.

Lemma decrypt_encrypt plaintext key p :
  let blob := (encrypt plaintext key p).1 in
  blob <> [] ->
  decrypt blob key = plaintext /\ len blob = len plaintext + NonceBytes + TagBytes.
Proof.
  cbv zeta. unfold encrypt.
  destruct (Z.eqb_spec (len key) KeyBytes) as [Hk|]; cbn [negb]; [|done].
  destruct (randomBytes NonceBytes p) as [nonce p'] eqn:Er.
  destruct (randomBytes_length NonceBytes p) as [Hn|[Hn _]]; rewrite Er in Hn; cbn in Hn.
  { subst. done. }
  destruct (is_empty nonce) eqn:En; [done|].
  destruct (gcm_encrypt key nonce plaintext) as [[c t]|] eqn:Eg; [|done]. cbn [fst]. intros _.
  destruct (gcm_roundtrip _ _ _ _ _ Eg) as (Hc & Ht & Hd).
  assert (Hl : len (nonce ++ c ++ t) = len plaintext + NonceBytes + TagBytes).
  { unfold len in *. rewrite !length_app. unfold NonceBytes, TagBytes in *. lia. }
  split; [|done]. unfold decrypt. rewrite Hk, Z.eqb_refl, Hl. cbn [negb orb].
  rewrite (proj2 (Z.ltb_ge _ _)); last first.
  { unfold len. lia. }
  unfold qleft, qmid. rewrite (proj2 (Z.ltb_ge _ _)) by done. cbn [orb].
  rewrite (proj2 (Z.leb_gt _ _)); last first.
  { rewrite Hl. unfold TagBytes, len. lia. }
  replace (Z.to_nat NonceBytes) with (List.length nonce); last first.
  { unfold len in Hn. lia. }
  rewrite take_app_length, drop_app_length.
  replace (Z.to_nat _) with (List.length c); last first.
  { unfold len in *. lia. }
  by rewrite take_app_length, drop_app_length, Hd.
Qed.

(** What [encrypt] seals, [decrypt] opens with the same key: one opaque
    blob of nonce, ciphertext and tag, 28 bytes longer than the plaintext.
    Anything of another shape, or a key of another size, opens to nothing. *)
Theorem encrypt_decrypt plaintext key p :
  let blob := (encrypt plaintext key p).1 in
  (blob <> [] -> decrypt blob key = plaintext
                 /\ len blob = len plaintext + NonceBytes + TagBytes)
  /\ (len key <> KeyBytes -> blob = [] /\ forall b, decrypt b key = [])
  /\ (forall b, len b < NonceBytes + TagBytes -> decrypt b key = []).
Proof.
  cbv zeta. split_and!.
  - apply decrypt_encrypt.
  - intros Hk. unfold encrypt, decrypt. by rewrite (proj2 (Z.eqb_neq _ _) Hk).
  - intros b Hb. unfold decrypt. rewrite (proj2 (Z.ltb_lt _ _) Hb). by rewrite orb_true_r.
Qed.

End Crypto.
End Crypto.
