(* ===== verification/Reference.v ===== *)
(** * Reference instances of the parameters

    Concrete functions that satisfy the laws assumed of Qt and OpenSSL. They
    stand for neither library: the witnesses of the theorems use them to
    evaluate the model on concrete inputs. *)
From S2P Require Import Prelude Crypto.

Module Reference.

(** Text restricted to ASCII: white space, case and UTF-8 of the code units
    below 128; every other unit is left alone. *)
Definition ascii_upper (s : qstring) : qstring :=
  map (fun c => if (97 <=? c) && (c <=? 122) then c - 32 else c) s.
Fixpoint lex_compare (a b : qstring) : Z :=
  match a, b with
  | [], [] => 0
  | [], _ :: _ => -1
  | _ :: _, [] => 1
  | x :: a, y :: b => if x =? y then lex_compare a b else x - y
  end.

Lemma lex_compare_sym a b : Z.sgn (lex_compare a b) = - Z.sgn (lex_compare b a).
Proof.
  revert b. induction a as [|x a IH]; intros [|y b]; cbn; try done.
  destruct (Z.eqb_spec x y), (Z.eqb_spec y x); try lia. apply IH.
Qed.
Lemma lex_compare_refl a : lex_compare a a = 0.
Proof. induction a as [|x a IH]; cbn; [done|]. by rewrite Z.eqb_refl. Qed.
Lemma lex_compare_trans a b c :
  lex_compare a b <= 0 -> lex_compare b c <= 0 -> lex_compare a c <= 0.
Proof.
  revert b c. induction a as [|x a IH]; intros [|y b] [|z c]; cbn; try lia.
  destruct (Z.eqb_spec x y), (Z.eqb_spec y z), (Z.eqb_spec x z); try lia. apply IH.
Qed.

#[export] Program Instance ascii_text : QtText := {|
  q_is_space := is_space;
  q_upper := ascii_upper;
  q_utf8 := fun s => s;
  q_compare_ci := fun a b => lex_compare (ascii_upper a) (ascii_upper b)
|}.
Next Obligation. done. Qed.
Next Obligation. intros c ?. cbn. unfold is_space. lia. Qed.
Next Obligation.
  intros s. unfold ascii_upper. rewrite map_map. apply map_ext. intros c.
  repeat case_match; lia.
Qed.
Next Obligation. intros [|c s]; cbn; split; done. Qed.
Next Obligation. done. Qed.
Next Obligation. intros s. apply lex_compare_refl. Qed.
Next Obligation. intros s t. apply lex_compare_sym. Qed.
Next Obligation. intros s t u. apply lex_compare_trans. Qed.

(** A stand-in for OpenSSL: counters for random bytes, padding for hashes. *)
Definition pad (n : nat) (s : bytes) : bytes :=
  take n (map (fun b => b mod 256) s ++ replicate n 0).
Fixpoint unhex (s : bytes) : bytes :=
  match s with
  | a :: b :: s =>
      let digit c := if c <? 58 then c - 48 else c - 87 in
      digit a * 16 + digit b :: unhex s
  | _ => []
  end.

Lemma pad_length n s : List.length (pad n s) = n.
Proof. unfold pad. rewrite length_take, length_app, length_replicate. lia. Qed.
Lemma pad_bytes n s : Forall is_byte (pad n s).
Proof.
  apply Forall_take, Forall_app. split.
  - apply Forall_map, Forall_true. intros x. unfold is_byte. apply Z.mod_pos_bound. lia.
  - apply Forall_replicate. unfold is_byte. lia.
Qed.

#[export] Program Instance toy_openssl : OpenSSL := {|
  RAND_bytes := fun i n => if n <=? 0 then None
                           else Some (pad (Z.to_nat n) [Z.of_nat i]);
  CRYPTO_memcmp := fun a b => if bool_decide (a = b) then 0 else 1;
  PKCS5_PBKDF2_HMAC := fun p s _ n =>
    if n <=? 0 then None else Some (pad (Z.to_nat n) (p ++ s));
  sha256 := fun d => pad 32 d;
  gcm_encrypt := fun _ _ p => Some (p, replicate 16 0);
  gcm_decrypt := fun _ _ c t => if bool_decide (t = replicate 16 0) then Some c else None;
  from_hex := unhex
|}.
Next Obligation.
  intros i n b. cbn. destruct (Z.leb_spec n 0); [done|]. intros [= <-].
  split; [|apply pad_bytes]. unfold len. rewrite pad_length. lia.
Qed.
Next Obligation. intros a b _. cbn. case_bool_decide; split; intros; [done..|lia|done]. Qed.
Next Obligation.
  intros p s i n b. cbn. destruct (Z.leb_spec n 0); [done|]. intros [= <-].
  split; [|apply pad_bytes]. unfold len. rewrite pad_length. lia.
Qed.
Next Obligation. intros d. split; [|apply pad_bytes]. unfold len. by rewrite pad_length. Qed.
Next Obligation. intros k n p c t. cbn. intros [= <- <-]. done. Qed.

#[export] Instance toy_hex : HexLaw.
Proof.
  intros b. induction 1 as [|x b Hx _ IH]; [done|].
  cbn [to_hex List.map List.concat app]. cbn [from_hex toy_openssl unhex].
  fold (to_hex b). change (unhex (to_hex b)) with (from_hex (to_hex b)). rewrite IH. f_equal.
  unfold is_byte in Hx. pose proof (Z.div_mod x 16). pose proof (Z.mod_pos_bound x 16).
  assert (Hd : forall d, 0 <= d < 16 ->
    (if hex_digit d <? 58 then hex_digit d - 48 else hex_digit d - 87) = d).
  { intros d Hd. unfold hex_digit. destruct (Z.ltb_spec d 10); case_match; lia. }
  rewrite !Hd by lia. lia.
Qed.

#[export] Program Instance list_order : QHashOrder := {|
  hash_items := fun _ _ _ _ m => map_to_list m
|}.
Next Obligation. done. Qed.

Lemma encrypt_decrypt_witness :
  let out := Crypto.encrypt (lit "history") (replicate 32 9) (Crypto.mkPool true 0) in
  Crypto.decrypt out.1 (replicate 32 9) = lit "history" /\ len out.1 = 7 + 12 + 16.
Proof.
  apply (proj1 (Crypto.encrypt_decrypt (lit "history") (replicate 32 9) (Crypto.mkPool true 0))).
  vm_compute. discriminate.
Defined.

End Reference.
