(* ===== verification/Protocol.v ===== *)
(** * Protocol: src/src/protocol.cpp

    The constants of the wire format, the filter every string from the network
    passes, and the generators of names and tokens. *)
From S2P Require Import Prelude Crypto Reference.

Module Protocol.

Definition Version : qstring := lit "2.1".
Definition ApiPrefix : qstring := lit "/api/localsend/v2".
Definition MulticastAddress : qstring := lit "224.0.0.167".
Definition DefaultPort : Z := 53317.
Definition AcceptTimeoutMs : Z := 90 * 1000.
Definition PathInfo : qstring := lit "/info".
Definition PathRegister : qstring := lit "/register".
Definition PathPrepareUpload : qstring := lit "/prepare-upload".
Definition PathUpload : qstring := lit "/upload".
Definition PathCancel : qstring := lit "/cancel".
Definition PathLegacyInfo : qstring := lit "/api/localsend/v1/info".

Definition isKnownDeviceType (type : qstring) : bool :=
  qeq type (lit "mobile") || qeq type (lit "desktop") || qeq type (lit "web")
  || qeq type (lit "headless") || qeq type (lit "server").

(** The code units [sanitizeText] drops: controls, bidirectional overrides and
    isolates, zero-width characters, angle brackets. *)
Definition dropped (code : Z) : bool :=
  (code <? 32) || (code =? 127) || ((128 <=? code) && (code <=? 159))
  || ((8234 <=? code) && (code <=? 8238))
  || ((8294 <=? code) && (code <=? 8297))
  || (code =? 8203) || (code =? 8204) || (code =? 8205) || (code =? 65279)
  || (code =? 60) || (code =? 62).

Fixpoint sanitize_loop (text : qstring) (maxLength : Z) (clean : qstring) : qstring :=
  match text with
  | [] => clean
  | code :: text =>
      if len clean <? maxLength
      then sanitize_loop text maxLength (if dropped code then clean else clean ++ [code])
      else clean
  end.

Section Text.
Context `{QtText}.

Definition sanitizeText (text : qstring) (maxLength : Z) : qstring :=
  q_trimmed (sanitize_loop text maxLength []).

Definition safe (c : Z) : Prop := dropped c = false.

Lemma sanitize_loop_spec text max clean :
  sanitize_loop text max clean
  = clean ++ take (Z.to_nat (max - len clean)) (List.filter (fun c => negb (dropped c)) text).
Proof.
  revert clean. induction text as [|c text IH]; intros clean; cbn.
  { by rewrite take_nil, app_nil_r. }
  destruct (Z.ltb_spec (len clean) max) as [Hl|Hl]; last first.
  { replace (Z.to_nat _) with 0%nat by lia. by rewrite take_0, app_nil_r. }
  rewrite IH. destruct (dropped c); cbn [negb]; [done|].
  rewrite <- app_assoc. f_equal. len_simpl.
  replace (Z.to_nat (max - len clean)) with (S (Z.to_nat (max - (len clean + (1 + 0))))) by lia.
  done.
Qed.

Lemma filter_safe text : Forall safe (List.filter (fun c => negb (dropped c)) text).
Proof.
  apply List.Forall_forall. intros c [_ Hc]%List.filter_In. unfold safe. by destruct (dropped c).
Qed.
Lemma filter_all text :
  Forall safe text -> List.filter (fun c => negb (dropped c)) text = text.
Proof. induction 1 as [|c text Hc _ IH]; cbn; [done|]. by rewrite Hc, IH. Qed.

Lemma sanitize_take text max :
  sanitizeText text max
  = q_trimmed (take (Z.to_nat max) (List.filter (fun c => negb (dropped c)) text)).
Proof. unfold sanitizeText. rewrite sanitize_loop_spec. by rewrite Z.sub_0_r. Qed.

Lemma sanitize_safe text max : Forall safe (sanitizeText text max).
Proof.
  rewrite sanitize_take. eapply sublist_Forall; [apply trim_by_sublist|].
  apply Forall_take, filter_safe.
Qed.
Lemma sanitize_length text max : len (sanitizeText text max) <= Z.max 0 max.
Proof.
  rewrite sanitize_take. etrans; [apply sublist_len, trim_by_sublist|].
  unfold len. rewrite length_take. lia.
Qed.
Lemma sanitize_sublist text max : sanitizeText text max `sublist_of` text.
Proof.
  rewrite sanitize_take. etrans; [apply trim_by_sublist|].
  etrans; [apply sublist_take|apply filter_sublist].
Qed.
Lemma sanitize_id text max :
  Forall safe text -> len text <= max -> trimmed_by q_is_space text ->
  sanitizeText text max = text.
Proof.
  intros Hs Hl Ht. rewrite sanitize_take, (filter_all _ Hs), take_ge.
  - by apply trim_by_id.
  - unfold len in Hl. lia.
Qed.

(** Every string from the network that passes [sanitizeText] is made of
    printable, direction-neutral, markup-free code units, within the length
    cap and with no white space at its ends. Nothing is invented or reordered,
    text that was already of that form comes through untouched, and filtering
    twice changes nothing. *)
Theorem sanitizeText_spec text max :
  let s := sanitizeText text max in
  Forall safe s /\ len s <= Z.max 0 max /\ trimmed_by q_is_space s
  /\ s `sublist_of` text
  /\ (Forall safe text -> len text <= max -> trimmed_by q_is_space text -> s = text)
  /\ sanitizeText s max = s.
Proof.
  cbv zeta.
  assert (Ht : trimmed_by q_is_space (sanitizeText text max)) by apply trim_by_trimmed.
  split_and!.
  - apply sanitize_safe.
  - apply sanitize_length.
  - done.
  - apply sanitize_sublist.
  - apply sanitize_id.
  - destruct (Z.le_gt_cases 0 max).
    + apply sanitize_id; [apply sanitize_safe| |done].
      pose proof (sanitize_length text max). lia.
    + assert (sanitizeText text max = []) as ->.
      { apply nil_length_inv. pose proof (sanitize_length text max). unfold len in *. lia. }
      rewrite sanitize_take. cbn [List.filter]. by rewrite take_nil.
Qed.

End Text.

(** ** Generators *)
Section Generators.
Context `{OpenSSL} `{QtText}.
(** [QUuid::createUuid().toRfc4122()]: sixteen bytes. *)
Context (uuid : bytes).

Definition adjectives : list qstring := map lit
  ["Nice"; "Secret"; "Happy"; "Brave"; "Calm"; "Swift"; "Quiet"; "Bright";
   "Clever"; "Gentle"; "Jolly"; "Kind"; "Lucky"; "Merry"; "Noble"; "Proud";
   "Silent"; "Smooth"; "Sunny"; "Warm"; "Wise"; "Bold"; "Cosmic"; "Curious"]%string.
Definition nouns : list qstring := map lit
  ["Orange"; "Banana"; "Cherry"; "Lemon"; "Mango"; "Melon"; "Peach"; "Pear";
   "Plum"; "Apple"; "Grape"; "Kiwi"; "Papaya"; "Apricot"; "Coconut"; "Fig";
   "Lime"; "Olive"; "Walnut"; "Almond"; "Ginger"; "Pepper"; "Cocoa"; "Vanilla"]%string.

(** [adjectives[i]]; reading past a table is [None]. *)
Definition generateAlias (p : Crypto.Pool) : option qstring * Crypto.Pool :=
  let '(entropy, p) := Crypto.randomBytes 2 p in
  let entropy := if len entropy <? 2 then uuid else entropy in
  let alias :=
    b0 ← entropy !! 0%nat; b1 ← entropy !! 1%nat;
    a ← adjectives !! Z.to_nat (b0 mod len adjectives);
    n ← nouns !! Z.to_nat (b1 mod len nouns);
    Some (a ++ lit " " ++ n) in
  (alias, p).

Definition generateFingerprint (p : Crypto.Pool) : qstring * Crypto.Pool :=
  let '(s, p) := Crypto.randomHex 32 p in (q_upper s, p).

Definition generateToken (p : Crypto.Pool) : qstring * Crypto.Pool := Crypto.randomHex 24 p.

Lemma generateAlias_spec p :
  len uuid = 16 -> Forall is_byte uuid ->
  exists a n, a ∈ adjectives /\ n ∈ nouns /\ (generateAlias p).1 = Some (a ++ lit " " ++ n).
Proof.
  intros Hu Hub. unfold generateAlias.
  pose proof (Crypto.randomBytes_length 2 p) as Hr.
  destruct (Crypto.randomBytes 2 p) as [b p']. cbn [fst] in *.
  set (e := if len b <? 2 then uuid else b).
  assert (He : 2 <= len e).
  { subst e. destruct (Z.ltb_spec (len b) 2); lia. }
  destruct e as [|b0 [|b1 e]]; [by rewrite len_nil in He|len_simpl; lia|]. cbn [fst].
  cbn [lookup list_lookup mbind option_bind].
  assert (Hi : forall (l : list qstring) z, 0 < len l ->
    exists x, l !! Z.to_nat (z mod len l) = Some x).
  { intros l z Hl. apply lookup_lt_is_Some_2.
    pose proof (Z.mod_pos_bound z (len l) Hl). unfold len in *. lia. }
  destruct (Hi adjectives b0) as [a Ha]; [done|].
  destruct (Hi nouns b1) as [n Hn]; [done|].
  exists a, n. rewrite Ha, Hn. split_and!; [by eapply list_elem_of_lookup_2..|done].
Qed.

(** A token is either 48 lowercase hex digits, 192 bits from the CSPRNG,
    or the empty string when the CSPRNG failed; an alias always names a row of
    each table, so neither table is read out of range. *)
Theorem generators_spec p :
  let token := (generateToken p).1 in
  (token = [] \/ len token = 48 /\ Forall Crypto.is_lower_hex token)
  /\ (RAND_bytes (Crypto.draws p) 24 <> None -> len token = 48)
  /\ (len uuid = 16 -> Forall is_byte uuid ->
      exists a n, a ∈ adjectives /\ n ∈ nouns
                  /\ (generateAlias p).1 = Some (a ++ lit " " ++ n)).
Proof.
  cbv zeta. unfold generateToken, Crypto.randomHex. split_and!.
  - pose proof (Crypto.randomBytes_length 24 p) as Hr.
    destruct (Crypto.randomBytes 24 p) as [b p']. cbn in *.
    destruct Hr as [->|[Hl Hb]]; [by left|]. right.
    rewrite Crypto.to_hex_length. split; [lia|by apply Crypto.to_hex_range].
  - intros Hr. unfold Crypto.randomBytes. cbn [Z.leb Z.compare].
    destruct (RAND_bytes _ _) as [b|] eqn:E; [|done]. cbn.
    rewrite Crypto.to_hex_length. apply RAND_bytes_length in E as [-> _]. done.
  - apply generateAlias_spec.
Qed.
End Generators.

Import Reference.

Lemma generators_spec_witness :
  let p := Crypto.mkPool true 5 in
  len (generateToken p).1 = 48
  /\ exists a n, a ∈ adjectives /\ n ∈ nouns
       /\ (generateAlias (replicate 16 1) p).1 = Some (a ++ lit " " ++ n).
Proof.
  destruct (generators_spec (replicate 16 1) (Crypto.mkPool true 5)) as (_ & Ht & Ha).
  split.
  - apply Ht. vm_compute. discriminate.
  - apply Ha; [reflexivity|]. repeat constructor; vm_compute; congruence.
Defined.

Lemma sanitizeText_spec_witness :
  let s := sanitizeText [104; 8238; 103; 112; 106; 60; 46; 115; 104; 32; 7] 9 in
  s = lit "hgpj.sh" /\ sanitizeText s 9 = s.
Proof.
  split; [vm_compute; reflexivity|].
  apply (sanitizeText_spec [104; 8238; 103; 112; 106; 60; 46; 115; 104; 32; 7] 9).
Defined.

End Protocol.
