(* ===== verification/DeviceInfo.v ===== *)
(** * DeviceInfo: src/src/deviceinfo.cpp

    One device as the handshake payloads describe it. *)
From S2P Require Import Prelude QtArg Json Crypto Reference Protocol.

Module DeviceInfo.
Import QtArg.

Record DeviceInfo := mkDeviceInfo {
  alias : qstring;
  version : qstring;
  deviceModel : qstring;
  deviceType : qstring;
  fingerprint : qstring;
  port : Z;
  protocol : qstring;
  download : bool;
  address : qstring;
  lastSeen : option Z            (* QDateTime: milliseconds, None when invalid *)
}.
#[export] Instance eta_DeviceInfo : Settable DeviceInfo := fun r =>
  mkDeviceInfo (alias r) (version r) (deviceModel r) (deviceType r) (fingerprint r)
    (port r) (protocol r) (download r) (address r) (lastSeen r).
#[export] Instance DeviceInfo_eq_dec : EqDecision DeviceInfo.
Proof. solve_decision. Defined.

Definition DeviceInfo0 : DeviceInfo :=
  mkDeviceInfo [] [] [] [] [] Protocol.DefaultPort (lit "http") false [] None.

Definition isValid (d : DeviceInfo) : bool := negb (is_empty (fingerprint d)).

Definition apiBase (d : DeviceInfo) : qstring :=
  lit "%1://%2:%3%4"
  |>> arg (if is_empty (protocol d) then lit "http" else protocol d)
  |>> arg (address d)
  |>> arg (number (port d))
  |>> arg Protocol.ApiPrefix.

Definition basePayload (d : DeviceInfo) : jobject :=
  let object := [] in
  let object := jinsert (lit "alias") (JString (alias d)) object in
  let object := jinsert (lit "version") (JString (version d)) object in
  let object := jinsert (lit "deviceModel") (JString (deviceModel d)) object in
  let object := jinsert (lit "deviceType") (JString (deviceType d)) object in
  let object := jinsert (lit "fingerprint") (JString (fingerprint d)) object in
  jinsert (lit "download") (JBool (download d)) object.

Definition toRegisterBody (d : DeviceInfo) : jobject :=
  let object := basePayload d in
  let object := jinsert (lit "port") (JNum (double_of_Z (port d))) object in
  jinsert (lit "protocol") (JString (protocol d)) object.

Definition toAnnouncement (announcing : bool) (d : DeviceInfo) : jobject :=
  jinsert (lit "announce") (JBool announcing) (toRegisterBody d).

Definition toInfoResponse (d : DeviceInfo) : jobject := toRegisterBody d.

Section FromPayload.
Context `{QtText}.

Definition field (key : string) (max : Z) (object : jobject) : qstring :=
  Protocol.sanitizeText (jstring (jvalue (lit key) object)) max.

Definition fromPayload (object : jobject) : DeviceInfo :=
  let alias := field "alias" 64 object in
  let version := field "version" 16 object in
  let deviceModel := field "deviceModel" 64 object in
  let deviceType := field "deviceType" 16 object in
  let fingerprint := field "fingerprint" 128 object in
  let download := jbool_or false (jvalue (lit "download") object) in
  let port := jint_or Protocol.DefaultPort (jvalue (lit "port") object) in
  let protocol := jstring (jvalue (lit "protocol") object) in
  let protocol := if qeq protocol (lit "https") then protocol else lit "http" in
  let alias := if is_empty alias then lit "Unknown device" else alias in
  let deviceType := if is_empty deviceType then lit "desktop" else deviceType in
  mkDeviceInfo alias version deviceModel deviceType fingerprint port protocol download
    [] None.

(** Text a device may announce unchanged. *)
Definition clean (max : Z) (s : qstring) : Prop :=
  Forall Protocol.safe s /\ len s <= max /\ trimmed_by q_is_space s.

(** A description this application could have sent of itself. *)
Record announceable (d : DeviceInfo) : Prop := {
  ann_alias : clean 64 (alias d) /\ alias d <> [];
  ann_version : clean 16 (version d);
  ann_model : clean 64 (deviceModel d);
  ann_type : clean 16 (deviceType d) /\ deviceType d <> [];
  ann_fingerprint : clean 128 (fingerprint d);
  ann_port : - 2 ^ 31 <= port d < 2 ^ 31;
  ann_protocol : protocol d = lit "http" \/ protocol d = lit "https"
}.

(** Where nothing in it is a marker, [apiBase] is the text it looks like. *)
Lemma apiBase_plain d :
  unmarked (protocol d) -> unmarked (address d) -> 0 <= port d ->
  apiBase d = (if is_empty (protocol d) then lit "http" else protocol d)
              ++ lit "://" ++ address d ++ lit ":" ++ number (port d) ++ Protocol.ApiPrefix.
Proof.
  intros Hp Ha Hn%number_unmarked. unfold apiBase. set (scheme := if is_empty _ then _ else _).
  assert (Hs : unmarked scheme). { unfold scheme, unmarked. destruct (is_empty _); [|done]. by apply (bool_decide_unpack _). }
  assert (Hlit : unmarked (lit "://") /\ unmarked (lit ":")) by (split; apply (bool_decide_unpack _); vm_compute; done).
  destruct Hlit as [L1 L2]. transitivity (arg Protocol.ApiPrefix (arg (number (port d)) (arg (address d) (scheme ++ lit "://" ++ lit "%2:%3%4")))).
  { by repeat f_equal. }
  rewrite !arg_prefix by done.
  replace (arg (address d) (lit "%2:%3%4")) with (address d ++ lit ":" ++ lit "%3%4") by reflexivity.
  rewrite !arg_prefix by done. replace (arg (number (port d)) (lit "%3%4")) with (number (port d) ++ lit "%4") by reflexivity.
  rewrite !arg_prefix by done. by replace (arg Protocol.ApiPrefix (lit "%4")) with Protocol.ApiPrefix by reflexivity.
Qed.
Lemma clean_sanitize max s : clean max s -> Protocol.sanitizeText s max = s.
Proof. intros (?&?&?). by apply Protocol.sanitize_id. Qed.

Lemma sanitize_clean max s : 0 <= max -> clean max (Protocol.sanitizeText s max).
Proof.
  intros Hm. destruct (Protocol.sanitizeText_spec s max) as (?&?&?&_). split_and!; [done|lia|done].
Qed.

(** Fixed texts that start and end with a visible ASCII character. *)
Definition visible_ends (s : qstring) : bool :=
  match s, reverse s with
  | x :: _, y :: _ => (33 <=? x) && (x <=? 126) && (33 <=? y) && (y <=? 126)
  | _, _ => true
  end.
Lemma clean_lit max s :
  bool_decide (Forall Protocol.safe s) = true -> visible_ends s = true -> (len s <=? max) = true ->
  clean max s.
Proof.
  intros Hs%bool_decide_eq_true_1 Hv Hl%Z.leb_le. split_and!; [done|done|].
  unfold visible_ends in Hv. destruct s as [|x s]; [split; intros ?? E; [done|by destruct s']|].
  destruct (reverse (x :: s)) as [|y r] eqn:Er.
  { apply (f_equal List.length) in Er. by rewrite length_reverse in Er. }
  split; intros z s' E; apply q_is_space_graph.
  - simplify_eq. lia.
  - rewrite E, reverse_app in Er. cbn in Er. simplify_eq. lia.
Qed.

Lemma jint_or_range d j : - 2 ^ 31 <= d < 2 ^ 31 -> - 2 ^ 31 <= jint_or d j < 2 ^ 31.
Proof.
  intros Hd. unfold jint_or. destruct j; try done. destruct (double_trunc _); [|done].
  case_match eqn:E; [|done]. apply andb_true_iff in E as [[_ ?%Z.leb_le]%andb_true_iff ?%Z.ltb_lt].
  done.
Qed.

Lemma toRegisterBody_fields d k :
  jvalue (lit k) (toRegisterBody d)
  = if qeq (lit k) (lit "protocol") then JString (protocol d)
    else if qeq (lit k) (lit "port") then JNum (double_of_Z (port d))
    else if qeq (lit k) (lit "download") then JBool (download d)
    else if qeq (lit k) (lit "fingerprint") then JString (fingerprint d)
    else if qeq (lit k) (lit "deviceType") then JString (deviceType d)
    else if qeq (lit k) (lit "deviceModel") then JString (deviceModel d)
    else if qeq (lit k) (lit "version") then JString (version d)
    else if qeq (lit k) (lit "alias") then JString (alias d)
    else JNull.
Proof. unfold toRegisterBody, basePayload. by rewrite !jvalue_jinsert. Qed.

Lemma jint_of_Z d z : - 2 ^ 31 <= z < 2 ^ 31 -> jint_or d (JNum (double_of_Z z)) = z.
Proof.
  intros Hz. unfold jint_or, double_of_Z. rewrite (proj2 (Z.leb_le _ _)) by lia.
  cbn -[Z.pow]. rewrite Z.mul_1_r.
  by rewrite (proj2 (Z.leb_le _ _)), (proj2 (Z.ltb_lt _ _)) by lia.
Qed.

Lemma fromPayload_toRegisterBody d :
  announceable d ->
  fromPayload (toRegisterBody d) = d <| address := [] |> <| lastSeen := None |>.
Proof.
  intros [[Ha Ha0] Hv Hm [Ht Ht0] Hf Hp Hpr]. unfold fromPayload, field.
  rewrite !toRegisterBody_fields. lit_simpl.
  cbn [jstring jstring_or jbool_or]. rewrite !clean_sanitize by done.
  rewrite jint_of_Z by done. rewrite (proj2 (is_empty_false _) Ha0), (proj2 (is_empty_false _) Ht0).
  destruct d. cbn in *. f_equal. by destruct Hpr as [->| ->].
Qed.

Lemma fromPayload_announceable object : announceable (fromPayload object).
Proof.
  unfold fromPayload, field.
  pose proof (fun k m Hm => sanitize_clean m (jstring (jvalue (lit k) object)) Hm) as Hc.
  split; cbn [alias version deviceModel deviceType fingerprint port protocol]; try (apply Hc; lia).
  - case_match eqn:E; [split; [by apply clean_lit|done]|].
    split; [apply Hc; lia|by apply is_empty_false in E].
  - case_match eqn:E; [split; [by apply clean_lit|done]|].
    split; [apply Hc; lia|by apply is_empty_false in E].
  - apply jint_or_range. unfold Protocol.DefaultPort. lia.
  - case_match eqn:E; [right|by left]. by apply qeq_spec in E.
Qed.

(** What a peer that runs this program makes of a device: each text filtered and
    cut to its cap, a name and a type in place of none, one of two protocols,
    and none of the local bookkeeping. *)
Definition or_else (default text : qstring) : qstring := if is_empty text then default else text.
Definition as_received (d : DeviceInfo) : DeviceInfo :=
  mkDeviceInfo
    (or_else (lit "Unknown device") (Protocol.sanitizeText (alias d) 64))
    (Protocol.sanitizeText (version d) 16)
    (Protocol.sanitizeText (deviceModel d) 64)
    (or_else (lit "desktop") (Protocol.sanitizeText (deviceType d) 16))
    (Protocol.sanitizeText (fingerprint d) 128)
    (port d)
    (if decide (protocol d = lit "https") then lit "https" else lit "http")
    (download d) [] None.

Lemma fromPayload_received d :
  - 2 ^ 31 <= port d < 2 ^ 31 -> fromPayload (toRegisterBody d) = as_received d.
Proof.
  intros Hp. unfold fromPayload, field, as_received, or_else. rewrite !toRegisterBody_fields. lit_simpl.
  cbn [jstring jstring_or jbool_or]. rewrite jint_of_Z by done. f_equal.
  unfold qeq. case_bool_decide as Hs; case_decide; congruence.
Qed.
Lemma received_announceable d :
  - 2 ^ 31 <= port d < 2 ^ 31 -> announceable (as_received d).
Proof. intros Hp. rewrite <- fromPayload_received by done. apply fromPayload_announceable. Qed.

(** C32: the handshake payloads round-trip. Whatever the device is called, its
    [/register] body, its [/info] answer and its multicast announcement are all
    read back by [fromPayload] as the same description: the device with its
    texts filtered and cut to their caps (64 units of its alias), a default for
    an empty name or type, its port, its protocol if that is one of the two
    spoken, and without the two local fields that never travel. It is read back
    unchanged exactly when its texts already are within their caps, trimmed and
    free of the dropped characters, and not empty where a default would stand
    in; which is so of every description that itself was read from a payload, so
    nothing more is lost when it is passed on. (The [/info] answer, too, carries
    the port and the protocol.) *)
Theorem payload_roundtrip d b :
  - 2 ^ 31 <= port d < 2 ^ 31 ->
  fromPayload (toRegisterBody d) = as_received d
  /\ fromPayload (toInfoResponse d) = as_received d
  /\ fromPayload (toAnnouncement b d) = as_received d
  /\ jvalue (lit "announce") (toAnnouncement b d) = JBool b
  /\ (as_received d = d <| address := [] |> <| lastSeen := None |> <-> announceable d)
  /\ (forall object, fromPayload (toRegisterBody (fromPayload object)) = fromPayload object).
Proof.
  intros Hp. pose proof (fromPayload_received d Hp) as Hr. split; [done|]. split; [done|]. split_and!.
  - rewrite <- Hr. unfold fromPayload, field, toAnnouncement. rewrite !jvalue_jinsert. by lit_simpl.
  - unfold toAnnouncement. by rewrite jvalue_jinsert, qeq_refl.
  - split; [|intros Hd; by rewrite <- Hr, fromPayload_toRegisterBody].
    intros He. pose proof (received_announceable d Hp) as [? ? ? ? ? ? ?]. rewrite He in *. by split.
  - intros object. by rewrite fromPayload_toRegisterBody by apply fromPayload_announceable.
Qed.

(** C33: whatever object a peer sends, the description made of it is fit to be
    shown and stored: every text field is within its cap and free of the
    dropped characters, the alias and type are never empty, the transport is
    one of the two the program speaks, the port is an [int]. *)
Theorem fromPayload_sanitised object :
  let d := fromPayload object in
  clean 64 (alias d) /\ clean 16 (version d) /\ clean 64 (deviceModel d)
  /\ clean 16 (deviceType d) /\ clean 128 (fingerprint d)
  /\ alias d <> [] /\ deviceType d <> []
  /\ (protocol d = lit "http" \/ protocol d = lit "https")
  /\ - 2 ^ 31 <= port d < 2 ^ 31
  /\ address d = [] /\ lastSeen d = None.
Proof.
  cbv zeta. destruct (fromPayload_announceable object) as [[? ?] ? ? [? ?] ? ? ?]. by repeat (split; [done|]).
Qed.

End FromPayload.

Import Reference.

Definition sample : DeviceInfo :=
  mkDeviceInfo (lit "Nice Orange") (lit "2.1") (lit "Xperia 10 III") (lit "mobile")
    (lit "AB12") 53317 (lit "https") false (lit "192.168.1.5") (Some 7).

(** A name too long for the others, and a type none of them shows. *)
Definition long_named : DeviceInfo :=
  sample <| alias := replicate 70 97 |> <| deviceType := [8238; 32] |>.
Lemma payload_roundtrip_witness :
  fromPayload (toAnnouncement true sample) = sample <| address := [] |> <| lastSeen := None |>
  /\ alias (fromPayload (toInfoResponse long_named)) = replicate 64 97
  /\ deviceType (fromPayload (toInfoResponse long_named)) = lit "desktop".
Proof.
  destruct (payload_roundtrip sample true) as (_ & _ & Ha & _ & Hsame & _); [done|].
  destruct (payload_roundtrip long_named true) as (_ & Hi & _); [done|].
  rewrite Ha, Hi. split; [|split; vm_compute; reflexivity].
  apply Hsame. constructor.
  - split; [by apply clean_lit|done].
  - by apply clean_lit.
  - by apply clean_lit.
  - split; [by apply clean_lit|done].
  - by apply clean_lit.
  - cbn; lia.
  - by right.
Defined.

Lemma fromPayload_sanitised_witness :
  let d := fromPayload [(lit "alias", JString [8238; 32]); (lit "port", JNum (DFin 1 40))] in
  alias d = lit "Unknown device" /\ port d = 53317 /\ clean 64 (alias d).
Proof.
  split_and!; [vm_compute; reflexivity|vm_compute; reflexivity|].
  apply (fromPayload_sanitised [(lit "alias", JString [8238; 32]); (lit "port", JNum (DFin 1 40))]).
Defined.

(** deviceinfo.h promises that the [/info] and [/register] answers leave the
    transport details out; [toInfoResponse] carries them. *)
Lemma infoResponse_carries_transport d :
  jvalue (lit "port") (toInfoResponse d) = JNum (double_of_Z (port d))
  /\ jvalue (lit "protocol") (toInfoResponse d) = JString (protocol d).
Proof. unfold toInfoResponse. rewrite !toRegisterBody_fields. by lit_simpl. Qed.

End DeviceInfo.
