(* ===== verification/SecureStore.v ===== *)
(** * SecureStore: src/src/securestore.cpp, securestore.h

    The files of the application, sealed with a key that the Sailfish keystore
    holds. The file system and the keystore daemon are parameters; [files] is
    what the disk holds. [Storage] is what the other components rely on. *)
From S2P Require Import Prelude Crypto Reference.

(** ** The promise made to the other components

    [st_plain d] are the contents a component may hand over: a store may treat
    some byte strings specially (here: those that look sealed). *)
Class Storage (S : Type) := {
  st_read : qstring -> S -> bytes;
  st_write : qstring -> bytes -> S -> bool * S;
  st_plain : bytes -> Prop;
  st_read_back p d s :
    st_plain d -> (st_write p d s).1 = true -> st_read p (st_write p d s).2 = d;
  st_failed p d s : (st_write p d s).1 = false -> forall q, st_read q (st_write p d s).2 = st_read q s;
  st_other p q d s : q <> p -> st_read q (st_write p d s).2 = st_read q s;
  (* a document, which starts with a bracket, is plain *)
  st_plain_bracket c d : c = 123 \/ c = 91 -> st_plain (c :: d)
}.

(** How the steps of a [QSaveFile] can end. *)
Inductive SaveOutcome := OpenFailed | WriteShort | CommitFailed | Committed.
Class FileSystem := { save_outcome : nat -> qstring -> bytes -> SaveOutcome }.

(** The daemon, per request: the stored secret if it has one, and the error
    message of a failed store. *)
Class Keystore := {
  have_sailfish_secrets : bool;
  stored_secret : nat -> option bytes;
  store_secret : nat -> bytes -> option qstring
}.

Module SecureStore.
Section SecureStore.
Context `{OpenSSL, QtText, FileSystem, Keystore}.

Definition Magic : bytes := lit "LSENC1".

Inductive fs_event := Commit (path : qstring) | Chmod600 (path : qstring).

Record SecureStore := mkSecureStore {
  m_key : bytes; m_lastError : qstring; s_testKey : bytes;
  pool : Crypto.Pool;                 (* the CSPRNG *)
  requests : nat;                     (* keystore requests so far *)
  files : gmap qstring bytes;         (* the disk *)
  saves : nat;                        (* QSaveFile uses so far *)
  fs_log : list fs_event              (* newest first *)
}.
#[export] Instance eta_SecureStore : Settable SecureStore := fun r =>
  mkSecureStore (m_key r) (m_lastError r) (s_testKey r) (pool r) (requests r) (files r)
    (saves r) (fs_log r).

Definition isEncrypting (s : SecureStore) : bool := len (m_key s) =? Crypto.KeyBytes.

Definition setMasterKeyForTesting (key : bytes) (s : SecureStore) : SecureStore :=
  s <| s_testKey := key |> <| m_key := [] |>.

(** [read.result().code() == Succeeded && data().size() == KeyBytes] *)
Definition usable_secret (stored : option bytes) : option bytes :=
  match stored with
  | Some secret => if len secret =? Crypto.KeyBytes then Some secret else None
  | None => None
  end.
(** Both builds of [fetchKey]. *)
Definition fetchKey (s : SecureStore) : bool * SecureStore :=
  if negb have_sailfish_secrets
  then (false, s <| m_lastError := lit "no keystore in this build" |>)
  else
    let n := requests s in
    let s := s <| requests := (n + 2)%nat |> in     (* create, then read *)
    match usable_secret (stored_secret n) with
    | Some secret => (true, s <| m_key := secret |> <| m_lastError := [] |>)
    | None =>
        let '(fresh, p) := Crypto.randomBytes Crypto.KeyBytes (pool s) in
        let s := s <| pool := p |> in
        if is_empty fresh
        then (false, s <| m_lastError := lit "no secure random source" |>)
        else
          let failed := store_secret (requests s) fresh in
          let s := s <| requests ::= S |> in
          match failed with
          | Some message => (false, s <| m_lastError := message |>)
          | None => (true, s <| m_key := fresh |> <| m_lastError := [] |>)
          end
    end.

Definition open (s : SecureStore) : bool * SecureStore :=
  if isEncrypting s then (true, s)
  else if negb (is_empty (s_testKey s))
  then let s := s <| m_key := s_testKey s |> in (isEncrypting s, s)
  else let '(ok, s) := fetchKey s in if ok then (true, s) else (false, s).

Definition read (path : qstring) (s : SecureStore) : bytes :=
  match files s !! path with
  | None => []
  | Some contents =>
      if negb (starts_with Magic contents) then contents
      else if negb (isEncrypting s) then []
      else Crypto.decrypt (qmid (len Magic) contents) (m_key s)
  end.

(** [QSaveFile]: open, write, commit; the file changes at the commit only. *)
Definition save_file (path : qstring) (payload : bytes) (s : SecureStore) : bool * SecureStore :=
  let n := saves s in
  let s := s <| saves ::= S |> in
  match save_outcome n path payload with
  | OpenFailed | WriteShort | CommitFailed => (false, s)
  | Committed => (true, s <| files ::= <[path := payload]> |> <| fs_log ::= cons (Commit path) |>)
  end.
Definition write (path : qstring) (data : bytes) (s : SecureStore) : bool * SecureStore :=
  let '(payload, s) :=
    if isEncrypting s
    then let '(sealed, p) := Crypto.encrypt data (m_key s) (pool s) in
         let s := s <| pool := p |> in
         if is_empty sealed then (None, s) else (Some (Magic ++ sealed), s)
    else (Some data, s) in
  match payload with
  | None => (false, s)
  | Some payload =>
      let '(ok, s) := save_file path payload s in
      if ok then (true, s <| fs_log ::= cons (Chmod600 path) |>) else (false, s)
  end.

(** ** What a write leaves *)

Lemma magic_starts rest : starts_with Magic (Magic ++ rest) = true.
Proof. apply bool_decide_eq_true_2. by apply prefix_app_r. Qed.
Lemma magic_mid rest : qmid (len Magic) (Magic ++ rest) = rest.
Proof. reflexivity. Qed.

(** The three ways a write ends, for the disk and the key. *)
Lemma write_cases path data s :
  let '(ok, s') := write path data s in
  m_key s' = m_key s /\
  if ok
  then exists payload,
         files s' = <[path := payload]> (files s)
         /\ fs_log s' = Chmod600 path :: Commit path :: fs_log s
         /\ (if isEncrypting s
             then exists p, payload = Magic ++ (Crypto.encrypt data (m_key s) p).1
                            /\ (Crypto.encrypt data (m_key s) p).1 <> []
             else payload = data)
  else files s' = files s /\ fs_log s' = fs_log s.
Proof.
  unfold write. destruct (isEncrypting s) eqn:He.
  - destruct (Crypto.encrypt data (m_key s) (pool s)) as [sealed p] eqn:Ec.
    destruct (is_empty sealed) eqn:Em; [done|].
    unfold save_file. destruct (save_outcome _ _ _); try done. cbn. split; [done|].
    eexists. split_and!; [done..|]. exists (pool s). rewrite Ec. split; [done|].
    by apply is_empty_false.
  - unfold save_file. destruct (save_outcome _ _ _); try done. cbn. eauto 10.
Qed.

Lemma isEncrypting_key s s' : m_key s' = m_key s -> isEncrypting s' = isEncrypting s.
Proof. unfold isEncrypting. by intros ->. Qed.

(** Contents that [read] does not take for a sealed file. *)
Definition plain (d : bytes) : Prop := starts_with Magic d = false.
Lemma read_frame q s s' :
  m_key s' = m_key s -> files s' !! q = files s !! q -> read q s' = read q s.
Proof. intros Hk Hf. unfold read. by rewrite Hf, (isEncrypting_key s s' Hk), Hk. Qed.

Lemma read_write path data s :
  plain data \/ isEncrypting s = true ->
  (write path data s).1 = true -> read path (write path data s).2 = data.
Proof.
  intros Hp. pose proof (write_cases path data s) as Hw.
  destruct (write path data s) as [ok s']. cbn. intros ->.
  destruct Hw as (Hk & payload & Hf & _ & Hx). unfold read. rewrite Hf, lookup_insert_eq.
  rewrite (isEncrypting_key s s' Hk), Hk.
  destruct (isEncrypting s) eqn:He.
  - destruct Hx as (p & -> & Hn). rewrite magic_starts. cbn [negb].
    rewrite magic_mid. by apply Crypto.decrypt_encrypt.
  - subst. destruct Hp as [->|?]; [|done]. done.
Qed.
Lemma read_write_failed path data s q :
  (write path data s).1 = false -> read q (write path data s).2 = read q s.
Proof.
  pose proof (write_cases path data s) as Hw. destruct (write path data s) as [ok s']. cbn.
  intros ->. destruct Hw as (Hk & Hf & _). apply read_frame; [done|by rewrite Hf].
Qed.
Lemma read_write_other path data s q :
  q <> path -> read q (write path data s).2 = read q s.
Proof.
  intros Hq. pose proof (write_cases path data s) as Hw. destruct (write path data s) as [ok s']. cbn.
  destruct ok; [|destruct Hw as (Hk & Hf & _); by apply read_frame; [|rewrite Hf]].
  destruct Hw as (Hk & payload & Hf & _). apply read_frame; [done|].
  rewrite Hf. by rewrite lookup_insert_ne.
Qed.

#[export] Program Instance storage : Storage SecureStore := {|
  st_read := read; st_write := write; st_plain := plain
|}.
Next Obligation. intros. by apply read_write; [left|]. Qed.
Next Obligation. intros. by apply read_write_failed. Qed.
Next Obligation. intros. by apply read_write_other. Qed.
Next Obligation.
  intros c d Hc. apply bool_decide_eq_false_2. intros [k Hk]. cbn in Hk.
  injection Hk as ? ?. lia.
Qed.

(** ** The store as a map from paths to contents

    Writes as the components make them, with the map of those that reported
    success beside the store. *)
Definition run_write (sm : SecureStore * gmap qstring bytes) (w : qstring * bytes)
    : SecureStore * gmap qstring bytes :=
  let '(ok, s') := write w.1 w.2 sm.1 in
  (s', if ok then <[w.1 := w.2]> sm.2 else sm.2).

Lemma run_write_key sm w : isEncrypting (run_write sm w).1 = isEncrypting sm.1.
Proof.
  unfold run_write. pose proof (write_cases w.1 w.2 sm.1) as Hw.
  destruct (write _ _ _) as [ok s']. destruct Hw as [Hk _]. by apply isEncrypting_key.
Qed.
Lemma run_write_read sm w q :
  plain w.2 \/ isEncrypting sm.1 = true ->
  read q (run_write sm w).1
  = if snd (run_write sm w) !! q is Some d then
      (if decide (q = w.1) then (if (write w.1 w.2 sm.1).1 then d else read q sm.1) else read q sm.1)
    else read q sm.1.
Proof.
  intros Hp. unfold run_write. pose proof (read_write w.1 w.2 sm.1 Hp) as Hr.
  pose proof (read_write_failed w.1 w.2 sm.1 q) as Hf.
  pose proof (read_write_other w.1 w.2 sm.1 q) as Ho.
  destruct (write w.1 w.2 sm.1) as [[] s']; cbn in *.
  - destruct (decide (q = w.1)) as [->|Hne].
    + rewrite lookup_insert_eq. by apply Hr.
    + rewrite lookup_insert_ne, Ho by done. by case_match.
  - rewrite Hf by done. repeat case_match; done.
Qed.

(** C34: the store is a map. Over any sequence of writes, whether or not a key
    is in force and whichever of them fail, a file reads as the last contents
    whose write reported success, and as it was before if there are none: a
    failed write loses nothing, no write touches another file, and sealing is
    invisible to the components. *)
Theorem store_refines_map ws s q :
  Forall (fun w => plain w.2) ws \/ isEncrypting s = true ->
  let '(s', written) := foldl run_write (s, ∅) ws in
  read q s' = default (read q s) (written !! q).
Proof.
  intros Hp.
  assert (Hgen : forall ws sm, Forall (fun w => plain w.2) ws \/ isEncrypting sm.1 = true ->
    let sm' := foldl run_write sm ws in
    forall r, read q sm.1 = default r (sm.2 !! q) -> read q sm'.1 = default r (sm'.2 !! q)).
  { clear. induction ws as [|w ws IH]; intros sm Hp; cbn [foldl]; [done|]. cbv zeta in *.
    intros r Hr. apply IH.
    - rewrite run_write_key. destruct Hp as [Hp|]; [left; by inversion Hp|by right].
    - rewrite run_write_read by (destruct Hp as [Hp|]; [left; by inversion Hp|by right]).
      unfold run_write. destruct (write w.1 w.2 sm.1) as [[] s'] eqn:Ew; cbn.
      + destruct (decide (q = w.1)) as [->|Hne]; [by rewrite lookup_insert_eq|].
        rewrite lookup_insert_ne by done. rewrite Hr. by destruct (sm.2 !! q).
      + rewrite Hr. destruct (sm.2 !! q); cbn; [|done]. by case_decide. }
  specialize (Hgen ws (s, ∅) Hp (read q s)). cbn in Hgen.
  destruct (foldl run_write (s, ∅) ws) as [s' written]. apply Hgen. by rewrite lookup_empty.
Qed.

(** With a key in force nothing is written in the clear. A successful
    write leaves the magic and a sealed blob, then restricts the file to its
    owner; a copy of the disk opened without the key reads as empty. *)
Theorem sealed_at_rest path data s :
  isEncrypting s = true ->
  let '(ok, s') := write path data s in
  ok = true ->
  exists blob, files s' !! path = Some (Magic ++ blob)
    /\ len blob = len data + Crypto.NonceBytes + Crypto.TagBytes
    /\ fs_log s' = Chmod600 path :: Commit path :: fs_log s
    /\ (forall thief, files thief = files s' -> isEncrypting thief = false -> read path thief = []).
Proof.
  intros He. pose proof (write_cases path data s) as Hw.
  destruct (write path data s) as [ok s']. intros ->. rewrite He in Hw.
  destruct Hw as (Hk & payload & Hf & Hl & p & -> & Hn).
  eexists. rewrite Hf, lookup_insert_eq. split_and!; [done| |done|].
  - by apply Crypto.decrypt_encrypt.
  - intros thief Ht Hne. unfold read. rewrite Ht, lookup_insert_eq, magic_starts.
    cbn [negb]. by rewrite Hne.
Qed.

(** What moves an old install forward also voids the integrity that
    [knowndevices.cpp] claims for its file: whoever can replace a file by
    unsealed contents decides what the program reads, key or no key. *)
Theorem unsealed_is_trusted path contents s :
  plain contents ->
  read path (s <| files ::= <[path := contents]> |>) = contents.
Proof.
  intros Hp. unfold read. set (s' := s <| files ::= _ |>).
  assert (files s' !! path = Some contents) as -> by apply lookup_insert_eq. by rewrite Hp.
Qed.

(** [open] answers whether a key of the right size is in force, says why
    not otherwise, never touches a file, and once it has succeeded calling it
    again does nothing. *)
Theorem open_spec s :
  let '(ok, s') := open s in
  ok = isEncrypting s' /\ files s' = files s
  /\ (ok = true -> open s' = (true, s'))
  /\ (ok = false -> s_testKey s = [] -> have_sailfish_secrets = false ->
      m_lastError s' = lit "no keystore in this build").
Proof.
  assert (Hstable : forall s, isEncrypting s = true -> open s = (true, s)).
  { intros s0 He. unfold open. by rewrite He. }
  destruct (isEncrypting s) eqn:He; [rewrite Hstable by done; split_and!; auto; done|].
  destruct (open s) as [ok s'] eqn:Eo.
  assert (Hmain : ok = isEncrypting s' /\ files s' = files s
    /\ (ok = false -> s_testKey s = [] -> have_sailfish_secrets = false ->
        m_lastError s' = lit "no keystore in this build")).
  { revert Eo. unfold open. rewrite He. destruct (s_testKey s) as [|k ks] eqn:Et; cbn [is_empty negb].
    - unfold fetchKey. destruct have_sailfish_secrets eqn:Eh; cbn [negb]; [|by intros [= <- <-]].
      destruct (usable_secret _) as [secret|] eqn:Es.
      + intros [= <- <-]. split_and!; [|done..]. unfold isEncrypting, usable_secret in *. cbn.
        destruct (stored_secret _); [|done]. by case_match; simplify_eq.
      + change (pool (s <| requests := _ |>)) with (pool s).
        pose proof (Crypto.randomBytes_length Crypto.KeyBytes (pool s)) as Hn.
        destruct (Crypto.randomBytes Crypto.KeyBytes (pool s)) as [fresh p]. cbn in Hn. destruct (is_empty fresh) eqn:Ef; [by intros [= <- <-]|].
        destruct (store_secret _ _); intros [= <- <-]; [done|]. split_and!; [|done..].
        destruct Hn as [->|[Hn _]]; [done|]. symmetry. by apply Z.eqb_eq.
    - intros [= <- <-]. split_and!; [done..|]. intros _ [=]. }
  destruct Hmain as (-> & Hf & Hm). split_and!; auto.
Qed.
End SecureStore.
End SecureStore.

(** A disk whose fourth save fails, a keystore that holds a key. *)
Module ReferenceStore.
Import Reference SecureStore.
#[export] Instance disk : FileSystem := {|
  save_outcome := fun n _ _ => if decide (n = 3%nat) then WriteShort else Committed
|}.
#[export] Instance daemon : Keystore := {|
  have_sailfish_secrets := true;
  stored_secret := fun _ => Some (replicate 32 7);
  store_secret := fun _ _ => None
|}.
Definition fresh : SecureStore := mkSecureStore [] [] [] (Crypto.mkPool true 0) 0 ∅ 0 [].
Definition opened : SecureStore := (open fresh).2.

Lemma store_refines_map_witness :
  let ws := [(lit "a", lit "1"); (lit "b", lit "2"); (lit "a", lit "3"); (lit "b", lit "4")] in
  let s' := (foldl run_write (opened, ∅) ws).1 in
  read (lit "a") s' = lit "3" /\ read (lit "b") s' = lit "2".
Proof.
  set (ws := [(lit "a", lit "1"); (lit "b", lit "2"); (lit "a", lit "3"); (lit "b", lit "4")]).
  assert (He : isEncrypting opened = true) by (vm_compute; reflexivity).
  pose proof (store_refines_map ws opened (lit "a") (or_intror He)) as Ha.
  pose proof (store_refines_map ws opened (lit "b") (or_intror He)) as Hb.
  cbv zeta. destruct (foldl run_write (opened, ∅) ws) as [s' written] eqn:E.
  assert (Hw : written = (foldl run_write (opened, ∅) ws).2) by (by rewrite E).
  cbn [fst]. rewrite Ha, Hb, Hw. vm_compute. split; reflexivity.
Defined.
Lemma sealed_at_rest_witness :
  exists blob, files (write (lit "k") (lit "secret") opened).2 !! lit "k" = Some (Magic ++ blob).
Proof.
  pose proof (sealed_at_rest (lit "k") (lit "secret") opened) as Hw.
  assert (He : isEncrypting opened = true) by (vm_compute; reflexivity).
  assert (Hok : (write (lit "k") (lit "secret") opened).1 = true) by (vm_compute; reflexivity).
  specialize (Hw He). destruct (write (lit "k") (lit "secret") opened) as [ok s'].
  destruct (Hw Hok) as (blob & Hb & _). exists blob. exact Hb.
Defined.
Lemma unsealed_is_trusted_witness :
  read (lit "known-devices.json") (opened <| files ::= <[lit "known-devices.json" := lit "{}"]> |>)
  = lit "{}".
Proof. apply unsealed_is_trusted. vm_compute. reflexivity. Defined.
End ReferenceStore.
