(* ===== verification/Certificate.v ===== *)
(** * Certificate: src/src/certificate.cpp, certificate.h

    The device's identity: a key pair kept in the file store and its
    fingerprint. Key generation, X.509 assembly and PEM parsing are OpenSSL's
    and Qt's ([X509]); the file store is any [Storage]. *)
From S2P Require Import Prelude Crypto Reference SecureStore.

(** Files besides their contents: [QFile::exists], [QFile::remove],
    [QDir::mkpath], [QFile::setPermissions(owner)]. *)
Class StoredFiles (S : Type) `{Storage S} := {
  st_exists : qstring -> S -> bool;
  st_remove : qstring -> S -> S;
  st_mkpath : qstring -> S -> bool;
  st_exists_read p s : st_read p s <> [] -> st_exists p s = true;
  st_mkpath_write p q d s : st_mkpath p s = true -> st_mkpath p (st_write q d s).2 = true;
  st_mkpath_remove p q s : st_mkpath p s = true -> st_mkpath p (st_remove q s) = true
}.

(** The OpenSSL calls of [generate], in three groups: up to [X509_set_version];
    the signed certificate for a key, a serial and a validity; the key's PEM.
    [None] when any call of the group fails. Then Qt's PEM parsers: the DER
    form of a certificate, a key. *)
Class X509 := {
  ec_keygen : nat -> option bytes;
  self_signed : bytes -> Z -> bytes -> Z -> option bytes;
  key_pem : bytes -> option bytes;
  pem_certificate : bytes -> option bytes;
  pem_key : bytes -> option bytes
}.

Module Certificate.
Section Certificate.
Context `{OpenSSL, QtText, X509} {S : Type} `{StoredFiles S}.

Definition CertFileName : qstring := lit "identity-cert.pem".
Definition KeyFileName : qstring := lit "identity-key.pem".
Definition ValiditySeconds : Z := 60 * 60 * 24 * 365 * 10.
Definition SubjectCommonName : bytes := lit "LocalSend".

(** A null certificate or key is [None]. *)
Record Certificate := mkCertificate {
  m_certificate : option bytes;
  m_key : option bytes;
  m_fingerprint : qstring;
  m_lastError : qstring
}.
#[export] Instance eta_Certificate : Settable Certificate := fun r =>
  mkCertificate (m_certificate r) (m_key r) (m_fingerprint r) (m_lastError r).
Definition Certificate0 : Certificate := mkCertificate None None [] [].

Definition is_null {A} (x : option A) : bool := match x with None => true | Some _ => false end.
Definition isValid (c : Certificate) : bool :=
  negb (is_null (m_certificate c)) && negb (is_null (m_key c)) && negb (is_empty (m_fingerprint c)).
Definition certificate (c : Certificate) : option bytes := m_certificate c.
Definition privateKey (c : Certificate) : option bytes := m_key c.
Definition fingerprint (c : Certificate) : qstring := m_fingerprint c.
Definition lastError (c : Certificate) : qstring := m_lastError c.

Definition fingerprintOf (certificate : option bytes) : qstring :=
  match certificate with None => [] | Some der => Crypto.sha256Hex der end.

Definition writePrivate (path : qstring) (data : bytes) (s : S) : bool * S := st_write path data s.
Definition readAll (path : qstring) (s : S) : bytes := st_read path s.

(** The members once a pair has been taken. *)
Definition take_pair (cert key : option bytes) (c : Certificate) : Certificate :=
  c <| m_certificate := cert |> <| m_key := key |> <| m_fingerprint := fingerprintOf cert |>
    <| m_lastError := [] |>.

Definition load (certPath keyPath : qstring) (s : S) (c : Certificate) : bool * Certificate :=
  let certPem := readAll certPath s in
  let keyPem := readAll keyPath s in
  if is_empty certPem || is_empty keyPem
  then (false, c <| m_lastError := lit "stored identity is unreadable" |>)
  else
    let certificate := pem_certificate certPem in
    let key := pem_key keyPem in
    if is_null certificate || is_null key
    then (false, c <| m_lastError := lit "stored identity is not a usable key pair" |>)
    else (true, take_pair certificate key c).

(** [BN_bin2bn], then [BN_clear_bit] of the highest bit set. *)
Definition bin2bn (b : bytes) : Z := foldl (fun n x => n * 256 + x) 0 b.
Definition serial_of (b : bytes) : Z :=
  let n := bin2bn b in if n <=? 0 then n else Z.clearbit n (Z.log2 n).

(** [n] is the number of key generations so far. *)
Definition generate (n : nat) (certPath keyPath : qstring) (p : Crypto.Pool) (s : S) (c : Certificate)
    : bool * Crypto.Pool * S * Certificate :=
  let c := c <| m_lastError := lit "unknown failure" |> in
  match ec_keygen n with
  | None => (false, p, s, c)
  | Some pkey =>
      let '(serialBytes, p) := Crypto.randomBytes 16 p in
      if is_empty serialBytes
      then (false, p, s, c <| m_lastError := lit "no secure random source" |>)
      else
        match self_signed pkey (serial_of serialBytes) SubjectCommonName ValiditySeconds, key_pem pkey with
        | Some certPem, Some keyPem =>
            let certificate := pem_certificate certPem in
            let key := pem_key keyPem in
            if is_null certificate || is_null key
            then (false, p, s, c <| m_lastError := lit "Qt rejected the generated key pair" |>)
            else
              let '(ok, s) := writePrivate keyPath keyPem s in
              let '(ok, s) := if negb ok then (false, s) else writePrivate certPath certPem s in
              if negb ok
              then (false, p, s, c <| m_lastError := lit "cannot store the identity" |>)
              else (true, p, s, take_pair certificate key c)
        | _, _ => (false, p, s, c)
        end
  end.

Definition cert_path (directory : qstring) : qstring := directory ++ lit "/" ++ CertFileName.
Definition key_path (directory : qstring) : qstring := directory ++ lit "/" ++ KeyFileName.

Definition ensure (n : nat) (directory : qstring) (p : Crypto.Pool) (s : S) (c : Certificate)
    : bool * Crypto.Pool * S * Certificate :=
  if isValid c then (true, p, s, c)
  else if negb (st_mkpath directory s)
  then (false, p, s, c <| m_lastError := lit "cannot create " ++ directory |>)
  else
    let certPath := cert_path directory in
    let keyPath := key_path directory in
    if st_exists certPath s && st_exists keyPath s
    then
      let '(ok, c) := load certPath keyPath s c in
      if ok then (true, p, s, c)
      else generate n certPath keyPath p (st_remove keyPath (st_remove certPath s)) c
    else generate n certPath keyPath p s c.

(** ** One identity *)

(** The members agree: the fingerprint is that of the certificate held. *)
Definition agrees (c : Certificate) : Prop :=
  match m_certificate c, m_key c with
  | Some der, Some _ => m_fingerprint c = Crypto.sha256Hex der
  | None, None => m_fingerprint c = []
  | _, _ => False
  end.

Lemma take_pair_agrees cert key c :
  is_null cert || is_null key = false ->
  agrees (take_pair cert key c) /\ isValid (take_pair cert key c) = true.
Proof.
  destruct cert as [der|], key as [k|]; try done. intros _. split; [done|].
  unfold isValid. cbn. destruct (Crypto.sha256Hex der) eqn:E; [|done].
  pose proof (Crypto.sha256Hex_shape der) as [Hl _]. rewrite E in Hl. done.
Qed.
(** Taking a pair forgets what was there. *)
Lemma take_pair_fresh cert key c : take_pair cert key c = take_pair cert key Certificate0.
Proof. by destruct c. Qed.

Lemma paths_differ directory : cert_path directory <> key_path directory.
Proof. intros Heq. apply app_inv_head in Heq. discriminate Heq. Qed.

(** What a pair just written leaves for the next start. *)
Lemma load_written certPath keyPath certPem keyPem s c :
  certPath <> keyPath -> certPem <> [] -> keyPem <> [] ->
  is_null (pem_certificate certPem) || is_null (pem_key keyPem) = false ->
  st_read certPath s = certPem -> st_read keyPath s = keyPem ->
  load certPath keyPath s c = (true, take_pair (pem_certificate certPem) (pem_key keyPem) c)
  /\ st_exists certPath s && st_exists keyPath s = true.
Proof.
  intros Hne Hc Hk Hn Rc Rk. split.
  - unfold load, readAll. rewrite Rc, Rk.
    apply is_empty_false in Hc, Hk. rewrite Hc, Hk. cbn [orb]. by rewrite Hn.
  - by rewrite !st_exists_read by (rewrite ?Rc, ?Rk; done).
Qed.

(** How [generate] and [ensure] end. *)
Lemma generate_outcome n certPath keyPath p s c :
  let '(ok, _, _, c') := generate n certPath keyPath p s c in
  if ok then agrees c' /\ isValid c' = true
  else m_certificate c' = m_certificate c /\ m_key c' = m_key c /\ m_fingerprint c' = m_fingerprint c
       /\ m_lastError c' <> [].
Proof.
  unfold generate. destruct (ec_keygen n) as [pkey|]; [|by split_and!].
  destruct (Crypto.randomBytes 16 p) as [serialBytes p'].
  destruct (is_empty serialBytes); [by split_and!|].
  destruct (self_signed _ _ _ _) as [certPem|]; [|by split_and!].
  destruct (key_pem pkey) as [keyPem|]; [|by split_and!].
  destruct (is_null (pem_certificate certPem) || is_null (pem_key keyPem)) eqn:En; [by split_and!|].
  destruct (writePrivate keyPath keyPem s) as [[] s1]; cbn [negb]; [|by split_and!].
  destruct (writePrivate certPath certPem s1) as [[] s2]; cbn [negb]; [|by split_and!].
  by apply take_pair_agrees.
Qed.
Lemma load_outcome certPath keyPath s c :
  let '(ok, c') := load certPath keyPath s c in
  if ok then agrees c' /\ isValid c' = true
  else m_certificate c' = m_certificate c /\ m_key c' = m_key c /\ m_fingerprint c' = m_fingerprint c.
Proof.
  unfold load. destruct (_ || _); [done|]. destruct (is_null _ || is_null _) eqn:En; [done|].
  by apply take_pair_agrees.
Qed.
Lemma agrees_same c c' :
  m_certificate c' = m_certificate c -> m_key c' = m_key c -> m_fingerprint c' = m_fingerprint c ->
  agrees c' = agrees c /\ isValid c' = isValid c.
Proof. unfold agrees, isValid. by intros -> -> ->. Qed.
Lemma ensure_outcome n directory p s c :
  agrees c ->
  let '(ok, _, _, c') := ensure n directory p s c in
  agrees c' /\ (if ok then isValid c' = true else isValid c' = false /\ m_lastError c' <> []).
Proof.
  intros Ha. unfold ensure. destruct (isValid c) eqn:Hv; [done|].
  destruct (st_mkpath directory s); cbn [negb]; [|by split_and!].
  assert (Hgen : forall s0 c0, m_certificate c0 = m_certificate c -> m_key c0 = m_key c ->
    m_fingerprint c0 = m_fingerprint c ->
    let '(ok, _, _, c') := generate n (cert_path directory) (key_path directory) p s0 c0 in
    agrees c' /\ (if ok then isValid c' = true else isValid c' = false /\ m_lastError c' <> [])).
  { intros s0 c0 U1 U2 U3. pose proof (generate_outcome n (cert_path directory) (key_path directory) p s0 c0) as Hg.
    destruct (generate _ _ _ p s0 c0) as [[[[] ?] ?] c']; [done|]. destruct Hg as (E1 & E2 & E3 & E4).
    destruct (agrees_same c c') as [-> ->]; [congruence..|]. done. }
  destruct (st_exists _ s && st_exists _ s); [|by apply Hgen].
  pose proof (load_outcome (cert_path directory) (key_path directory) s c) as Hl.
  destruct (load _ _ s c) as [[] c1]; [done|]. destruct Hl as (E1 & E2 & E3). by apply Hgen.
Qed.

(** A PEM text is not empty, and no component of the store treats it
    specially. *)
Class PemPlain := {
  self_signed_plain k n cn v pem : self_signed k n cn v = Some pem -> pem <> [] /\ st_plain (S := S) pem;
  key_pem_plain k pem : key_pem k = Some pem -> pem <> [] /\ st_plain (S := S) pem
}.
Context `{!PemPlain}.

(** The state [ensure] leaves when it succeeds. *)
Definition established (directory : qstring) (s : S) (c : Certificate) : Prop :=
  st_mkpath directory s = true
  /\ st_exists (cert_path directory) s && st_exists (key_path directory) s = true
  /\ load (cert_path directory) (key_path directory) s Certificate0 = (true, c).

Lemma generate_establishes n directory p s c :
  st_mkpath directory s = true ->
  let '(ok, _, s', c') := generate n (cert_path directory) (key_path directory) p s c in
  if ok then agrees c' /\ isValid c' = true /\ established directory s' c'
  else m_certificate c' = m_certificate c /\ m_key c' = m_key c /\ m_fingerprint c' = m_fingerprint c
       /\ m_lastError c' <> [].
Proof.
  intros Hm. unfold generate. destruct (ec_keygen n) as [pkey|]; [|by split_and!].
  destruct (Crypto.randomBytes 16 p) as [serialBytes p'].
  destruct (is_empty serialBytes); [by split_and!|].
  destruct (self_signed _ _ _ _) as [certPem|] eqn:Ec; [|by split_and!].
  destruct (key_pem pkey) as [keyPem|] eqn:Ek; [|by split_and!].
  destruct (is_null (pem_certificate certPem) || is_null (pem_key keyPem)) eqn:En; [by split_and!|].
  destruct (self_signed_plain _ _ _ _ _ Ec) as [Hc1 Hc2]. destruct (key_pem_plain _ _ Ek) as [Hk1 Hk2].
  unfold writePrivate.
  pose proof (st_read_back (key_path directory) keyPem s Hk2) as Rk.
  pose proof (st_mkpath_write directory (key_path directory) keyPem s Hm) as Hm1.
  destruct (st_write (key_path directory) keyPem s) as [[] s1]; cbn [negb]; [|by split_and!].
  pose proof (st_read_back (cert_path directory) certPem s1 Hc2) as Rc.
  pose proof (st_other (cert_path directory) (key_path directory) certPem s1
    (not_eq_sym (paths_differ directory))) as Ro.
  pose proof (st_mkpath_write directory (cert_path directory) certPem s1 Hm1) as Hm2.
  destruct (st_write (cert_path directory) certPem s1) as [[] s2]; cbn [negb]; [|by split_and!].
  cbn in *. specialize (Rk eq_refl). specialize (Rc eq_refl). rewrite Rk in Ro.
  destruct (take_pair_agrees _ _ (c <| m_lastError := lit "unknown failure" |>) En) as [Ha Hv].
  split; [done|]. split; [done|]. rewrite take_pair_fresh.
  destruct (load_written (cert_path directory) (key_path directory) certPem keyPem s2 Certificate0
    (paths_differ directory) Hc1 Hk1 En Rc Ro) as [Hl He].
  by split_and!.
Qed.

(** A device keeps one identity. When [ensure] succeeds from scratch, the
    certificate and key it holds are a usable pair, the fingerprint announced
    is the hash of that very certificate, and the next start, finding the
    files, takes the same pair and writes nothing. When it fails it says why
    and holds no identity at all. *)
Theorem identity_persists n n' directory p p' s :
  let '(ok, _, s', c) := ensure n directory p s Certificate0 in
  agrees c
  /\ (ok = true -> isValid c = true /\ ensure n' directory p' s' Certificate0 = (true, p', s', c))
  /\ (ok = false -> isValid c = false /\ m_lastError c <> []).
Proof.
  assert (Hagain : forall s c, established directory s c ->
    ensure n' directory p' s Certificate0 = (true, p', s, c)).
  { intros s0 c (Hm & He & Hl). unfold ensure. cbn [isValid]. rewrite Hm, He, Hl. done. }
  unfold ensure at 1. change (isValid Certificate0) with false. cbv iota.
  destruct (st_mkpath directory s) eqn:Hm; cbn [negb]; [|by split_and!].
  assert (Hgen : forall s0 c0, st_mkpath directory s0 = true -> m_certificate c0 = None ->
    m_key c0 = None -> m_fingerprint c0 = [] ->
    let '(ok, _, s', c) := generate n (cert_path directory) (key_path directory) p s0 c0 in
    agrees c
    /\ (ok = true -> isValid c = true /\ ensure n' directory p' s' Certificate0 = (true, p', s', c))
    /\ (ok = false -> isValid c = false /\ m_lastError c <> [])).
  { intros s0 c0 Hm0 U1 U2 U3. pose proof (generate_establishes n directory p s0 c0 Hm0) as Hg.
    destruct (generate n _ _ p s0 c0) as [[[[] ?] s'] c].
    - destruct Hg as (Ha & Hv & Hes). split_and!; [done| |done]. intros _. split; [done|]. by apply Hagain.
    - destruct Hg as (E1 & E2 & E3 & E4). rewrite U1 in E1. rewrite U2 in E2. rewrite U3 in E3.
      unfold agrees, isValid. rewrite E1, E2, E3. by split_and!. }
  destruct (st_exists _ s && st_exists _ s) eqn:He; [|by apply Hgen].
  destruct (load (cert_path directory) (key_path directory) s Certificate0) as [[] c] eqn:Hl.
  - assert (Hv : agrees c /\ isValid c = true).
    { revert Hl. unfold load. destruct (_ || _); [done|].
      destruct (is_null _ || is_null _) eqn:En; [done|]. intros [= <-]. by apply take_pair_agrees. }
    destruct Hv as [Ha Hv]. split_and!; [done| |done]. intros _. split; [done|]. by apply Hagain.
  - assert (Hc : m_certificate c = None /\ m_key c = None /\ m_fingerprint c = []).
    { revert Hl. unfold load. destruct (_ || _); [by intros [= <-]|].
      destruct (is_null _ || is_null _); [by intros [= <-]|done]. }
    destruct Hc as (E1 & E2 & E3). apply Hgen; [by do 2 apply st_mkpath_remove|done..].
Qed.

End Certificate.
End Certificate.

(** A store that is a map, with a toy X.509: every byte string is a PEM of
    itself. *)
Module ReferenceCertificate.
Import Reference Certificate.

#[export] Program Instance map_files : Storage (gmap qstring bytes) := {|
  st_read := fun p s => default [] (s !! p);
  st_write := fun p d s => (true, <[p := d]> s);
  st_plain := fun _ => True
|}.
Next Obligation. intros p d s _ _. cbn. by rewrite lookup_insert_eq. Qed.
Next Obligation. done. Qed.
Next Obligation. intros p q d s Hq. cbn. by rewrite lookup_insert_ne. Qed.
Next Obligation. done. Qed.
#[export] Program Instance map_stored : StoredFiles (gmap qstring bytes) := {|
  st_exists := fun p s => bool_decide (is_Some (s !! p));
  st_remove := delete;
  st_mkpath := fun _ _ => true
|}.
Next Obligation. intros p s Hr. cbn in *. destruct (s !! p); [done|]. done. Qed.
Next Obligation. done. Qed.
Next Obligation. done. Qed.
#[export] Instance toy_x509 : X509 := {|
  ec_keygen := fun n => Some [Z.of_nat n];
  self_signed := fun k n cn v => Some (n :: k ++ cn);
  key_pem := fun k => Some (1 :: k);
  pem_certificate := Some;
  pem_key := Some
|}.
#[export] Instance toy_pem : PemPlain.
Proof. split; [intros ? ? ? ? pem [= <-]|intros k pem [= <-]]; done. Qed.

Definition home : qstring := lit "/home/app".
Lemma identity_persists_witness :
  let '(ok, _, s, c) := ensure 0 home (Crypto.mkPool true 0) ∅ Certificate0 in
  ok = true /\ ensure 7 home (Crypto.mkPool true 9) s Certificate0 = (true, Crypto.mkPool true 9, s, c).
Proof.
  pose proof (identity_persists 0 7 home (Crypto.mkPool true 0) (Crypto.mkPool true 9) ∅) as Hp.
  assert (Hok : (ensure 0 home (Crypto.mkPool true 0) ∅ Certificate0).1.1.1 = true) by (vm_compute; reflexivity).
  destruct (ensure 0 home (Crypto.mkPool true 0) ∅ Certificate0) as [[[ok p] s] c].
  cbn in Hok. subst ok. split; [reflexivity|]. exact (proj2 (proj1 (proj2 Hp) eq_refl)).
Defined.

End ReferenceCertificate.
