(* ===== verification/TlsClient.v ===== *)
(** * TlsClient: src/src/tlsclient.cpp, tlsclient.h

    What decides whether an outgoing request leaves: the certificate handed
    over in the handshake, and the handler a caller installed for the errors
    X.509 raises about it. Certificates are their DER form. *)
From S2P Require Import Prelude Crypto Reference SecureStore Certificate.

Module TlsClient.
Section TlsClient.
Context `{OpenSSL, QtText}.

(** The configuration of a request. *)
Inductive VerifyMode := VerifyNone | QueryPeer | VerifyPeer.
Record TlsConfig := mkTlsConfig {
  localCertificate : option bytes;
  privateKey : option bytes;
  peerVerifyMode : VerifyMode;
  tls12_or_later : bool
}.
Definition configure (certificate key : option bytes) : TlsConfig :=
  let '(c, k) := if negb (Certificate.is_null certificate) && negb (Certificate.is_null key)
                 then (certificate, key) else (None, None) in
  mkTlsConfig c k VerifyPeer true.

(** What a caller connects to [sslErrors]. *)
Inductive Policy := Unhandled | Pin (expectedFingerprint : qstring) | AcceptUnknown.

(** An error names the certificate it complains about, or none. *)
Definition presentedCertificate (configured : option bytes) (errors : list (option bytes)) : option bytes :=
  match configured with
  | Some c => Some c
  | None => foldr (fun e found => match e with Some c => Some c | None => found end) None errors
  end.

(** The handler of [pin]: whether it calls [ignoreSslErrors]. *)
Definition pin_ignores (expected : qstring) (configured : option bytes) (errors : list (option bytes)) : bool :=
  if is_empty expected then false
  else match presentedCertificate configured errors with
       | None => false
       | Some presented =>
           let observed := Certificate.fingerprintOf (Some presented) in
           if negb (Crypto.equalsFold observed expected) then false else true
       end.
Definition ignores (p : Policy) (configured : option bytes) (errors : list (option bytes)) : bool :=
  match p with
  | Unhandled => false
  | Pin expected => pin_ignores expected configured errors
  | AcceptUnknown => true
  end.
(** Under [VerifyPeer] the handshake goes on when there was no error, or the
    errors were ignored. *)
Definition handshake_proceeds (c : TlsConfig) (p : Policy) (configured : option bytes)
    (errors : list (option bytes)) : bool :=
  match peerVerifyMode c with
  | VerifyPeer => is_empty errors || ignores p configured errors
  | _ => true
  end.

(** A plain exchange presents none. *)
Definition observedFingerprint (presented : option bytes) : qstring := Certificate.fingerprintOf presented.

(** ** The decision *)

Lemma presented_errors c errors :
  presentedCertificate None errors = Some c <-> exists before after,
    errors = before ++ Some c :: after /\ Forall (fun e => e = None) before.
Proof.
  cbn. induction errors as [|[e|] errors IH]; cbn.
  - split; [done|]. intros (b & a & Hb & _). by destruct b.
  - split.
    + intros [= ->]. exists [], errors. done.
    + intros ([|x b] & a & Hb & Hf); [by injection Hb as -> _|].
      injection Hb as <- _. by inversion Hf.
  - rewrite IH. split.
    + intros (b & a & -> & Hf). exists (None :: b), a. split; [done|]. by constructor.
    + intros ([|x b] & a & Hb & Hf); [done|]. injection Hb as <- ->. inversion Hf; subst. eauto.
Qed.

(** C27: the pin decides. A peer whose certificate X.509 objects to - every
    self-signed one - is talked to exactly when it presented a certificate
    whose hash is, up to letter case, the fingerprint expected; an empty
    expectation refuses everything. Only a chain the platform itself accepts
    goes past the pin: no error is raised, so the handler is never asked. *)
Theorem pin_decides certificate key expected configured errors :
  let proceeds := handshake_proceeds (configure certificate key) (Pin expected) configured errors in
  (errors <> [] ->
     proceeds = true <->
     expected <> []
     /\ exists presented, presentedCertificate configured errors = Some presented
          /\ Crypto.equalsFold (Crypto.sha256Hex presented) expected = true)
  /\ (errors = [] -> proceeds = true).
Proof.
  cbv zeta. unfold handshake_proceeds, configure.
  destruct (_ && _); cbn [peerVerifyMode ignores].
  all: split; [intros Hne; rewrite (proj2 (is_empty_false errors) Hne); cbn [orb]|by intros ->].
  all: unfold pin_ignores; destruct (is_empty expected) eqn:Ee;
    [apply is_empty_spec in Ee; split; [done|by intros [? _]]|apply is_empty_false in Ee].
  all: destruct (presentedCertificate configured errors) as [c|];
    [|split; [done|by intros (_ & ? & [=] & _)]].
  all: cbn [Certificate.fingerprintOf]; destruct (Crypto.equalsFold _ _) eqn:Ef; cbn [negb].
  all: split; try done.
  all: try (intros _; by eauto).
  all: intros (_ & c' & [= <-] & Hc); congruence.
Qed.

End TlsClient.
End TlsClient.

Module ReferenceTls.
Import Reference TlsClient.
Lemma pin_decides_witness :
  handshake_proceeds (configure (Some [1]) (Some [2])) (Pin (Crypto.sha256Hex [7])) (Some [7]) [None] = true
  /\ handshake_proceeds (configure (Some [1]) (Some [2])) (Pin (Crypto.sha256Hex [7])) (Some [8]) [None] = false.
Proof.
  split; [|vm_compute; reflexivity].
  destruct (pin_decides (Some [1]) (Some [2]) (Crypto.sha256Hex [7]) (Some [7]) [None]) as [Hp _].
  destruct (Hp ltac:(discriminate)) as [_ Hb]. apply Hb.
  split; [vm_compute; discriminate|]. exists [7]. split; [reflexivity|vm_compute; reflexivity].
Defined.
End ReferenceTls.
