(* ===== verification/KnownDevices.v ===== *)
(** * KnownDevices: src/src/knowndevices.cpp, knowndevices.h

    Trust on first use: which key has worn which name, and which keys are
    blocked. The operations thread the catalogue and the store it is saved to;
    [t] is the current date in milliseconds. *)
From S2P Require Import Prelude Json Crypto Reference SecureStore.

(** [QStandardPaths::writableLocation(AppDataLocation)] *)
Class AppPaths := { app_data : qstring }.

Module KnownDevices.

Record Entry := mkEntry {
  alias : qstring; firstSeen : option Z; paired : bool; blocked_flag : bool
}.
#[export] Instance eta_Entry : Settable Entry := fun r =>
  mkEntry (alias r) (firstSeen r) (paired r) (blocked_flag r).
Definition Entry0 : Entry := mkEntry [] None false false.

Section KnownDevices.
Context `{OpenSSL, QtText, QHashOrder, Platform, JsonText, AppPaths} {S : Type} `{Storage S}.

Abbreviation entries := (gmap (list Z) Entry) (only parsing).
(** The catalogue and the store; [changed] counts the signal. *)
Record KnownDevices := mkKnownDevices { m_entries : entries; store : S; changed : nat }.
#[export] Instance eta_KnownDevices : Settable KnownDevices := fun r =>
  mkKnownDevices (m_entries r) (store r) (changed r).

Definition storagePath : qstring := app_data ++ lit "/known-devices.json".

(** ** The file *)

Definition load_entry (value : jobject) : Entry :=
  let blocked := jbool_or false (jvalue (lit "blocked") value) in
  mkEntry (jstring (jvalue (lit "alias") value))
    (Some (qint64_of (jdouble (jvalue (lit "firstSeen") value))))
    (jbool_or (negb blocked) (jvalue (lit "paired") value))
    blocked.
Definition load_entries (root : jobject) (m : entries) : entries :=
  foldl (fun m fingerprint => <[q_upper fingerprint := load_entry (jobj (jvalue fingerprint root))]> m)
    m (jkeys root).
Definition load (kd : KnownDevices) : KnownDevices :=
  match from_json (st_read storagePath (store kd)) with
  | Some (JObject root) => kd <| m_entries ::= load_entries root |>
  | _ => kd
  end.
(** The constructor, at start-up. *)
Definition KnownDevices0 (s : S) : KnownDevices := load (mkKnownDevices ∅ s 0).

(** [toMSecsSinceEpoch()] of a date the catalogue holds. *)
Definition msecs (d : option Z) : Z := default 0 d.
Definition save_entry (e : Entry) : jobject :=
  []
  |>> jinsert (lit "alias") (JString (alias e))
  |>> jinsert (lit "firstSeen") (JNum (double_of_Z (msecs (firstSeen e))))
  |>> jinsert (lit "paired") (JBool (paired e))
  |>> jinsert (lit "blocked") (JBool (blocked_flag e)).
Definition save_root (m : entries) : jobject :=
  foldl (fun root ke => jinsert ke.1 (JObject (save_entry ke.2)) root) [] (hash_items m).
(** The result of the write is not looked at. *)
Definition save (kd : KnownDevices) : KnownDevices :=
  kd <| store ::= fun s => (st_write storagePath (to_json (JObject (save_root (m_entries kd)))) s).2 |>.
Definition save_and_emit (kd : KnownDevices) : KnownDevices :=
  save kd <| changed ::= Datatypes.S |>.

(** ** Questions *)

(** [m_entries.value(key)] *)
Definition value (key : qstring) (kd : KnownDevices) : Entry := default Entry0 (m_entries kd !! key).
Definition isBlocked (fingerprint : qstring) (kd : KnownDevices) : bool :=
  if is_empty fingerprint then false else blocked_flag (value (q_upper fingerprint) kd).
Definition isKnown (fingerprint : qstring) (kd : KnownDevices) : bool :=
  negb (is_empty fingerprint) && paired (value (q_upper fingerprint) kd).
Definition aliasFor (fingerprint : qstring) (kd : KnownDevices) : qstring :=
  alias (value (q_upper fingerprint) kd).
Definition firstSeenOf (fingerprint : qstring) (kd : KnownDevices) : option Z :=
  firstSeen (value (q_upper fingerprint) kd).

(** The list for the page: fingerprint and alias of each blocked entry. *)
Definition blocked (kd : KnownDevices) : list (qstring * qstring) :=
  foldl (fun list ke => if negb (blocked_flag ke.2) then list else list ++ [(ke.1, alias ke.2)])
    [] (hash_items (m_entries kd)).

(** The first entry, in hash order, that was paired under [name]. *)
Definition wears (name : qstring) (e : Entry) : bool := paired e && qeq (alias e) name.
Fixpoint find_wearer (name : qstring) (items : list (qstring * Entry)) : qstring :=
  match items with
  | [] => []
  | (key, e) :: items => if wears name e then key else find_wearer name items
  end.
Definition expectedFingerprint (name : qstring) (kd : KnownDevices) : qstring :=
  if is_empty name then [] else find_wearer name (hash_items (m_entries kd)).
Definition conflicts (fingerprint name : qstring) (kd : KnownDevices) : bool :=
  if is_empty fingerprint || is_empty name then false
  else if isKnown fingerprint kd then false
  else
    let expected := expectedFingerprint name kd in
    negb (is_empty expected) && negb (Crypto.equalsFold expected fingerprint).
Definition count (kd : KnownDevices) : Z :=
  foldl (fun total ke => if paired ke.2 then total + 1 else total) 0 (hash_items (m_entries kd)).

(** ** Changes *)

Definition setBlocked (t : Z) (fingerprint name : qstring) (block : bool) (kd : KnownDevices)
    : KnownDevices :=
  if is_empty fingerprint then kd
  else
    let key := q_upper fingerprint in
    match m_entries kd !! key with
    | None =>
        if negb block then kd
        else kd <| m_entries ::= <[key := mkEntry name (Some t) false true]> |> |>> save_and_emit
    | Some e =>
        if Bool.eqb (blocked_flag e) block then kd
        else
          let e := e <| blocked_flag := block |> in
          let e := if negb (is_empty name) then e <| alias := name |> else e in
          kd <| m_entries ::= <[key := e]> |> |>> save_and_emit
    end.
Definition remember (t : Z) (fingerprint name : qstring) (kd : KnownDevices) : KnownDevices :=
  if is_empty fingerprint then kd
  else
    let key := q_upper fingerprint in
    match m_entries kd !! key with
    | Some e =>
        if paired e && qeq (alias e) name then kd
        else kd <| m_entries ::= <[key := e <| alias := name |> <| paired := true |> ]> |>
             |>> save_and_emit
    | None =>
        kd <| m_entries ::= <[key := mkEntry name (Some t) true false]> |> |>> save_and_emit
    end.
Definition forget (t : Z) (fingerprint : qstring) (kd : KnownDevices) : KnownDevices :=
  let key := q_upper fingerprint in
  match m_entries kd !! key with
  | None => kd
  | Some e =>
      (if blocked_flag e
       then kd <| m_entries ::= <[key := e <| alias := [] |> <| paired := false |>
                                           <| firstSeen := Some t |> ]> |>
       else kd <| m_entries ::= delete key |>)
      |>> save_and_emit
  end.
Definition kept_blocks (t : Z) (m : entries) : entries :=
  foldl (fun kept ke => if negb (blocked_flag ke.2) then kept
                        else <[ke.1 := mkEntry [] (Some t) false true]> kept) ∅ (hash_items m).
Definition forgetAll (t : Z) (kd : KnownDevices) : KnownDevices :=
  if bool_decide (m_entries kd = ∅) then kd
  else
    let kept := kept_blocks t (m_entries kd) in
    let changedAnything :=
      negb (Nat.eqb (size kept) (size (m_entries kd)))
      || existsb (fun ke => paired ke.2) (hash_items (m_entries kd)) in
    if negb changedAnything then kd
    else kd <| m_entries := kept |> |>> save_and_emit.

(** The calls of the services and the pages. *)
Inductive op :=
| OpSetBlocked (t : Z) (fingerprint name : qstring) (block : bool)
| OpRemember (t : Z) (fingerprint name : qstring)
| OpForget (t : Z) (fingerprint : qstring)
| OpForgetAll (t : Z).
Definition run_op (kd : KnownDevices) (o : op) : KnownDevices :=
  match o with
  | OpSetBlocked t f n b => setBlocked t f n b kd
  | OpRemember t f n => remember t f n kd
  | OpForget t f => forget t f kd
  | OpForgetAll t => forgetAll t kd
  end.

(** ** Facts about the pieces *)

Lemma kept_blocks_lookup (t : Z) (m : entries) k :
  kept_blocks t m !! k
  = match m !! k with
    | Some e => if blocked_flag e then Some (mkEntry [] (Some t) false true) else None
    | None => None
    end.
Proof.
  unfold kept_blocks.
  rewrite <- (hash_items_map m) at 2.
  transitivity (foldl (fun acc ka =>
      match (if blocked_flag ka.2 then Some (mkEntry [] (Some t) false true) else None) with
      | Some b => <[ka.1 := b]> acc
      | None => acc
      end) (∅ : entries) (hash_items m) !! k).
  { f_equal. generalize (∅ : entries). induction (hash_items m) as [|[k0 e0] l IH]; intros acc; cbn; [done|].
    rewrite IH. by destruct (blocked_flag e0). }
  etransitivity; [apply (foldl_insert_lookup
    (fun ka : qstring * Entry => if blocked_flag ka.2 then Some (mkEntry [] (Some t) false true) else None)
    (hash_items m)), hash_items_nodup|].
  rewrite lookup_empty. destruct (list_to_map (hash_items m) !! k); [|done]. cbn. by case_match.
Qed.

Lemma existsb_paired (m : entries) :
  existsb (fun ke => paired ke.2) (hash_items m) = false <->
  forall k e, m !! k = Some e -> paired e = false.
Proof.
  rewrite <- not_true_iff_false, existsb_exists. split.
  - intros Hn k e He. apply not_true_iff_false. intros Hp. apply Hn. exists (k, e).
    split; [by apply list_elem_of_In, hash_items_elem|done].
  - intros Hn ([k e] & Hin & Hp). cbn in Hp.
    apply list_elem_of_In, hash_items_elem in Hin. by rewrite (Hn _ _ Hin) in Hp.
Qed.

(** What each call makes of the entry of a key. *)
Definition entry_of (key : qstring) (kd : KnownDevices) : option Entry := m_entries kd !! key.
Definition blocked_at (key : qstring) (kd : KnownDevices) : bool :=
  match entry_of key kd with Some e => blocked_flag e | None => false end.
Definition paired_at (key : qstring) (kd : KnownDevices) : bool :=
  match entry_of key kd with Some e => paired e | None => false end.

Lemma isBlocked_at f kd :
  isBlocked f kd = negb (is_empty f) && blocked_at (q_upper f) kd.
Proof. unfold isBlocked, value, blocked_at, entry_of. destruct f; cbn; [done|]. by case_match. Qed.
Lemma isKnown_at f kd : isKnown f kd = negb (is_empty f) && paired_at (q_upper f) kd.
Proof. unfold isKnown, value, paired_at, entry_of. destruct f; cbn; [done|]. by case_match. Qed.

Lemma save_entries kd : m_entries (save_and_emit kd) = m_entries kd.
Proof. done. Qed.

(** The effect of every call on one key's two flags. *)
Definition flags (key : qstring) (kd : KnownDevices) : bool * bool :=
  (blocked_at key kd, paired_at key kd).
Definition flags_after (key : qstring) (o : op) (bp : bool * bool) : bool * bool :=
  match o with
  | OpSetBlocked _ f _ b =>
      if negb (is_empty f) && qeq key (q_upper f) then (b, bp.2) else bp
  | OpRemember _ f _ =>
      if negb (is_empty f) && qeq key (q_upper f) then (bp.1, true) else bp
  | OpForget _ f => if qeq key (q_upper f) then (bp.1, false) else bp
  | OpForgetAll _ => (bp.1, false)
  end.

Lemma flags_insert key key' e kd :
  flags key (save_and_emit (kd <| m_entries ::= <[key' := e]> |>))
  = if qeq key key' then (blocked_flag e, paired e) else flags key kd.
Proof.
  unfold flags, blocked_at, paired_at, entry_of. rewrite save_entries. cbn.
  destruct (qeq key key') eqn:E.
  - apply qeq_spec in E as ->. by rewrite lookup_insert_eq.
  - apply qeq_false in E. by rewrite lookup_insert_ne.
Qed.
Lemma flags_some key e kd : m_entries kd !! key = Some e -> flags key kd = (blocked_flag e, paired e).
Proof. unfold flags, blocked_at, paired_at, entry_of. by intros ->. Qed.
Lemma flags_none key kd : m_entries kd !! key = None -> flags key kd = (false, false).
Proof. unfold flags, blocked_at, paired_at, entry_of. by intros ->. Qed.

Ltac solve_flags :=
  rewrite ?flags_insert; cbn [negb andb is_empty];
  match goal with
  | |- context [qeq ?a ?b] =>
      let E := fresh "E" in
      destruct (qeq a b) eqn:E;
      [apply qeq_spec in E; subst; erewrite ?flags_some, ?flags_none by eassumption|]
  end; cbn; try done.

Lemma flags_run_op key o kd : flags key (run_op kd o) = flags_after key o (flags key kd).
Proof.
  destruct o as [t f n b|t f n|t f|t]; cbn [run_op flags_after].
  - unfold setBlocked. destruct f as [|c f]; [done|]. cbn [is_empty negb andb].
    destruct (m_entries kd !! q_upper (c :: f)) as [e|] eqn:El.
    + destruct (Bool.eqb (blocked_flag e) b) eqn:Eb.
      * apply eqb_prop in Eb. subst b. solve_flags.
      * destruct (is_empty n); cbn [negb]; solve_flags.
    + destruct b; cbn [negb]; solve_flags.
  - unfold remember. destruct f as [|c f]; [done|]. cbn [is_empty negb andb].
    destruct (m_entries kd !! q_upper (c :: f)) as [e|] eqn:El.
    + destruct (paired e && qeq (alias e) n) eqn:Ep; [apply andb_true_iff in Ep as [Ep _]|];
        solve_flags. by rewrite Ep.
    + solve_flags.
  - unfold forget. destruct (m_entries kd !! q_upper f) as [e|] eqn:El; [|solve_flags].
    destruct (blocked_flag e) eqn:Eb; [solve_flags; by rewrite Eb|].
    destruct (qeq key (q_upper f)) eqn:E.
    + apply qeq_spec in E as ->. rewrite (flags_some _ e kd) by done. cbn.
      rewrite flags_none by apply lookup_delete_eq. by rewrite Eb.
    + apply qeq_false in E. unfold flags, blocked_at, paired_at, entry_of. cbn.
      by rewrite lookup_delete_ne.
  - unfold forgetAll. case_bool_decide as He.
    { by rewrite flags_none by (rewrite He; apply lookup_empty). }
    destruct (negb _ || _) eqn:Ec; cbn [negb].
    + unfold flags, blocked_at, paired_at, entry_of. rewrite save_entries. cbn [m_entries set_field].
      cbn. rewrite kept_blocks_lookup. destruct (m_entries kd !! key) as [e|]; [|done].
      by destruct (blocked_flag e).
    + apply orb_false_iff in Ec as [_ Hp]. rewrite existsb_paired in Hp.
      unfold flags, blocked_at, paired_at, entry_of. destruct (m_entries kd !! key) as [e|] eqn:El; [|done].
      cbn. by rewrite (Hp _ _ El).
Qed.

Lemma same_key c f f' :
  negb (is_empty f') && qeq (q_upper (c :: f)) (q_upper f')
  = qeq (q_upper (c :: f)) (q_upper f').
Proof.
  destruct f'; cbn; [|done]. symmetry. apply qeq_false.
  rewrite (proj2 (q_upper_nil []) eq_refl). intros Hn. by apply (proj1 (q_upper_nil _)) in Hn.
Qed.

(** A block is the user's decision and nothing else's. Over any sequence
    of calls a fingerprint is blocked exactly when the last [setBlocked] for
    it said so: a completed exchange, forgetting the device and forgetting
    every device all leave the block in place. *)
Theorem blocks_are_the_users f kd ops :
  isBlocked f (foldl run_op kd ops)
  = foldl (fun b o => match o with
                      | OpSetBlocked _ f' _ b' =>
                          if negb (is_empty f) && qeq (q_upper f) (q_upper f') then b' else b
                      | _ => b
                      end) (isBlocked f kd) ops.
Proof.
  revert kd. induction ops as [|o ops IH]; intros kd; cbn [foldl]; [done|].
  rewrite IH. f_equal. rewrite !isBlocked_at.
  pose proof (f_equal fst (flags_run_op (q_upper f) o kd)) as Hf. cbn in Hf. rewrite Hf.
  destruct f as [|c f]; [by destruct o|].
  destruct o; cbn [flags_after]; rewrite ?same_key; by try case_match.
Qed.

(** A device is known exactly when files have been exchanged with its key
    since it was last forgotten: blocking it, even first, never makes it
    trusted. *)
Theorem known_means_exchanged f kd ops :
  isKnown f (foldl run_op kd ops)
  = foldl (fun known o => match o with
                          | OpRemember _ f' _ =>
                              known || negb (is_empty f) && qeq (q_upper f) (q_upper f')
                          | OpForget _ f' => known && negb (qeq (q_upper f) (q_upper f'))
                          | OpForgetAll _ => false
                          | _ => known
                          end) (isKnown f kd) ops.
Proof.
  revert kd. induction ops as [|o ops IH]; intros kd; cbn [foldl]; [done|].
  rewrite IH. f_equal. rewrite !isKnown_at.
  pose proof (f_equal snd (flags_run_op (q_upper f) o kd)) as Hf. cbn in Hf. rewrite Hf.
  destruct f as [|c f]; [by destruct o|].
  destruct o as [t f' n b|t f' n|t f'|t]; cbn [flags_after]; rewrite ?same_key; [by case_match| | |done];
    cbn [is_empty negb andb]; destruct (qeq _ _); cbn; by rewrite ?andb_false_r, ?andb_true_r, ?orb_true_r, ?orb_false_r.
Qed.

(** ** The impersonation warning *)

Lemma find_wearer_spec name items :
  (exists k e, (k, e) ∈ items /\ wears name e = true /\ find_wearer name items = k)
  \/ (find_wearer name items = [] /\ forall k e, (k, e) ∈ items -> wears name e = false).
Proof.
  induction items as [|[k e] items IH]; cbn.
  - right. split; [done|]. intros k e []%not_elem_of_nil.
  - destruct (wears name e) eqn:Ew.
    + left. exists k, e. split_and!; [by left|done..].
    + destruct IH as [(k' & e' & Hin & Hw & Hf)|[Hf Hn]].
      * left. exists k', e'. split_and!; [by right|done..].
      * right. split; [done|]. intros k' e' [[= -> ->]|Hin]%elem_of_cons; [done|]. by eapply Hn.
Qed.
(** Keys as [setBlocked] and [remember] store them. *)
Definition key_ok (k : qstring) : Prop := q_upper k = k /\ k <> [].
Definition ascii (s : qstring) : Prop := Forall (fun c => 0 <= c < 128) s.

Lemma keys_ok_run_op kd o :
  map_Forall (fun k _ => key_ok k) (m_entries kd) ->
  map_Forall (fun k _ => key_ok k) (m_entries (run_op kd o)).
Proof.
  intros Hk.
  assert (Hins : forall c f e, map_Forall (fun k (_ : Entry) => key_ok k)
    (<[q_upper (c :: f) := e]> (m_entries kd))).
  { intros c f e. apply map_Forall_insert_2; [|done]. split; [apply q_upper_idem|].
    intros Hn. by apply (proj1 (q_upper_nil _)) in Hn. }
  destruct o as [t f n b|t f n|t f|t]; cbn [run_op].
  - unfold setBlocked. destruct f as [|c f]; [done|]. cbn [is_empty].
    repeat case_match; try done; apply Hins.
  - unfold remember. destruct f as [|c f]; [done|]. cbn [is_empty].
    repeat case_match; try done; apply Hins.
  - unfold forget. destruct (m_entries kd !! q_upper f) as [e|] eqn:E; [|done].
    destruct (blocked_flag e); rewrite save_entries; cbn.
    + apply map_Forall_insert_2; [by apply (Hk _ e)|done].
    + by apply map_Forall_delete.
  - unfold forgetAll. case_bool_decide; [done|]. case_match; [done|]. rewrite save_entries. cbn.
    intros k e. rewrite kept_blocks_lookup. destruct (m_entries kd !! k) eqn:E; [|done].
    intros _. by eapply Hk.
Qed.

Lemma equalsFold_key k f : q_upper k = k -> ascii (q_upper f) ->
  Crypto.equalsFold k f = true <-> k = q_upper f.
Proof.
  intros Hk Ha. rewrite Crypto.equalsFold_spec, Hk.
  rewrite (q_utf8_ascii (q_upper f)) by by left. split; [|intros ->; apply q_utf8_ascii; by left].
  intros Hu. rewrite <- (q_utf8_ascii k); [done|]. right. by rewrite Hu.
Qed.

(** The impersonation warning is raised exactly when a name that files
    were exchanged under arrives with a key nothing was ever exchanged with,
    whatever order the hash is walked in: never for a key already known,
    however it renames itself, and never on the word of a blocked entry
    alone. *)
Theorem conflicts_spec f name kd :
  map_Forall (fun k _ => key_ok k) (m_entries kd) -> ascii (q_upper f) ->
  conflicts f name kd = true <->
  f <> [] /\ name <> [] /\ isKnown f kd = false
  /\ exists k e, m_entries kd !! k = Some e /\ paired e = true /\ alias e = name.
Proof.
  intros Hkeys Ha. unfold conflicts, expectedFingerprint.
  destruct f as [|c f]; [by split; [|intros ([]&_)]|].
  destruct name as [|d name]; [by split; [|intros (_&[]&_)]|]. cbn [is_empty orb].
  destruct (isKnown (c :: f) kd) eqn:Ek; [split; [done|by intros (_&_&[=]&_)]|].
  destruct (find_wearer_spec (d :: name) (hash_items (m_entries kd)))
    as [(k & e & Hin & Hw & ->)|[-> Hn]].
  - apply hash_items_elem in Hin. destruct (Hkeys _ _ Hin) as [Hup Hne].
    apply andb_true_iff in Hw as [Hp Hal]. apply qeq_spec in Hal.
    rewrite (proj2 (is_empty_false k) Hne). cbn [negb andb].
    split; [intros _; split_and!; [done..|]; eauto|]. intros _. apply negb_true_iff.
    apply not_true_iff_false. intros He. apply equalsFold_key in He; [|done..]. subst k.
    rewrite isKnown_at in Ek. unfold paired_at, entry_of in Ek. rewrite Hin, Hp in Ek. done.
  - split; [done|]. intros (_&_&_&k&e&Hl&Hp&Hal).
    specialize (Hn k e). rewrite hash_items_elem in Hn. specialize (Hn Hl). unfold wears in Hn.
    by rewrite Hp, Hal, qeq_refl in Hn.
Qed.

(** ** The file round-trips *)

Definition entry_storable (e : Entry) : Prop :=
  valid_utf16 (alias e) = true /\ exists t, firstSeen e = Some t /\ Z.abs t <= 2 ^ 53.
Definition storable_catalogue (m : entries) : Prop :=
  map_Forall (fun k e => q_upper k = k /\ valid_utf16 k = true /\ entry_storable e) m.

Lemma load_save_entry e : entry_storable e -> load_entry (save_entry e) = e.
Proof.
  intros [Ha (t & Ht & Hb)]. unfold load_entry, save_entry. rewrite !jvalue_jinsert. lit_simpl.
  cbn [jbool_or jstring jstring_or jdouble]. rewrite Ht. cbn [msecs default].
  rewrite qint64_of_exact by done. destruct e. cbn in *. by subst.
Qed.
Lemma storable_entry e : entry_storable e -> storable (JObject (save_entry e)).
Proof.
  intros [Ha (t & Ht & Hb)]. unfold save_entry. rewrite Ht. cbn [msecs default].
  repeat (apply storable_jinsert; [done|first [done|by apply storable_num]|]). done.
Qed.
Lemma storable_root m : storable_catalogue m -> storable (JObject (save_root m)).
Proof.
  intros Hm. unfold save_root. apply (storable_foldl_jinsert (fun e => JObject (save_entry e))); [|done].
  apply Forall_forall. intros [k e] Hin%hash_items_elem. destruct (Hm _ _ Hin) as (_&Hv&He).
  split; [done|by apply storable_entry].
Qed.
Lemma jlookup_root (m : entries) k :
  jlookup k (save_root m) = (fun e => JObject (save_entry e)) <$> (m !! k).
Proof.
  unfold save_root.
  rewrite (jlookup_foldl_jinsert (fun e => JObject (save_entry e))) by apply hash_items_nodup.
  rewrite hash_items_map. by destruct (m !! k).
Qed.
Lemma load_entries_root (m : entries) :
  storable_catalogue m -> load_entries (save_root m) ∅ = m.
Proof.
  intros Hm. unfold load_entries.
  assert (Hk : forall k, k ∈ jkeys (save_root m) <-> is_Some (m !! k)).
  { intros k. rewrite jkeys_elem, jlookup_root. by rewrite fmap_is_Some. }
  transitivity (foldl (fun acc k => <[k := load_entry (jobj (jvalue k (save_root m)))]> acc)
    (∅ : entries) (jkeys (save_root m))).
  { apply foldl_ext_elem. intros acc k Hin. apply Hk in Hin as [e He].
    destruct (Hm _ _ He) as [-> _]. done. }
  apply map_eq. intros k. rewrite foldl_insert_keys, lookup_empty. unfold jvalue.
  rewrite jlookup_root. destruct (m !! k) as [e|] eqn:E.
  - rewrite decide_True by by apply Hk. destruct (Hm _ _ E) as (_&_&He).
    change (Some (load_entry (save_entry e)) = Some e). by rewrite load_save_entry.
  - rewrite decide_False; [done|]. rewrite Hk, E. by intros [].
Qed.

(** A restart forgets nothing. What a successful [save] wrote, the next
    start-up loads: the same keys, names, dates, pairings and blocks. *)
Theorem restart_restores kd :
  storable_catalogue (m_entries kd) ->
  (st_write storagePath (to_json (JObject (save_root (m_entries kd)))) (store kd)).1 = true ->
  m_entries (KnownDevices0 (store (save kd))) = m_entries kd.
Proof.
  intros Hm Hw. unfold KnownDevices0, load, save. cbn [store set_field m_entries].
  destruct (to_json_object (save_root (m_entries kd))) as [t Ht].
  assert (Hp : st_plain (to_json (JObject (save_root (m_entries kd))))).
  { rewrite Ht. apply st_plain_bracket. by left. }
  cbn. rewrite st_read_back, from_to_json by (done || by apply storable_root).
  cbn. by apply load_entries_root.
Qed.

End KnownDevices.
End KnownDevices.

Module ReferenceKnown.
Import Reference ReferenceJson ReferenceStore KnownDevices.
#[export] Existing Instance SecureStore.storage.
#[export] Instance paths : AppPaths := {| app_data := lit "/data" |}.
Definition friend : qstring := lit "AB12".
Definition sample : KnownDevices :=
  foldl run_op (KnownDevices0 opened)
    [OpRemember 5 (lit "ab12") (lit "Warm Fig"); OpSetBlocked 6 (lit "ff00") (lit "Pest") true].

Lemma sample_keys : map_Forall (fun k _ => key_ok k) (m_entries sample).
Proof.
  unfold sample. cbn [foldl]. repeat apply keys_ok_run_op.
  apply map_Forall_empty.
Defined.
Lemma conflicts_spec_witness :
  conflicts (lit "cd34") (lit "Warm Fig") sample = true
  /\ conflicts (lit "cd34") (lit "Pest") sample = false.
Proof.
  assert (Ha : ascii (q_upper (lit "cd34"))).
  { repeat (apply List.Forall_cons; [vm_compute; split; [discriminate|reflexivity]|]). constructor. }
  split; [|vm_compute; reflexivity].
  apply (conflicts_spec (lit "cd34") (lit "Warm Fig") sample sample_keys Ha).
  split_and!; [discriminate|discriminate|vm_compute; reflexivity|].
  exists friend, (mkEntry (lit "Warm Fig") (Some 5) true false). vm_compute. split_and!; reflexivity.
Defined.
Lemma sample_storable : storable_catalogue (m_entries sample).
Proof.
  apply map_Forall_to_list.
  replace (map_to_list (m_entries sample)) with
    [(lit "AB12", mkEntry (lit "Warm Fig") (Some 5) true false);
     (lit "FF00", mkEntry (lit "Pest") (Some 6) false true)] by (vm_compute; reflexivity).
  repeat (apply List.Forall_cons; [split_and!; [reflexivity|reflexivity|split; [reflexivity|eexists; split; [reflexivity|done]]]|]).
  constructor.
Defined.
Lemma restart_restores_witness :
  m_entries (KnownDevices0 (store (save sample))) = m_entries sample.
Proof.
  apply (restart_restores sample); [apply sample_storable|]. vm_compute. reflexivity.
Defined.
End ReferenceKnown.
