(* ===== verification/AppSettings.v ===== *)
(** * AppSettings: src/src/appsettings.cpp, appsettings.h

    The settings file, the PIN and the identity this device presents. A
    [QSettings] is the map of its keys; [QVariant]'s conversions are written
    out for the four types the program stores. The platform's texts and paths
    are parameters ([SettingsHost]). *)
From S2P Require Import Prelude Json Crypto Reference Protocol DeviceInfo SecureStore Certificate KnownDevices.
Import DeviceInfo.

Class SettingsHost := {
  hw_release : option (list qstring);      (* the decoded lines of /etc/hw-release *)
  prettyProductName : qstring;
  download_location : qstring;
  home_path : qstring;
  to_local_file : qstring -> qstring;      (* QUrl(text).toLocalFile() *)
  string_to_int : qstring -> option Z;     (* QString::toInt *)
  uuid_bytes : nat -> bytes                (* QUuid::createUuid().toRfc4122() *)
}.

Module AppSettings.

Inductive svalue := SString (s : qstring) | SBool (b : bool) | SInt (z : Z) | SList (l : list qstring).
Inductive signal :=
| aliasChanged | portChanged | destinationChanged | folderPerSenderChanged | receiveEnabledChanged
| quickSaveChanged | pinEnabledChanged | pinChanged | secureTransportChanged
| notificationsEnabledChanged | keepAwakeChanged | historyEnabledChanged | languageChanged
| manualDevicesChanged.

Definition KeyAlias : qstring := lit "device/alias".
Definition KeyFingerprint : qstring := lit "device/fingerprint".
Definition KeyPort : qstring := lit "network/port".
Definition KeyDestination : qstring := lit "storage/destination".
Definition KeyFolderPerSender : qstring := lit "storage/folderPerSender".
Definition KeyReceiveEnabled : qstring := lit "network/receiveEnabled".
Definition KeyQuickSave : qstring := lit "transfer/quickSave".
Definition KeyPinEnabled : qstring := lit "security/pinEnabled".
Definition KeyPinSalt : qstring := lit "security/pinSalt".
Definition KeyPinHash : qstring := lit "security/pinHash".
Definition KeySecureTransport : qstring := lit "security/encrypt".
Definition KeyLegacyPin : qstring := lit "security/pin".
Definition PinIterations : Z := 120000.
Definition PinSaltBytes : Z := 16.
Definition PinHashBytes : Z := 32.
Definition KeyNotifications : qstring := lit "ui/notifications".
Definition KeyKeepAwake : qstring := lit "transfer/keepAwake".
Definition KeyHistoryEnabled : qstring := lit "ui/history".
Definition KeyLanguage : qstring := lit "ui/language".
Definition KeyManualDevices : qstring := lit "network/manualDevices".

Section AppSettings.
Context `{OpenSSL, QtText, X509, AppPaths, SettingsHost} {S : Type} `{StoredFiles S}.

(** [toString()], [toBool()], [toInt()], [toStringList()]. *)
Definition to_string (v : svalue) : qstring :=
  match v with
  | SString s => s
  | SBool b => if b then lit "true" else lit "false"
  | SInt z => number z
  | SList [s] => s
  | SList _ => []
  end.
Definition to_bool (v : svalue) : bool :=
  match v with
  | SString s => negb (is_empty s || qeq s (lit "0") || qeq (Crypto.latin1_lower s) (lit "false"))
  | SBool b => b
  | SInt z => negb (z =? 0)
  | SList _ => false
  end.
Definition to_int (v : svalue) : Z :=
  match v with
  | SString s => default 0 (string_to_int s)
  | SBool b => if b then 1 else 0
  | SInt z => z
  | SList _ => 0
  end.
Definition to_stringlist (v : svalue) : list qstring :=
  match v with SString s => [s] | SList l => l | _ => [] end.

Record AppSettings := mkAppSettings {
  m_settings : gmap qstring svalue;
  m_deviceModel : qstring;
  m_randomFingerprint : qstring;
  m_identity : Certificate.Certificate;
  m_transportError : qstring;
  pool : Crypto.Pool;
  store : S;                            (* where the identity is kept *)
  keygens : nat;
  owner_only : bool;                    (* permissions of the settings file *)
  emitted : list signal                 (* newest first *)
}.
#[export] Instance eta_AppSettings : Settable AppSettings := fun r =>
  mkAppSettings (m_settings r) (m_deviceModel r) (m_randomFingerprint r) (m_identity r)
    (m_transportError r) (pool r) (store r) (keygens r) (owner_only r) (emitted r).

(** [value(key, default)], [contains], [setValue], [remove]; [sync] and the
    signal. *)
Definition svalue_or (key : qstring) (d : svalue) (s : AppSettings) : svalue :=
  default d (m_settings s !! key).
Definition svalue_of (key : qstring) : AppSettings -> svalue := svalue_or key (SString []).
Definition contains (key : qstring) (s : AppSettings) : bool :=
  bool_decide (is_Some (m_settings s !! key)).
Definition setValue (key : qstring) (v : svalue) (s : AppSettings) : AppSettings :=
  s <| m_settings ::= <[key := v]> |>.
Definition removeKey (key : qstring) (s : AppSettings) : AppSettings :=
  s <| m_settings ::= delete key |>.
Definition emit (sig : signal) (s : AppSettings) : AppSettings := s <| emitted ::= cons sig |>.
Definition restrict (s : AppSettings) : AppSettings := s <| owner_only := true |>.

(** [Protocol::generateAlias], with the source of its fallback. *)
Definition generateAlias (s : AppSettings) : qstring * AppSettings :=
  let '(alias, p) := Protocol.generateAlias (uuid_bytes (Crypto.draws (pool s))) (pool s) in
  (default [] alias, s <| pool := p |>).

(** ** The device *)

(** The loop over the lines of /etc/hw-release. *)
Definition quoted (value : qstring) : qstring :=
  if starts_with [34] value && starts_with [34] (reverse value)
  then qleft (len value - 2) (qmid 1 value) else value.
Fixpoint model_in (lines : list qstring) : option qstring :=
  match lines with
  | [] => None
  | line :: lines =>
      let line := q_trimmed line in
      if negb (starts_with (lit "NAME=") line) then model_in lines
      else
        let value := quoted (q_trimmed (qmid 5 line)) in
        if negb (is_empty value) then Some value else model_in lines
  end.
Definition detectDeviceModel : qstring :=
  match hw_release ≫= model_in with
  | Some value => value
  | None => if is_empty prettyProductName then lit "Sailfish OS" else prettyProductName
  end.
Definition defaultDestination : qstring :=
  if is_empty download_location then home_path ++ lit "/Downloads" else download_location.

Definition alias (s : AppSettings) : qstring := to_string (svalue_of KeyAlias s).
Definition setAlias (name : qstring) (s : AppSettings) : AppSettings :=
  let trimmed := q_trimmed name in
  if is_empty trimmed || qeq trimmed (alias s) then s
  else setValue KeyAlias (SString trimmed) s |>> emit aliasChanged.
Definition deviceModel (s : AppSettings) : qstring := m_deviceModel s.

(** The getters and setters of a flag. *)
Definition flag (key : qstring) (d : bool) (s : AppSettings) : bool := to_bool (svalue_or key (SBool d) s).
Definition set_flag (key : qstring) (d : bool) (sig : signal) (enabled : bool) (s : AppSettings)
    : AppSettings :=
  if Bool.eqb enabled (flag key d s) then s else setValue key (SBool enabled) s |>> emit sig.

Definition folderPerSender : AppSettings -> bool := flag KeyFolderPerSender false.
Definition setFolderPerSender := set_flag KeyFolderPerSender false folderPerSenderChanged.
Definition receiveEnabled : AppSettings -> bool := flag KeyReceiveEnabled true.
Definition setReceiveEnabled := set_flag KeyReceiveEnabled true receiveEnabledChanged.
Definition quickSave : AppSettings -> bool := flag KeyQuickSave false.
Definition setQuickSave := set_flag KeyQuickSave false quickSaveChanged.
Definition pinEnabled : AppSettings -> bool := flag KeyPinEnabled false.
Definition setPinEnabled := set_flag KeyPinEnabled false pinEnabledChanged.
Definition notificationsEnabled : AppSettings -> bool := flag KeyNotifications true.
Definition setNotificationsEnabled := set_flag KeyNotifications true notificationsEnabledChanged.
Definition keepAwake : AppSettings -> bool := flag KeyKeepAwake true.
Definition setKeepAwake := set_flag KeyKeepAwake true keepAwakeChanged.
Definition historyEnabled : AppSettings -> bool := flag KeyHistoryEnabled true.
Definition setHistoryEnabled := set_flag KeyHistoryEnabled true historyEnabledChanged.
Definition secureTransport : AppSettings -> bool := flag KeySecureTransport true.

Definition port (s : AppSettings) : Z := to_int (svalue_or KeyPort (SInt Protocol.DefaultPort) s).
Definition setPort (n : Z) (s : AppSettings) : AppSettings :=
  if (n <? 1024) || (65535 <? n) || (n =? port s) then s
  else setValue KeyPort (SInt n) s |>> emit portChanged.

Definition destination (s : AppSettings) : qstring :=
  let path := to_string (svalue_of KeyDestination s) in
  if is_empty path then defaultDestination else path.
Definition setDestination (path : qstring) (s : AppSettings) : AppSettings :=
  let local := if starts_with (lit "file://") path then to_local_file path else path in
  if is_empty local || qeq local (destination s) then s
  else setValue KeyDestination (SString local) s |>> emit destinationChanged.

Definition language (s : AppSettings) : qstring := to_string (svalue_or KeyLanguage (SString (lit "en")) s).
Definition setLanguage (l : qstring) (s : AppSettings) : AppSettings :=
  if is_empty l || qeq l (language s) then s
  else setValue KeyLanguage (SString l) s |>> emit languageChanged.

Definition manualDevices (s : AppSettings) : list qstring := to_stringlist (svalue_or KeyManualDevices (SList []) s).
Definition addManualDevice (endpoint : qstring) (s : AppSettings) : AppSettings :=
  let trimmed := q_trimmed endpoint in
  if is_empty trimmed then s
  else if bool_decide (trimmed ∈ manualDevices s) then s
  else setValue KeyManualDevices (SList (manualDevices s ++ [trimmed])) s |>> emit manualDevicesChanged.
Definition removeManualDevice (endpoint : qstring) (s : AppSettings) : AppSettings :=
  let devices := List.filter (fun d => negb (qeq d endpoint)) (manualDevices s) in
  if len devices =? len (manualDevices s) then s
  else setValue KeyManualDevices (SList devices) s |>> emit manualDevicesChanged.

(** ** The PIN *)

(** [toLatin1()]: what does not fit becomes a question mark. *)
Definition to_latin1 (s : qstring) : bytes := map (fun c => if (0 <=? c) && (c <? 256) then c else 63) s.

Definition pinIsSet (s : AppSettings) : bool := negb (is_empty (to_string (svalue_of KeyPinHash s))).
Definition setPin (pin : qstring) (s : AppSettings) : AppSettings :=
  if is_empty pin
  then removeKey KeyPinSalt s |>> removeKey KeyPinHash |>> removeKey KeyLegacyPin |>> emit pinChanged
  else
    let '(salt, p) := Crypto.randomBytes PinSaltBytes (pool s) in
    let s := s <| pool := p |> in
    if is_empty salt then s
    else
      let hash := Crypto.deriveKey pin salt PinIterations PinHashBytes in
      if is_empty hash then s
      else
        setValue KeyPinSalt (SString (to_hex salt)) s |>> setValue KeyPinHash (SString (to_hex hash))
          |>> removeKey KeyLegacyPin |>> restrict |>> emit pinChanged.
Definition pin_bytes (key : qstring) (s : AppSettings) : bytes := from_hex (to_latin1 (to_string (svalue_of key s))).
Definition checkPin (candidate : qstring) (s : AppSettings) : bool :=
  if negb (pinEnabled s) then true
  else
    let salt := pin_bytes KeyPinSalt s in
    let expected := pin_bytes KeyPinHash s in
    if is_empty salt || is_empty expected then true
    else
      let derived := Crypto.deriveKey candidate salt PinIterations (len expected) in
      if is_empty derived then false else Crypto.equals derived expected.

(** ** The identity *)

Definition ensureIdentity (s : AppSettings) : AppSettings :=
  if Certificate.isValid (m_identity s) then s <| m_transportError := [] |>
  else
    let '(ok, p, st, c) := Certificate.ensure (keygens s) app_data (pool s) (store s) (m_identity s) in
    let s := s <| pool := p |> <| store := st |> <| m_identity := c |> <| keygens ::= Datatypes.S |> in
    if ok then s <| m_transportError := [] |>
    else s <| m_transportError := Certificate.lastError c |>.

Definition setSecureTransport (enabled : bool) (s : AppSettings) : AppSettings :=
  if Bool.eqb enabled (secureTransport s) then s
  else
    let s := setValue KeySecureTransport (SBool enabled) s in
    (if enabled then ensureIdentity s else s) |>> emit secureTransportChanged.
Definition isEncrypted (s : AppSettings) : bool := secureTransport s && Certificate.isValid (m_identity s).
Definition transportError (s : AppSettings) : qstring := m_transportError s.
Definition identity (s : AppSettings) : Certificate.Certificate := m_identity s.
Definition fingerprint (s : AppSettings) : qstring :=
  if isEncrypted s then Certificate.fingerprint (m_identity s) else m_randomFingerprint s.

Definition protocolVersion : qstring := Protocol.Version.
Definition self (s : AppSettings) : DeviceInfo :=
  DeviceInfo0 <| DeviceInfo.alias := alias s |> <| DeviceInfo.version := Protocol.Version |>
    <| DeviceInfo.deviceModel := m_deviceModel s |> <| DeviceInfo.deviceType := lit "mobile" |>
    <| DeviceInfo.fingerprint := fingerprint s |> <| DeviceInfo.port := port s |>
    <| DeviceInfo.protocol := if isEncrypted s then lit "https" else lit "http" |>
    <| DeviceInfo.download := false |>.
Definition suggestAlias (s : AppSettings) : qstring * AppSettings := generateAlias s.
Definition rerollAlias (s : AppSettings) : AppSettings :=
  let '(alias, s) := generateAlias s in setAlias alias s.

(** The constructor, on the settings file [m] and the file store [st]. *)
Definition AppSettings0 (m : gmap qstring svalue) (p : Crypto.Pool) (st : S) : AppSettings :=
  let s := mkAppSettings m detectDeviceModel [] Certificate.Certificate0 [] p st 0 false [] in
  let s := if contains KeyAlias s then s
           else let '(alias, s) := generateAlias s in setValue KeyAlias (SString alias) s in
  let s := s <| m_randomFingerprint := to_string (svalue_of KeyFingerprint s) |> in
  let s := if is_empty (m_randomFingerprint s)
           then let '(f, p) := Protocol.generateFingerprint (pool s) in
                s <| pool := p |> <| m_randomFingerprint := f |> |>> setValue KeyFingerprint (SString f)
           else s in
  let s := if contains KeyDestination s then s
           else setValue KeyDestination (SString defaultDestination) s in
  let legacyPin := to_string (svalue_of KeyLegacyPin s) in
  let s := if negb (is_empty legacyPin) then setPin legacyPin s |>> removeKey KeyLegacyPin else s in
  let s := restrict s in
  if secureTransport s then ensureIdentity s else s.

(** ** Frames *)

Lemma settings_emit sig s : m_settings (emit sig s) = m_settings s.
Proof. by destruct s. Qed.
Lemma svalue_set_eq key d v s : svalue_or key d (setValue key v s) = v.
Proof. unfold svalue_or. cbn. by rewrite lookup_insert_eq. Qed.
Lemma svalue_set_ne key key' d v s : key <> key' -> svalue_or key d (setValue key' v s) = svalue_or key d s.
Proof. intros ?. unfold svalue_or. cbn. by rewrite lookup_insert_ne. Qed.
Lemma svalue_remove_ne key key' d s : key <> key' -> svalue_or key d (removeKey key' s) = svalue_or key d s.
Proof. intros ?. unfold svalue_or. cbn. by rewrite lookup_delete_ne. Qed.
Ltac other_key :=
  unfold svalue_of;
  repeat (first [rewrite svalue_set_ne by (apply qeq_false; lit_simpl; done)
                |rewrite svalue_remove_ne by (apply qeq_false; lit_simpl; done)]).

(** ** The PIN guard *)

(** The salt and the hash [setPin] would store. *)
Definition new_salt (s : AppSettings) : bytes := (Crypto.randomBytes PinSaltBytes (pool s)).1.
Definition pin_hash (pin : qstring) (s : AppSettings) : bytes :=
  Crypto.deriveKey pin (new_salt s) PinIterations PinHashBytes.

Lemma latin1_hex b : Forall is_byte b -> to_latin1 (to_hex b) = to_hex b.
Proof.
  intros Hb. apply Crypto.to_hex_range in Hb. unfold to_latin1.
  induction Hb as [|c s Hc _ IH]; [done|]. cbn. rewrite IH. f_equal.
  unfold Crypto.is_lower_hex in Hc. rewrite (proj2 (Z.leb_le _ _)), (proj2 (Z.ltb_lt _ _)) by lia. done.
Qed.
Lemma deriveKey_length pin salt it n :
  Crypto.deriveKey pin salt it n = []
  \/ (len (Crypto.deriveKey pin salt it n) = n /\ Forall is_byte (Crypto.deriveKey pin salt it n)).
Proof.
  unfold Crypto.deriveKey. destruct (_ || _); [by left|].
  destruct (PKCS5_PBKDF2_HMAC _ _ _ _) eqn:E; [right|by left]. by apply PBKDF2_length in E.
Qed.
Lemma to_hex_nil b : to_hex b = [] -> b = [].
Proof. by destruct b. Qed.

Context `{!HexLaw}.

Lemma setPin_stores s pin :
  pin <> [] -> new_salt s <> [] -> pin_hash pin s <> [] ->
  let s' := setPin pin s in
  pin_bytes KeyPinSalt s' = new_salt s /\ pin_bytes KeyPinHash s' = pin_hash pin s
  /\ to_string (svalue_of KeyPinHash s') = to_hex (pin_hash pin s)
  /\ m_settings s' !! KeyLegacyPin = None /\ pinEnabled s' = pinEnabled s /\ owner_only s' = true.
Proof.
  intros Hp Hs Hh. cbv zeta. unfold setPin, pin_hash, new_salt in *.
  rewrite (proj2 (is_empty_false pin) Hp).
  pose proof (Crypto.randomBytes_length PinSaltBytes (pool s)) as Hsl.
  destruct (Crypto.randomBytes PinSaltBytes (pool s)) as [salt p]. cbn [fst] in *.
  destruct Hsl as [|[Hsl Hsb]]; [done|]. rewrite (proj2 (is_empty_false salt) Hs).
  destruct (deriveKey_length pin salt PinIterations PinHashBytes) as [|[Hhl Hhb]]; [done|].
  set (h := Crypto.deriveKey pin salt PinIterations PinHashBytes) in *.
  rewrite (proj2 (is_empty_false h) Hh).
  set (s1 := s <| pool := p |>).
  set (s2 := removeKey KeyLegacyPin (setValue KeyPinHash (SString (to_hex h)) (setValue KeyPinSalt (SString (to_hex salt)) s1))).
  assert (Hval : forall key d, svalue_or key d (emit pinChanged (restrict s2)) = svalue_or key d s2).
  { intros key d. unfold svalue_or. by destruct s2. }
  assert (Hsalt : svalue_of KeyPinSalt (emit pinChanged (restrict s2)) = SString (to_hex salt)).
  { unfold svalue_of. rewrite Hval. unfold s2. other_key. apply svalue_set_eq. }
  assert (Hhash : svalue_of KeyPinHash (emit pinChanged (restrict s2)) = SString (to_hex h)).
  { unfold svalue_of. rewrite Hval. unfold s2. other_key. apply svalue_set_eq. }
  unfold pin_bytes. rewrite Hsalt, Hhash. cbn [to_string]. rewrite !latin1_hex, !from_hex_to_hex by done.
  split_and!; try done.
  - rewrite settings_emit. cbn. apply lookup_delete_eq.
  - unfold pinEnabled, flag. rewrite Hval. unfold s2. other_key. done.
Qed.
Lemma setPin_fails s pin :
  pin <> [] -> new_salt s = [] \/ pin_hash pin s = [] ->
  m_settings (setPin pin s) = m_settings s.
Proof.
  intros Hp Hf. unfold setPin, pin_hash, new_salt in *. rewrite (proj2 (is_empty_false pin) Hp).
  destruct (Crypto.randomBytes PinSaltBytes (pool s)) as [salt p]. cbn [fst] in *.
  destruct salt as [|x salt]; [done|]. destruct Hf as [|Hf]; [done|]. cbn [is_empty].
  by rewrite Hf.
Qed.
Lemma checkPin_settings s s' c : m_settings s' = m_settings s -> checkPin c s' = checkPin c s.
Proof. unfold checkPin, pinEnabled, flag, pin_bytes, svalue_of, svalue_or. by intros ->. Qed.

(** C26: the PIN guard. Once a PIN has been stored, and the requirement is on,
    a code opens the door exactly when it derives the same key from the stored
    salt as the PIN did; the PIN itself is kept nowhere. When the new PIN
    could not be stored (no random bytes, no key derivation) the old one stays
    in force. With the requirement off, or no PIN ever stored, every code
    passes. *)
Theorem pin_guard s pin candidate :
  pin <> [] ->
  let s' := setPin pin s in
  (new_salt s <> [] -> pin_hash pin s <> [] ->
     pinIsSet s' = true /\ checkPin pin s' = true
     /\ (pinEnabled s = true -> checkPin candidate s' = true <-> pin_hash candidate s = pin_hash pin s))
  /\ (new_salt s = [] \/ pin_hash pin s = [] -> checkPin candidate s' = checkPin candidate s)
  /\ (pinEnabled s = false \/ pin_bytes KeyPinHash s = [] -> checkPin candidate s = true).
Proof.
  intros Hp. cbv zeta.
  split_and!.
  - intros Hs Hh. destruct (setPin_stores s pin Hp Hs Hh) as (K1 & K2 & K3 & K4 & K5 & _).
    assert (Hcheck : forall c, pinEnabled s = true ->
      checkPin c (setPin pin s) = true <-> pin_hash c s = pin_hash pin s).
    { intros c He. unfold checkPin. rewrite K5, He, K1, K2. cbn [negb].
      rewrite (proj2 (is_empty_false _) Hs), (proj2 (is_empty_false _) Hh). cbn [orb].
      assert (Hl : len (pin_hash pin s) = PinHashBytes).
      { destruct (deriveKey_length pin (new_salt s) PinIterations PinHashBytes) as [|[? _]]; done. }
      rewrite Hl. fold (pin_hash c s).
      destruct (is_empty (pin_hash c s)) eqn:E; [|apply Crypto.equals_spec].
      apply is_empty_spec in E. rewrite E. split; [done|congruence]. }
    split_and!; [| |apply Hcheck].
    + unfold pinIsSet. rewrite K3. apply negb_true_iff, is_empty_false.
      by intros Hn%to_hex_nil.
    + destruct (pinEnabled s) eqn:He; [by apply Hcheck|]. unfold checkPin. by rewrite K5.
  - intros Hf. by apply checkPin_settings, setPin_fails.
  - intros [He|Hh]; unfold checkPin; [by rewrite He|]. rewrite Hh, orb_true_r.
    by destruct (pinEnabled s).
Qed.

(** An install upgraded while the random source is down loses its PIN: the
    plaintext is removed whether or not [setPin] stored the hash. *)
Lemma legacy_pin_dropped s pin c :
  pin <> [] -> new_salt s = [] -> pin_bytes KeyPinHash s = [] ->
  checkPin c (removeKey KeyLegacyPin (setPin pin s)) = true
  /\ m_settings (removeKey KeyLegacyPin (setPin pin s)) !! KeyLegacyPin = None.
Proof.
  intros Hp Hs Hh. split; [|cbn; apply lookup_delete_eq].
  unfold checkPin. replace (pin_bytes KeyPinHash _) with (@nil Z).
  - rewrite orb_true_r. by case_match.
  - unfold pin_bytes. other_key. unfold svalue_of, svalue_or, pin_bytes, svalue_of, svalue_or in *.
    by rewrite (setPin_fails s pin Hp (or_introl Hs)).
Qed.

(** ** Well-formed settings *)

Inductive op :=
| OpAlias (a : qstring) | OpReroll | OpPort (n : Z) | OpDestination (p : qstring) | OpFolder (b : bool)
| OpReceive (b : bool) | OpQuickSave (b : bool) | OpPinEnabled (b : bool) | OpPin (p : qstring)
| OpSecure (b : bool) | OpNotifications (b : bool) | OpKeepAwake (b : bool) | OpHistory (b : bool)
| OpLanguage (l : qstring) | OpAddManual (e : qstring) | OpRemoveManual (e : qstring).
Definition run_op (s : AppSettings) (o : op) : AppSettings :=
  match o with
  | OpAlias a => setAlias a s
  | OpReroll => rerollAlias s
  | OpPort n => setPort n s
  | OpDestination p => setDestination p s
  | OpFolder b => setFolderPerSender b s
  | OpReceive b => setReceiveEnabled b s
  | OpQuickSave b => setQuickSave b s
  | OpPinEnabled b => setPinEnabled b s
  | OpPin p => setPin p s
  | OpSecure b => setSecureTransport b s
  | OpNotifications b => setNotificationsEnabled b s
  | OpKeepAwake b => setKeepAwake b s
  | OpHistory b => setHistoryEnabled b s
  | OpLanguage l => setLanguage l s
  | OpAddManual e => addManualDevice e s
  | OpRemoveManual e => removeManualDevice e s
  end.

Record well_formed (s : AppSettings) : Prop := {
  wf_alias : alias s <> [];
  wf_port : 1024 <= port s <= 65535;
  wf_legacy : m_settings s !! KeyLegacyPin = None;
  wf_manual : Forall (fun d => d <> []) (manualDevices s) /\ NoDup (manualDevices s);
  wf_identity : Certificate.agrees (m_identity s);
  wf_loud : secureTransport s = true -> isEncrypted s = true \/ transportError s <> []
}.

(** What decides well-formedness. *)
Definition watched (key : qstring) : bool :=
  qeq key KeyAlias || qeq key KeyPort || qeq key KeyLegacyPin || qeq key KeyManualDevices
  || qeq key KeySecureTransport.
Lemma well_formed_value s s' :
  well_formed s -> (forall key, watched key = true -> m_settings s' !! key = m_settings s !! key) ->
  m_identity s' = m_identity s -> m_transportError s' = m_transportError s -> well_formed s'.
Proof.
  intros [W1 W2 W3 W4 W5 W6] Hw E2 E3.
  assert (Hv : forall key d, watched key = true -> svalue_or key d s' = svalue_or key d s).
  { intros key d Hk. unfold svalue_or. by rewrite Hw. }
  split; unfold alias, port, manualDevices, secureTransport, isEncrypted, transportError, flag, svalue_of in *.
  - by rewrite Hv.
  - by rewrite Hv.
  - by rewrite Hw.
  - by rewrite Hv.
  - by rewrite E2.
  - unfold secureTransport, flag in *. by rewrite E3, E2, !Hv.
Qed.
Lemma well_formed_same s s' :
  well_formed s -> m_settings s' = m_settings s -> m_identity s' = m_identity s ->
  m_transportError s' = m_transportError s -> well_formed s'.
Proof. intros Hs E1. apply well_formed_value; [done|]. intros key _. by rewrite E1. Qed.
Lemma well_formed_setValue key v s :
  watched key = false -> well_formed s -> well_formed (setValue key v s).
Proof.
  intros Hk Hs. apply (well_formed_value s); [done| |by destruct s..].
  intros key' Hk'. cbn. rewrite lookup_insert_ne; [done|]. intros ->. congruence.
Qed.
Lemma well_formed_emit sig s : well_formed s -> well_formed (emit sig s).
Proof. intros Hs. apply (well_formed_same s); by destruct s. Qed.
Lemma well_formed_flag key d sig b s :
  watched key = false -> well_formed s -> well_formed (set_flag key d sig b s).
Proof.
  intros Hk Hs. unfold set_flag. destruct (Bool.eqb _ _); [done|].
  by apply well_formed_emit, well_formed_setValue.
Qed.

(** All of it but the last field. *)
Definition presentable (s : AppSettings) : Prop :=
  alias s <> [] /\ 1024 <= port s <= 65535 /\ m_settings s !! KeyLegacyPin = None
  /\ (Forall (fun d => d <> []) (manualDevices s) /\ NoDup (manualDevices s))
  /\ Certificate.agrees (m_identity s).
Lemma well_formed_ensure s :
  presentable s -> secureTransport s = true -> well_formed (ensureIdentity s).
Proof.
  intros (W1 & W2 & W3 & W4 & W5) Hsec. unfold ensureIdentity.
  destruct (Certificate.isValid (m_identity s)) eqn:Hv.
  - split; try done. left. apply andb_true_iff. split; [exact Hsec|exact Hv].
  - pose proof (Certificate.ensure_outcome (keygens s) app_data (pool s) (store s) (m_identity s) W5) as He.
    destruct (Certificate.ensure _ _ _ _ _) as [[[ok p] st] c]. destruct He as [Ha He]. destruct ok.
    + split; try done. left. apply andb_true_iff. split; [exact Hsec|exact He].
    + destruct He as [Hi He]. split; try done. by right.
Qed.
(** A watched key, set to a value that keeps its condition. *)
Lemma well_formed_put key v s :
  well_formed s ->
  (key = KeyAlias /\ to_string v <> [])
  \/ (key = KeyPort /\ 1024 <= to_int v <= 65535)
  \/ (key = KeyManualDevices /\ Forall (fun d => d <> []) (to_stringlist v) /\ NoDup (to_stringlist v)) ->
  well_formed (setValue key v s).
Proof.
  intros [W1 W2 W3 W4 W5 W6] [[-> Hv]|[[-> Hv]|[-> Hv]]];
    split; unfold alias, port, manualDevices, isEncrypted, secureTransport, flag, transportError in *;
    try (other_key; done); try (rewrite ?svalue_set_eq; done).
  all: try (unfold svalue_of; rewrite svalue_set_eq; done).
  all: cbn; rewrite lookup_insert_ne by (apply qeq_false; lit_simpl; done); done.
Qed.
Lemma removal_nodup e (l : list qstring) :
  NoDup l -> Forall (fun d => d <> []) l ->
  NoDup (List.filter (fun d => negb (qeq d e)) l) /\ Forall (fun d => d <> []) (List.filter (fun d => negb (qeq d e)) l).
Proof.
  intros Hn Hf. split; [by eapply sublist_NoDup, filter_sublist|by eapply sublist_Forall, Hf; apply filter_sublist].
Qed.
Lemma well_formed_alias name s : well_formed s -> well_formed (setAlias name s).
Proof.
  intros Hs. unfold setAlias. destruct (is_empty (q_trimmed name)) eqn:E; [done|]. cbn [orb].
  destruct (qeq _ _); [done|]. apply well_formed_emit, well_formed_put; [done|]. left.
  split; [done|]. by apply is_empty_false.
Qed.
Lemma well_formed_pin pin s : well_formed s -> well_formed (setPin pin s).
Proof.
  intros Hs. unfold setPin. destruct (is_empty pin).
  - apply well_formed_emit, (well_formed_value s); [done| |by destruct s..].
    intros key Hk. cbn. destruct (decide (key = KeyLegacyPin)) as [->|Hn].
    + rewrite lookup_delete_eq. symmetry. apply Hs.
    + rewrite !lookup_delete_ne; [done|..]; intros <-; revert Hk; unfold watched; lit_simpl; done.
  - destruct (Crypto.randomBytes PinSaltBytes (pool s)) as [salt p].
    destruct (is_empty salt); [by apply (well_formed_same s)|].
    destruct (is_empty (Crypto.deriveKey _ _ _ _)); [by apply (well_formed_same s)|].
    apply well_formed_emit, (well_formed_value s); [done| |by destruct s..].
    intros key Hk. cbn. destruct (decide (key = KeyLegacyPin)) as [->|Hn].
    + rewrite lookup_delete_eq. symmetry. apply Hs.
    + rewrite lookup_delete_ne by done.
      rewrite !lookup_insert_ne; [done|..]; intros <-; revert Hk; unfold watched; lit_simpl; done.
Qed.

Lemma well_formed_run_op s o : well_formed s -> well_formed (run_op s o).
Proof.
  intros Hs. destruct o as [a| |n|p|b|b|b|b|p|b|b|b|b|l|e|e]; cbn [run_op];
    try (by apply well_formed_flag; [unfold watched; lit_simpl|]).
  - by apply well_formed_alias.
  - unfold rerollAlias, generateAlias.
    destruct (Protocol.generateAlias _ _) as [al p]. apply well_formed_alias. by apply (well_formed_same s).
  - unfold setPort. destruct (Z.ltb_spec n 1024), (Z.ltb_spec 65535 n); cbn [orb]; try done.
    destruct (n =? port s); [done|]. apply well_formed_emit, well_formed_put; [done|].
    right; left. split; [done|]. cbn. lia.
  - unfold setDestination. destruct (_ || _); [done|].
    apply well_formed_emit, well_formed_setValue; [unfold watched; by lit_simpl|done].
  - by apply well_formed_pin.
  - unfold setSecureTransport. destruct (Bool.eqb b (secureTransport s)) eqn:Eb; [done|].
    apply well_formed_emit. set (s1 := setValue KeySecureTransport (SBool b) s).
    assert (Hsec : secureTransport s1 = b).
    { unfold secureTransport, flag, s1. by rewrite svalue_set_eq. }
    destruct Hs as [W1 W2 W3 W4 W5 W6].
    assert (Hkeep : presentable s1).
    { unfold presentable, alias, port, manualDevices, s1 in *. other_key. split_and!; try done; try apply W4; try apply W2.
      cbn. rewrite lookup_insert_ne by (apply qeq_false; lit_simpl; done). done. }
    clearbody s1. destruct b; [by apply well_formed_ensure|]. destruct Hkeep as (V1 & V2 & V3 & V4 & V5).
    split; try done. by rewrite Hsec.
  - unfold setLanguage. destruct (_ || _); [done|].
    apply well_formed_emit, well_formed_setValue; [unfold watched; by lit_simpl|done].
  - unfold addManualDevice. destruct (is_empty (q_trimmed e)) eqn:Ee; [done|].
    case_bool_decide as Hin; [done|]. apply well_formed_emit, well_formed_put; [done|].
    right; right. split; [done|]. cbn. destruct (wf_manual s Hs) as [M1 M2]. split.
    + apply Forall_app. split; [done|]. constructor; [by apply is_empty_false|done].
    + apply NoDup_app. split_and!; [done| |apply NoDup_singleton].
      intros x Hx ->%list_elem_of_singleton. done.
  - unfold removeManualDevice. destruct (_ =? _); [done|]. apply well_formed_emit, well_formed_put; [done|].
    right; right. split; [done|]. cbn. destruct (wf_manual s Hs) as [M1 M2].
    destruct (removal_nodup e (manualDevices s) M2 M1). done.
Qed.

Lemma contains_none key s : m_settings s !! key = None -> contains key s = false.
Proof. intros Hn. apply bool_decide_eq_false_2. rewrite Hn. by intros [? ?]. Qed.

(** A first launch. *)
Lemma first_launch_ok p st :
  (forall i, len (uuid_bytes i) = 16 /\ Forall is_byte (uuid_bytes i)) ->
  well_formed (AppSettings0 ∅ p st).
Proof.
  intros Hu. unfold AppSettings0. cbv zeta.
  rewrite (contains_none KeyAlias) by apply lookup_empty.
  unfold generateAlias. cbn [pool].
  destruct (Hu (Crypto.draws p)) as [Hu1 Hu2].
  destruct (Protocol.generateAlias_spec (uuid_bytes (Crypto.draws p)) p Hu1 Hu2) as (a & n & _ & _ & Ha).
  destruct (Protocol.generateAlias (uuid_bytes (Crypto.draws p)) p) as [al p1]. cbn [fst] in Ha. subst al.
  cbn [default from_option]. set (name := a ++ lit " " ++ n).
  assert (Hname : name <> []) by (unfold name; by destruct a).
  cbv iota beta. unfold id.
  set (s1 := setValue KeyAlias _ _).
  assert (Hfp : to_string (svalue_of KeyFingerprint s1) = []).
  { unfold s1. other_key. done. }
  rewrite Hfp. set (s2 := s1 <| m_randomFingerprint := [] |>).
  change (is_empty (m_randomFingerprint s2)) with true. cbv iota.
  destruct (Protocol.generateFingerprint (pool s2)) as [f p2].
  set (s3 := setValue KeyFingerprint _ _).
  assert (Hcd : contains KeyDestination s3 = false).
  { apply contains_none. cbn. rewrite !lookup_insert_ne by (apply qeq_false; lit_simpl; done).
    apply lookup_empty. }
  rewrite Hcd. set (s4 := setValue KeyDestination _ s3).
  assert (Hleg : m_settings s4 !! KeyLegacyPin = None).
  { cbn. rewrite !lookup_insert_ne by (apply qeq_false; lit_simpl; done). apply lookup_empty. }
  assert (Hlp : to_string (svalue_of KeyLegacyPin s4) = []).
  { unfold svalue_of, svalue_or. by rewrite Hleg. }
  rewrite Hlp. cbn [is_empty negb].
  assert (Hal : alias s4 = name).
  { unfold alias, s4, s3. other_key. unfold svalue_of, svalue_or. cbn. by rewrite lookup_insert_eq. }
  assert (Hsec : secureTransport (restrict s4) = true).
  { unfold secureTransport, flag, svalue_or. cbn.
    rewrite !lookup_insert_ne by (apply qeq_false; lit_simpl; done). by rewrite lookup_empty. }
  rewrite Hsec.
  assert (Hport : port s4 = Protocol.DefaultPort).
  { unfold port, svalue_or. cbn. rewrite !lookup_insert_ne by (apply qeq_false; lit_simpl; done).
    by rewrite lookup_empty. }
  assert (Hman : manualDevices s4 = []).
  { unfold manualDevices, svalue_or. cbn. rewrite !lookup_insert_ne by (apply qeq_false; lit_simpl; done).
    by rewrite lookup_empty. }
  apply well_formed_ensure; [|done].
  assert (Hman' : manualDevices (restrict s4) = []) by exact Hman.
  assert (Hport' : port (restrict s4) = Protocol.DefaultPort) by exact Hport.
  assert (Hal' : alias (restrict s4) = name) by exact Hal.
  unfold presentable. rewrite Hman', Hport', Hal'. split_and!; try done; constructor.
Qed.

(** C25: whatever the pages do to the settings, the device stays presentable:
    it has a name, a port it may bind, no plaintext PIN, no empty or repeated
    manual device; the key pair and the fingerprint it announces belong
    together; and when encryption is asked for but impossible there is an
    error to show: no silent downgrade. *)
Theorem settings_stay_well_formed p st ops :
  (forall i, len (uuid_bytes i) = 16 /\ Forall is_byte (uuid_bytes i)) ->
  let s := foldl run_op (AppSettings0 ∅ p st) ops in
  well_formed s
  /\ (isEncrypted s = true -> exists der, Certificate.certificate (identity s) = Some der
        /\ DeviceInfo.fingerprint (self s) = Crypto.sha256Hex der
        /\ DeviceInfo.protocol (self s) = lit "https").
Proof.
  intros Hu. cbv zeta.
  assert (Hw : well_formed (foldl run_op (AppSettings0 ∅ p st) ops)).
  { pose proof (first_launch_ok p st Hu) as Hs. revert Hs. generalize (AppSettings0 ∅ p st).
    induction ops as [|o ops IH]; intros s Hs; [done|]. by apply IH, well_formed_run_op. }
  split; [done|]. intros He. pose proof (wf_identity _ Hw) as Ha.
  unfold self. cbn [DeviceInfo.fingerprint DeviceInfo.protocol set_field]. cbn.
  unfold fingerprint. rewrite He. unfold isEncrypted in He. apply andb_true_iff in He as [_ Hv].
  unfold Certificate.agrees, Certificate.isValid, Certificate.is_null in *.
  unfold identity, Certificate.certificate, Certificate.fingerprint.
  destruct (Certificate.m_certificate _) as [der|]; [|done].
  destruct (Certificate.m_key _); [|done]. by exists der.
Qed.

End AppSettings.
End AppSettings.

Module ReferenceSettings.
Import Reference ReferenceCertificate AppSettings.
#[export] Instance toy_host : SettingsHost := {|
  hw_release := Some [lit "ID=x"; lit "NAME=" ++ [34] ++ lit "Xperia" ++ [34]];
  prettyProductName := []; download_location := []; home_path := lit "/home";
  to_local_file := qmid 7; string_to_int := fun _ => None;
  uuid_bytes := fun _ => replicate 16 3
|}.
#[export] Instance toy_paths : AppPaths := {| app_data := lit "/data" |}.
Definition first_start : AppSettings (S := gmap qstring bytes) := AppSettings0 ∅ (Crypto.mkPool true 0) ∅.
Definition with_pin : AppSettings := setPinEnabled true first_start.

Lemma pin_guard_witness :
  checkPin (lit "1234") (setPin (lit "1234") with_pin) = true
  /\ checkPin (lit "0000") (setPin (lit "1234") with_pin) = false.
Proof.
  split; [|vm_compute; reflexivity].
  destruct (pin_guard with_pin (lit "1234") (lit "0000") ltac:(discriminate)) as [Hp _].
  destruct Hp as (_ & Hp & _); [vm_compute; discriminate..|]. exact Hp.
Defined.
Lemma settings_stay_well_formed_witness :
  well_formed (foldl run_op first_start [OpPort 80; OpSecure false; OpSecure true]).
Proof.
  apply (settings_stay_well_formed (Crypto.mkPool true 0) ∅ [OpPort 80; OpSecure false; OpSecure true]).
  intros i. split; [reflexivity|]. repeat constructor; done.
Defined.
End ReferenceSettings.
