(* ===== verification/HistoryModel.v ===== *)
(** * HistoryModel: src/src/historymodel.cpp, historymodel.h

    The log of past transfers, newest first, capped and saved on every change. *)
From S2P Require Import Prelude Json Crypto Reference SecureStore KnownDevices.

Module HistoryModel.

Definition MaxRecords : Z := 200.

Record HistoryRecord := mkHistoryRecord {
  id : qstring; direction : qstring; peerAlias : qstring; peerDeviceType : qstring;
  timestamp : option Z; fileNames : list qstring; totalBytes : Z; status : qstring;
  destination : qstring
}.
#[export] Instance eta_HistoryRecord : Settable HistoryRecord := fun r =>
  mkHistoryRecord (id r) (direction r) (peerAlias r) (peerDeviceType r) (timestamp r)
    (fileNames r) (totalBytes r) (status r) (destination r).
Definition HistoryRecord0 : HistoryRecord := mkHistoryRecord [] [] [] [] None [] 0 [] [].

Inductive Role :=
| RecordIdRole | DirectionRole | PeerAliasRole | PeerDeviceTypeRole | TimestampRole
| FileNamesRole | FileCountRole | TotalBytesRole | StatusRole | DestinationRole.

Section HistoryModel.
Context `{Platform, JsonText, AppPaths} {S : Type} `{Storage S}.

Record HistoryModel := mkHistoryModel {
  m_records : list HistoryRecord; store : S; countChanged : nat
}.
#[export] Instance eta_HistoryModel : Settable HistoryModel := fun r =>
  mkHistoryModel (m_records r) (store r) (countChanged r).

Definition storagePath : qstring := app_data ++ lit "/history.json".

Definition load_record (object : jobject) : HistoryRecord :=
  mkHistoryRecord (jstring (jvalue (lit "id") object)) (jstring (jvalue (lit "direction") object))
    (jstring (jvalue (lit "peerAlias") object)) (jstring (jvalue (lit "peerDeviceType") object))
    (Some (qint64_of (jdouble (jvalue (lit "timestamp") object))))
    (map jstring (jarr (jvalue (lit "fileNames") object)))
    (qint64_of (jdouble (jvalue (lit "totalBytes") object)))
    (jstring (jvalue (lit "status") object)) (jstring (jvalue (lit "destination") object)).
Definition load (h : HistoryModel) : HistoryModel :=
  match from_json (st_read storagePath (store h)) with
  | Some (JArray array) => h <| m_records ::= fun l => l ++ map (fun v => load_record (jobj v)) array |>
  | _ => h
  end.
Definition HistoryModel0 (s : S) : HistoryModel := load (mkHistoryModel [] s 0).

Definition save_record (r : HistoryRecord) : jobject :=
  []
  |>> jinsert (lit "id") (JString (id r))
  |>> jinsert (lit "direction") (JString (direction r))
  |>> jinsert (lit "peerAlias") (JString (peerAlias r))
  |>> jinsert (lit "peerDeviceType") (JString (peerDeviceType r))
  |>> jinsert (lit "timestamp") (JNum (double_of_Z (default 0 (timestamp r))))
  |>> jinsert (lit "totalBytes") (JNum (double_of_Z (totalBytes r)))
  |>> jinsert (lit "status") (JString (status r))
  |>> jinsert (lit "destination") (JString (destination r))
  |>> jinsert (lit "fileNames") (JArray (map JString (fileNames r))).
Definition save_array (l : list HistoryRecord) : json :=
  JArray (map (fun r => JObject (save_record r)) l).
Definition save (h : HistoryModel) : HistoryModel :=
  h <| store ::= fun s => (st_write storagePath (to_json (save_array (m_records h))) s).2 |>.
Definition save_and_emit (h : HistoryModel) : HistoryModel :=
  save h <| countChanged ::= Datatypes.S |>.

Definition count (h : HistoryModel) : Z := len (m_records h).
Definition at_row (row : Z) (h : HistoryModel) : option HistoryRecord :=
  if (row <? 0) || (count h <=? row) then None else m_records h !! Z.to_nat row.
Definition data (row : Z) (role : Role) (h : HistoryModel) : variant :=
  match at_row row h with
  | None => VInvalid
  | Some r =>
      match role with
      | RecordIdRole => VString (id r)
      | DirectionRole => VString (direction r)
      | PeerAliasRole => VString (peerAlias r)
      | PeerDeviceTypeRole => VString (peerDeviceType r)
      | TimestampRole => VDate (timestamp r)
      | FileNamesRole => VStrings (fileNames r)
      | FileCountRole => VInt (len (fileNames r))
      | TotalBytesRole => VInt (totalBytes r)
      | StatusRole => VString (status r)
      | DestinationRole => VString (destination r)
      end
  end.

(** [while (count > MaxRecords) removeLast()] *)
Fixpoint trim_loop (fuel : nat) (l : list HistoryRecord) : list HistoryRecord :=
  match fuel with
  | O => l
  | Datatypes.S fuel => if MaxRecords <? len l then trim_loop fuel (removelast l) else l
  end.
Definition append (r : HistoryRecord) (h : HistoryModel) : HistoryModel :=
  let records := r :: m_records h in
  h <| m_records := trim_loop (List.length records) records |> |>> save_and_emit.
Definition removeAt (row : Z) (h : HistoryModel) : HistoryModel :=
  if (row <? 0) || (count h <=? row) then h
  else h <| m_records ::= delete (Z.to_nat row) |> |>> save_and_emit.
Definition clear (h : HistoryModel) : HistoryModel :=
  if is_empty (m_records h) then h else h <| m_records := [] |> |>> save_and_emit.

Inductive op := OpAppend (r : HistoryRecord) | OpRemoveAt (row : Z) | OpClear.
Definition run_op (h : HistoryModel) (o : op) : HistoryModel :=
  match o with
  | OpAppend r => append r h
  | OpRemoveAt row => removeAt row h
  | OpClear => clear h
  end.

(** ** The cap *)

Lemma removelast_take {A} (l : list A) : removelast l = take (List.length l - 1) l.
Proof.
  destruct (@nil_or_length_pos A l) as [->|Hl]; [done|].
  destruct (exists_last (l := l)) as (l' & x & ->); [by destruct l|].
  rewrite removelast_last, length_app. cbn. rewrite Nat.add_sub. by rewrite take_app_length.
Qed.
Lemma trim_loop_spec fuel l :
  (List.length l <= fuel)%nat -> trim_loop fuel l = take (Z.to_nat MaxRecords) l.
Proof.
  revert l. induction fuel as [|fuel IH]; intros l Hl; cbn [trim_loop].
  - destruct l; [done|cbn in Hl; lia].
  - destruct (Z.ltb_spec MaxRecords (len l)) as [Hlt|Hle].
    + rewrite IH; last first.
      { rewrite removelast_take, length_take. lia. }
      rewrite removelast_take, take_take. f_equal. unfold len in Hlt. lia.
    + rewrite take_ge; [done|]. unfold len in Hle. lia.
Qed.

(** ** The file *)

Definition storable_record (r : HistoryRecord) : Prop :=
  Forall (fun s => valid_utf16 s = true)
    [id r; direction r; peerAlias r; peerDeviceType r; status r; destination r]
  /\ Forall (fun s => valid_utf16 s = true) (fileNames r)
  /\ (exists t, timestamp r = Some t /\ Z.abs t <= 2 ^ 53) /\ Z.abs (totalBytes r) <= 2 ^ 53.

Lemma load_save_record r : storable_record r -> load_record (save_record r) = r.
Proof.
  intros (_ & _ & (t & Ht & Hb) & Hs). unfold load_record, save_record.
  rewrite !jvalue_jinsert. lit_simpl. cbn [jstring jstring_or jdouble jarr].
  rewrite Ht. cbn [default]. rewrite !qint64_of_exact by done.
  rewrite map_map, map_id. destruct r. cbn in *. by subst.
Qed.
Lemma storable_names l :
  Forall (fun s => valid_utf16 s = true) l -> storable (JArray (map JString l)).
Proof. induction 1; [done|]. split; [done|exact IHForall]. Qed.
Lemma storable_save_record r : storable_record r -> storable (JObject (save_record r)).
Proof.
  intros (Hf & Hn & (t & Ht & Hb) & Hs). unfold save_record. rewrite Ht. cbn [default].
  apply Forall_cons in Hf as [? Hf]. apply Forall_cons in Hf as [? Hf].
  apply Forall_cons in Hf as [? Hf]. apply Forall_cons in Hf as [? Hf].
  apply Forall_cons in Hf as [? Hf]. apply Forall_cons in Hf as [? _].
  repeat (apply storable_jinsert;
    [done|first [done|by apply storable_num|by apply storable_names]|]). done.
Qed.
Lemma storable_save_array l : Forall storable_record l -> storable (save_array l).
Proof.
  induction 1 as [|r l Hr _ IH]; [done|]. split; [by apply storable_save_record|exact IH].
Qed.
Lemma load_saved s0 l s n :
  Forall storable_record l ->
  st_write storagePath (to_json (save_array l)) s0 = (true, s) ->
  load (mkHistoryModel [] s n) = mkHistoryModel l s n.
Proof.
  intros Hl Hw. unfold load. cbn [store].
  assert (Hp : st_plain (to_json (save_array l))).
  { destruct (to_json_array (map (fun r => JObject (save_record r)) l)) as [t Ht].
    unfold save_array. rewrite Ht. apply st_plain_bracket. by right. }
  pose proof (st_read_back storagePath _ s0 Hp) as Hr. rewrite Hw in Hr. cbn in Hr.
  rewrite Hr, from_to_json by (done || by apply storable_save_array).
  change (mkHistoryModel ([] ++ map (fun v => load_record (jobj v))
    (map (fun r => JObject (save_record r)) l)) s n = mkHistoryModel l s n).
  rewrite map_map. f_equal. clear -Hl. induction Hl as [|r l Hr _ IH]; [done|].
  cbn [map jobj app] in *. by rewrite load_save_record, IH.
Qed.

(** What is on disk is what is in memory. *)
Definition in_step (h : HistoryModel) : Prop := m_records (HistoryModel0 (store h)) = m_records h.

Lemma in_step_save h :
  Forall storable_record (m_records h) ->
  (forall d s, (st_write storagePath d s).1 = true) -> in_step (save_and_emit h).
Proof.
  intros Hr Hw. unfold in_step, HistoryModel0, save_and_emit, save. cbn [store m_records set_field].
  cbn. specialize (Hw (to_json (save_array (m_records h))) (store h)).
  destruct (st_write storagePath (to_json (save_array (m_records h))) (store h)) as [ok s] eqn:E.
  cbn in Hw. subst. cbn. by rewrite (load_saved (store h) (m_records h)).
Qed.

Definition op_ok (o : op) : Prop :=
  match o with OpAppend r => storable_record r | _ => True end.
Lemma records_run_op h o :
  op_ok o -> Forall storable_record (m_records h) -> len (m_records h) <= MaxRecords ->
  Forall storable_record (m_records (run_op h o)) /\ len (m_records (run_op h o)) <= MaxRecords.
Proof.
  intros Ho Hr Hl. destruct o as [r|row|]; cbn [run_op].
  - cbn -[trim_loop]. rewrite trim_loop_spec by done. split.
    + by apply Forall_take, Forall_cons.
    + unfold len. rewrite length_take. unfold MaxRecords. lia.
  - unfold removeAt. case_match; [done|].
    change (Forall storable_record (delete (Z.to_nat row) (m_records h))
            /\ len (delete (Z.to_nat row) (m_records h)) <= MaxRecords).
    split; [by apply Forall_delete|].
    unfold count, len in *.
    assert (Hlt : is_Some (m_records h !! Z.to_nat row)) by (apply lookup_lt_is_Some; lia).
    rewrite length_delete by done. lia.
  - unfold clear. case_match; [done|]. cbn. split; [constructor|done].
Qed.
Lemma in_step_run_op h o :
  op_ok o -> Forall storable_record (m_records h) -> len (m_records h) <= MaxRecords ->
  (forall d s, (st_write storagePath d s).1 = true) -> in_step h -> in_step (run_op h o).
Proof.
  intros Ho Hr Hl Hw Hi. pose proof (records_run_op h o Ho Hr Hl) as [Hs _].
  destruct o as [r|row|]; cbn [run_op] in *.
  - by apply in_step_save.
  - unfold removeAt in *. case_match; [done|]. by apply in_step_save.
  - unfold clear in *. case_match; [done|]. by apply in_step_save.
Qed.

(** The log as the user understands it: a list, newest first, of the last
    [MaxRecords] transfers, less the rows taken out of it. *)
Definition log_op (l : list HistoryRecord) (o : op) : list HistoryRecord :=
  match o with
  | OpAppend r => take (Z.to_nat MaxRecords) (r :: l)
  | OpRemoveAt row =>
      if bool_decide (0 <= row < len l)
      then take (Z.to_nat row) l ++ drop (Datatypes.S (Z.to_nat row)) l else l
  | OpClear => []
  end.

Lemma run_op_log h o : m_records (run_op h o) = log_op (m_records h) o.
Proof.
  destruct o as [r|row|]; cbn [run_op log_op].
  - cbn -[trim_loop]. by rewrite trim_loop_spec.
  - unfold removeAt, count. case_bool_decide as Hrow.
    + rewrite (proj2 (Z.ltb_ge row 0)), (proj2 (Z.leb_gt _ row)) by lia. cbn.
      apply delete_take_drop.
    + destruct (Z.ltb_spec row 0); [done|]. destruct (Z.leb_spec (len (m_records h)) row); [done|lia].
  - unfold clear. destruct (m_records h) eqn:E; cbn; [done|done].
Qed.

(** One change keeps a well-formed log well formed and in step with its file. *)
Definition log_ok (h : HistoryModel) : Prop :=
  Forall storable_record (m_records h) /\ len (m_records h) <= MaxRecords /\ in_step h.
Lemma log_ok_run_op h o :
  (forall d s, (st_write storagePath d s).1 = true) -> op_ok o -> log_ok h -> log_ok (run_op h o).
Proof.
  intros Hw Ho (Hr & Hl & Hi). destruct (records_run_op h o Ho Hr Hl) as [Hr' Hl'].
  split_and!; [done..|by apply in_step_run_op].
Qed.

(** C35: the log on disk never lags the log on screen. After any sequence of
    appended, removed and cleared records, as long as saves succeed and the
    records fit their file (text that is UTF-16, times and sizes a double
    holds exactly), the records in memory are those of a plain list under the
    same changes, at most [MaxRecords] of them, and a restart at that point
    reads exactly these records back, whichever change came last. *)
Theorem history_survives h ops :
  Forall op_ok ops ->
  Forall storable_record (m_records h) -> len (m_records h) <= MaxRecords ->
  (forall d s, (st_write storagePath d s).1 = true) -> in_step h ->
  let h' := foldl run_op h ops in
  m_records h' = foldl log_op (m_records h) ops
  /\ len (m_records h') <= MaxRecords
  /\ m_records (HistoryModel0 (store h')) = m_records h'.
Proof.
  intros Ho Hr Hl Hw Hi. cbv zeta.
  assert (Hok : log_ok h) by done. clear Hr Hl Hi. revert h Hok.
  induction Ho as [|o ops Ho _ IH]; intros h Hok; cbn [foldl]; [by destruct Hok as (? & ? & ?)|].
  rewrite <- run_op_log. by apply IH, log_ok_run_op.
Qed.

End HistoryModel.
End HistoryModel.

(** A store that is a plain map, on which every save succeeds. *)
Module ReferenceHistory.
Import Reference ReferenceJson ReferenceKnown HistoryModel.
Definition map_write (p : qstring) (d : bytes) (s : gmap qstring bytes)
    : bool * gmap qstring bytes := (true, <[p := d]> s).
#[export] Program Instance map_storage : Storage (gmap qstring bytes) := {|
  st_read := fun p s => default [] (s !! p);
  st_write := map_write;
  st_plain := fun _ => True
|}.
Next Obligation. intros p d s _ _. cbn. by rewrite lookup_insert_eq. Qed.
Next Obligation. done. Qed.
Next Obligation. intros p q d s Hq. cbn. by rewrite lookup_insert_ne. Qed.
Next Obligation. done. Qed.

Definition first_record : HistoryRecord :=
  mkHistoryRecord (lit "1") (lit "send") (lit "Warm Fig") (lit "mobile") (Some 1000)
    [lit "a.jpg"; lit "b.jpg"] 300 (lit "finished") [].
Lemma first_storable : storable_record first_record.
Proof.
  split_and!; [repeat (apply List.Forall_cons; [reflexivity|]); constructor
    |repeat (apply List.Forall_cons; [reflexivity|]); constructor|eexists; split; [reflexivity|done]|done].
Defined.
Definition numbered (s : qstring) : HistoryRecord := first_record <| id := s |>.
Definition some_changes : list op :=
  [OpAppend (numbered (lit "1")); OpAppend (numbered (lit "2")); OpClear;
   OpAppend (numbered (lit "3")); OpAppend (numbered (lit "4"));
   OpAppend (numbered (lit "5")); OpRemoveAt 1; OpRemoveAt 7].
Lemma some_changes_ok : List.Forall op_ok some_changes.
Proof.
  assert (H : forall s, valid_utf16 s = true -> storable_record (numbered s)).
  { intros s Hs. destruct first_storable as (Hf & Hn & Ht & Hb). split_and!; [|done..].
    by apply List.Forall_cons; [|inversion Hf]. }
  repeat (apply List.Forall_cons; [first [exact I|apply H; reflexivity]|]). constructor.
Qed.
Lemma history_survives_witness :
  let h' := foldl run_op (HistoryModel0 (S := gmap qstring bytes) ∅) some_changes in
  map id (m_records (HistoryModel0 (store h'))) = [lit "5"; lit "3"].
Proof.
  destruct (history_survives (HistoryModel0 (S := gmap qstring bytes) ∅) some_changes)
    as (Hm & _ & Hd);
    [exact some_changes_ok|constructor|vm_compute; discriminate|reflexivity|reflexivity|].
  cbv zeta in Hm, Hd |- *. rewrite Hd, Hm. vm_compute. reflexivity.
Defined.
End ReferenceHistory.
