(* ===== verification/SelectionModel.v ===== *)
(** * SelectionModel: src/src/selectionmodel.cpp, selectionmodel.h

    The files picked for sending. The file system, the URL decoder and the
    MIME database are parameters. *)
From S2P Require Import Prelude.

(** [QFileInfo] of a path, [QUrl::toLocalFile], [QMimeDatabase]. *)
Class LocalFiles := {
  is_readable_file : qstring -> bool;   (* exists() && isFile() && isReadable() *)
  canonicalFilePath : qstring -> qstring;
  info_fileName : qstring -> qstring;
  info_size : qstring -> Z;
  mime_type : qstring -> qstring;
  url_toLocalFile : qstring -> qstring
}.

Module SelectionModel.

Record Item := mkItem { path : qstring; fileName : qstring; fileType : qstring; size : Z }.
Inductive Role := PathRole | FileNameRole | FileTypeRole | FileSizeRole.
Record SelectionModel := mkSelectionModel { m_items : list Item; changed : nat }.
#[export] Instance eta_SelectionModel : Settable SelectionModel := fun r =>
  mkSelectionModel (m_items r) (changed r).
Definition SelectionModel0 : SelectionModel := mkSelectionModel [] 0.

Section SelectionModel.
Context `{LocalFiles}.

Definition count (m : SelectionModel) : Z := len (m_items m).
Definition isEmpty (m : SelectionModel) : bool := is_empty (m_items m).
Definition totalBytes (m : SelectionModel) : Z :=
  foldl (fun total i => wrap64 (total + size i)) 0 (m_items m).
Definition paths (m : SelectionModel) : list qstring :=
  foldl (fun result i => result ++ [path i]) [] (m_items m).
Definition data (row : Z) (role : Role) (m : SelectionModel) : variant :=
  if (row <? 0) || (count m <=? row) then VInvalid
  else match m_items m !! Z.to_nat row with
       | None => VInvalid
       | Some i =>
           match role with
           | PathRole => VString (path i)
           | FileNameRole => VString (fileName i)
           | FileTypeRole => VString (fileType i)
           | FileSizeRole => VInt (size i)
           end
       end.

(** A plain path, or a [file://] URL. *)
Definition local_path (pathOrUrl : qstring) : qstring :=
  if starts_with (lit "file://") pathOrUrl then url_toLocalFile pathOrUrl else pathOrUrl.
Definition add (pathOrUrl : qstring) (m : SelectionModel) : bool * SelectionModel :=
  let p := local_path pathOrUrl in
  if is_empty p then (false, m)
  else if negb (is_readable_file p) then (false, m)
  else
    let canonical := canonicalFilePath p in
    if existsb (fun i => qeq (path i) canonical) (m_items m) then (false, m)
    else
      let item := mkItem canonical (info_fileName p) (mime_type p) (info_size p) in
      (true, m <| m_items ::= fun l => l ++ [item] |> <| changed ::= S |>).
Fixpoint addAll_loop (l : list qstring) (added : Z) (m : SelectionModel) : Z * SelectionModel :=
  match l with
  | [] => (added, m)
  | p :: l => let '(ok, m) := add p m in addAll_loop l (if ok then added + 1 else added) m
  end.
Definition addAll (l : list qstring) (m : SelectionModel) : Z * SelectionModel := addAll_loop l 0 m.
Definition removeAt (row : Z) (m : SelectionModel) : SelectionModel :=
  if (row <? 0) || (count m <=? row) then m
  else m <| m_items ::= delete (Z.to_nat row) |> <| changed ::= S |>.
Definition clear (m : SelectionModel) : SelectionModel :=
  if is_empty (m_items m) then m else m <| m_items := [] |> <| changed ::= S |>.

Inductive op := OpAdd (p : qstring) | OpAddAll (l : list qstring) | OpRemoveAt (row : Z) | OpClear.
Definition run_op (m : SelectionModel) (o : op) : SelectionModel :=
  match o with
  | OpAdd p => (add p m).2
  | OpAddAll l => (addAll l m).2
  | OpRemoveAt row => removeAt row m
  | OpClear => clear m
  end.

(** ** Lemmas *)

Lemma paths_map m : paths m = map path (m_items m).
Proof.
  assert (Hg : forall l acc, foldl (fun result i => result ++ [path i]) acc l = acc ++ map path l).
  { induction l as [|i l IH]; intros acc; cbn; [by rewrite app_nil_r|].
    rewrite IH, <- app_assoc. done. }
  apply Hg.
Qed.
Lemma totalBytes_sum m : totalBytes m = wrap64 (zsum size (m_items m)).
Proof.
  assert (Hg : forall l acc, foldl (fun total i => wrap64 (total + size i)) (wrap64 acc) l
    = wrap64 (acc + zsum size l)).
  { induction l as [|i l IH]; intros acc; cbn [foldl].
    - unfold zsum. cbn. by rewrite Z.add_0_r.
    - rewrite wrap64_add_l, IH. unfold zsum. cbn. f_equal. lia. }
  apply (Hg _ 0).
Qed.

(** The two ways [add] ends. *)
Lemma add_cases p m :
  (add p m = (false, m)
   /\ (is_readable_file (local_path p) = true -> local_path p <> [] ->
       canonicalFilePath (local_path p) ∈ paths m))
  \/ (exists i, (add p m).1 = true /\ m_items (add p m).2 = m_items m ++ [i]
      /\ path i = canonicalFilePath (local_path p) /\ path i ∉ paths m
      /\ is_readable_file (local_path p) = true).
Proof.
  unfold add. destruct (is_empty (local_path p)) eqn:E.
  { left. split; [done|]. apply is_empty_spec in E. done. }
  destruct (is_readable_file (local_path p)) eqn:Er; cbn [negb]; [|by left].
  destruct (existsb _ _) eqn:Ex.
  - left. split; [done|]. intros _ _. apply existsb_exists in Ex as (i & Hin & Hq).
    apply qeq_spec in Hq. rewrite paths_map, <- Hq. apply list_elem_of_fmap_2.
    by apply list_elem_of_In.
  - right. eexists. split_and!; [done|cbn; done|done| |done].
    cbn. rewrite paths_map. intros (i & Hi & Hin)%list_elem_of_fmap.
    apply not_true_iff_false in Ex. apply Ex, existsb_exists. exists i.
    split; [by apply list_elem_of_In|]. by apply qeq_spec.
Qed.

Definition unique (m : SelectionModel) : Prop := NoDup (map path (m_items m)).
Lemma unique_add p m : unique m -> unique (add p m).2.
Proof.
  intros Hu. destruct (add_cases p m) as [[-> _]|(i & _ & Hi & _ & Hn & _)]; [done|].
  unfold unique. rewrite Hi, map_app. apply NoDup_app. split_and!; [done| |apply NoDup_singleton].
  intros q Hq Hs. cbn in Hs. apply list_elem_of_singleton in Hs as ->. by rewrite paths_map in Hn.
Qed.
Lemma addAll_loop_spec l n m :
  unique m ->
  unique (addAll_loop l n m).2
  /\ (addAll_loop l n m).1 - n = count (addAll_loop l n m).2 - count m.
Proof.
  revert n m. induction l as [|p l IH]; intros n m Hu; cbn [addAll_loop]; [split; [done|cbn; lia]|].
  pose proof (unique_add p m Hu) as Hu'. pose proof (add_cases p m) as Hc.
  destruct (add p m) as [ok m']. cbn in Hu'. destruct (IH (if ok then n + 1 else n) m' Hu') as [H1 H2].
  split; [done|]. destruct Hc as [[[= -> ->] _]|(i & Ho & Hi & _)]; [lia|]. cbn in Ho, Hi. subst ok.
  unfold count in *. rewrite Hi, len_app in H2. rewrite len_cons, len_nil in H2. lia.
Qed.

(** The tray is a set of readable files. Whatever the pickers hand back,
    plain paths or URLs, twice or not, no file is listed twice; a file that is
    picked and readable is listed afterwards; [addAll] counts exactly the rows
    it added; and the total is the sum of the sizes, within 64 bits. *)
Theorem selection_is_a_set ops p l :
  let m := foldl run_op SelectionModel0 ops in
  NoDup (paths m)
  /\ (is_readable_file (local_path p) = true -> local_path p <> [] ->
      canonicalFilePath (local_path p) ∈ paths (add p m).2)
  /\ (addAll l m).1 = count (addAll l m).2 - count m
  /\ totalBytes m = wrap64 (zsum size (m_items m)).
Proof.
  cbv zeta. set (m := foldl run_op SelectionModel0 ops).
  assert (Hu : unique m).
  { subst m. assert (H0 : unique SelectionModel0) by by constructor.
    revert H0. generalize SelectionModel0. induction ops as [|o ops IH]; intros m Hm; [done|].
    apply IH. destruct o as [q|k|row|]; cbn [run_op].
    - by apply unique_add.
    - by apply addAll_loop_spec.
    - unfold removeAt. case_match; [done|]. unfold unique.
      eapply sublist_NoDup; [exact Hm|]. apply fmap_sublist, sublist_delete.
    - unfold clear. case_match; [done|]. by constructor. }
  split_and!; [by rewrite paths_map| | |apply totalBytes_sum].
  - intros Hr Hne. destruct (add_cases p m) as [[-> Hin]|(i & _ & Hi & Hp & _)]; [by apply Hin|].
    rewrite paths_map, Hi, map_app, <- Hp. apply elem_of_app. right. cbn. by left.
  - destruct (addAll_loop_spec l 0 m Hu) as [_ Hc]. unfold addAll. lia.
Qed.

End SelectionModel.
End SelectionModel.
