(* ===== verification/DeviceModel.v ===== *)
(** * DeviceModel: src/src/devicemodel.cpp, devicemodel.h

    The devices in sight, sorted by name. Dates are milliseconds; [t] is the
    current one. The catalogue of known devices is an argument of the calls
    that look at it, [None] for the null pointer. *)
From S2P Require Import Prelude Json Crypto SecureStore KnownDevices Protocol DeviceInfo.
Import DeviceInfo.

Module DeviceModel.

Definition StaleAfterSeconds : Z := 50.
Definition MaxDevices : Z := 64.

Inductive signal := countChanged | deviceAppeared (alias : qstring) | dataChanged (first last : Z).
Record DeviceModel := mkDeviceModel {
  m_devices : list DeviceInfo;
  m_emitted : list signal            (* newest first *)
}.
#[export] Instance eta_DeviceModel : Settable DeviceModel := fun r =>
  mkDeviceModel (m_devices r) (m_emitted r).
Definition DeviceModel0 : DeviceModel := mkDeviceModel [] [].

Inductive Role :=
| AliasRole | HardwareRole | DeviceTypeRole | FingerprintRole | AddressRole | PortRole
| ProtocolRole | DownloadRole | LastSeenRole | StaleRole | KnownRole | ConflictRole.

Section DeviceModel.
Context `{OpenSSL, QtText, QHashOrder, Platform, JsonText, AppPaths} {S : Type} `{Storage S}.
Abbreviation catalogue := (option (KnownDevices.KnownDevices (S := S))).

Definition emit (s : signal) (m : DeviceModel) : DeviceModel := m <| m_emitted ::= cons s |>.

(** What [setKnownDevices] connects to [KnownDevices::changed]. *)
Definition onKnownChanged (m : DeviceModel) : DeviceModel :=
  if is_empty (m_devices m) then m else emit (dataChanged 0 (len (m_devices m) - 1)) m.

(** [QDateTime::secsTo], both dates valid. *)
Definition secsTo (from to : Z) : Z := Z.quot (to - from) 1000.
Definition known_is (known : catalogue) (f : qstring) : bool :=
  match known with Some kd => KnownDevices.isKnown f kd | None => false end.
Definition known_conflicts (known : catalogue) (f a : qstring) : bool :=
  match known with Some kd => KnownDevices.conflicts f a kd | None => false end.

Definition count (m : DeviceModel) : Z := len (m_devices m).
Definition in_rows (row : Z) (m : DeviceModel) : bool := negb ((row <? 0) || (count m <=? row)).
Definition at_row (row : Z) (m : DeviceModel) : option DeviceInfo :=
  if in_rows row m then m_devices m !! Z.to_nat row else None.
Definition data (t : Z) (known : catalogue) (row : Z) (role : Role) (m : DeviceModel) : variant :=
  match at_row row m with
  | None => VInvalid
  | Some d =>
      match role with
      | AliasRole => VString (alias d)
      | HardwareRole => VString (deviceModel d)
      | DeviceTypeRole => VString (deviceType d)
      | FingerprintRole => VString (fingerprint d)
      | AddressRole => VString (address d)
      | PortRole => VInt (port d)
      | ProtocolRole => VString (protocol d)
      | DownloadRole => VBool (download d)
      | LastSeenRole => VDate (lastSeen d)
      | StaleRole =>
          VBool match lastSeen d with Some seen => StaleAfterSeconds <? secsTo seen t | None => false end
      | KnownRole => VBool (known_is known (fingerprint d))
      | ConflictRole => VBool (known_conflicts known (fingerprint d) (alias d))
      end
  end.

(** [-1] is [None]. *)
Fixpoint index_of_fp (f : qstring) (l : list DeviceInfo) : option nat :=
  match l with
  | [] => None
  | d :: l => if qeq (fingerprint d) f then Some O else Datatypes.S <$> index_of_fp f l
  end.
Definition indexOfFingerprint (f : qstring) (m : DeviceModel) : option nat := index_of_fp f (m_devices m).
Fixpoint insertion_point (device : DeviceInfo) (l : list DeviceInfo) : nat :=
  match l with
  | [] => O
  | d :: l =>
      let order := q_compare_ci (alias d) (alias device) in
      if 0 <? order then O
      else if (order =? 0) && str_gt (fingerprint d) (fingerprint device) then O
      else Datatypes.S (insertion_point device l)
  end.
Definition insertionPoint (device : DeviceInfo) (m : DeviceModel) : nat :=
  insertion_point device (m_devices m).
(** [QList::insert(i, x)] *)
Definition insert_at {A} (i : nat) (x : A) (l : list A) : list A := take i l ++ x :: drop i l.

Definition remove (f : qstring) (m : DeviceModel) : DeviceModel :=
  match indexOfFingerprint f m with
  | None => m
  | Some row => m <| m_devices ::= delete row |> |>> emit countChanged
  end.
Definition upsert (t : Z) (known : catalogue) (device : DeviceInfo) (m : DeviceModel)
    : bool * DeviceModel :=
  if negb (isValid device) || is_empty (address device) then (false, m)
  else if match known with Some kd => KnownDevices.isBlocked (fingerprint device) kd | None => false end
  then (false, remove (fingerprint device) m)
  else
    let updated := device <| lastSeen := Some t |> in
    match indexOfFingerprint (fingerprint device) m with
    | Some existing =>
        let previous := default DeviceInfo0 (m_devices m !! existing) in
        if negb (qeq (alias previous) (alias updated))
        then
          let m := m <| m_devices ::= delete existing |> in
          let target := insertionPoint updated m in
          (false, m <| m_devices ::= insert_at target updated |>)
        else (false, m <| m_devices ::= <[existing := updated]> |>
                     |>> emit (dataChanged (Z.of_nat existing) (Z.of_nat existing)))
    | None =>
        if MaxDevices <=? count m then (false, m)
        else
          let target := insertionPoint updated m in
          (true, m <| m_devices ::= insert_at target updated |>
                 |>> emit countChanged |>> emit (deviceAppeared (alias updated)))
    end.
Definition clear (m : DeviceModel) : DeviceModel :=
  if is_empty (m_devices m) then m else m <| m_devices := [] |> |>> emit countChanged.
Definition device_at (row : Z) (m : DeviceModel) : DeviceInfo := default DeviceInfo0 (at_row row m).
Definition byFingerprint (f : qstring) (m : DeviceModel) : DeviceInfo :=
  match indexOfFingerprint f m with
  | None => DeviceInfo0
  | Some row => default DeviceInfo0 (m_devices m !! row)
  end.
Definition contains (f : qstring) (m : DeviceModel) : bool :=
  match indexOfFingerprint f m with Some _ => true | None => false end.
(** The map handed to a page, in key order of insertion. *)
Definition get (known : catalogue) (row : Z) (m : DeviceModel) : list (qstring * variant) :=
  match at_row row m with
  | None => []
  | Some d =>
      [(lit "alias", VString (alias d)); (lit "hardware", VString (deviceModel d));
       (lit "deviceType", VString (deviceType d)); (lit "fingerprint", VString (fingerprint d));
       (lit "address", VString (address d)); (lit "port", VInt (port d));
       (lit "protocol", VString (protocol d)); (lit "download", VBool (download d));
       (lit "known", VBool (known_is known (fingerprint d)));
       (lit "conflict", VBool (known_conflicts known (fingerprint d) (alias d)));
       (lit "expectedFingerprint",
         VString match known with
                 | Some kd => KnownDevices.expectedFingerprint (alias d) kd
                 | None => []
                 end)]
  end.

(** The loop from the last row to the first. *)
Definition fresh_enough (now maxAgeSeconds : Z) (d : DeviceInfo) : bool :=
  match lastSeen d with Some seen => secsTo seen now <=? maxAgeSeconds | None => false end.
Fixpoint prune_loop (now maxAge : Z) (i : nat) (l : list DeviceInfo) (removed : bool)
    : list DeviceInfo * bool :=
  match i with
  | O => (l, removed)
  | Datatypes.S i =>
      match l !! i with
      | Some d => if fresh_enough now maxAge d then prune_loop now maxAge i l removed
                  else prune_loop now maxAge i (delete i l) true
      | None => prune_loop now maxAge i l removed
      end
  end.
Definition prune (now maxAgeSeconds : Z) (m : DeviceModel) : DeviceModel :=
  let '(l, removed) := prune_loop now maxAgeSeconds (List.length (m_devices m)) (m_devices m) false in
  let m := m <| m_devices := l |> in
  if removed then emit countChanged m else m.

(** The calls of the discovery layer and the pages. *)
Inductive op :=
| OpUpsert (t : Z) (known : catalogue) (device : DeviceInfo)
| OpRemove (f : qstring)
| OpClear
| OpPrune (now maxAge : Z)
| OpKnownChanged.
Definition run_op (m : DeviceModel) (o : op) : DeviceModel :=
  match o with
  | OpUpsert t known d => (upsert t known d m).2
  | OpRemove f => remove f m
  | OpClear => clear m
  | OpPrune now age => prune now age m
  | OpKnownChanged => onKnownChanged m
  end.

(** ** Rows *)

Lemma index_of_fp_spec f l :
  match index_of_fp f l with
  | Some i => exists d, l !! i = Some d /\ fingerprint d = f
  | None => f ∉ map fingerprint l
  end.
Proof.
  induction l as [|d l IH]; cbn; [apply not_elem_of_nil|].
  destruct (qeq (fingerprint d) f) eqn:E; [apply qeq_spec in E; by exists d|].
  apply qeq_false in E. destruct (index_of_fp f l) as [i|]; cbn; [done|].
  by intros [?|?]%elem_of_cons.
Qed.
Lemma contains_elem f m : contains f m = true <-> f ∈ map fingerprint (m_devices m).
Proof.
  unfold contains, indexOfFingerprint. pose proof (index_of_fp_spec f (m_devices m)) as Hs.
  destruct (index_of_fp f (m_devices m)); [|done]. destruct Hs as (d & Hd & <-).
  split; [intros _|done]. apply list_elem_of_fmap_2. by eapply list_elem_of_lookup_2.
Qed.
Lemma insert_at_perm {A} i (x : A) l : insert_at i x l ≡ₚ x :: l.
Proof. unfold insert_at. rewrite <- Permutation_middle. by rewrite take_drop. Qed.
Lemma insert_at_map {A B} (g : A -> B) i x l : map g (insert_at i x l) = insert_at i (g x) (map g l).
Proof. unfold insert_at. rewrite map_app. cbn. by rewrite firstn_map, skipn_map. Qed.

(** ** The order of the rows *)

Definition key (d : DeviceInfo) : qstring * qstring := (alias d, fingerprint d).
Definition le (a b : qstring * qstring) : Prop :=
  q_compare_ci a.1 b.1 < 0 \/ q_compare_ci a.1 b.1 = 0 /\ str_compare a.2 b.2 <> Gt.
Definition rows_sorted (l : list DeviceInfo) : Prop := StronglySorted le (map key l).

Lemma str_le_trans a b c : str_compare a b <> Gt -> str_compare b c <> Gt -> str_compare a c <> Gt.
Proof.
  destruct (str_compare a b) eqn:E1; [apply str_compare_eq in E1 as ->; done| |done].
  intros _. destruct (str_compare b c) eqn:E2; [apply str_compare_eq in E2 as ->; by rewrite E1| |done].
  intros _. by rewrite (str_compare_lt_trans _ _ _ E1 E2).
Qed.
Lemma cmp_flip a b : q_compare_ci a b <= 0 -> 0 <= q_compare_ci b a.
Proof. intros ?. pose proof (q_compare_sym a b). lia. Qed.
#[export] Instance le_trans : Transitive le.
Proof.
  intros [a f] [b g] [c h] K1 K2. unfold le in *. cbn in *.
  assert (Hab : q_compare_ci a b <= 0) by lia. assert (Hbc : q_compare_ci b c <= 0) by lia.
  pose proof (q_compare_trans a b c Hab Hbc) as Hac.
  destruct (decide (q_compare_ci a c = 0)) as [Hz|]; [|lia]. right. split; [done|].
  assert (Hca : q_compare_ci c a <= 0) by (pose proof (q_compare_sym a c); lia).
  pose proof (cmp_flip _ _ (q_compare_trans c a b Hca Hab)).
  pose proof (cmp_flip _ _ (q_compare_trans b c a Hbc Hca)).
  destruct K1 as [?|[_ K1]]; [lia|]. destruct K2 as [?|[_ K2]]; [lia|].
  by eapply str_le_trans.
Qed.
Lemma StronglySorted_sublist {A} (R : A -> A -> Prop) (l k : list A) :
  l `sublist_of` k -> StronglySorted R k -> StronglySorted R l.
Proof.
  induction 1 as [|x l k Hlk IH|x l k Hlk IH]; intros Hs; [done|..]; inversion_clear Hs as [|?? Hk Hf].
  - constructor; [by apply IH|]. by eapply sublist_Forall.
  - by apply IH.
Qed.

Lemma insertion_sorted x l :
  rows_sorted l -> rows_sorted (insert_at (insertion_point x l) x l).
Proof.
  unfold rows_sorted. rewrite insert_at_map.
  induction l as [|d l IH]; cbn [insertion_point map]; intros Hs; [by repeat constructor|].
  inversion_clear Hs as [|?? Hk Hf].
  assert (Hstop : le (key x) (key d) ->
    StronglySorted le (insert_at 0 (key x) (key d :: map key l))).
  { intros Hle. cbn. constructor; [by constructor|]. constructor; [done|].
    eapply Forall_impl; [exact Hf|]. intros b Hb. by etrans. }
  pose proof (q_compare_sym (alias d) (alias x)) as Hsym.
  destruct (Z.ltb_spec 0 (q_compare_ci (alias d) (alias x))); [apply Hstop; left; cbn; lia|].
  destruct ((q_compare_ci (alias d) (alias x) =? 0) && _) eqn:E.
  { apply andb_true_iff in E as [Ez%Z.eqb_eq Eg]. apply Hstop. right. cbn. split; [lia|].
    unfold str_gt in Eg. rewrite str_compare_antisym. by destruct (str_compare (fingerprint d) _). }
  cbn [insert_at take drop app]. constructor; [by apply IH|].
  change (Forall (le (key d)) (insert_at (insertion_point x l) (key x) (map key l))).
  rewrite insert_at_perm. constructor; [|done].
  unfold le. cbn. destruct (Z.eqb_spec (q_compare_ci (alias d) (alias x)) 0); [|lia].
  right. split; [done|]. cbn in E. unfold str_gt in E. by destruct (str_compare _ _).
Qed.

(** ** The invariant *)

Definition device_ok (d : DeviceInfo) : Prop :=
  fingerprint d <> [] /\ address d <> [] /\ is_Some (lastSeen d).
Record list_ok (l : list DeviceInfo) : Prop := {
  ok_devices : Forall device_ok l;
  ok_unique : NoDup (map fingerprint l);
  ok_sorted : rows_sorted l;
  ok_bound : len l <= MaxDevices
}.

Lemma list_ok_nil : list_ok [].
Proof. split; [constructor|constructor|constructor|done]. Qed.
Lemma list_ok_sublist l k : l `sublist_of` k -> list_ok k -> list_ok l.
Proof.
  intros Hs [K1 K2 K3 K4]. split.
  - by eapply sublist_Forall.
  - eapply sublist_NoDup; [exact K2|]. by apply fmap_sublist.
  - eapply StronglySorted_sublist; [|exact K3]. by apply fmap_sublist.
  - pose proof (sublist_len _ _ Hs). lia.
Qed.
Lemma list_ok_insert x l :
  list_ok l -> device_ok x -> fingerprint x ∉ map fingerprint l -> len l < MaxDevices ->
  list_ok (insert_at (insertion_point x l) x l).
Proof.
  intros [K1 K2 K3 K4] Hx Hn Hl. split.
  - rewrite insert_at_perm. by constructor.
  - rewrite insert_at_perm. by constructor.
  - by apply insertion_sorted.
  - unfold len in *. rewrite insert_at_perm. cbn. lia.
Qed.
Lemma list_ok_replace i x d l :
  list_ok l -> device_ok x -> l !! i = Some d -> key x = key d -> list_ok (<[i := x]> l).
Proof.
  intros [K1 K2 K3 K4] Hx Hi Hk.
  assert (Hm : map key (<[i := x]> l) = map key l).
  { change (key <$> <[i := x]> l = key <$> l). rewrite list_fmap_insert, Hk.
    apply list_insert_id. by rewrite list_lookup_fmap, Hi. }
  split.
  - by apply Forall_insert.
  - replace (map fingerprint (<[i := x]> l)) with (map snd (map key (<[i := x]> l))) by apply map_map.
    rewrite Hm, map_map. exact K2.
  - unfold rows_sorted. by rewrite Hm.
  - unfold len in *. by rewrite length_insert.
Qed.

Lemma prune_loop_filter now age l :
  forall tail b,
    (prune_loop now age (List.length l) (l ++ tail) b).1
    = List.filter (fresh_enough now age) l ++ tail
    /\ (prune_loop now age (List.length l) (l ++ tail) b).2
      = b || negb (forallb (fresh_enough now age) l).
Proof.
  induction l as [|d l IH] using rev_ind; intros tail b; [cbn; by rewrite orb_false_r|].
  rewrite length_app, Nat.add_1_r. cbn [prune_loop]. rewrite <- app_assoc.
  rewrite lookup_app_r, Nat.sub_diag by done. cbn [app lookup list_lookup].
  rewrite List.filter_app, forallb_app. cbn [List.filter forallb]. rewrite andb_true_r.
  destruct (fresh_enough now age d).
  - destruct (IH (d :: tail) b) as [-> ->]. by rewrite <- app_assoc, andb_true_r.
  - rewrite delete_middle. destruct (IH tail true) as [-> ->].
    by rewrite app_nil_r, andb_false_r, !orb_true_r.
Qed.
Lemma prune_devices now age m :
  m_devices (prune now age m) = List.filter (fresh_enough now age) (m_devices m).
Proof.
  unfold prune. destruct (prune_loop_filter now age (m_devices m) [] false) as [Hl _].
  rewrite !app_nil_r in Hl. destruct (prune_loop _ _ _ _ _) as [l []]; cbn in *; done.
Qed.

Lemma ok_remove f m : list_ok (m_devices m) -> list_ok (m_devices (remove f m)).
Proof.
  intros Hm. unfold remove. destruct (indexOfFingerprint f m); [|done].
  eapply list_ok_sublist; [|exact Hm]. apply sublist_delete.
Qed.
Lemma ok_upsert t known d m : list_ok (m_devices m) -> list_ok (m_devices (upsert t known d m).2).
Proof.
  intros Hm. unfold upsert. destruct (negb (isValid d) || is_empty (address d)) eqn:Ev; [done|].
  apply orb_false_iff in Ev as [Ev Ha]. apply negb_false_iff, negb_true_iff in Ev.
  set (x := d <| lastSeen := Some t |>).
  assert (Hx : device_ok x).
  { split_and!; [by apply is_empty_false|by apply is_empty_false|by eexists]. }
  case_match; [by apply ok_remove|].
  unfold indexOfFingerprint. pose proof (index_of_fp_spec (fingerprint d) (m_devices m)) as Hs.
  destruct (index_of_fp (fingerprint d) (m_devices m)) as [i|].
  - destruct Hs as (prev & Hp & Hf). rewrite Hp.
    change (default DeviceInfo0 (Some prev)) with prev.
    destruct (qeq (alias prev) (alias x)) eqn:Ea; cbn [negb].
    + apply qeq_spec in Ea. eapply (list_ok_replace i x prev); [done..|].
      unfold key. by rewrite <- Ea, Hf.
    + set (l := delete i (m_devices m)).
      assert (Hl : list_ok l) by (eapply list_ok_sublist; [apply sublist_delete|exact Hm]).
      apply (list_ok_insert x l Hl Hx).
      * pose proof (ok_unique _ Hm) as Hnd.
        rewrite (delete_Permutation _ _ _ Hp) in Hnd. cbn in Hnd.
        apply NoDup_cons in Hnd as [Hn _]. by rewrite Hf in Hn.
      * pose proof (ok_bound _ Hm). subst l. unfold len in *.
        pose proof (lookup_lt_Some _ _ _ Hp). rewrite length_delete by eauto. lia.
  - destruct (Z.leb_spec MaxDevices (count m)); [done|].
    by apply (list_ok_insert x (m_devices m)).
Qed.
Lemma ok_run_op m o : list_ok (m_devices m) -> list_ok (m_devices (run_op m o)).
Proof.
  intros Hm. destruct o as [t known d|f| |now age|]; cbn [run_op].
  - by apply ok_upsert.
  - by apply ok_remove.
  - unfold clear. case_match; [done|]. apply list_ok_nil.
  - rewrite prune_devices. eapply list_ok_sublist; [|exact Hm]. apply filter_sublist.
  - unfold onKnownChanged. by case_match.
Qed.

Lemma reachable_ok ops : list_ok (m_devices (foldl run_op DeviceModel0 ops)).
Proof.
  assert (Hinit : list_ok (m_devices DeviceModel0)) by apply list_ok_nil.
  revert Hinit. generalize DeviceModel0. induction ops as [|o ops IH]; intros m Hm; [done|].
  by apply IH, ok_run_op.
Qed.

(** C36: whatever is announced on the network, the list shown holds at most
    [MaxDevices] devices, each with a key and an address, one row per key,
    sorted by name and then key. *)
Theorem device_list_ok ops :
  let m := foldl run_op DeviceModel0 ops in
  Forall device_ok (m_devices m) /\ NoDup (map fingerprint (m_devices m))
  /\ StronglySorted le (map key (m_devices m)) /\ len (m_devices m) <= MaxDevices.
Proof.
  cbv zeta.
  pose proof (reachable_ok ops) as Hok.
  by destruct Hok.
Qed.

(** ** What one announcement does *)

Lemma by_fp_elem d m : list_ok (m_devices m) -> d ∈ m_devices m -> byFingerprint (fingerprint d) m = d.
Proof.
  intros Hm Hd. unfold byFingerprint, indexOfFingerprint.
  pose proof (index_of_fp_spec (fingerprint d) (m_devices m)) as Hs.
  destruct (index_of_fp _ _) as [i|].
  - destruct Hs as (e & He & Hf). rewrite He. change (e = d).
    apply list_elem_of_lookup_1 in Hd as [j Hj]. assert (Hn : NoDup (fingerprint <$> m_devices m)) by apply Hm.
    assert (i = j); [|by simplify_eq].
    eapply (NoDup_lookup _ i j (fingerprint d) Hn); rewrite list_lookup_fmap.
    + by rewrite He, <- Hf.
    + by rewrite Hj.
  - exfalso. apply Hs. by apply list_elem_of_fmap_2.
Qed.
Lemma by_fp_none f m : f ∉ map fingerprint (m_devices m) -> byFingerprint f m = DeviceInfo0.
Proof.
  intros Hn. unfold byFingerprint, indexOfFingerprint.
  pose proof (index_of_fp_spec f (m_devices m)) as Hs. destruct (index_of_fp _ _) as [i|]; [|done].
  destruct Hs as (e & He & <-). exfalso. apply Hn, list_elem_of_fmap_2.
  by eapply list_elem_of_lookup_2.
Qed.
Lemma by_fp_ext f m m' :
  list_ok (m_devices m) -> list_ok (m_devices m') ->
  (forall e, fingerprint e = f -> e ∈ m_devices m <-> e ∈ m_devices m') ->
  byFingerprint f m = byFingerprint f m'.
Proof.
  intros Hm Hm' He. destruct (decide (f ∈ map fingerprint (m_devices m))) as [Hin|Hin].
  - apply list_elem_of_fmap in Hin as (e & -> & Hin). rewrite !by_fp_elem; try done. by apply He.
  - rewrite !by_fp_none; [done| |done]. intros (e & -> & Hx)%list_elem_of_fmap.
    apply Hin, list_elem_of_fmap_2. by apply He.
Qed.

Definition blocked_by (known : catalogue) (d : DeviceInfo) : bool :=
  match known with Some kd => KnownDevices.isBlocked (fingerprint d) kd | None => false end.

(** The rows an announcement leaves: the other keys are untouched. *)
Lemma delete_elem l i (d e : DeviceInfo) :
  NoDup (map fingerprint l) -> l !! i = Some d ->
  e ∈ delete i l <-> e ∈ l /\ fingerprint e <> fingerprint d.
Proof.
  intros Hn Hi. pose proof (delete_Permutation _ _ _ Hi) as Hp. rewrite Hp in Hn. cbn in Hn.
  apply NoDup_cons in Hn as [Hn _]. rewrite Hp at 2. rewrite elem_of_cons. split.
  - intros He. split; [by right|]. intros Hf. apply Hn. rewrite <- Hf. by apply list_elem_of_fmap_2.
  - intros [[->|He] Hf]; [done|done].
Qed.
Lemma remove_elem f m e :
  list_ok (m_devices m) -> e ∈ m_devices (remove f m) <-> e ∈ m_devices m /\ fingerprint e <> f.
Proof.
  intros Hm. unfold remove, indexOfFingerprint. pose proof (index_of_fp_spec f (m_devices m)) as Hs.
  destruct (index_of_fp f (m_devices m)) as [i|].
  - destruct Hs as (d & Hd & <-). apply (delete_elem (m_devices m) i d e (ok_unique _ Hm) Hd).
  - split; [|by intros []]. intros He. split; [done|]. intros <-. by apply Hs, list_elem_of_fmap_2.
Qed.
Lemma replace_elem l i (d x e : DeviceInfo) :
  NoDup (map fingerprint l) -> l !! i = Some d ->
  e ∈ <[i := x]> l <-> e = x \/ e ∈ l /\ fingerprint e <> fingerprint d.
Proof.
  intros Hn Hi. pose proof (lookup_lt_Some _ _ _ Hi) as Hlt.
  rewrite <- (delete_elem l i d e Hn Hi).
  assert (<[i := x]> l ≡ₚ x :: delete i l) as ->.
  { rewrite insert_take_drop by done. rewrite <- Permutation_middle. by rewrite delete_take_drop. }
  apply elem_of_cons.
Qed.

(** One announcement, on every branch. [upsert] answers true, and the
    pages are told, exactly for a usable device that is not blocked, not yet
    listed, and for which there is room; a refresh replaces what was known of
    the device and its date; a blocked device is taken off the list; and no
    announcement changes another device's row. *)
Theorem upsert_spec ops t known d :
  let m := foldl run_op DeviceModel0 ops in
  let '(first, m') := upsert t known d m in
  let usable := isValid d = true /\ address d <> [] in
  (first = true <-> usable /\ blocked_by known d = false
                    /\ contains (fingerprint d) m = false /\ count m < MaxDevices)
  /\ (first = true -> m_emitted m' = deviceAppeared (alias d) :: countChanged :: m_emitted m)
  /\ (usable -> blocked_by known d = true -> contains (fingerprint d) m' = false)
  /\ (usable -> blocked_by known d = false -> contains (fingerprint d) m = true \/ first = true ->
      byFingerprint (fingerprint d) m' = d <| lastSeen := Some t |>)
  /\ (forall f, f <> fingerprint d -> byFingerprint f m' = byFingerprint f m).
Proof.
  cbv zeta. pose proof (reachable_ok ops) as Hm. set (m := foldl run_op DeviceModel0 ops) in *.
  clearbody m. pose proof (ok_upsert t known d m Hm) as Hm'. revert Hm'.
  unfold upsert. fold (blocked_by known d).
  destruct (isValid d) eqn:Ev; cbn [negb orb]; [|intros _; split_and!; intuition done].
  destruct (is_empty (address d)) eqn:Ea.
  { intros _. apply is_empty_spec in Ea. split_and!; intuition done. }
  apply is_empty_false in Ea.
  destruct (blocked_by known d) eqn:Eb.
  { cbn [snd]. intros Hm'. split_and!; [intuition done|done| |intuition done|].
    - intros _ _. apply not_true_iff_false. rewrite contains_elem.
      intros (e & He & Hin)%list_elem_of_fmap. apply remove_elem in Hin as [_ Hne]; done.
    - intros f Hf. apply by_fp_ext; [done..|]. intros e He. rewrite remove_elem by done.
      intuition congruence. }
  set (x := d <| lastSeen := Some t |>).
  assert (Hsum : forall m2 : DeviceModel, list_ok (m_devices m2) ->
    (forall e, e ∈ m_devices m2 <-> e = x \/ e ∈ m_devices m /\ fingerprint e <> fingerprint d) ->
    byFingerprint (fingerprint d) m2 = x
    /\ forall f, f <> fingerprint d -> byFingerprint f m2 = byFingerprint f m).
  { intros m2 Hm2 He. split.
    - apply (by_fp_elem x m2 Hm2). apply He. by left.
    - intros f Hf. apply by_fp_ext; [done..|]. intros e <-. rewrite He. split; [|by right].
      intros [->|[? _]]; done. }
  unfold contains, indexOfFingerprint. pose proof (index_of_fp_spec (fingerprint d) (m_devices m)) as Hs.
  destruct (index_of_fp (fingerprint d) (m_devices m)) as [i|].
  - destruct Hs as (prev & Hp & Hf). rewrite Hp. change (default DeviceInfo0 (Some prev)) with prev.
    destruct (negb (qeq (alias prev) (alias x))); cbn [snd]; intros Hm'.
    + edestruct Hsum as [Hs1 Hs2]; [exact Hm'| |].
      * intros e. cbn -[insert_at delete]. rewrite insert_at_perm, elem_of_cons.
        rewrite (delete_elem _ i prev e (ok_unique _ Hm) Hp), Hf. done.
      * split_and!; [intuition done|done|intuition done|done|done].
    + edestruct Hsum as [Hs1 Hs2]; [exact Hm'| |].
      * intros e. rewrite <- Hf. apply (replace_elem _ i prev x e (ok_unique _ Hm) Hp).
      * split_and!; [intuition done|done|intuition done|done|done].
  - destruct (Z.leb_spec MaxDevices (count m)); cbn [snd]; intros Hm'.
    + split_and!; [intuition (done || lia)|done|intuition done|intuition done|done].
    + edestruct Hsum as [Hs1 Hs2]; [exact Hm'| |].
      * intros e. cbn -[insert_at]. rewrite insert_at_perm, elem_of_cons. split; [|intuition].
        intros [->|He]; [by left|]. right. split; [done|]. intros Hf. apply Hs. rewrite <- Hf.
        by apply list_elem_of_fmap_2.
      * split_and!; [intuition done|done|intuition done|done|done].
Qed.

End DeviceModel.
End DeviceModel.
