(* ===== verification/FileNames.v ===== *)
(** * FileNames: the destination names of src/src/receiveservice.cpp

    What a peer's file name becomes on this device: [sanitizeFileName],
    [reserveFilePath] and [looksLikeSha256]. Which paths exist is an argument. *)
From S2P Require Import Prelude Crypto Reference Protocol.

Module FileNames.

(** [QFileInfo]: [fileName()], and of a file name [suffix()] and
    [completeBaseName()], split at the last dot. *)
Definition info_fileName (path : qstring) : qstring :=
  match last_index_of 47 path with None => path | Some i => drop (S i) path end.
Definition info_suffix (name : qstring) : qstring :=
  match last_index_of 46 name with None => [] | Some i => drop (S i) name end.
Definition info_completeBaseName (name : qstring) : qstring :=
  match last_index_of 46 name with None => name | Some i => take i name end.

Definition PartSuffix : qstring := lit ".part".

(** [isxdigit] of [toLatin1()]. *)
Definition is_xdigit (c : Z) : bool :=
  ((48 <=? c) && (c <=? 57)) || ((97 <=? c) && (c <=? 102)) || ((65 <=? c) && (c <=? 70)).
Definition looksLikeSha256 (digest : qstring) : bool :=
  if negb (len digest =? 64) then false else forallb is_xdigit digest.

Section FileNames.
Context `{QtText}.

(** A name longer than the limit keeps its suffix. *)
Definition shorten (clean : qstring) : qstring :=
  if 200 <? len clean
  then
    let suffix := info_suffix clean in
    let clean := qleft (if is_empty suffix then 200 else 200 - len suffix - 1) clean in
    if negb (is_empty suffix) then clean ++ lit "." ++ suffix else clean
  else clean.
Definition unshortened (name : qstring) : qstring :=
  let clean := info_fileName (Protocol.sanitizeText name 200) in
  let clean := replace_char 92 95 clean in
  let clean := replace_char 47 95 clean in
  if is_empty clean || qeq clean (lit ".") || qeq clean (lit "..")
  then lit "received-file" else clean.
Definition sanitizeFileName (name : qstring) : qstring := shorten (unshortened name).

Definition free (exists_ : qstring -> bool) (candidate : qstring) : bool :=
  negb (exists_ candidate) && negb (exists_ (candidate ++ PartSuffix)).
(** The name tried for [n]. *)
Definition numbered (base suffix : qstring) (n : nat) : qstring :=
  let name := base ++ lit " (" ++ number (Z.of_nat n) ++ lit ")" in
  if negb (is_empty suffix) then name ++ lit "." ++ suffix else name.
Fixpoint reserve_loop (exists_ : qstring -> bool) (directory base suffix : qstring) (ns : list nat) : qstring :=
  match ns with
  | [] => []
  | n :: ns =>
      let candidate := directory ++ lit "/" ++ numbered base suffix n in
      if free exists_ candidate then candidate else reserve_loop exists_ directory base suffix ns
  end.
Definition stem_of (clean : qstring) : qstring * qstring :=
  let base := info_completeBaseName clean in
  let suffix := info_suffix clean in
  if is_empty base then (clean, []) else (base, suffix).
Definition reserveFilePath (exists_ : qstring -> bool) (directory fileName : qstring) : qstring :=
  let clean := sanitizeFileName fileName in
  let candidate := directory ++ lit "/" ++ clean in
  if free exists_ candidate then candidate
  else
    let '(base, suffix) := stem_of clean in
    reserve_loop exists_ directory base suffix (seq 2 998).

(** ** Safe names *)

(** A name that stays in its directory. *)
Definition stays (name : qstring) : Prop :=
  name <> [] /\ 47 ∉ name /\ 92 ∉ name /\ name <> lit "." /\ name <> lit "..".

Lemma last_index_spec c s :
  match last_index_of c s with
  | Some i => exists before after, s = before ++ c :: after /\ List.length before = i /\ c ∉ after
  | None => c ∉ s
  end.
Proof.
  induction s as [|x s IH]; cbn; [apply not_elem_of_nil|].
  destruct (last_index_of c s) as [i|].
  - destruct IH as (b & a & -> & <- & Ha). exists (x :: b), a. done.
  - destruct (Z.eqb_spec x c) as [->|Hx].
    + exists [], s. done.
    + apply not_elem_of_cons. split; [congruence|done].
Qed.
Lemma info_fileName_spec path : 47 ∉ info_fileName path /\ info_fileName path `suffix_of` path.
Proof.
  unfold info_fileName. pose proof (last_index_spec 47 path) as Hl. destruct (last_index_of 47 path).
  - destruct Hl as (b & a & -> & <- & Ha).
    replace (drop (S (List.length b)) (b ++ 47 :: a)) with a.
    + split; [done|]. exists (b ++ [47]). by rewrite <- app_assoc.
    + change (47 :: a) with ([47] ++ a). rewrite app_assoc.
      replace (S (List.length b)) with (List.length (b ++ [47])) by (rewrite length_app; cbn; lia).
      by rewrite drop_app_length.
  - done.
Qed.
Lemma replace_char_notin a b s : a <> b -> a ∉ replace_char a b s.
Proof.
  intros Hab Hin. unfold replace_char in Hin. apply list_elem_of_In, in_map_iff in Hin as (x & Hx & _).
  destruct (Z.eqb_spec x a); congruence.
Qed.
Lemma replace_char_keeps a b c s : c <> b -> c ∈ replace_char a b s -> c ∈ s.
Proof.
  intros Hb Hin. unfold replace_char in Hin. apply list_elem_of_In, in_map_iff in Hin as (x & Hx & Hs).
  destruct (Z.eqb_spec x a); [congruence|]. subst. by apply list_elem_of_In.
Qed.
Lemma replace_char_length a b s : len (replace_char a b s) = len s.
Proof. unfold replace_char. apply len_map. Qed.
Lemma replace_char_Forall (P : Z -> Prop) a b s : P b -> Forall P s -> Forall P (replace_char a b s).
Proof.
  intros Hb Hs. unfold replace_char. apply Forall_map. eapply Forall_impl; [exact Hs|].
  intros x Hx. cbn. by case_match.
Qed.
Lemma suffix_len (s t : qstring) : s `suffix_of` t -> len s <= len t.
Proof. intros [k ->]. rewrite len_app. pose proof (len_nonneg k). lia. Qed.
Lemma suffix_Forall (P : Z -> Prop) (s t : qstring) : s `suffix_of` t -> Forall P t -> Forall P s.
Proof. intros [k ->] Hf. by apply Forall_app in Hf as [_ ?]. Qed.

Lemma shorten_short clean : len clean <= 200 -> shorten clean = clean.
Proof. intros Hl. unfold shorten. by rewrite (proj2 (Z.ltb_ge _ _)) by done. Qed.

Lemma unshortened_safe name :
  stays (unshortened name) /\ Forall Protocol.safe (unshortened name) /\ len (unshortened name) <= 200.
Proof.
  unfold unshortened. set (text := Protocol.sanitizeText name 200).
  destruct (info_fileName_spec text) as [H47 Hsuf].
  set (c1 := replace_char 92 95 (info_fileName text)). set (c2 := replace_char 47 95 c1).
  assert (Hlen : len c2 <= 200).
  { unfold c2, c1. rewrite !replace_char_length. pose proof (suffix_len _ _ Hsuf).
    pose proof (Protocol.sanitize_length name 200) as Ht. fold text in Ht. lia. }
  assert (Hsafe : Forall Protocol.safe c2).
  { unfold c2, c1. apply replace_char_Forall; [done|]. apply replace_char_Forall; [done|].
    eapply suffix_Forall; [exact Hsuf|]. apply Protocol.sanitize_safe. }
  assert (Hno : 47 ∉ c2 /\ 92 ∉ c2).
  { split; [by apply replace_char_notin|]. intros Hin. apply replace_char_keeps in Hin; [|done].
    by apply replace_char_notin in Hin. }
  assert (Hdef : stays (lit "received-file") /\ Forall Protocol.safe (lit "received-file")
    /\ len (lit "received-file") <= 200).
  { split; [|split; [by apply (bool_decide_unpack _)|done]].
    split; [done|]. split_and!; by apply (bool_decide_unpack _). }
  set (c3 := if is_empty c2 || _ || _ then lit "received-file" else c2).
  assert (H3 : stays c3 /\ Forall Protocol.safe c3 /\ len c3 <= 200).
  { unfold c3. destruct (is_empty c2) eqn:E1; [done|]. destruct (qeq c2 (lit ".")) eqn:E2; [done|].
    destruct (qeq c2 (lit "..")) eqn:E3; [done|]. cbn [orb].
    apply is_empty_false in E1. apply qeq_false in E2, E3. destruct Hno.
    split; [by split_and!|done]. }
  exact H3.
Qed.
Lemma sanitized_stays name : stays (sanitizeFileName name).
Proof.
  destruct (unshortened_safe name) as (S1 & S2 & S3). unfold sanitizeFileName. by rewrite shorten_short.
Qed.

(** C28: a peer cannot choose where its file goes. Whatever name it sends, the
    name used is not empty, holds no separator, is not a dot name, has none of
    the characters that forge what is displayed, and is at most 200 code units
    long (so the branch that shortens longer names is never taken). *)
Theorem sanitized_name_is_safe name :
  let clean := sanitizeFileName name in
  stays clean /\ Forall Protocol.safe clean /\ len clean <= 200 /\ clean = unshortened name.
Proof.
  cbv zeta. destruct (unshortened_safe name) as (S1 & S2 & S3). unfold sanitizeFileName.
  by rewrite shorten_short.
Qed.

(** ** Free paths *)

Lemma free_spec e c : free e c = true <-> e c = false /\ e (c ++ PartSuffix) = false.
Proof. unfold free. rewrite andb_true_iff, !negb_true_iff. done. Qed.
Lemma reserve_loop_spec e directory base suffix ns :
  let p := reserve_loop e directory base suffix ns in
  (p = [] /\ Forall (fun n => free e (directory ++ lit "/" ++ numbered base suffix n) = false) ns)
  \/ (exists n, n ∈ ns /\ p = directory ++ lit "/" ++ numbered base suffix n /\ free e p = true).
Proof.
  cbv zeta. induction ns as [|n ns IH]; cbn [reserve_loop]; [left; by split; [|constructor]|].
  destruct (free e (directory ++ lit "/" ++ numbered base suffix n)) eqn:Ef.
  - right. exists n. split_and!; [by left|done|done].
  - destruct IH as [[-> Hf]|(m & Hm & Hp & Hfr)]; [left; split; [done|by constructor]|].
    right. exists m. split_and!; [by right|done|done].
Qed.
Lemma numbered_stays base suffix n :
  base <> [] -> 47 ∉ base -> 92 ∉ base -> 47 ∉ suffix -> 92 ∉ suffix -> stays (numbered base suffix n).
Proof.
  intros Hb H1 H2 H3 H4.
  assert (Hnum : forall c, c = 47 \/ c = 92 -> c ∉ number (Z.of_nat n)).
  { intros c Hc Hin.
    pose proof (number_nat_digits n) as Hd.
    rewrite Forall_forall in Hd. specialize (Hd c Hin). lia. }
  assert (Hno : forall c, c = 47 \/ c = 92 -> c ∉ numbered base suffix n).
  { intros c Hc. unfold numbered. destruct (negb (is_empty suffix)).
    all: rewrite ?elem_of_app; intros Hin.
    all: repeat match goal with
      | H : _ \/ _ |- _ => destruct H
      | H : _ ∈ _ ++ _ |- _ => apply elem_of_app in H
      end; subst; try done; try (by eapply Hnum; [|eassumption]; auto).
    all: match goal with H : ?c ∈ lit _ |- _ => revert H end.
    all: match goal with |- ?P -> False => change (¬ P) end; by apply (bool_decide_unpack _). }
  destruct base as [|b base]; [done|].
  assert (Hlen : (2 < List.length (numbered (b :: base) suffix n))%nat).
  { unfold numbered. destruct (negb _); rewrite !length_app; cbn; lia. }
  split; [by intros Hn; rewrite Hn in Hlen; cbn in Hlen; lia|].
  split_and!; [apply Hno; by left|apply Hno; by right|..]; intros Hn; rewrite Hn in Hlen; cbn in Hlen; lia.
Qed.

Lemma notin_app c (a b : qstring) : c ∉ a -> c ∉ b -> c ∉ a ++ b.
Proof. intros Ha Hb. by intros [?|?]%elem_of_app. Qed.
Lemma stem_spec clean :
  stays clean ->
  let '(base, suffix) := stem_of clean in
  base <> [] /\ 47 ∉ base /\ 92 ∉ base /\ 47 ∉ suffix /\ 92 ∉ suffix.
Proof.
  intros (S1 & S2 & S3 & _ & _). unfold stem_of, info_completeBaseName, info_suffix.
  pose proof (last_index_spec 46 clean) as Hl. destruct (last_index_of 46 clean) as [i|].
  - destruct Hl as (b & a & -> & <- & Ha).
    rewrite take_app_length.
    replace (drop (S (List.length b)) (b ++ 46 :: a)) with a.
    2: { change (46 :: a) with ([46] ++ a). rewrite app_assoc.
         replace (S (List.length b)) with (List.length (b ++ [46])) by (rewrite length_app; cbn; lia).
         by rewrite drop_app_length. }
    rewrite elem_of_app, elem_of_cons in S2, S3.
    destruct (is_empty b) eqn:Eb.
    + split_and!; [done| | |apply not_elem_of_nil..]; rewrite elem_of_app, elem_of_cons; tauto.
    + apply is_empty_false in Eb. split_and!; [done|tauto..].
  - destruct (is_empty clean) eqn:Eb; split_and!; try done; apply not_elem_of_nil.
Qed.

Lemma reserved_fresh exists_ directory fileName :
  let p := reserveFilePath exists_ directory fileName in
  p <> [] -> exists name, p = directory ++ lit "/" ++ name /\ stays name
     /\ exists_ p = false /\ exists_ (p ++ PartSuffix) = false.
Proof.
  cbv zeta. unfold reserveFilePath. set (clean := sanitizeFileName fileName).
  assert (Hst : stays clean) by apply sanitized_stays.
  pose proof (stem_spec clean Hst) as Hstem.
  destruct (stem_of clean) as [base suffix]. destruct Hstem as (B1 & B2 & B3 & B4 & B5).
  destruct (free exists_ (directory ++ lit "/" ++ clean)) eqn:Ef.
  - intros _. exists clean. by apply free_spec in Ef.
  - destruct (reserve_loop_spec exists_ directory base suffix (seq 2 998)) as [[-> _]|(m & _ & -> & Hfr)]; [done|].
    intros _. exists (numbered base suffix m). apply free_spec in Hfr.
    split_and!; [done|by apply numbered_stays|apply Hfr..].
Qed.

(** A received file never lands on an existing one, and never outside the
    directory chosen. The path reserved is the directory, a slash and a name
    that stays there; neither it nor its [.part] exists. No path is given only
    when the name and every numbered variant, 2 to 999, are taken. *)
Theorem reserved_path_is_free exists_ directory fileName :
  let p := reserveFilePath exists_ directory fileName in
  (p <> [] -> exists name, p = directory ++ lit "/" ++ name /\ stays name
     /\ exists_ p = false /\ exists_ (p ++ PartSuffix) = false)
  /\ (p = [] <->
      let clean := sanitizeFileName fileName in
      free exists_ (directory ++ lit "/" ++ clean) = false
      /\ forall n, (2 <= n <= 999)%nat ->
           free exists_ (directory ++ lit "/" ++ numbered (stem_of clean).1 (stem_of clean).2 n) = false).
Proof.
  cbv zeta. split; [apply reserved_fresh|]. unfold reserveFilePath. set (clean := sanitizeFileName fileName).
  destruct (stem_of clean) as [base suffix]. cbn [fst snd].
  destruct (free exists_ (directory ++ lit "/" ++ clean)) eqn:Ef.
  - split; [|by intros [? _]]. intros Hn%app_eq_nil. by destruct Hn.
  - pose proof (reserve_loop_spec exists_ directory base suffix (seq 2 998)) as Hl. cbv zeta in Hl.
    destruct (reserve_loop _ _ _ _ _) as [|x p] eqn:Ep.
    + split; [|done]. intros _. split; [done|]. intros n Hn.
      destruct Hl as [[_ Hf]|(m & _ & Hm & _)]; [|by destruct directory].
      rewrite Forall_forall in Hf. apply Hf, elem_of_seq. lia.
    + destruct Hl as [[? _]|(m & Hin%elem_of_seq & Hm & Hfr)]; [done|]. rewrite Hm in *.
      split; [intros Hn%app_eq_nil; by destruct Hn|]. intros [_ Hall].
      rewrite Hall in Hfr by lia. done.
Qed.
End FileNames.
End FileNames.

Module ReferenceNames.
Import Reference FileNames.
(** "a.jpg" is there, and a part of "a (2).jpg". *)
Definition taken (p : qstring) : bool := qeq p (lit "/d/a.jpg") || qeq p (lit "/d/a (2).jpg.part").
Lemma reserved_path_is_free_witness :
  reserveFilePath taken (lit "/d") (lit "../x/a.jpg") = lit "/d/a (3).jpg"
  /\ exists name, lit "/d/a (3).jpg" = lit "/d" ++ lit "/" ++ name /\ stays name.
Proof.
  assert (Hp : reserveFilePath taken (lit "/d") (lit "../x/a.jpg") = lit "/d/a (3).jpg") by (vm_compute; reflexivity).
  split; [exact Hp|].
  destruct (proj1 (reserved_path_is_free taken (lit "/d") (lit "../x/a.jpg"))) as (name & Hn & Hs & _).
  - rewrite Hp. vm_compute. discriminate.
  - exists name. rewrite <- Hp. split; [exact Hn|exact Hs].
Defined.
End ReferenceNames.
