(* ===== verification/Network.v ===== *)
(** * Network: what the services hand to QNetworkAccessManager

    A request as it leaves: its URL, its body, the TLS configuration and the
    policy installed on its reply. Parsing a URL's text is Qt's. *)
From S2P Require Import Prelude Crypto TlsClient.

Record Url := mkUrl {
  scheme : qstring; host : qstring; url_port : option Z; url_path : qstring;
  url_query : list (qstring * qstring)
}.
#[export] Instance eta_Url : Settable Url := fun r =>
  mkUrl (scheme r) (host r) (url_port r) (url_path r) (url_query r).
Class UrlText := { parse_url : qstring -> Url }.

Inductive Body := Bytes (b : bytes) | File (path : qstring).
Record Request := mkRequest {
  req_url : Url;
  req_contentType : bytes;
  req_contentLength : option Z;                (* when the caller sets it *)
  req_body : Body;
  req_tls : option TlsClient.TlsConfig;        (* None: Qt's default *)
  req_policy : TlsClient.Policy
}.

(** How a reply ends: the HTTP status ([0] for none), the error text if there
    is one, the body, the certificate of the peer. *)
Record Outcome := mkOutcome {
  out_error : option qstring;
  out_status : Z;
  out_body : bytes;
  out_certificate : option bytes
}.
Definition json_content : bytes := lit "application/json".
