(* ===== verification/JsNumber.v ===== *)
(** * JsNumber: the numbers of the two JavaScript libraries of the pages

    A finite JavaScript number is the rational it stands for, kept in lowest
    terms. [rnd] is the rounding of IEEE 754 binary64 (nearest, ties to even,
    subnormals included), and every arithmetic operation rounds its exact
    result once, as ECMAScript demands. Infinities and NaN are left out: no
    operation of the two libraries leaves the finite range (a divisor is a
    non-zero literal, and the largest product is below [2^31 * 138]). *)
From S2P Require Import Prelude.
From Stdlib Require Import QArith Qround Qminmax Qpower Qabs Lqa.

Module JsNumber.
#[local] Open Scope Q_scope.

(** ** Rounding *)

(** [floor(log2 x)] of a positive number. *)
Definition binade (x : Q) : Z :=
  let k := (Z.log2 (Qnum x) - Z.log2 (Zpos (Qden x)))%Z in
  if Qle_bool (2 ^ k) x then k else (k - 1)%Z.
(** The exponent of the last of the 53 bits. *)
Definition last_bit (x : Q) : Z := Z.max (-1074) (binade x - 52).
Definition half_even (x : Q) : Z :=
  let f := Qfloor x in
  match Qcompare (x - inject_Z f) (1 # 2) with
  | Lt => f
  | Gt => (f + 1)%Z
  | Eq => if Z.even f then f else (f + 1)%Z
  end.
Definition rnd_pos (x : Q) : Q :=
  let u := 2 ^ last_bit x in inject_Z (half_even (x / u)) * u.
Definition rnd (x : Q) : Q :=
  match Qcompare x 0 with
  | Eq => 0
  | Gt => Qred (rnd_pos x)
  | Lt => Qred (- rnd_pos (- x))
  end.

(** ** Operations *)
Definition of_int (z : Z) : Q := rnd (inject_Z z).
Definition add (x y : Q) : Q := rnd (x + y).
Definition sub (x y : Q) : Q := rnd (x - y).
Definition mul (x y : Q) : Q := rnd (x * y).
Definition div (x y : Q) : Q := rnd (x / y).
Definition lt (x y : Q) : bool := negb (Qle_bool y x).
Definition le (x y : Q) : bool := Qle_bool x y.
Definition is_zero (x : Q) : bool := Qeq_bool x 0.
(** [%] is exact: the remainder of the quotient cut towards zero. *)
Definition trunc (x : Q) : Z := if Qle_bool 0 x then Qfloor x else Qceiling x.
Definition rem (x y : Q) : Q := Qred (x - y * inject_Z (trunc (x / y))).
Definition min (x y : Q) : Q := if Qle_bool x y then x else y.
Definition max (x y : Q) : Q := if Qle_bool x y then y else x.
(** [Math.floor], and [Math.round] with ties going up. *)
Definition floor (x : Q) : Z := Qfloor x.
Definition round (x : Q) : Z := Qfloor (x + (1 # 2)).

(** [toFixed(f)] of a non-negative number below [10^21]: the integer nearest
    to [x * 10^f], the larger one of two, with the point [f] digits from its end. *)
Definition fixed_units (f : nat) (x : Q) : Z :=
  Qfloor (x * inject_Z (10 ^ Z.of_nat f) + (1 # 2)).
Definition point (f : nat) (n : Z) : qstring :=
  match f with
  | O => number n
  | _ =>
      let m := number n in
      let m := if (List.length m <=? f)%nat then repeat 48%Z (f + 1 - List.length m) ++ m else m in
      let k := (List.length m - f)%nat in
      (take k m ++ lit "." ++ drop k m)%list
  end.
Definition toFixed (f : nat) (x : Q) : qstring := point f (fixed_units f x).

(** [ToInt32] of an integer, as the bit operators apply it. *)
Definition to_int32 (z : Z) : Z := wrap32 z.

(** ** Powers of two *)

Lemma pow2_pos e : 0 < 2 ^ e.
Proof. apply Qpower_0_lt. reflexivity. Qed.
Lemma pow2_add a b : 2 ^ (a + b) == 2 ^ a * 2 ^ b.
Proof. apply Qpower_plus. discriminate. Qed.
Lemma pow2_nonneg e : (0 <= e)%Z -> 2 ^ e == inject_Z (2 ^ e).
Proof. intros He. change 2 with (inject_Z 2) at 1. by rewrite Zpower_Qpower. Qed.
Lemma pow2_mono a b : (a <= b)%Z -> 2 ^ a <= 2 ^ b.
Proof. intros Hab. apply Qpower_le_compat_l; [done|]. discriminate. Qed.
Lemma pow2_lt_inv a b : 2 ^ a < 2 ^ b -> (a < b)%Z.
Proof.
  intros Hlt. destruct (Z.lt_ge_cases a b) as [Hab|Hba]; [done|].
  apply pow2_mono in Hba. lra.
Qed.
Lemma div_pow2 x e : x / 2 ^ e == x * 2 ^ (- e).
Proof. unfold Qdiv. by rewrite Qpower_opp. Qed.
Lemma mul_div_pow2 x e : x / 2 ^ e * 2 ^ e == x.
Proof. pose proof (pow2_pos e). field. lra. Qed.

Lemma binade_spec x : 0 < x -> 2 ^ binade x <= x /\ x < 2 ^ (binade x + 1).
Proof.
  intros Hx. unfold binade. set (k := (Z.log2 (Qnum x) - Z.log2 (Zpos (Qden x)))%Z).
  assert (Hn : (0 < Qnum x)%Z) by (destruct x; unfold Qlt in Hx; cbn in *; lia).
  destruct (Z.log2_spec _ Hn) as [Hn1 Hn2].
  destruct (Z.log2_spec (Zpos (Qden x)) ltac:(lia)) as [Hd1 Hd2].
  pose proof (Z.log2_nonneg (Qnum x)) as Hln. pose proof (Z.log2_nonneg (Zpos (Qden x))) as Hld.
  assert (Hxe : x * inject_Z (Zpos (Qden x)) == inject_Z (Qnum x)).
  { destruct x as [n d]. unfold Qeq, Qmult, inject_Z. cbn. lia. }
  assert (Hk : 2 ^ k * 2 ^ Z.log2 (Zpos (Qden x)) == 2 ^ Z.log2 (Qnum x)).
  { rewrite <- pow2_add. apply Qpower_comp; [reflexivity|]. unfold k. lia. }
  pose proof (pow2_nonneg _ Hln) as Hpn. pose proof (pow2_nonneg _ Hld) as Hpd. rewrite Hpn, Hpd in Hk. clear Hpn Hpd.
  rewrite Zle_Qle in Hn1, Hd1. rewrite Zlt_Qlt in Hn2, Hd2.
  rewrite Z.pow_succ_r, inject_Z_mult in Hn2, Hd2 by done.
  change (inject_Z 2) with 2 in *.
  set (d := inject_Z (Zpos (Qden x))) in *. set (n := inject_Z (Qnum x)) in *.
  set (pd := inject_Z (2 ^ Z.log2 (Zpos (Qden x)))) in *.
  set (pn := inject_Z (2 ^ Z.log2 (Qnum x))) in *.
  assert (Hpk : 0 < 2 ^ k) by apply pow2_pos.
  assert (Hpd : 0 < pd) by (unfold pd; change 0 with (inject_Z 0); rewrite <- Zlt_Qlt; lia).
  assert (Hup : x < 2 ^ k * 2) by nra.
  assert (Hlo : 2 ^ k < x * 2) by nra.
  destruct (Qle_bool (2 ^ k) x) eqn:E.
  - apply Qle_bool_iff in E. split; [done|]. rewrite pow2_add. done.
  - assert (~ 2 ^ k <= x) as E' by (rewrite <- Qle_bool_iff; congruence).
    replace (k - 1 + 1)%Z with k by lia. split; [|lra].
    replace (k - 1)%Z with (k + -1)%Z by lia. rewrite pow2_add. change (2 ^ (-1)) with (1 # 2). lra.
Qed.
Lemma binade_mono x y : 0 < x -> x <= y -> (binade x <= binade y)%Z.
Proof.
  intros Hx Hxy. destruct (binade_spec x Hx) as [Hx1 _].
  destruct (binade_spec y) as [_ Hy2]; [lra|].
  enough (binade x < binade y + 1)%Z by lia. apply pow2_lt_inv. lra.
Qed.

(** ** Rounding to an integer *)

Lemma half_even_comp x y : x == y -> half_even x = half_even y.
Proof. intros Hxy. unfold half_even. by rewrite (Qfloor_comp _ _ Hxy), Hxy. Qed.
Lemma half_even_near x :
  inject_Z (half_even x) - (1 # 2) <= x /\ x <= inject_Z (half_even x) + (1 # 2).
Proof.
  unfold half_even. pose proof (Qfloor_le x) as Hlo. pose proof (Qlt_floor x) as Hup.
  rewrite inject_Z_plus in Hup. change (inject_Z 1) with 1 in Hup. cbv zeta.
  destruct (Qcompare_spec (x - inject_Z (Qfloor x)) (1 # 2)); [destruct (Z.even (Qfloor x))|..];
    rewrite ?inject_Z_plus; change (inject_Z 1) with 1; lra.
Qed.
Lemma half_even_mono x y : x <= y -> (half_even x <= half_even y)%Z.
Proof.
  intros Hxy. destruct (Z.le_gt_cases (half_even x) (half_even y)) as [|Hgt]; [done|].
  destruct (half_even_near x) as [Hx _]. destruct (half_even_near y) as [_ Hy].
  assert (Hz : inject_Z (half_even y) + 1 <= inject_Z (half_even x)).
  { change 1 with (inject_Z 1). rewrite <- inject_Z_plus, <- Zle_Qle. lia. }
  rewrite (half_even_comp x y) by lra. done.
Qed.
Lemma half_even_Z x z : x == inject_Z z -> half_even x = z.
Proof.
  intros Hx. rewrite (half_even_comp _ _ Hx). unfold half_even. rewrite Qfloor_Z. cbv zeta.
  destruct (Qcompare_spec (inject_Z z - inject_Z z) (1 # 2)); [lra|done|lra].
Qed.

(** ** Rounding to a double *)

Lemma last_bit_mono x y : 0 < x -> x <= y -> (last_bit x <= last_bit y)%Z.
Proof. intros Hx Hxy. unfold last_bit. pose proof (binade_mono x y Hx Hxy). lia. Qed.
(** A number below [2^k] rounds to at most [2^k], one above to at least. *)
Lemma scaled_mono u x y : x <= y -> x / 2 ^ u <= y / 2 ^ u.
Proof. intros Hxy. apply Qmult_le_compat_r; [done|]. apply Qlt_le_weak, Qinv_lt_0_compat, pow2_pos. Qed.
Lemma rnd_pos_pow2 x k : (last_bit x <= k)%Z ->
  (x <= 2 ^ k -> rnd_pos x <= 2 ^ k) /\ (2 ^ k <= x -> 2 ^ k <= rnd_pos x).
Proof.
  intros Hk. unfold rnd_pos. cbv zeta. set (u := last_bit x) in *. pose proof (pow2_pos u) as Hu.
  assert (Hq : 2 ^ k / 2 ^ u == inject_Z (2 ^ (k - u))).
  { rewrite <- pow2_nonneg by lia. rewrite div_pow2, <- pow2_add. done. }
  assert (Hk2 : 2 ^ k == inject_Z (2 ^ (k - u)) * 2 ^ u) by (rewrite <- Hq; by rewrite mul_div_pow2).
  split; intros Hx; rewrite Hk2 at 1; (apply Qmult_le_compat_r; [|lra]);
    rewrite <- Zle_Qle, <- (half_even_Z _ _ Hq); by apply half_even_mono, scaled_mono.
Qed.
Lemma rnd_pos_mono x y : 0 < x -> x <= y -> rnd_pos x <= rnd_pos y.
Proof.
  intros Hx Hxy. destruct (Z.eq_dec (last_bit x) (last_bit y)) as [He|He].
  - unfold rnd_pos. cbv zeta. rewrite <- He. set (u := last_bit x). pose proof (pow2_pos u) as Hu.
    apply Qmult_le_compat_r; [|lra]. rewrite <- Zle_Qle. by apply half_even_mono, scaled_mono.
  - pose proof (last_bit_mono x y Hx Hxy) as Hl.
    destruct (binade_spec x Hx) as [_ Hx2]. destruct (binade_spec y ltac:(lra)) as [Hy1 _].
    unfold last_bit in *.
    apply (Qle_trans _ (2 ^ binade y)).
    + apply rnd_pos_pow2; [unfold last_bit; lia|].
      apply (Qle_trans _ (2 ^ (binade x + 1))); [lra|]. apply pow2_mono. lia.
    + apply rnd_pos_pow2; [unfold last_bit; lia|done].
Qed.
Lemma rnd_pos_nonneg x : 0 < x -> 0 <= rnd_pos x.
Proof.
  intros Hx. unfold rnd_pos. cbv zeta. pose proof (pow2_pos (last_bit x)) as Hu.
  apply Qmult_le_0_compat; [|lra]. change 0 with (inject_Z 0). rewrite <- Zle_Qle.
  rewrite <- (half_even_Z 0 0) by done. apply half_even_mono.
  apply Qle_shift_div_l; lra.
Qed.

(** The numbers a double holds exactly. *)
Definition exact (x : Q) : Prop :=
  exists m e, (Z.abs m <= 2 ^ 53)%Z /\ (-1074 <= e)%Z /\ x == inject_Z m * 2 ^ e.

Lemma rnd_pos_exact x : 0 < x -> exact x -> rnd_pos x == x.
Proof.
  intros Hx (m & e & Hm & He & Hxe). destruct (binade_spec x Hx) as [Hb1 Hb2].
  assert (Hx' : exists k, x == inject_Z k * 2 ^ last_bit x).
  { unfold last_bit. set (u := Z.max (-1074) (binade x - 52)).
    destruct (Z.le_gt_cases u e) as [Hue|Hue].
    - exists (m * 2 ^ (e - u))%Z. rewrite inject_Z_mult, <- pow2_nonneg by lia.
      rewrite Hxe, <- Qmult_assoc, <- pow2_add. by replace (e - u + u)%Z with e by lia.
    - assert (Hue' : u = (binade x - 52)%Z) by lia.
      assert (Hm2 : 2 ^ (u + 52 - e) <= inject_Z m).
      { apply (Qmult_le_r _ _ (2 ^ e)); [apply pow2_pos|]. rewrite <- Hxe, <- pow2_add.
        by replace (u + 52 - e + e)%Z with (binade x) by lia. }
      rewrite pow2_nonneg, <- Zle_Qle in Hm2 by lia.
      assert (u - e = 1)%Z as H1.
      { enough (u + 52 - e < 54)%Z by lia. apply (Z.pow_lt_mono_r_iff 2); lia. }
      assert (m = 2 ^ 53)%Z as -> by (replace (u + 52 - e)%Z with 53%Z in Hm2 by lia; lia).
      exists (2 ^ 52)%Z. rewrite Hxe. rewrite <- !pow2_nonneg by lia. rewrite <- !pow2_add.
      by replace (52 + u)%Z with (53 + e)%Z by lia. }
  destruct Hx' as [k Hk]. unfold rnd_pos. cbv zeta. set (u := last_bit x) in *.
  assert (Hu : 0 < 2 ^ u) by apply pow2_pos.
  rewrite (half_even_Z _ k); [by rewrite <- Hk|]. rewrite Hk at 1. field. lra.
Qed.
Lemma exact_opp x : exact x -> exact (- x).
Proof.
  intros (m & e & Hm & He & Hx). exists (- m)%Z, e. split_and!; [lia|done|].
  rewrite Hx, inject_Z_opp. ring.
Qed.
Lemma exact_int z : (Z.abs z <= 2 ^ 53)%Z -> exact (inject_Z z).
Proof. intros Hz. exists z, 0%Z. split_and!; [done|lia|]. change (2 ^ 0) with 1. ring. Qed.

(** ** The laws of [rnd]: monotone, and exact on doubles *)

Lemma rnd_cases x : (0 < x /\ rnd x == rnd_pos x) \/ (x == 0 /\ rnd x == 0) \/ (x < 0 /\ rnd x == - rnd_pos (- x)).
Proof.
  unfold rnd. destruct (Qcompare_spec x 0) as [H|H|H]; rewrite ?Qred_correct.
  - right. left. split; [done|reflexivity].
  - right. right. split; [done|reflexivity].
  - left. split; [done|reflexivity].
Qed.
Lemma rnd_mono x y : x <= y -> rnd x <= rnd y.
Proof.
  intros Hxy.
  destruct (rnd_cases x) as [[Hx ->]|[[Hx ->]|[Hx ->]]];
    destruct (rnd_cases y) as [[Hy ->]|[[Hy ->]|[Hy ->]]]; try lra.
  - by apply rnd_pos_mono.
  - by apply rnd_pos_nonneg.
  - pose proof (rnd_pos_nonneg (- x)). pose proof (rnd_pos_nonneg y). lra.
  - pose proof (rnd_pos_nonneg (- x)). lra.
  - apply Qopp_le_compat, rnd_pos_mono; lra.
Qed.
Lemma rnd_exact x : exact x -> rnd x == x.
Proof.
  intros He. destruct (rnd_cases x) as [[Hx ->]|[[Hx ->]|[Hx ->]]].
  - by apply rnd_pos_exact.
  - by rewrite Hx.
  - rewrite rnd_pos_exact; [ring|lra|by apply exact_opp].
Qed.
Lemma rnd_int z : (Z.abs z <= 2 ^ 53)%Z -> rnd (inject_Z z) == inject_Z z.
Proof. intros Hz. by apply rnd_exact, exact_int. Qed.
Lemma rnd_comp x y : x == y -> rnd x == rnd y.
Proof. intros Hxy. apply Qle_antisym; apply rnd_mono; lra. Qed.
#[export] Instance rnd_proper : Proper (Qeq ==> Qeq) rnd.
Proof. exact rnd_comp. Qed.
(** A result between two doubles stays between them. *)
Lemma rnd_between lo hi x : exact lo -> exact hi -> lo <= x <= hi -> lo <= rnd x <= hi.
Proof.
  intros Hlo Hhi [H1 H2]. split.
  - rewrite <- (rnd_exact lo Hlo). by apply rnd_mono.
  - rewrite <- (rnd_exact hi Hhi). by apply rnd_mono.
Qed.

(** ** Reading the operations *)

Lemma lt_spec x y : lt x y = true <-> x < y.
Proof.
  unfold lt. rewrite negb_true_iff. split.
  - intros E. apply Qnot_le_lt. rewrite <- Qle_bool_iff. congruence.
  - intros Hlt. apply not_true_iff_false. rewrite Qle_bool_iff. lra.
Qed.
Lemma lt_false x y : lt x y = false <-> y <= x.
Proof. rewrite <- Qle_bool_iff. unfold lt. by rewrite negb_false_iff. Qed.
Lemma min_spec x y : min x y <= x /\ min x y <= y /\ (min x y = x \/ min x y = y).
Proof.
  unfold min. destruct (Qle_bool x y) eqn:E.
  - apply Qle_bool_iff in E. split_and!; [lra|lra|by left].
  - assert (~ x <= y) by (rewrite <- Qle_bool_iff; congruence). split_and!; [lra|lra|by right].
Qed.
Lemma max_spec x y : x <= max x y /\ y <= max x y /\ (max x y = x \/ max x y = y).
Proof.
  unfold max. destruct (Qle_bool x y) eqn:E.
  - apply Qle_bool_iff in E. split_and!; [lra|lra|by right].
  - assert (~ x <= y) by (rewrite <- Qle_bool_iff; congruence). split_and!; [lra|lra|by left].
Qed.
Lemma round_mono x y : x <= y -> (round x <= round y)%Z.
Proof. intros Hxy. apply Qfloor_resp_le. lra. Qed.
Lemma round_int z : round (inject_Z z) = z.
Proof.
  unfold round. apply Z.le_antisymm.
  - assert (inject_Z (Qfloor (inject_Z z + (1 # 2))) < inject_Z (z + 1)) as Hlt.
    { eapply Qle_lt_trans; [apply Qfloor_le|]. rewrite inject_Z_plus. change (inject_Z 1) with 1. lra. }
    rewrite <- Zlt_Qlt in Hlt. lia.
  - rewrite <- (Qfloor_Z z) at 1. apply Qfloor_resp_le. lra.
Qed.
End JsNumber.
