(* ===== verification/JsText.v ===== *)
(** * JsText: the string functions the two JavaScript libraries call

    A JavaScript string is its list of UTF-16 code units. [encodeURI], [trim],
    [split(/\s+/)], [substring] and [charAt] follow ECMAScript; [opened_path]
    is the other side of a [file:] URL, RFC 3986's reading of it. *)
From S2P Require Import Prelude Json.

#[local] Ltac Zify.zify_post_hook ::= Z.div_mod_to_equations.

Module JsText.

(** [substring(a, b)] for [0 <= a <= b], and [charAt(i)]: empty past the end. *)
Definition substring (a b : nat) (s : qstring) : qstring := take (b - a) (drop a s).
Definition charAt (i : nat) (s : qstring) : qstring := substring i (S i) s.

(** ** White space: WhiteSpace and LineTerminator, what [trim] and [\s] both mean *)
Definition is_ws (c : Z) : bool :=
  ((9 <=? c) && (c <=? 13)) || (c =? 32) || (c =? 160) || (c =? 5760)
  || ((8192 <=? c) && (c <=? 8202)) || (c =? 8232) || (c =? 8233) || (c =? 8239)
  || (c =? 8287) || (c =? 12288) || (c =? 65279).
Definition trim (s : qstring) : qstring := trim_by is_ws s.

(** [split(/\s+/)]: the pieces between maximal runs of white space, empty ones
    at either end included. [field] is what stands before the first run. *)
Fixpoint field (s : qstring) : qstring * option qstring :=
  match s with
  | [] => ([], None)
  | c :: s' =>
      if is_ws c then ([], Some (drop_while is_ws s'))
      else let '(f, rest) := field s' in (c :: f, rest)
  end.
Fixpoint split_ws (turns : nat) (s : qstring) : list qstring :=
  match turns with
  | O => []
  | S turns =>
      match field s with
      | (f, None) => [f]
      | (f, Some rest) => f :: split_ws turns rest
      end
  end.
(** Every piece but the last ends at a run, so the length suffices. *)
Definition split (s : qstring) : list qstring := split_ws (S (List.length s)) s.

(** The words of a text: its maximal runs without white space. *)
Fixpoint words (s : qstring) : list qstring :=
  match s with
  | [] => []
  | c :: s' =>
      if is_ws c then words s'
      else match s' with
           | [] => [[c]]
           | d :: _ =>
               if is_ws d then [c] :: words s'
               else match words s' with
                    | [] => [[c]]
                    | w :: ws => (c :: w) :: ws
                    end
           end
  end.

(** ** [encodeURI] *)

Definition is_alnum (c : Z) : bool :=
  ((48 <=? c) && (c <=? 57)) || ((65 <=? c) && (c <=? 90)) || ((97 <=? c) && (c <=? 122)).
(** [uriReserved], [uriMark] and "#": what [encodeURI] never escapes. *)
Definition uri_marks : qstring := lit ";/?:@&=+$,-_.!~*'()#".
Definition unescaped (c : Z) : bool := is_alnum c || bool_decide (c ∈ uri_marks).

Definition is_high (c : Z) : bool := (55296 <=? c) && (c <=? 56319).
Definition is_low (c : Z) : bool := (56320 <=? c) && (c <=? 57343).
Definition code_point (hi lo : Z) : Z := (hi - 55296) * 1024 + (lo - 56320) + 65536.
Definition utf8_octets (v : Z) : bytes :=
  if v <? 128 then [v]
  else if v <? 2048 then [192 + v / 64; 128 + v mod 64]
  else if v <? 65536 then [224 + v / 4096; 128 + v / 64 mod 64; 128 + v mod 64]
  else [240 + v / 262144; 128 + v / 4096 mod 64; 128 + v / 64 mod 64; 128 + v mod 64].
Definition upper_hex (d : Z) : Z := if d <? 10 then 48 + d else 65 + (d - 10).
Definition percent_octet (b : Z) : qstring := [37; upper_hex (b / 16); upper_hex (b mod 16)].
Definition escape (v : Z) : qstring := List.concat (map percent_octet (utf8_octets v)).

(** [None] is the [URIError] an unpaired surrogate raises. *)
Fixpoint encodeURI (s : qstring) : option qstring :=
  match s with
  | [] => Some []
  | c :: s =>
      if unescaped c then cons c <$> encodeURI s
      else if is_low c then None
      else if is_high c then
        match s with
        | d :: s => if is_low d then app (escape (code_point c d)) <$> encodeURI s else None
        | [] => None
        end
      else app (escape c) <$> encodeURI s
  end.

(** ** Reading a file URL back *)

Definition hex_value (c : Z) : option Z :=
  if (48 <=? c) && (c <=? 57) then Some (c - 48)
  else if (65 <=? c) && (c <=? 70) then Some (c - 55)
  else if (97 <=? c) && (c <=? 102) then Some (c - 87)
  else None.
Fixpoint percent_decode (s : qstring) : option bytes :=
  match s with
  | [] => Some []
  | c :: s' =>
      if c =? 37 then
        match s' with
        | h :: l :: s'' =>
            match hex_value h, hex_value l, percent_decode s'' with
            | Some a, Some b, Some t => Some (16 * a + b :: t)
            | _, _, _ => None
            end
        | _ => None
        end
      else cons c <$> percent_decode s'
  end.
Definition units_of (v : Z) : qstring :=
  if v <? 65536 then [v] else [55296 + (v - 65536) / 1024; 56320 + (v - 65536) mod 1024].
Definition cont (b : Z) : option Z := if (128 <=? b) && (b <? 192) then Some (b - 128) else None.
Fixpoint utf8_decode (s : bytes) : option qstring :=
  match s with
  | [] => Some []
  | a :: s1 =>
      if a <? 128 then cons a <$> utf8_decode s1
      else match s1 with
      | [] => None
      | b :: s2 =>
          match cont b with
          | None => None
          | Some b =>
              if a <? 224 then app (units_of ((a - 192) * 64 + b)) <$> utf8_decode s2
              else match s2 with
              | [] => None
              | c :: s3 =>
                  match cont c with
                  | None => None
                  | Some c =>
                      if a <? 240 then app (units_of ((a - 224) * 4096 + b * 64 + c)) <$> utf8_decode s3
                      else match s3 with
                      | [] => None
                      | d :: s4 =>
                          match cont d with
                          | None => None
                          | Some d =>
                              app (units_of ((a - 240) * 262144 + b * 4096 + c * 64 + d))
                                <$> utf8_decode s4
                          end
                      end
                  end
              end
          end
      end
  end.
(** The path of a URL ends at the first "#" or "?". *)
Definition ends_path (c : Z) : bool := (c =? 35) || (c =? 63).
Fixpoint cut_path (s : qstring) : qstring :=
  match s with
  | [] => []
  | c :: s => if ends_path c then [] else c :: cut_path s
  end.
Definition opened_path (url : qstring) : option qstring :=
  let scheme := lit "file://" in
  if starts_with scheme url
  then percent_decode (cut_path (drop (List.length scheme) url)) ≫= utf8_decode
  else None.

(** ** Laws of the escapes *)

Lemma hex_value_upper d : 0 <= d < 16 -> hex_value (upper_hex d) = Some d.
Proof. intros Hd. unfold hex_value, upper_hex. repeat (case_match; try lia); f_equal; lia. Qed.
Lemma percent_decode_octet b s : 0 <= b < 256 ->
  percent_decode (percent_octet b ++ s) = cons b <$> percent_decode s.
Proof.
  intros Hb. cbn. rewrite !hex_value_upper by lia.
  destruct (percent_decode s); cbn; [|done]. do 2 f_equal. lia.
Qed.
Lemma percent_decode_octets l s : Forall (fun b => 0 <= b < 256) l ->
  percent_decode (List.concat (map percent_octet l) ++ s) = app l <$> percent_decode s.
Proof.
  induction 1 as [|b l Hb _ IH]; [cbn; by destruct (percent_decode s)|].
  cbn [map List.concat]. rewrite <- app_assoc, percent_decode_octet, IH by done.
  by destruct (percent_decode s).
Qed.
Lemma utf8_octets_bytes v : 0 <= v < 1114112 -> Forall (fun b => 0 <= b < 256) (utf8_octets v).
Proof. intros Hv. unfold utf8_octets. repeat case_match; repeat (constructor; [lia|]); constructor. Qed.
Lemma cont_spec x : cont (128 + x mod 64) = Some (x mod 64).
Proof. unfold cont. case_match; [f_equal; lia|lia]. Qed.
Lemma utf8_decode_octets v s : 0 <= v < 1114112 ->
  utf8_decode (utf8_octets v ++ s) = app (units_of v) <$> utf8_decode s.
Proof.
  intros Hv. unfold utf8_octets.
  destruct (Z.ltb_spec v 128); [|destruct (Z.ltb_spec v 2048); [|destruct (Z.ltb_spec v 65536)]].
  - cbn. rewrite (proj2 (Z.ltb_lt _ _)) by lia. unfold units_of.
    by rewrite (proj2 (Z.ltb_lt _ _)) by lia.
  - cbn. rewrite (proj2 (Z.ltb_ge _ _)), cont_spec, (proj2 (Z.ltb_lt _ _)) by lia.
    do 2 f_equal. f_equal. lia.
  - cbn. rewrite (proj2 (Z.ltb_ge _ _)), !cont_spec, (proj2 (Z.ltb_ge _ _)), (proj2 (Z.ltb_lt _ _)) by lia.
    do 2 f_equal. f_equal. lia.
  - cbn. rewrite (proj2 (Z.ltb_ge _ _)), !cont_spec, !(proj2 (Z.ltb_ge _ _)) by lia.
    do 2 f_equal. f_equal. lia.
Qed.

Definition decoded (s : qstring) : option qstring := percent_decode s ≫= utf8_decode.

Lemma decoded_escape v s : 0 <= v < 1114112 ->
  decoded (escape v ++ s) = app (units_of v) <$> decoded s.
Proof.
  intros Hv. unfold decoded, escape. rewrite percent_decode_octets by by apply utf8_octets_bytes.
  destruct (percent_decode s) as [b|]; cbn; [|done]. by apply utf8_decode_octets.
Qed.
Lemma unescaped_plain c : unescaped c = true -> c <> 37 /\ 0 <= c < 128.
Proof.
  unfold unescaped. rewrite orb_true_iff, bool_decide_eq_true. intros [Hc|Hc].
  - unfold is_alnum in Hc. lia.
  - assert (Forall (fun c => c <> 37 /\ 0 <= c < 128) uri_marks) as Hf by by apply (bool_decide_unpack _).
    by apply (proj1 (Forall_forall _ _) Hf).
Qed.
Lemma unescaped_ends c : ends_path c = true -> unescaped c = true.
Proof.
  unfold ends_path. rewrite orb_true_iff, !Z.eqb_eq. intros [->| ->]; by vm_compute.
Qed.
Lemma decoded_plain c s : unescaped c = true -> decoded (c :: s) = cons c <$> decoded s.
Proof.
  intros [Hp Hc]%unescaped_plain. unfold decoded. cbn [percent_decode].
  rewrite (proj2 (Z.eqb_neq _ _)) by done. destruct (percent_decode s); cbn; [|done].
  by rewrite (proj2 (Z.ltb_lt _ _)) by lia.
Qed.
Lemma upper_hex_keeps_path d : 0 <= d < 16 -> ends_path (upper_hex d) = false.
Proof. intros Hd. unfold ends_path, upper_hex. case_match; lia. Qed.
Lemma cut_path_app u s : Forall (fun c => ends_path c = false) u -> cut_path (u ++ s) = u ++ cut_path s.
Proof. induction 1 as [|c u Hc _ IH]; cbn; [done|]. by rewrite Hc, IH. Qed.
Lemma escape_keeps_path v : 0 <= v < 1114112 -> Forall (fun c => ends_path c = false) (escape v).
Proof.
  intros Hv. unfold escape. induction (utf8_octets_bytes v Hv) as [|b l Hb _ IH]; cbn; [done|].
  repeat (constructor; [done || (apply upper_hex_keeps_path; lia)|]). done.
Qed.
Lemma decoded_cut_escape v s : 0 <= v < 1114112 ->
  decoded (cut_path (escape v ++ s)) = app (units_of v) <$> decoded (cut_path s).
Proof. intros Hv. by rewrite cut_path_app, decoded_escape by by try apply escape_keeps_path. Qed.

Lemma cut_path_id s : cut_path s = s <-> Forall (fun c => ends_path c = false) s.
Proof.
  split; [|intros Hs; by rewrite <- (app_nil_r s), cut_path_app, app_nil_r at 1].
  induction s as [|c s IH]; cbn; [done|]. destruct (ends_path c) eqn:Hc; [done|].
  intros [= Hs]. auto.
Qed.

(** A path with no unpaired surrogate is escaped, and decoding what precedes
    the first "#" or "?" gives what precedes it in the path. *)
Lemma encodeURI_decoded s :
  Forall (fun c => 0 <= c < 65536) s -> valid_utf16 s = true ->
  exists u, encodeURI s = Some u /\ decoded (cut_path u) = Some (cut_path s).
Proof.
  remember (List.length s) as n eqn:Hn. revert s Hn.
  induction n as [n IH] using (well_founded_induction lt_wf). intros [|c s] -> Hu Hs; [by exists []|].
  inversion Hu as [|? ? Hc Hu' Heq]; subst. cbn [encodeURI cut_path].
  destruct (unescaped c) eqn:Ec.
  - destruct (IH (List.length s) ltac:(cbn; lia) s eq_refl Hu') as (u & -> & Hd).
    { destruct (unescaped_plain c Ec) as [_ Hr]. revert Hs. cbn.
      rewrite (proj2 (andb_false_iff (55296 <=? c) _)) by lia.
      by intros [_ ?]%andb_true_iff. }
    exists (c :: u). split; [done|]. cbn [cut_path]. destruct (ends_path c); [done|].
    by rewrite decoded_plain, Hd.
  - assert (ends_path c = false) as Hnc.
    { destruct (ends_path c) eqn:E; [|done]. apply unescaped_ends in E. congruence. }
    rewrite Hnc. cbn in Hs. unfold is_low, is_high.
    destruct ((55296 <=? c) && (c <=? 56319)) eqn:Eh.
    + destruct s as [|d s]; [done|]. apply andb_true_iff in Hs as [Hd Hs]. rewrite Hd.
      rewrite (proj2 (andb_false_iff (56320 <=? c) _)) by lia.
      inversion Hu' as [|? ? Hd' Hu'' Heq]; subst.
      destruct (IH (List.length s) ltac:(cbn; lia) s eq_refl Hu'' Hs) as (u & -> & Hdec).
      eexists. split; [done|]. unfold code_point.
      rewrite decoded_cut_escape, Hdec by lia. cbn [fmap option_fmap option_map cut_path].
      assert (ends_path d = false) as -> by (unfold ends_path; lia).
      unfold units_of. rewrite (proj2 (Z.ltb_ge _ _)) by lia. cbn. do 2 f_equal; [lia|f_equal; lia].
    + apply andb_true_iff in Hs as [Hl%negb_true_iff Hs]. rewrite Hl.
      destruct (IH (List.length s) ltac:(cbn; lia) s eq_refl Hu' Hs) as (u & -> & Hdec).
      eexists. split; [done|]. rewrite decoded_cut_escape, Hdec by lia. unfold units_of.
      by rewrite (proj2 (Z.ltb_lt _ _)) by lia.
Qed.
(** An unpaired surrogate raises [URIError]; nothing else does. *)
Lemma encodeURI_error s :
  Forall (fun c => 0 <= c < 65536) s -> encodeURI s = None <-> valid_utf16 s = false.
Proof.
  intros Hu. split.
  - intros He. destruct (valid_utf16 s) eqn:Hv; [|done].
    destruct (encodeURI_decoded s Hu Hv) as (u & ? & _). congruence.
  - remember (List.length s) as n eqn:Hn. revert s Hn Hu.
    induction n as [n IH] using (well_founded_induction lt_wf). intros [|c s] -> Hu; [done|].
    inversion Hu as [|? ? Hc Hu' Heq]; subst. cbn [encodeURI valid_utf16]. unfold is_high, is_low.
    destruct (unescaped c) eqn:Ec.
    + destruct (unescaped_plain c Ec) as [_ Hr].
      rewrite (proj2 (andb_false_iff (55296 <=? c) _)), (proj2 (andb_false_iff (56320 <=? c) _)) by lia.
      cbn. intros Hv. by rewrite (IH (List.length s) ltac:(cbn; lia) s eq_refl Hu' Hv).
    + destruct ((55296 <=? c) && (c <=? 56319)) eqn:Eh.
      * rewrite (proj2 (andb_false_iff (56320 <=? c) _)) by lia. destruct s as [|d s]; [done|].
        destruct ((56320 <=? d) && (d <=? 57343)); [|done]. cbn. intros Hv.
        inversion Hu'; subst. by rewrite (IH (List.length s) ltac:(cbn; lia) s eq_refl).
      * destruct ((56320 <=? c) && (c <=? 57343)); [done|]. cbn. intros Hv.
        by rewrite (IH (List.length s) ltac:(cbn; lia) s eq_refl Hu' Hv).
Qed.

(** ** Laws of [trim] and [split] *)

Definition blank (s : qstring) : Prop := Forall (fun c => is_ws c = true) s.
Definition solid (s : qstring) : Prop := Forall (fun c => is_ws c = false) s.

Lemma words_blank_l a s : blank a -> words (a ++ s) = words s.
Proof. induction 1 as [|c a Hc _ IH]; cbn; [done|]. by rewrite Hc. Qed.
Lemma words_blank b : blank b -> words b = [].
Proof. intros Hb. rewrite <- (app_nil_r b). by rewrite words_blank_l. Qed.
Lemma words_blank_r s b : blank b -> words (s ++ b) = words s.
Proof.
  intros Hb. induction s as [|c s IH]; [by apply words_blank|]. cbn [app words]. rewrite IH.
  destruct (is_ws c); [done|]. destruct s as [|d s]; [|done].
  destruct Hb as [|d b Hd Hb]; [done|]. cbn. by rewrite Hd.
Qed.
Lemma words_solid f c r : solid f -> f <> [] -> is_ws c = true -> words (f ++ c :: r) = f :: words r.
Proof.
  induction 1 as [|x f Hx Hf IH]; [done|]. intros _ Hc. cbn [app words]. rewrite Hx.
  destruct Hf as [|y f Hy Hf]; cbn [app].
  - rewrite Hc. cbn [words]. by rewrite Hc.
  - rewrite Hy. change (y :: f ++ c :: r) with ((y :: f) ++ c :: r). by rewrite IH.
Qed.
Lemma words_one f : solid f -> f <> [] -> words f = [f].
Proof.
  intros Hf Hn. rewrite <- (words_blank_r f [32]) by by repeat constructor. by rewrite words_solid.
Qed.
Lemma drop_while_blank s : exists a, blank a /\ s = a ++ drop_while is_ws s.
Proof.
  induction s as [|c s IH]; [exists []; split; [constructor|done]|]. cbn. destruct (is_ws c) eqn:Hc.
  - destruct IH as (a & Ha & Hs). exists (c :: a). split; [by constructor|]. cbn. by f_equal.
  - exists []. split; [constructor|done].
Qed.
Lemma trim_blank s : exists a b, blank a /\ blank b /\ s = a ++ trim s ++ b.
Proof.
  destruct (drop_while_blank s) as (a & Ha & Hs).
  destruct (drop_while_blank (reverse (drop_while is_ws s))) as (b & Hb & Hr).
  exists a, (reverse b). split_and!; [done|by apply Forall_reverse|]. rewrite Hs at 1. f_equal.
  unfold trim, trim_by. rewrite <- reverse_app, <- Hr. by rewrite reverse_involutive.
Qed.
Lemma words_trim s : words (trim s) = words s.
Proof.
  destruct (trim_blank s) as (a & b & Ha & Hb & Hs). rewrite Hs at 2.
  by rewrite words_blank_l, words_blank_r.
Qed.
Lemma words_drop_while s : words (drop_while is_ws s) = words s.
Proof.
  destruct (drop_while_blank s) as (a & Ha & Hs). rewrite Hs at 2. by rewrite words_blank_l.
Qed.
Lemma field_spec s :
  let '(f, rest) := field s in
  solid f /\ match rest with
             | None => s = f
             | Some rest => exists c r, s = f ++ c :: r /\ is_ws c = true /\ rest = drop_while is_ws r
             end.
Proof.
  induction s as [|c s IH]; cbn [field]; [split; [constructor|done]|].
  destruct (is_ws c) eqn:Hc.
  - split; [constructor|]. by exists c, s.
  - destruct (field s) as [f [rest|]]; destruct IH as [Hf IH].
    + destruct IH as (d & r & -> & Hd & Hr). split; [by constructor|]. by exists d, r.
    + split; [by constructor|]. by subst.
Qed.
(** On a trimmed text the pieces are the words. *)
Lemma split_ws_words turns s :
  (List.length s < turns)%nat -> trimmed_by is_ws s -> s <> [] -> split_ws turns s = words s.
Proof.
  revert s. induction turns as [|turns IH]; intros s Ht [Hh Hl] Hs; [lia|]. cbn [split_ws].
  pose proof (field_spec s) as Hf. destruct (field s) as [f [rest|]]; destruct Hf as [Hf Hr].
  - destruct Hr as (c & r & -> & Hc & ->).
    assert (f <> []) as Hf0.
    { intros ->. specialize (Hh c r eq_refl). congruence. }
    rewrite words_solid, <- (words_drop_while r) by done. f_equal.
    destruct (drop_while_blank r) as (a & Ha & Hra). apply IH.
    + rewrite Hra, !length_app in Ht. cbn in Ht. rewrite length_app in Ht. lia.
    + split; [intros x k Hk; by eapply drop_while_head|].
      intros x k Hk. apply (Hl x (f ++ c :: a ++ k)). rewrite Hra, Hk.
      by rewrite <- !app_assoc, <- app_comm_cons, <- app_assoc.
    + intros Hnil. rewrite Hnil, app_nil_r in Hra. subst a.
      destruct (exists_last (l := c :: r)) as (k & x & Hk); [done|].
      assert (is_ws x = true) as Hx.
      { apply (proj1 (Forall_forall (fun c => is_ws c = true) (c :: r)) (Forall_cons_2 _ _ _ Hc Ha)).
        rewrite Hk. apply elem_of_app. right. by apply list_elem_of_singleton. }
      rewrite (Hl x (f ++ k)) in Hx; [done|]. by rewrite Hk, app_assoc.
  - subst f. by rewrite words_one.
Qed.
(** [alias.trim().split(/\s+/)]: the words, one empty piece when there is none. *)
Lemma split_trim s :
  split (trim s) = match words s with [] => [[]] | ws => ws end.
Proof.
  destruct (decide (trim s = [])) as [He|He].
  - rewrite He. rewrite <- words_trim, He. done.
  - unfold split. rewrite split_ws_words, words_trim; [|lia|apply trim_by_trimmed|done].
    destruct (words s) eqn:Hw; [|done]. exfalso. rewrite <- words_trim in Hw.
    destruct (trim s) as [|c t] eqn:Et; [done|]. cbn in Hw.
    assert (is_ws c = false) as Hc by by apply (proj1 (trim_by_trimmed is_ws s) c t).
    rewrite Hc in Hw. destruct t as [|d t]; [done|]. destruct (is_ws d); [done|].
    by destruct (words (d :: t)).
Qed.
Lemma words_solid_all s w : w ∈ words s -> solid w /\ w <> [].
Proof.
  revert w. induction s as [|c s IH]; intros w; cbn; [by intros ?%not_elem_of_nil|].
  destruct (is_ws c) eqn:Hc; [apply IH|].
  assert (solid [c] /\ [c] <> []) as H1 by (split; [by repeat constructor|done]).
  destruct s as [|d s]; [by intros ->%list_elem_of_singleton|].
  destruct (is_ws d); [intros [->|Hw]%elem_of_cons; [done|by apply IH]|].
  destruct (words (d :: s)) as [|w' ws]; [by intros ->%list_elem_of_singleton|].
  intros [->|Hw]%elem_of_cons; [|apply IH, elem_of_cons; by right].
  split; [|done]. constructor; [done|]. apply IH, elem_of_cons. by left.
Qed.
End JsText.
