(* ===== verification/Formatting.v ===== *)
(** * Formatting: src/qml/components/Formatting.js

    The texts the pages make of sizes, speeds, durations, progress, paths and
    fingerprints. Sizes and speeds are the [qint64] properties every caller
    passes (handed to JavaScript as the nearest double), [undefined] and [null]
    are [None]; a falsy string is the empty one. *)
From S2P Require Import Prelude Json JsNumber JsText.
From Stdlib Require Import QArith Qround Qpower Lqa.

Module Formatting.
Import JsNumber.
#[local] Open Scope Z_scope.

Definition units : list qstring := [lit "kB"; lit "MB"; lit "GB"; lit "TB"].

(** The [while] loop: the turns left, [value] and [unit]. *)
Definition loop_guard (value : Q) (unit : nat) : bool :=
  le 1024 value && (unit <? List.length units - 1)%nat.
Fixpoint unit_loop (turns : nat) (value : Q) (unit : nat) : Q * nat :=
  match turns with
  | O => (value, unit)
  | S turns =>
      if loop_guard value unit then unit_loop turns (div value 1024) (S unit) else (value, unit)
  end.
Definition fileSize (bytes : option Z) : qstring :=
  match bytes with
  | None => lit "0 B"
  | Some bytes =>
      if bytes <? 0 then lit "0 B"
      else if bytes <? 1024 then number bytes ++ lit " B"
      else
        let '(value, unit) := unit_loop (List.length units) (div (of_int bytes) 1024) 0 in
        let decimals := if lt value 100 then 1%nat else 0%nat in
        toFixed decimals value ++ lit " " ++ nth unit units []
  end.

Definition speed (bytesPerSecond : option Z) : qstring :=
  match bytesPerSecond with
  | None => []
  | Some b => if (b =? 0) || (b <=? 0) then [] else fileSize (Some b) ++ lit "/s"
  end.

Definition pad (value : Z) : qstring := if value <? 10 then lit "0" ++ number value else number value.
Definition duration (seconds : option Q) : qstring :=
  match seconds with
  | None => []
  | Some seconds =>
      if lt seconds 0 then []
      else
        let whole := round seconds in
        if whole <? 60 then number whole ++ lit "s"
        else
          let minutes := floor (div (of_int whole) 60) in
          if minutes <? 60 then number minutes ++ lit "m " ++ pad (Z.rem whole 60) ++ lit "s"
          else
            let hours := floor (div (of_int minutes) 60) in
            number hours ++ lit "h " ++ pad (Z.rem minutes 60) ++ lit "m"
  end.

(** The [for] loop from [i] with what [out] holds. *)
Fixpoint groups_loop (turns : nat) (fingerprint : qstring) (i : nat) (out : qstring) : qstring :=
  match turns with
  | O => out
  | S turns =>
      if (i <? List.length fingerprint)%nat
      then
        let out :=
          if (0 <? i)%nat
          then out ++ (if (i mod 32 =? 0)%nat then [10] else lit "  ")
          else out in
        groups_loop turns fingerprint (i + 8) (out ++ JsText.substring i (i + 8) fingerprint)
      else out
  end.
Definition fingerprintGroups (fingerprint : qstring) : qstring :=
  if is_empty fingerprint then [] else groups_loop (S (List.length fingerprint)) fingerprint 0 [].

(** [None]: [encodeURI] raises [URIError]. *)
Definition fileUrl (path : qstring) : option qstring :=
  if is_empty path then Some [] else app (lit "file://") <$> JsText.encodeURI path.

Definition percent (fraction : option Q) : qstring :=
  match fraction with
  | None => lit "0%"
  | Some fraction =>
      if is_zero fraction || lt fraction 0 then lit "0%"
      else number (round (mul (min fraction 1) 100)) ++ lit "%"
  end.

(** [names[0]], the empty text for a missing or empty list. *)
Definition firstName (names : option (list qstring)) : qstring :=
  match names with
  | None | Some [] => []
  | Some (name :: _) => name
  end.

(** ** Sizes *)

Lemma le_spec x y : le x y = true <-> (x <= y)%Q.
Proof. apply Qle_bool_iff. Qed.
Lemma le_false x y : le x y = false <-> (y < x)%Q.
Proof.
  rewrite <- not_true_iff_false, le_spec. split; [intros Hn; lra|intros Hl Hle; lra].
Qed.

(** [b / 1024^k] is a double for every [b] up to [2^53]. *)
Definition scaled (b : Z) (k : nat) : Q := (inject_Z b / inject_Z (1024 ^ Z.of_nat k))%Q.
Lemma pow1024_pos k : 0 < 1024 ^ Z.of_nat k.
Proof. lia. Qed.
Lemma pow1024_posQ k : (0 < inject_Z (1024 ^ Z.of_nat k))%Q.
Proof. change 0%Q with (inject_Z 0). rewrite <- Zlt_Qlt. apply pow1024_pos. Qed.
Lemma scaled_S b k : (scaled b k / 1024 == scaled b (S k))%Q.
Proof.
  unfold scaled. rewrite Nat2Z.inj_succ, Z.pow_succ_r, inject_Z_mult by lia.
  change (inject_Z 1024) with 1024%Q. pose proof (pow1024_posQ k). field. lra.
Qed.
Lemma scaled_exact b k : 0 <= b <= 2 ^ 53 -> (k <= 100)%nat -> exact (scaled b k).
Proof.
  intros Hb Hk. exists b, (- (10 * Z.of_nat k)). split_and!; [lia|lia|].
  unfold scaled, Qdiv. rewrite Qpower_opp.
  replace (1024 ^ Z.of_nat k) with (2 ^ (10 * Z.of_nat k)) by (by rewrite Z.pow_mul_r by lia).
  by rewrite (pow2_nonneg (10 * Z.of_nat k)) by lia.
Qed.
Lemma scaled_le c b k : (inject_Z c <= scaled b k)%Q <-> c * 1024 ^ Z.of_nat k <= b.
Proof.
  unfold scaled. pose proof (pow1024_posQ k) as Hp. rewrite Zle_Qle, inject_Z_mult. split; intros Hle.
  - apply Qnot_lt_le. intros Hlt.
    pose proof (Qlt_shift_div_r _ _ (inject_Z c) Hp Hlt). lra.
  - by apply Qle_shift_div_l.
Qed.
Lemma scaled_rnd b k x :
  0 <= b <= 2 ^ 53 -> (k <= 100)%nat -> (x == scaled b k)%Q -> (rnd x == scaled b k)%Q.
Proof. intros Hb Hk Hx. rewrite (rnd_comp _ _ Hx). by apply rnd_exact, scaled_exact. Qed.

(** [toFixed] of such a number is the nearest decimal. *)
Lemma fixed_units_scaled f b k x : (x == scaled b k)%Q ->
  fixed_units f x
  = (2 * (b * 10 ^ Z.of_nat f) + 1024 ^ Z.of_nat k) / (2 * 1024 ^ Z.of_nat k).
Proof.
  intros Hx. unfold fixed_units. rewrite Zdiv_Qdiv. apply Qfloor_comp. rewrite Hx. unfold scaled.
  rewrite !inject_Z_plus, !inject_Z_mult. change (inject_Z 2) with 2%Q.
  pose proof (pow1024_posQ k). field. lra.
Qed.
Lemma fixed_units_near f b k x : (x == scaled b k)%Q ->
  2 * Z.abs (fixed_units f x * 1024 ^ Z.of_nat k - b * 10 ^ Z.of_nat f) <= 1024 ^ Z.of_nat k.
Proof.
  intros Hx. rewrite (fixed_units_scaled f b k x Hx). pose proof (pow1024_pos k) as Hp.
  set (p := 1024 ^ Z.of_nat k) in *. set (t := b * 10 ^ Z.of_nat f).
  pose proof (Z.mod_pos_bound (2 * t + p) (2 * p) ltac:(lia)) as Hm.
  pose proof (Z.div_mod (2 * t + p) (2 * p) ltac:(lia)) as Hd.
  set (n := (2 * t + p) / (2 * p)) in *. nia.
Qed.

Lemma unit_loop_scaled b turns u v :
  0 <= b <= 2 ^ 53 -> (v == scaled b (S u))%Q -> (u <= 3)%nat -> (3 - u < turns)%nat ->
  1024 ^ Z.of_nat (S u) <= b ->
  exists u' v', unit_loop turns v u = (v', u') /\ (v' == scaled b (S u'))%Q /\ (u' <= 3)%nat
    /\ 1024 ^ Z.of_nat (S u') <= b /\ (b < 1024 ^ Z.of_nat (S (S u')) \/ u' = 3%nat).
Proof.
  intros Hb. revert u v. induction turns as [|turns IH]; intros u v Hv Hu Ht Hlo; [lia|].
  cbn [unit_loop]. destruct (loop_guard v u) eqn:Hg.
  - apply andb_true_iff in Hg as [Hle%le_spec Hlt%Nat.ltb_lt]. cbn in Hlt.
    rewrite Hv in Hle. change 1024%Q with (inject_Z 1024) in Hle. rewrite scaled_le in Hle.
    apply IH; [|lia|lia|rewrite Nat2Z.inj_succ, Z.pow_succ_r by lia; lia].
    apply scaled_rnd; [done|lia|]. by rewrite Hv, scaled_S.
  - exists u, v. split_and!; [done..|]. apply andb_false_iff in Hg as [Hle%le_false|Hlt%Nat.ltb_ge].
    + left. rewrite Hv in Hle. change 1024%Q with (inject_Z 1024) in Hle.
      apply Z.nle_gt. intros Hc. rewrite Nat2Z.inj_succ, Z.pow_succ_r in Hc by lia.
      apply scaled_le in Hc. lra.
    + right. cbn in Hlt. lia.
Qed.

(** The unit loop of [fileSize] ends. Whatever number it starts from, after at
    most three turns its guard is false, so that turns beyond the four the model
    gives it change nothing. *)
Theorem unit_loop_ends value :
  let '(v, u) := unit_loop (List.length units) value 0 in
  loop_guard v u = false /\ forall more, unit_loop (List.length units + more) value 0 = (v, u).
Proof.
  cbn [List.length units unit_loop Nat.add]. unfold loop_guard. cbn [List.length units Nat.sub Nat.ltb Nat.leb].
  rewrite !andb_true_r, andb_false_r.
  destruct (le 1024 value) eqn:E0; [|by rewrite E0].
  destruct (le 1024 (div value 1024)) eqn:E1; [|by rewrite E1].
  destruct (le 1024 (div (div value 1024) 1024)) eqn:E2; [|by rewrite E2].
  rewrite andb_false_r. done.
Qed.

(** C37: what [fileSize] shows. Below 1024 the exact number of bytes. From there on
    the unit is the largest of kB, MB, GB and TB that the size reaches, one decimal
    is kept below a hundred of them and none above, and the number shown is the
    size in that unit correctly rounded: off by at most half of its last digit. *)
Theorem fileSize_spec b :
  0 <= b <= 2 ^ 53 ->
  (b < 1024 -> fileSize (Some b) = number b ++ lit " B") /\
  (1024 <= b ->
    exists unit n,
      let size := 1024 ^ Z.of_nat (S unit) in
      let decimals := if b <? 100 * size then 1%nat else 0%nat in
      fileSize (Some b) = point decimals n ++ lit " " ++ nth unit units []
      /\ (unit < List.length units)%nat
      /\ size <= b /\ (b < 1024 * size \/ unit = 3%nat)
      /\ 2 * Z.abs (n * size - b * 10 ^ Z.of_nat decimals) <= size).
Proof.
  intros Hb. unfold fileSize. rewrite (proj2 (Z.ltb_ge b 0)) by lia. split; intros Hk.
  { by rewrite (proj2 (Z.ltb_lt b 1024)). }
  rewrite (proj2 (Z.ltb_ge b 1024)) by lia.
  destruct (unit_loop_scaled b (List.length units) 0 (div (of_int b) 1024)) as (u & v & -> & Hv & Hu & Hlo & Hhi).
  - done.
  - apply scaled_rnd; [done|lia|]. unfold of_int. rewrite rnd_int by lia.
    rewrite <- scaled_S. unfold scaled. change (inject_Z (1024 ^ Z.of_nat 0)) with 1%Q. field.
  - lia.
  - cbn. lia.
  - done.
  - exists u, (fixed_units (if b <? 100 * 1024 ^ Z.of_nat (S u) then 1 else 0) v). cbv zeta.
    replace (lt v 100) with (b <? 100 * 1024 ^ Z.of_nat (S u)).
    + split_and!; [by destruct (b <? _)|cbn; lia|done| |by apply fixed_units_near].
      rewrite Nat2Z.inj_succ, Z.pow_succ_r in Hhi by lia. lia.
    + apply eq_true_iff_eq. rewrite Z.ltb_lt, lt_spec, Hv. change 100%Q with (inject_Z 100).
      pose proof (scaled_le 100 b (S u)) as Hs. split.
      * intros Hlt. apply Qnot_le_lt. rewrite Hs. lia.
      * intros Hlt. apply Z.nle_gt. rewrite <- Hs. lra.
Qed.

(** ** Durations *)

(** The quotient is rounded to a double before it is cut; the cut still gives the
    integer quotient, since a remainder of 59 leaves room for 1/64. *)
Lemma floor_div_60 n : 0 <= n <= 2 ^ 52 -> floor (div (of_int n) 60) = n / 60.
Proof.
  intros Hn. set (k := n / 60).
  assert (Hk : 60 * k <= n <= 60 * k + 59) by (pose proof (Z.div_mod n 60); pose proof (Z.mod_pos_bound n 60); lia).
  assert (Hr : (inject_Z k <= div (of_int n) 60 <= inject_Z k + (63 # 64))%Q).
  { apply rnd_between.
    - apply exact_int. lia.
    - exists (64 * k + 63), (-6). split_and!; [lia|lia|]. rewrite inject_Z_plus, inject_Z_mult.
      change (2 ^ (-6))%Q with (1 # 64)%Q. change (inject_Z 64) with 64%Q. change (inject_Z 63) with 63%Q. field.
    - unfold of_int. rewrite rnd_int by lia. destruct Hk as [Hk1 Hk2].
      rewrite Zle_Qle, inject_Z_mult in Hk1. rewrite Zle_Qle, inject_Z_plus, inject_Z_mult in Hk2.
      change (inject_Z 60) with 60%Q in *. change (inject_Z 59) with 59%Q in *. split.
      + apply Qle_shift_div_l; lra.
      + apply Qle_shift_div_r; lra. }
  unfold floor. apply Z.le_antisymm.
  - enough (Qfloor (div (of_int n) 60) < k + 1) by lia. rewrite Zlt_Qlt, inject_Z_plus.
    change (inject_Z 1) with 1%Q. pose proof (Qfloor_le (div (of_int n) 60)). lra.
  - rewrite <- (Qfloor_Z k). apply Qfloor_resp_le, Hr.
Qed.

Definition two_digits (v : Z) : qstring := [48 + v / 10; 48 + v mod 10].
Lemma pad_two v : 0 <= v < 60 -> pad v = two_digits v.
Proof.
  intros Hv. assert (Forall (fun v => pad (Z.of_nat v) = two_digits (Z.of_nat v)) (seq 0 60)) as Hf.
  { apply (bool_decide_unpack _). by vm_compute. }
  rewrite Forall_forall in Hf. specialize (Hf (Z.to_nat v)). rewrite Z2Nat.id in Hf by lia.
  apply Hf, elem_of_seq. lia.
Qed.

(** What [duration] shows of a time rounded to whole seconds: the seconds alone
    below a minute, minutes and two digits of seconds below an hour, hours and two
    digits of minutes from there on. Nothing shown passes 59 but the hours, and the
    parts add up to the time. *)
Theorem duration_spec seconds :
  (0 <= seconds)%Q -> round seconds <= 2 ^ 52 ->
  let whole := round seconds in
  0 <= whole /\
  duration (Some seconds) =
    if whole <? 60 then number whole ++ lit "s"
    else if whole <? 3600
    then number (whole / 60) ++ lit "m " ++ two_digits (whole mod 60) ++ lit "s"
    else number (whole / 3600) ++ lit "h " ++ two_digits (whole / 60 mod 60) ++ lit "m".
Proof.
  intros Hs Hmax whole. assert (H0 : 0 <= whole).
  { rewrite <- (round_int 0). by apply round_mono. }
  split; [done|]. unfold duration.
  assert (lt seconds 0 = false) as -> by by apply lt_false. cbv zeta. fold whole in Hmax |- *.
  destruct (Z.ltb_spec whole 60); [done|]. rewrite floor_div_60 by lia.
  pose proof (Z.div_mod whole 60 ltac:(lia)) as Hd. pose proof (Z.mod_pos_bound whole 60 ltac:(lia)) as Hm.
  destruct (Z.ltb_spec (whole / 60) 60), (Z.ltb_spec whole 3600); try lia.
  - rewrite Z.rem_mod_nonneg, pad_two by lia. done.
  - rewrite floor_div_60 by lia. rewrite Z.rem_mod_nonneg by lia.
    rewrite pad_two by (apply Z.mod_pos_bound; lia). rewrite Z.div_div by lia. done.
Qed.

(** ** Progress *)

Definition points (f : Q) : Z := round (mul (min f 1) 100).
Lemma points_mono f g : (f <= g)%Q -> points f <= points g.
Proof.
  intros Hfg. apply round_mono. unfold mul. apply rnd_mono. apply Qmult_le_compat_r; [|lra].
  destruct (min_spec f 1) as (? & ? & _), (min_spec g 1) as (_ & _ & [-> | ->]); lra.
Qed.
Lemma points_value (f : Q) p : (Z.abs p <= 2 ^ 53) -> (min f 1 * 100 == inject_Z p)%Q -> points f = p.
Proof.
  intros Hp Hf. unfold points, mul.
  enough (rnd (min f 1 * 100) == inject_Z p)%Q as Hr.
  { apply Z.le_antisymm; rewrite <- (round_int p); apply round_mono; lra. }
  rewrite (rnd_comp _ _ Hf). by apply rnd_int.
Qed.
Lemma points_one f : (1 <= f)%Q -> points f = 100.
Proof.
  intros Hf. apply points_value; [done|]. destruct (min_spec f 1) as (_ & Hle & Hm).
  assert (min f 1 == 1)%Q as -> by (destruct Hm as [Hm|Hm]; rewrite Hm in Hle |- *; lra). done.
Qed.
Lemma points_zero f : (f == 0)%Q -> points f = 0.
Proof.
  intros Hf. apply points_value; [done|]. destruct (min_spec f 1) as (Hle & _ & [Hm|Hm]).
  - rewrite Hm, Hf. done.
  - rewrite Hm in Hle. lra.
Qed.
Definition shown (f : Q) : Z := if Qle_bool f 0 then 0 else points f.
Lemma shown_zero f : (f <= 0)%Q -> shown f = 0.
Proof. intros Hf. unfold shown. by rewrite (proj2 (Qle_bool_iff _ _) Hf). Qed.
Lemma shown_pos f : (0 <= f)%Q -> shown f = points f.
Proof.
  intros Hf. unfold shown. destruct (Qle_bool f 0) eqn:E; [|done]. apply Qle_bool_iff in E.
  symmetry. apply points_zero. lra.
Qed.
Lemma shown_one f : (1 <= f)%Q -> shown f = 100.
Proof. intros Hf. rewrite shown_pos by lra. by apply points_one. Qed.
Lemma shown_mono f g : (f <= g)%Q -> shown f <= shown g.
Proof.
  intros Hfg. destruct (Qlt_le_dec g 0) as [Hg|Hg].
  - rewrite !shown_zero by lra. done.
  - rewrite (shown_pos g Hg). destruct (Qlt_le_dec f 0) as [Hf|Hf].
    + rewrite shown_zero by lra. rewrite <- (points_zero 0) by done. by apply points_mono.
    + rewrite (shown_pos f Hf). by apply points_mono.
Qed.
Lemma shown_range f : 0 <= shown f <= 100.
Proof.
  split.
  - destruct (Qlt_le_dec f 0) as [Hf|Hf]; [by rewrite shown_zero by lra|].
    rewrite <- (shown_zero 0) by done. by apply shown_mono.
  - destruct (Qlt_le_dec 1 f) as [Hf|Hf]; [by rewrite shown_one by lra|].
    rewrite <- (shown_one 1) by done. by apply shown_mono.
Qed.
Lemma percent_points f : percent (Some f) = number (shown f) ++ lit "%".
Proof.
  unfold shown, percent, is_zero. destruct (Qle_bool f 0) eqn:E.
  - apply Qle_bool_iff in E. destruct (Qeq_bool f 0) eqn:E0; [done|].
    apply Qeq_bool_neq in E0. replace (lt f 0) with true; [done|]. symmetry. apply lt_spec.
    apply Qnot_le_lt. intros Hle. apply E0, Qle_antisym; done.
  - apply (le_false f 0) in E. destruct (Qeq_bool f 0) eqn:E0; [apply Qeq_bool_iff in E0; lra|].
    by assert (lt f 0 = false) as -> by (apply lt_false; lra).
Qed.

(** Progress never runs backwards on the screen and never leaves 0% to 100%:
    of two fractions the larger shows at least as many points, a fraction of one or
    more shows 100%, and one that is not positive 0%. *)
Theorem percent_monotone f g :
  (f <= g)%Q ->
  exists p q,
    percent (Some f) = number p ++ lit "%" /\ percent (Some g) = number q ++ lit "%"
    /\ 0 <= p <= q /\ q <= 100 /\ ((g <= 0)%Q -> q = 0) /\ ((1 <= f)%Q -> p = 100).
Proof.
  intros Hfg. exists (shown f), (shown g). split_and!; [apply percent_points..| | | | |].
  - apply shown_range.
  - by apply shown_mono.
  - apply shown_range.
  - apply shown_zero.
  - apply shown_one.
Qed.

(** ** Fingerprints *)

(** What stands before position [j] of the text. *)
Definition separator (j : nat) : qstring :=
  if (j =? 0)%nat || negb (j mod 8 =? 0)%nat then []
  else if (j mod 32 =? 0)%nat then [10] else lit "  ".
Fixpoint layout (j : nat) (s : qstring) : qstring :=
  match s with
  | [] => []
  | c :: s => separator j ++ c :: layout (S j) s
  end.

Lemma layout_app j s t : layout j (s ++ t) = layout j s ++ layout (j + List.length s) t.
Proof.
  revert j. induction s as [|c s IH]; intros j; cbn [app layout List.length]; [by rewrite Nat.add_0_r|].
  by rewrite IH, <- app_assoc, Nat.add_succ_comm.
Qed.
Lemma separator_inside m k : (1 <= k < 8)%nat -> separator (8 * m + k) = [].
Proof.
  intros Hk. unfold separator. rewrite (proj2 (Nat.eqb_neq ((8 * m + k) mod 8) 0)).
  - by rewrite orb_true_r.
  - rewrite Nat.add_comm, Nat.mul_comm, Nat.Div0.mod_add, Nat.mod_small by lia. lia.
Qed.
Lemma layout_inside m k g : (1 <= k)%nat -> (k + List.length g <= 8)%nat -> layout (8 * m + k) g = g.
Proof.
  revert k. induction g as [|c g IH]; intros k H1 H8; cbn [layout List.length] in *; [done|].
  rewrite separator_inside, app_nil_l by lia. f_equal.
  replace (S (8 * m + k)) with (8 * m + S k)%nat by lia. apply IH; lia.
Qed.
Lemma layout_group m c g : (List.length (c :: g) <= 8)%nat ->
  layout (8 * m) (c :: g) = separator (8 * m) ++ c :: g.
Proof.
  intros H8. cbn [layout List.length] in *. do 2 f_equal.
  replace (S (8 * m)) with (8 * m + 1)%nat by lia. apply layout_inside; lia.
Qed.
Lemma separator_loop m :
  (if (0 <? 8 * m)%nat then if (8 * m mod 32 =? 0)%nat then [10] else lit "  " else []) = separator (8 * m).
Proof.
  unfold separator. rewrite Nat.mul_comm, (Nat.Div0.mod_mul m 8). cbn [Nat.eqb negb]. rewrite orb_false_r.
  by destruct (Nat.ltb_spec 0 (m * 8)), (Nat.eqb_spec (m * 8) 0); try lia.
Qed.
Lemma groups_loop_layout turns fp m :
  (List.length fp < 8 * m + turns)%nat ->
  groups_loop turns fp (8 * m) (layout 0 (take (8 * m) fp)) = layout 0 fp.
Proof.
  revert m. induction turns as [|turns IH]; intros m Ht; cbn [groups_loop].
  - by rewrite take_ge by lia.
  - destruct (Nat.ltb_spec (8 * m) (List.length fp)) as [Hm|Hm]; [|by rewrite take_ge by lia].
    unfold JsText.substring. replace (8 * m + 8)%nat with (8 * S m)%nat by lia.
    rewrite <- (IH (S m)) by lia. f_equal.
    replace (8 * S m)%nat with (8 * m + 8)%nat by lia. rewrite <- take_take_drop, layout_app.
    rewrite length_take_le, Nat.add_0_l by lia. replace (8 * m + 8 - 8 * m)%nat with 8%nat by lia.
    assert (exists c g, take 8 (drop (8 * m) fp) = c :: g) as (c & g & Hg).
    { destruct (drop (8 * m) fp) as [|c r] eqn:E; [|by exists c, (take 7 r)].
      apply (f_equal List.length) in E. rewrite length_drop in E. cbn in E. lia. }
    rewrite Hg, layout_group, <- separator_loop.
    + destruct (0 <? 8 * m)%nat; [by rewrite app_assoc|done].
    + rewrite <- Hg, length_take. lia.
Qed.

(** [fingerprintGroups] breaks a text into lines of four groups of eight: it
    equals the layout that puts two spaces before every eighth character and a line
    break before every thirty-second. *)
Theorem fingerprintGroups_layout fp : fingerprintGroups fp = layout 0 fp.
Proof.
  unfold fingerprintGroups. destruct fp as [|c fp]; [done|]. cbn [is_empty].
  apply (groups_loop_layout _ _ 0). lia.
Qed.

(** ** Paths *)

(** C38: the URL [fileUrl] makes of a path opens that path exactly when it holds no
    "#" and no "?": everything else is escaped and decodes to itself, but those two
    are left alone, and what follows the first of them is lost. A path with an
    unpaired surrogate raises [URIError]. *)
Theorem fileUrl_opens path :
  Forall (fun c => 0 <= c < 65536) path -> path <> [] ->
  (fileUrl path = None <-> valid_utf16 path = false) /\
  forall url, fileUrl path = Some url ->
    JsText.opened_path url = Some (JsText.cut_path path) /\
    (JsText.opened_path url = Some path <-> 35 ∉ path /\ 63 ∉ path).
Proof.
  intros Hu Hp. unfold fileUrl. rewrite (proj2 (is_empty_false path)) by done. split.
  { rewrite fmap_None. by apply JsText.encodeURI_error. }
  intros url (u & He & ->)%fmap_Some.
  destruct (valid_utf16 path) eqn:Hv; [|apply JsText.encodeURI_error in Hv; congruence].
  destruct (JsText.encodeURI_decoded path Hu Hv) as (u' & He' & Hd).
  assert (u' = u) as -> by congruence.
  assert (JsText.opened_path (lit "file://" ++ u) = Some (JsText.cut_path path)) as Ho.
  { unfold JsText.opened_path, starts_with. rewrite bool_decide_eq_true_2 by by exists u.
    by rewrite drop_app_length. }
  split; [done|]. rewrite Ho, (inj_iff Some), JsText.cut_path_id, Forall_forall.
  unfold JsText.ends_path. split.
  - intros Hf. split; intros Hin; by apply Hf in Hin.
  - intros [H35 H63] c Hc. apply orb_false_iff. rewrite !Z.eqb_neq. split; congruence.
Qed.

(** ** Round trip of a fingerprint *)

Definition is_separator (c : Z) : bool := (c =? 32) || (c =? 10).
Lemma filter_layout j s :
  Forall (fun c => is_separator c = false) s ->
  List.filter (fun c => negb (is_separator c)) (layout j s) = s.
Proof.
  intros Hs. revert j. induction Hs as [|c s Hc _ IH]; intros j; cbn [layout]; [done|].
  rewrite List.filter_app. cbn [List.filter]. rewrite Hc, IH. unfold separator.
  by repeat case_match.
Qed.
(** A line of thirty-two characters. *)
Lemma layout_line s : List.length s = 32%nat -> Forall (fun c => is_separator c = false) s ->
  layout 32 s = [10] ++ layout 0 s /\ len (layout 0 s) = 38 /\ 10 ∉ layout 0 s.
Proof.
  intros Hl Hs. assert (Hn : Forall (fun c => c <> 10) s).
  { eapply Forall_impl; [exact Hs|]. unfold is_separator. intros c Hc. lia. }
  clear Hs. do 32 (destruct s as [|? s]; [discriminate Hl|]). destruct s; [|discriminate Hl].
  split_and!; [done..|]. intros Hin. apply list_elem_of_In in Hin. cbn in Hin.
  rewrite !Forall_cons in Hn. destruct_and! Hn.
  repeat destruct Hin as [Hin|Hin]; first [congruence|vm_compute in Hin; discriminate|done].
Qed.
(** Dropping the spaces and line breaks of a grouped fingerprint gives the
    fingerprint back, so two devices that show the same groups have the same
    fingerprint; and a SHA-256 fingerprint is shown as two lines of 38 characters. *)
Theorem fingerprint_readable fp :
  Forall (fun c => is_separator c = false) fp ->
  List.filter (fun c => negb (is_separator c)) (fingerprintGroups fp) = fp
  /\ (len fp = 64 ->
      exists first second, fingerprintGroups fp = first ++ [10] ++ second
        /\ len first = 38 /\ len second = 38
        /\ 10 ∉ first /\ 10 ∉ second).
Proof.
  intros Hs. unfold fingerprintGroups. destruct fp as [|c0 fp0] eqn:Efp; [done|]. cbn [is_empty].
  rewrite (groups_loop_layout _ (c0 :: fp0) 0) by lia. rewrite <- Efp in *. clear Efp c0 fp0.
  split; [by apply filter_layout|]. intros H64.
  assert (Hl : List.length fp = 64%nat) by (unfold len in H64; lia).
  rewrite <- (take_drop 32 fp) in Hs |- *. apply Forall_app in Hs as [Hs1 Hs2].
  destruct (layout_line (take 32 fp)) as (_ & Hl1 & Hn1); [by rewrite length_take, Hl|done|].
  destruct (layout_line (drop 32 fp)) as (Hb & Hl2 & Hn2); [by rewrite length_drop, Hl|done|].
  exists (layout 0 (take 32 fp)), (layout 0 (drop 32 fp)). split_and!; [|done..].
  rewrite layout_app, length_take, Hl. by rewrite Nat.add_0_l, <- Hb.
Qed.

(** ** Witnesses *)

Lemma fileSize_spec_witness :
  (0 <= 10276045 <= 2 ^ 53)
  /\ fileSize (Some 10276045) = lit "9.8 MB"
  /\ exists unit n,
      let size := 1024 ^ Z.of_nat (S unit) in
      let decimals := if 10276045 <? 100 * size then 1%nat else 0%nat in
      fileSize (Some 10276045) = point decimals n ++ lit " " ++ nth unit units []
      /\ (unit < List.length units)%nat
      /\ size <= 10276045 /\ (10276045 < 1024 * size \/ unit = 3%nat)
      /\ 2 * Z.abs (n * size - 10276045 * 10 ^ Z.of_nat decimals) <= size.
Proof.
  split_and!; [lia|lia|by vm_compute|]. apply (fileSize_spec 10276045); lia.
Defined.
Example unit_loop_terabytes : unit_loop 4 (inject_Z (2 ^ 60)) 0 = (inject_Z (2 ^ 30), 3%nat).
Proof. by vm_compute. Qed.
Lemma duration_spec_witness :
  (0 <= 3780)%Q /\ round 3780 <= 2 ^ 52 /\ duration (Some 3780%Q) = lit "1h 03m" /\ 0 <= round 3780.
Proof.
  assert (H1 : (0 <= 3780)%Q) by (by vm_compute). assert (H2 : round 3780 <= 2 ^ 52) by (by vm_compute).
  split_and!; [exact H1|exact H2|by vm_compute|]. exact (proj1 (duration_spec 3780 H1 H2)).
Defined.
Lemma percent_monotone_witness :
  (1 # 3 <= 2 # 3)%Q /\ percent (Some (1 # 3)) = lit "33%" /\ percent (Some (2 # 3)) = lit "67%"
  /\ exists p q, percent (Some (1 # 3)) = number p ++ lit "%" /\ percent (Some (2 # 3)) = number q ++ lit "%"
      /\ 0 <= p <= q /\ q <= 100 /\ ((2 # 3 <= 0)%Q -> q = 0) /\ ((1 <= 1 # 3)%Q -> p = 100).
Proof.
  assert (H1 : (1 # 3 <= 2 # 3)%Q) by (by vm_compute).
  split_and!; [exact H1|by vm_compute|by vm_compute|]. exact (percent_monotone (1 # 3) (2 # 3) H1).
Defined.

Definition holiday : qstring := lit "/home/nemo/holiday#2.jpg".
Lemma fileUrl_opens_witness :
  fileUrl holiday = Some (lit "file:///home/nemo/holiday#2.jpg")
  /\ JsText.opened_path (lit "file:///home/nemo/holiday#2.jpg") = Some (lit "/home/nemo/holiday").
Proof.
  assert (Hu : Forall (fun c => 0 <= c < 65536) holiday) by (apply (bool_decide_unpack _); vm_compute; exact I).
  assert (Hf : fileUrl holiday = Some (lit "file:///home/nemo/holiday#2.jpg")) by (by vm_compute).
  split; [exact Hf|].
  exact (proj1 (proj2 (fileUrl_opens holiday Hu ltac:(discriminate)) _ Hf)).
Defined.
Definition sample_fingerprint : qstring :=
  lit "0123456789ABCDEF0123456789ABCDEF0123456789ABCDEF0123456789ABCDEF".
Lemma fingerprint_readable_witness :
  Forall (fun c => is_separator c = false) sample_fingerprint
  /\ List.filter (fun c => negb (is_separator c)) (fingerprintGroups sample_fingerprint) = sample_fingerprint
  /\ exists first second, fingerprintGroups sample_fingerprint = first ++ [10] ++ second
        /\ len first = 38 /\ len second = 38 /\ 10 ∉ first /\ 10 ∉ second.
Proof.
  assert (Hs : Forall (fun c => is_separator c = false) sample_fingerprint)
    by (apply (bool_decide_unpack _); vm_compute; exact I).
  destruct (fingerprint_readable sample_fingerprint Hs) as [H1 H2].
  split_and!; [exact Hs|exact H1|exact (H2 eq_refl)].
Defined.

(** A size just below a unit is rounded up to 1024 of the smaller one, and just
    below a hundred to a hundred with a decimal. *)
Example size_rounds_up : fileSize (Some 1048575) = lit "1024 kB" /\ fileSize (Some 102399) = lit "100.0 kB".
Proof. by vm_compute. Qed.
Example duration_minutes : duration (Some 134%Q) = lit "2m 14s" /\ duration (Some 45%Q) = lit "45s".
Proof. by vm_compute. Qed.
Example speed_shown : speed (Some 0) = [] /\ speed (Some 2048) = lit "2.0 kB/s".
Proof. by vm_compute. Qed.
End Formatting.
