(* ===== verification/DeviceLook.v ===== *)
(** * DeviceLook: src/qml/components/DeviceLook.js

    The colour and the letters of a device's badge. The colour arithmetic is
    that of [JsNumber], rounding included; a falsy text is the empty one. *)
From S2P Require Import Prelude Crypto Reference JsNumber JsText.
From Stdlib Require Import QArith Qround Lqa.

Module DeviceLook.
Import JsNumber.
#[local] Open Scope Z_scope.

(** The loop over [charCodeAt(i)]. Shift and [&] work on 32 bits. *)
Definition hash_turn (value c : Z) : Z :=
  let value := to_int32 (Z.shiftl (to_int32 value) 5) - value + c in
  to_int32 (Z.land (to_int32 value) (to_int32 value)).
Fixpoint hash_loop (value : Z) (text : qstring) {struct text} : Z :=
  match text with
  | [] => value
  | c :: text => hash_loop (hash_turn value c) text
  end.
Definition hash (text : qstring) : Z :=
  if is_empty text then 0 else Z.abs (hash_loop 0 text).

(** A decimal literal is the double nearest to it. *)
Definition literal (x : Q) : Q := rnd x.

Definition hueToChannel (p q t : Q) : Q :=
  let t := if lt t 0 then add t 1 else t in
  let t := if lt 1 t then sub t 1 else t in
  if lt t (div 1 6) then add p (mul (mul (sub q p) 6) t)
  else if lt t (div 1 2) then q
  else if lt t (div 2 3) then add p (mul (mul (sub q p) (sub (div 2 3) t)) 6)
  else p.

(** [toString(16)] of a natural number. *)
Fixpoint hex_loop (turns : nat) (n : Z) (out : qstring) : qstring :=
  match turns with
  | O => out
  | S turns =>
      let out := hex_digit (n mod 16) :: out in
      if n / 16 =? 0 then out else hex_loop turns (n / 16) out
  end.
Definition toString16 (n : Z) : qstring := hex_loop (S (Z.to_nat (Z.log2 n))) n [].
Definition byte_of (value : Q) : Z := round (mul (max 0 (min 1 value)) 255).
Definition byteToHex (value : Q) : qstring :=
  let hex := toString16 (byte_of value) in
  if len hex =? 1 then lit "0" ++ hex else hex.

(** [q] and [p] of [hslToHex]. *)
Definition upper_channel (s l : Q) : Q :=
  if lt l (literal (1 # 2)) then mul l (add 1 s) else sub (add l s) (mul l s).
Definition lower_channel (s l : Q) : Q := sub (mul 2 l) (upper_channel s l).
Definition hslToHex (h s l : Q) : qstring :=
  let '(r, g, b) :=
    if is_zero s then (l, l, l)
    else
      let q := upper_channel s l in
      let p := lower_channel s l in
      (hueToChannel p q (add h (div 1 3)), hueToChannel p q h, hueToChannel p q (sub h (div 1 3))) in
  lit "#" ++ byteToHex r ++ byteToHex g ++ byteToHex b.

Definition hue_of (fingerprint : qstring) : Q :=
  rem (mul (of_int (hash fingerprint)) (literal (137508 # 1000))) 360.
Definition saturation : Q := literal (52 # 100).
Definition lightness (dark : bool) : Q := if dark then literal (62 # 100) else literal (46 # 100).
Definition accent (fingerprint : qstring) (dark : bool) : qstring :=
  hslToHex (div (hue_of fingerprint) 360) saturation (lightness dark).

Definition initials `{QtText} (alias : qstring) : qstring :=
  if is_empty alias then lit "?"
  else
    match JsText.split (JsText.trim alias) with
    | [word] => q_upper (JsText.substring 0 2 word)
    | words => q_upper (JsText.charAt 0 (nth 0 words []) ++ JsText.charAt 0 (nth 1 words []))
    end.

(** ** The hash *)

Lemma wrap32_range z : - 2 ^ 31 <= wrap32 z <= 2 ^ 31 - 1.
Proof. unfold wrap32. pose proof (Z.mod_pos_bound (z + 2 ^ 31) (2 ^ 32)). lia. Qed.
Lemma wrap32_shift z : exists k, wrap32 z = z + k * 2 ^ 32.
Proof.
  unfold wrap32. pose proof (Z.div_mod (z + 2 ^ 31) (2 ^ 32) ltac:(lia)) as Hd.
  exists (- ((z + 2 ^ 31) / 2 ^ 32)). lia.
Qed.
Lemma wrap32_add z k : wrap32 (z + k * 2 ^ 32) = wrap32 z.
Proof.
  unfold wrap32. replace (z + k * 2 ^ 32 + 2 ^ 31) with (z + 2 ^ 31 + k * 2 ^ 32) by lia.
  by rewrite Z.mod_add by lia.
Qed.
Lemma wrap32_id z : - 2 ^ 31 <= z <= 2 ^ 31 - 1 -> wrap32 z = z.
Proof. intros Hz. unfold wrap32. rewrite Z.mod_small by lia. lia. Qed.

(** The polynomial with base 31. *)
Definition poly31 (text : qstring) (value : Z) : Z := foldl (fun v c => 31 * v + c) value text.
Lemma hash_step value c :
  - 2 ^ 31 <= value <= 2 ^ 31 - 1 ->
  hash_turn value c = wrap32 (31 * value + c).
Proof.
  intros Hv. unfold hash_turn, to_int32. cbv zeta. rewrite Z.land_diag, (wrap32_id (wrap32 _)) by apply wrap32_range.
  rewrite (wrap32_id value), Z.shiftl_mul_pow2 by lia.
  destruct (wrap32_shift (value * 2 ^ 5)) as [k ->].
  rewrite <- (wrap32_add (31 * value + c) k). f_equal. lia.
Qed.
Lemma poly31_cons c text value : poly31 (c :: text) value = poly31 text (31 * value + c).
Proof. reflexivity. Qed.
Lemma poly31_wrap text z k : wrap32 (poly31 text (z + k * 2 ^ 32)) = wrap32 (poly31 text z).
Proof.
  revert k z. induction text as [|c text IH]; intros k z; [apply wrap32_add|].
  rewrite !poly31_cons.
  replace (31 * (z + k * 2 ^ 32) + c) with (31 * z + c + 31 * k * 2 ^ 32) by lia. apply IH.
Qed.
Lemma poly31_wrap32 text z : wrap32 (poly31 text (wrap32 z)) = wrap32 (poly31 text z).
Proof. destruct (wrap32_shift z) as [k Hk]. rewrite Hk. apply poly31_wrap. Qed.
Lemma hash_loop_cons c text value : hash_loop value (c :: text) = hash_loop (hash_turn value c) text.
Proof. reflexivity. Qed.
Lemma hash_loop_nil value : hash_loop value [] = value.
Proof. reflexivity. Qed.
Lemma poly31_nil value : poly31 [] value = value.
Proof. reflexivity. Qed.
Lemma hash_loop_poly text value :
  - 2 ^ 31 <= value <= 2 ^ 31 - 1 -> hash_loop value text = wrap32 (poly31 text value).
Proof.
  revert value. induction text as [|c text IH]; intros value Hv.
  - rewrite hash_loop_nil, poly31_nil. symmetry. exact (wrap32_id value Hv).
  - rewrite hash_loop_cons, poly31_cons, (hash_step value c Hv), (IH _ (wrap32_range _)).
    apply poly31_wrap32.
Qed.

Lemma hash_poly text : hash text = Z.abs (wrap32 (poly31 text 0)).
Proof. unfold hash. rewrite hash_loop_poly by lia. by destruct text. Qed.
Lemma hash_polynomial_bound text : 0 <= hash text <= 2 ^ 31.
Proof. rewrite hash_poly. pose proof (wrap32_range (poly31 text 0)). lia. Qed.

(** C39: [hash] is the polynomial with base 31 of the text's code units, taken into
    32-bit two's complement and made positive. It never passes [2^31], and the one
    value with no positive 32-bit counterpart stays exact. *)
Theorem hash_polynomial text :
  hash text = Z.abs (wrap32 (poly31 text 0)) /\ 0 <= hash text <= 2 ^ 31.
Proof.
  split; [apply hash_poly|apply hash_polynomial_bound].
Qed.
(** The text whose hash is [-2^31]. *)
Example hash_smallest : hash (lit "polygenelubricants") = 2 ^ 31.
Proof. by vm_compute. Qed.

(** ** The colour *)

(** A channel's byte stays between 0 and 255 and is written with two digits. *)
Lemma byte_of_mono v w : (v <= w)%Q -> byte_of v <= byte_of w.
Proof.
  intros Hvw. apply round_mono. unfold mul. apply rnd_mono, Qmult_le_compat_r; [|lra].
  destruct (min_spec 1 v) as (H1 & H2 & Hmv), (min_spec 1 w) as (H3 & H4 & Hmw).
  assert (min 1 v <= min 1 w)%Q as Hm by (destruct Hmw as [-> | ->]; lra).
  destruct (max_spec 0 (min 1 v)) as (_ & _ & Hv), (max_spec 0 (min 1 w)) as (H5 & H6 & _).
  destruct Hv as [-> | ->]; lra.
Qed.
Lemma byte_of_range v : 0 <= byte_of v <= 255.
Proof.
  assert (0 <= max 0 (min 1 v) <= 1)%Q as Hm.
  { destruct (min_spec 1 v) as (Hm & _ & _), (max_spec 0 (min 1 v)) as (H1 & _ & [-> | H3]); [lra|].
    rewrite H3 in H1 |- *. lra. }
  assert (inject_Z 0 <= mul (max 0 (min 1 v)) 255 <= inject_Z 255)%Q as [H1 H2].
  { apply rnd_between; [by apply exact_int..|]. change (inject_Z 0) with 0%Q.
    change (inject_Z 255) with 255%Q. lra. }
  split.
  - rewrite <- (round_int 0). by apply round_mono.
  - rewrite <- (round_int 255). by apply round_mono.
Qed.
Definition two_hex (b : Z) : qstring := [hex_digit (b / 16); hex_digit (b mod 16)].
Lemma byteToHex_two v : byteToHex v = two_hex (byte_of v).
Proof.
  unfold byteToHex. pose proof (byte_of_range v) as Hb. revert Hb. generalize (byte_of v) as b. intros b Hb.
  assert (Forall (fun n => (let hex := toString16 (Z.of_nat n) in
      if len hex =? 1 then lit "0" ++ hex else hex) = two_hex (Z.of_nat n)) (seq 0 256)) as Hf.
  { apply (bool_decide_unpack _). by vm_compute. }
  rewrite Forall_forall in Hf. specialize (Hf (Z.to_nat b)). rewrite Z2Nat.id in Hf by lia.
  apply Hf, elem_of_seq. lia.
Qed.

(** A channel lies between [p] and the largest of [q] and the two slopes at their
    upper ends, whatever the rounding of the hue. *)
Lemma mul_nonneg x y : (0 <= x -> 0 <= y -> 0 <= mul x y)%Q.
Proof. intros Hx Hy. unfold mul. rewrite <- (rnd_int 0) at 1 by lia. apply rnd_mono. by apply Qmult_le_0_compat. Qed.
Lemma mul_mono x y z : (0 <= x -> y <= z -> mul x y <= mul x z)%Q.
Proof. intros Hx Hyz. apply rnd_mono. rewrite !(Qmult_comm x). by apply Qmult_le_compat_r. Qed.
Lemma mul_mono_l x y z : (0 <= x -> y <= z -> mul y x <= mul z x)%Q.
Proof. intros Hx Hyz. apply rnd_mono. by apply Qmult_le_compat_r. Qed.
Lemma add_mono x y z : (y <= z -> add x y <= add x z)%Q.
Proof. intros Hyz. apply rnd_mono. lra. Qed.
Lemma sub_mono x y z : (y <= z -> sub x z <= sub x y)%Q.
Proof. intros Hyz. apply rnd_mono. lra. Qed.
Lemma wrapped_hue t : (-1 <= t <= 2)%Q ->
  let t := if lt t 0 then add t 1 else t in
  (0 <= (if lt 1 t then sub t 1 else t))%Q.
Proof.
  intros Ht. cbv zeta. destruct (lt t 0) eqn:E.
  - apply lt_spec in E.
    assert (inject_Z 0 <= add t 1 <= inject_Z 1)%Q as Ha.
    { apply rnd_between; [by apply exact_int..|]. change (inject_Z 0) with 0%Q. change (inject_Z 1) with 1%Q. lra. }
    change (inject_Z 0) with 0%Q in Ha. change (inject_Z 1) with 1%Q in Ha.
    assert (lt 1 (add t 1) = false) as -> by (apply lt_false; lra). lra.
  - apply lt_false in E. destruct (lt 1 t) eqn:E1; [|done]. apply lt_spec in E1.
    unfold sub. rewrite <- (rnd_int 0) at 1 by lia. apply rnd_mono. change (inject_Z 0) with 0%Q. lra.
Qed.
Definition slope_up (p q : Q) : Q := add p (mul (mul (sub q p) 6) (div 1 6)).
Definition slope_down (p q : Q) : Q := add p (mul (mul (sub q p) (sub (div 2 3) (div 1 2))) 6).
Lemma channel_between p q lo hi t :
  (-1 <= t <= 2)%Q -> (0 <= sub q p)%Q ->
  (lo <= p)%Q -> (lo <= add p 0)%Q -> (lo <= q)%Q ->
  (p <= hi)%Q -> (q <= hi)%Q -> (slope_up p q <= hi)%Q -> (slope_down p q <= hi)%Q ->
  (lo <= hueToChannel p q t <= hi)%Q.
Proof.
  intros Ht Hd Hlp Hla Hlq Hp Hq Hup Hdown. unfold hueToChannel.
  pose proof (wrapped_hue t Ht) as H0. cbv zeta in H0 |- *.
  set (u := if lt 1 _ then _ else _) in *. clearbody u.
  destruct (lt u (div 1 6)) eqn:E1; [|destruct (lt u (div 1 2)) eqn:E2; [|destruct (lt u (div 2 3)) eqn:E3]].
  - apply lt_spec in E1. assert (0 <= mul (sub q p) 6)%Q as H6 by (apply mul_nonneg; [done|lra]). split.
    + eapply Qle_trans; [exact Hla|]. apply add_mono, mul_nonneg; done.
    + eapply Qle_trans; [|exact Hup]. apply add_mono, mul_mono; [done|lra].
  - split; assumption.
  - apply lt_spec in E3. apply lt_false in E2.
    assert (0 <= sub (div 2 3) u)%Q as Hs.
    { unfold sub. rewrite <- (rnd_int 0) at 1 by lia. apply rnd_mono. change (inject_Z 0) with 0%Q. lra. }
    split.
    + eapply Qle_trans; [exact Hla|]. apply add_mono, mul_nonneg; [by apply mul_nonneg|lra].
    + eapply Qle_trans; [|exact Hdown]. apply add_mono, mul_mono_l; [lra|].
      by apply mul_mono, sub_mono.
  - split; assumption.
Qed.

Lemma hue_range fp : (0 <= hue_of fp < 360)%Q.
Proof.
  unfold hue_of, rem. rewrite Qred_correct.
  set (x := mul (of_int (hash fp)) (literal (137508 # 1000))).
  assert (0 <= x)%Q as Hx.
  { apply mul_nonneg; [|by vm_compute]. unfold of_int. rewrite <- (rnd_int 0) at 1 by lia.
    apply rnd_mono. rewrite <- Zle_Qle. apply hash_polynomial_bound. }
  assert (0 <= x / 360)%Q as Hq by (apply Qle_shift_div_l; lra).
  unfold trunc. rewrite (proj2 (Qle_bool_iff _ _) Hq).
  pose proof (Qfloor_le (x / 360)) as Hlo. pose proof (Qlt_floor (x / 360)) as Hup.
  rewrite inject_Z_plus in Hup. change (inject_Z 1) with 1%Q in Hup.
  assert (x == x / 360 * 360)%Q as Hxe by field. split; lra.
Qed.

(** The bytes between which every channel of an accent lies. *)
Definition dimmest (dark : bool) : Z := if dark then 108 else 56.
Definition brightest (dark : bool) : Z := if dark then 208 else 178.
Lemma channel_toned dark t : (-1 <= t <= 2)%Q ->
  let q := upper_channel saturation (lightness dark) in
  let p := lower_channel saturation (lightness dark) in
  dimmest dark <= byte_of (hueToChannel p q t) <= brightest dark.
Proof.
  intros Ht q p.
  pose (lo := min p (add p 0)). pose (hi := max q (max (slope_up p q) (slope_down p q))).
  assert (lo <= hueToChannel p q t <= hi)%Q as [Hlo Hhi].
  { unfold lo, hi, p, q. destruct dark;
      (apply channel_between; [done|apply Qle_bool_iff; by vm_compute..]). }
  apply byte_of_mono in Hlo, Hhi. unfold dimmest, brightest.
  assert (byte_of lo = dimmest dark /\ byte_of hi = brightest dark) as [El Eh].
  { unfold lo, hi, p, q. destruct dark; by vm_compute. }
  rewrite El in Hlo. rewrite Eh in Hhi. by split.
Qed.
Lemma third_turn h third : (0 <= h <= 1)%Q -> (0 <= third <= 1)%Q ->
  (-1 <= add h third <= 2)%Q /\ (-1 <= sub h third <= 2)%Q.
Proof.
  intros Hh Ht. change (-1)%Q with (inject_Z (-1)). change 2%Q with (inject_Z 2).
  split; (apply rnd_between; [by apply exact_int..|]);
    change (inject_Z (-1)) with (-1)%Q; change (inject_Z 2) with 2%Q; lra.
Qed.
(** C40: a device's colour is a valid one, "#" and six hexadecimal digits, whatever
    its fingerprint, and its extremes are toned down: every channel stays between
    108 and 208 on a dark theme and between 56 and 178 on a light one. *)
Theorem accent_toned fingerprint dark :
  exists r g b,
    accent fingerprint dark = lit "#" ++ two_hex r ++ two_hex g ++ two_hex b
    /\ Forall (fun c => dimmest dark <= c <= brightest dark) [r; g; b].
Proof.
  unfold accent, hslToHex. assert (is_zero saturation = false) as -> by (by vm_compute).
  rewrite !byteToHex_two. do 3 eexists. split; [done|].
  assert (inject_Z 0 <= div (hue_of fingerprint) 360 <= inject_Z 1)%Q as Hh.
  { pose proof (hue_range fingerprint). apply rnd_between; [by apply exact_int..|].
    change (inject_Z 0) with 0%Q. change (inject_Z 1) with 1%Q.
    split; [apply Qle_shift_div_l|apply Qle_shift_div_r]; lra. }
  change (inject_Z 0) with 0%Q in Hh. change (inject_Z 1) with 1%Q in Hh.
  set (h := div (hue_of fingerprint) 360) in *. clearbody h.
  assert (0 <= div 1 3 <= 1)%Q as Ht by (split; apply Qle_bool_iff; by vm_compute).
  generalize dependent (div 1 3). intros third Ht.
  repeat (apply Forall_cons; split); [apply channel_toned..|constructor].
  - apply third_turn; lra.
  - lra.
  - apply third_turn; lra.
Qed.

(** ** The letters *)

(** The letters of a badge, in upper case: the first of each of the first two
    words of the alias, the first two of an alias of one word, and "?" for no alias.
    Words are the maximal runs without white space, wherever the white space stands;
    an alias of white space alone shows nothing, not even the "?". *)
Theorem initials_words `{QtText} alias :
  alias <> [] ->
  initials alias =
    match JsText.words alias with
    | [] => []
    | [word] => q_upper (take 2 word)
    | first :: second :: _ => q_upper (take 1 first ++ take 1 second)
    end.
Proof.
  intros Ha. unfold initials. rewrite (proj2 (is_empty_false alias)), JsText.split_trim by done.
  unfold JsText.charAt, JsText.substring.
  destruct (JsText.words alias) as [|w1 [|w2 ws]]; cbn [nth Nat.sub drop]; [|done..].
  by apply q_upper_nil.
Qed.

(** ** Witnesses *)

Lemma initials_words_witness :
  @initials Reference.ascii_text (lit " Secret  Banana ") = lit "SB"
  /\ @initials Reference.ascii_text (lit "   ") = [].
Proof.
  assert (H1 : lit " Secret  Banana " <> []) by discriminate.
  assert (H2 : lit "   " <> []) by discriminate.
  split.
  - rewrite (initials_words (lit " Secret  Banana ") H1). by vm_compute.
  - rewrite (initials_words (lit "   ") H2). by vm_compute.
Defined.
Example accent_shown :
  accent (lit "ABC") true = lit "#6c7ad0"
  /\ accent (lit "9F86D081884C7D659A2FEAA0C55AD015A3BF4F1B2B0B822CD15D6C15B0F00A08") false = lit "#b2a038".
Proof. by vm_compute. Qed.
End DeviceLook.
