(* ===== verification/Discovery.v ===== *)
(** * Discovery: src/src/discovery.cpp, discovery.h

    Announcing ourselves, hearing others, the subnet sweep and the devices
    added by hand. The settings and the device list are the shared objects it
    points to. The network's answers (interfaces, binds, joins, writes) are
    read off [Network] at the current time; what it sends is logged. *)
From S2P Require Import Prelude Json Crypto Reference Protocol DeviceInfo SecureStore.
From S2P Require Import Certificate TlsClient KnownDevices AppSettings DeviceModel Network.
Import DeviceInfo.

(** [QNetworkInterface] and [QUdpSocket], at a time. *)
Class NetworkState := {
  allInterfaces : Z -> list (Z * bool);      (* index; up, running, multicast, no loopback *)
  allIPv4 : Z -> list (qstring * bool);      (* address, loopback *)
  udp_bind : Z -> bool;
  udp_join : Z -> Z -> bool;                 (* interface *)
  udp_write : Z -> option Z -> bytes -> bool (* > 0 *)
}.

Module Discovery.

Definition AnnounceIntervalMs : Z := 20 * 1000.
Definition DeviceMaxAgeSeconds : Z := 70.
Definition ScanWindow : Z := 24.
Definition ScanTimeoutMs : Z := 1500.
Definition RegisterTimeoutMs : Z := 3000.
Definition ResponseCooldownMs : Z := 10 * 1000.
Definition MaxTrackedResponders : Z := 256.
Definition MaxDatagramsPerPass : nat := 32.

Inductive signal :=
| runningChanged | scanningChanged | manualLookupChanged
| manualLookupFinished (found : bool) (endpoint peerAlias : qstring)
| deviceAppeared (alias : qstring).
(** Which slot a reply is connected to, and its abort timer. *)
Inductive Slot := OnRegister | OnRefresh | OnManual | OnScan.
#[export] Instance Slot_eq_dec : EqDecision Slot.
Proof. solve_decision. Defined.
Inductive Sent :=
| Datagram (to : qstring) (port : Z) (payload : bytes)
| Multicast (interface : option Z) (payload : bytes)
| Posted (id : Z) (r : Request).

Section Discovery.
Context `{OpenSSL, QtText, QHashOrder, Platform, JsonText, X509, AppPaths, SettingsHost, UrlText, NetworkState}.
Context {S : Type} `{StoredFiles S}.

Record Reply := mkReply { r_request : Request; r_slot : Slot; r_abortAt : Z }.

Record Discovery := mkDiscovery {
  m_settings : AppSettings.AppSettings (S := S);
  m_devices : DeviceModel.DeviceModel;
  m_known : option (KnownDevices.KnownDevices (S := S));   (* the device list's *)
  m_socket : bool;
  m_announceTimer : bool;
  m_shots : list Z;                     (* the single shots still to fire *)
  m_running : bool;
  m_joinedInterfaces : gset Z;
  m_lastResponse : gmap qstring Z;
  m_scanQueue : list qstring;
  m_scanTotal : Z;
  m_scanDone : Z;
  m_scanInFlight : Z;
  m_scanning : bool;
  m_manualPending : Z;
  m_manualFound : bool;
  m_manualEndpoint : qstring;
  m_manualAlias : qstring;
  replies : gmap Z Reply;               (* outstanding *)
  next_id : Z;
  sent : list Sent;                     (* newest first *)
  emitted : list signal                 (* newest first *)
}.
#[export] Instance eta_Discovery : Settable Discovery := fun r =>
  mkDiscovery (m_settings r) (m_devices r) (m_known r) (m_socket r) (m_announceTimer r) (m_shots r)
    (m_running r) (m_joinedInterfaces r) (m_lastResponse r) (m_scanQueue r) (m_scanTotal r) (m_scanDone r)
    (m_scanInFlight r) (m_scanning r) (m_manualPending r) (m_manualFound r) (m_manualEndpoint r)
    (m_manualAlias r) (replies r) (next_id r) (sent r) (emitted r).
Definition Discovery0 (settings : AppSettings.AppSettings (S := S)) (devices : DeviceModel.DeviceModel)
    (known : option (KnownDevices.KnownDevices (S := S))) : Discovery :=
  mkDiscovery settings devices known false false [] false ∅ ∅ [] 0 0 0 false 0 false [] [] ∅ 0 [] [].

Definition isRunning (d : Discovery) : bool := m_running d.
Definition isScanning (d : Discovery) : bool := m_scanning d.
Definition isManualLookupBusy (d : Discovery) : bool := 0 <? m_manualPending d.
Definition multicastReady (d : Discovery) : bool :=
  m_running d && negb (bool_decide (m_joinedInterfaces d = ∅)).
Definition scanProgress (d : Discovery) : Z :=
  if negb (m_scanning d) || (m_scanTotal d <=? 0) then 0
  else Z.quot (m_scanDone d * 100) (m_scanTotal d).
Definition localAddresses (t : Z) : list qstring :=
  map fst (List.filter (fun a => negb a.2) (allIPv4 t)).
Definition localAddress (t : Z) : qstring := default [] (head (localAddresses t)).

Definition emit (s : signal) (d : Discovery) : Discovery := d <| emitted ::= cons s |>.
Definition send (s : Sent) (d : Discovery) : Discovery := d <| sent ::= cons s |>.

(** [m_devices->upsert], whose [deviceAppeared] is passed on. *)
Definition upsert (t : Z) (peer : DeviceInfo) (d : Discovery) : Discovery :=
  let '(appeared, devices) := DeviceModel.upsert t (m_known d) peer (m_devices d) in
  let d := d <| m_devices := devices |> in
  if appeared then emit (deviceAppeared (alias peer)) d else d.

(** ** Requests *)

Definition post (t timeout : Z) (r : Request) (slot : Slot) (d : Discovery) : Discovery :=
  let id := next_id d in
  d <| replies ::= <[id := mkReply r slot (t + timeout)]> |> <| next_id ::= Z.succ |> |>> send (Posted id r).
Definition register_body (d : Discovery) : bytes :=
  to_json (JObject (toRegisterBody (AppSettings.self (m_settings d)))).
Definition our_tls (d : Discovery) : TlsClient.TlsConfig :=
  TlsClient.configure (Certificate.certificate (AppSettings.identity (m_settings d)))
    (Certificate.privateKey (AppSettings.identity (m_settings d))).
Definition https : qstring := lit "https".
Definition http : qstring := lit "http".

Definition probe (t timeout : Z) (slot : Slot) (host : qstring) (port : Z) (scheme : qstring) (d : Discovery)
    : Discovery :=
  let secure := qeq scheme https in
  post t timeout
    (mkRequest (mkUrl scheme host (Some port) (Protocol.ApiPrefix ++ Protocol.PathRegister) []) json_content None
       (Bytes (register_body d)) (if secure then Some (our_tls d) else None)
       (if secure then TlsClient.AcceptUnknown else TlsClient.Unhandled)) slot d.

(** The peer as the reply describes it, reached at the URL of the request. *)
Definition with_transport (u : Url) (peer : DeviceInfo) : DeviceInfo :=
  let peer := peer <| address := host u |> <| protocol := scheme u |> in
  if port peer <=? 0 then peer <| port := default Protocol.DefaultPort (url_port u) |> else peer.
Definition self_fingerprint (d : Discovery) : qstring := AppSettings.fingerprint (m_settings d).
Definition acceptRegisterReply (t : Z) (u : Url) (o : Outcome) (d : Discovery) : option qstring * Discovery :=
  match out_error o with
  | Some _ => (None, d)
  | None =>
      match from_json (out_body o) with
      | Some (JObject object) =>
          let peer := fromPayload object in
          if negb (isValid peer) || qeq (fingerprint peer) (self_fingerprint d) then (None, d)
          else
            let observed := TlsClient.observedFingerprint (out_certificate o) in
            if negb (is_empty observed) && negb (Crypto.equalsFold observed (fingerprint peer))
            then (None, d)
            else let peer := with_transport u peer in (Some (alias peer), upsert t peer d)
      | _ => (None, d)
      end
  end.

(** The loop of [refreshManualDevices], and its body. *)
Definition refresh_endpoint (t : Z) (d : Discovery) (endpoint : qstring) : Discovery :=
  match last_index_of 58 endpoint with
  | None | Some O => d
  | Some colon =>
      let host := take colon endpoint in
      let port := default 0 (string_to_int (drop (Datatypes.S colon) endpoint)) in
      if is_empty host || (port <=? 0) then d
      else probe t RegisterTimeoutMs OnRefresh host port https d
             |>> probe t RegisterTimeoutMs OnRefresh host port http
  end.
Definition refreshManualDevices (t : Z) (d : Discovery) : Discovery :=
  foldl (refresh_endpoint t) d (AppSettings.manualDevices (m_settings d)).

(** ** Announcing *)

Definition joinGroups (t : Z) (d : Discovery) : Discovery :=
  if negb (m_socket d) then d
  else foldl (fun d iface =>
         if negb iface.2 then d
         else if bool_decide (iface.1 ∈ m_joinedInterfaces d) then d
         else if udp_join t iface.1 then d <| m_joinedInterfaces ::= union {[iface.1]} |> else d)
       d (allInterfaces t).
Definition announcement (announcing : bool) (d : Discovery) : bytes :=
  to_json (JObject (toAnnouncement announcing (AppSettings.self (m_settings d)))).
Definition sendAnnouncement (t : Z) (announcing : bool) (d : Discovery) : Discovery :=
  if negb (m_socket d) then d
  else
    let payload := announcement announcing d in
    let '(sentAny, d) := foldl (fun '(any, d) iface =>
      if negb (bool_decide (iface.1 ∈ m_joinedInterfaces d)) then (any, d)
      else (any || udp_write t (Some iface.1) payload, send (Multicast (Some iface.1) payload) d))
      (false, d) (allInterfaces t) in
    if negb sentAny then send (Multicast None payload) d else d.
Definition announce (t : Z) (d : Discovery) : Discovery :=
  let d := joinGroups t d |>> sendAnnouncement t true |>> refreshManualDevices t in
  d <| m_devices ::= DeviceModel.prune t DeviceMaxAgeSeconds |>.

Definition bindSocket (t : Z) (d : Discovery) : bool * Discovery :=
  (udp_bind t, d <| m_socket := udp_bind t |>).
Definition start (t : Z) (d : Discovery) : Discovery :=
  if m_running d then d
  else
    let '(bound, d) := bindSocket t d in
    if negb bound then d <| m_running := true |> <| m_announceTimer := true |> |>> emit runningChanged
    else
      let d := d <| m_running := true |> |>> joinGroups t in
      let d := d <| m_announceTimer := true |> |>> emit runningChanged in
      let d := announce t d in
      d <| m_shots ::= fun l => l ++ [t + 700; t + 2500] |>.
Definition stop (d : Discovery) : Discovery :=
  if negb (m_running d) then d
  else d <| m_announceTimer := false |> <| m_socket := false |> <| m_joinedInterfaces := ∅ |>
         <| m_running := false |> <| m_devices ::= DeviceModel.clear |> |>> emit runningChanged.
Definition refresh (t : Z) (d : Discovery) : Discovery :=
  if negb (m_running d) then start t d else announce t d.

(** ** Hearing others *)

Definition postRegister (t : Z) (peer : DeviceInfo) (d : Discovery) : Discovery :=
  if is_empty (address peer) then d
  else post t RegisterTimeoutMs
         (mkRequest (parse_url (apiBase peer ++ Protocol.PathRegister)) json_content None
            (Bytes (register_body d)) (Some (our_tls d)) (TlsClient.Pin (fingerprint peer))) OnRegister d.
Definition respondTo (t : Z) (peer : DeviceInfo) (d : Discovery) : Discovery :=
  let cooling := match m_lastResponse d !! address peer with
                 | Some seen => t - seen <? ResponseCooldownMs
                 | None => false
                 end in
  if cooling then d
  else
    let d := if MaxTrackedResponders <=? Z.of_nat (size (m_lastResponse d))
             then d <| m_lastResponse := ∅ |> else d in
    let d := d <| m_lastResponse ::= <[address peer := t]> |> in
    let d := if m_socket d then send (Datagram (address peer) Protocol.DefaultPort (announcement false d)) d else d in
    postRegister t peer d.
Definition handlePayload (t : Z) (payload : jobject) (from : qstring) (d : Discovery) : Discovery :=
  let peer := fromPayload payload in
  if negb (isValid peer) then d
  else if qeq (fingerprint peer) (self_fingerprint d) then d
  else
    let peer := peer <| address := from |> in
    let d := upsert t peer d in
    if jbool_or false (jvalue (lit "announce") payload) then respondTo t peer d else d.

Definition sender_text (from : qstring) : qstring :=
  if starts_with (lit "::ffff:") from then qmid 7 from else from.
(** The datagrams waiting, [None] for one that cannot be read; what the pass
    leaves is waiting still. *)
Fixpoint read_loop (budget : nat) (t : Z) (pending : list (option (qstring * bytes))) (d : Discovery)
    : list (option (qstring * bytes)) * Discovery :=
  match pending, budget with
  | [], _ | _, O => (pending, d)
  | datagram :: pending, Datatypes.S budget =>
      let d := match datagram with
               | Some (from, text) =>
                   match from_json text with
                   | Some (JObject object) => handlePayload t object (sender_text from) d
                   | _ => d
                   end
               | None => d
               end in
      read_loop budget t pending d
  end.
Definition readDatagrams (t : Z) (pending : list (option (qstring * bytes))) (d : Discovery)
    : list (option (qstring * bytes)) * Discovery :=
  if negb (m_socket d) then (pending, d) else read_loop MaxDatagramsPerPass t pending d.

(** A peer POSTed /register to us. *)
Definition registerPeer (t : Z) (payload : jobject) (from : qstring) (d : Discovery) : DeviceInfo * Discovery :=
  let peer := fromPayload payload in
  let d := if isValid peer && negb (qeq (fingerprint peer) (self_fingerprint d))
           then upsert t (peer <| address := from |>) d else d in
  (AppSettings.self (m_settings d), d).

Definition onRegisterFinished (t : Z) (u : Url) (o : Outcome) (d : Discovery) : Discovery :=
  match out_error o with
  | Some _ => d
  | None =>
      match from_json (out_body o) with
      | Some (JObject object) =>
          let peer := fromPayload object in
          if negb (isValid peer) || qeq (fingerprint peer) (self_fingerprint d) then d
          else upsert t (with_transport u peer) d
      | _ => d
      end
  end.

(** ** A device by address *)

Definition split_port (address : qstring) (port : Z) : qstring * Z :=
  match last_index_of 58 address with
  | None | Some O => (address, port)
  | Some colon =>
      if bool_decide (91 ∈ address) then (address, port)
      else match string_to_int (drop (Datatypes.S colon) address) with
           | Some parsed => if (0 <? parsed) && (parsed <? 65536) then (take colon address, parsed)
                            else (address, port)
           | None => (address, port)
           end
  end.
Definition addDeviceAt (t : Z) (address : qstring) (port : Z) (d : Discovery) : Discovery :=
  if 0 <? m_manualPending d then d
  else
    let '(host, targetPort) := split_port (q_trimmed address) port in
    let host := q_trimmed host in
    if is_empty host then d
    else
      let targetPort := if (targetPort <=? 0) || (65535 <? targetPort) then Protocol.DefaultPort else targetPort in
      let d := d <| m_manualEndpoint := host ++ [58] ++ number targetPort |> <| m_manualAlias := [] |>
                 <| m_manualFound := false |> <| m_manualPending := 2 |> |>> emit manualLookupChanged in
      probe t RegisterTimeoutMs OnManual host targetPort https d
        |>> probe t RegisterTimeoutMs OnManual host targetPort http.
Definition onManualReplyFinished (t : Z) (u : Url) (o : Outcome) (d : Discovery) : Discovery :=
  let d := d <| m_manualPending ::= Z.pred |> in
  let d := if negb (m_manualFound d)
           then let '(found, d) := acceptRegisterReply t u o d in
                match found with
                | Some alias =>
                    let d := d <| m_manualFound := true |> <| m_manualAlias := alias |> in
                    d <| m_settings ::= AppSettings.addManualDevice (m_manualEndpoint d) |>
                | None => d
                end
           else d in
  if 0 <? m_manualPending d then d
  else emit manualLookupChanged d
         |>> emit (manualLookupFinished (m_manualFound d) (m_manualEndpoint d) (m_manualAlias d)).

(** ** The subnet sweep *)

Definition finishScan (d : Discovery) : Discovery :=
  d <| m_scanning := false |> <| m_scanTotal := 0 |> <| m_scanDone := 0 |> |>> emit scanningChanged.
(** Fuel: each turn takes a target off the queue. *)
Fixpoint pump_loop (fuel : nat) (t : Z) (d : Discovery) : Discovery :=
  match fuel with
  | O => d
  | Datatypes.S fuel =>
      if m_scanning d && (m_scanInFlight d <? ScanWindow) then
        match m_scanQueue d with
        | [] => d
        | target :: queue =>
            let u := parse_url target in
            let d := d <| m_scanQueue := queue |> in
            let d := probe t ScanTimeoutMs OnScan (host u) (AppSettings.port (m_settings d)) (scheme u) d in
            pump_loop fuel t (d <| m_scanInFlight ::= Z.succ |>)
        end
      else d
  end.
Definition pumpScanQueue (t : Z) (d : Discovery) : Discovery :=
  let d := pump_loop (List.length (m_scanQueue d)) t d in
  if m_scanning d && is_empty (m_scanQueue d) && (m_scanInFlight d =? 0) then finishScan d else d.

Definition prefix_of_address (address : qstring) : option qstring :=
  match last_index_of 46 address with
  | None | Some O => None
  | Some dot => Some (take (Datatypes.S dot) address)
  end.
Definition scan_prefixes (mine : list qstring) : list qstring :=
  foldl (fun prefixes a => match prefix_of_address a with
                           | None => prefixes
                           | Some p => if bool_decide (p ∈ prefixes) then prefixes else prefixes ++ [p]
                           end) [] mine.
Definition scan_targets (mine : list qstring) : list qstring :=
  List.concat (map (fun p =>
    List.concat (map (fun host =>
      let address := p ++ number (Z.of_nat host) in
      if bool_decide (address ∈ mine) then []
      else [lit "https://" ++ address; lit "http://" ++ address]) (seq 1 254))) (scan_prefixes mine)).
Definition scanSubnet (t : Z) (d : Discovery) : Discovery :=
  if m_scanning d then d
  else
    let d := d <| m_scanQueue := scan_targets (localAddresses t) |> in
    if is_empty (m_scanQueue d) then d
    else
      d <| m_scanTotal := len (m_scanQueue d) |> <| m_scanDone := 0 |> <| m_scanInFlight := 0 |>
        <| m_scanning := true |> |>> emit scanningChanged |>> pumpScanQueue t.
Definition onScanReplyFinished (t : Z) (u : Url) (o : Outcome) (d : Discovery) : Discovery :=
  let d := d <| m_scanInFlight ::= Z.pred |> <| m_scanDone ::= Z.succ |> in
  let '(_, d) := acceptRegisterReply t u o d in
  emit scanningChanged d |>> pumpScanQueue t.
Definition cancelScan (d : Discovery) : Discovery :=
  if negb (m_scanning d) then d
  else
    let d := d <| m_scanQueue := [] |> in
    if m_scanInFlight d =? 0 then finishScan d else d.

(** ** Everything that can happen *)

Inductive event :=
| Start | Stop | Refresh | AnnounceTimeout | Shot
| Datagrams (pending : list (option (qstring * bytes)))
| Register (payload : jobject) (from : qstring)
| AddDevice (address : qstring) (port : Z) | ScanSubnet | CancelScan
| Finished (id : Z) (o : Outcome).
(** A reply that finishes is taken off the outstanding ones and handed to its
    slot. *)
Definition reply_finished (t id : Z) (o : Outcome) (d : Discovery) : Discovery :=
  match replies d !! id with
  | None => d
  | Some r =>
      let d := d <| replies ::= delete id |> in
      let u := req_url (r_request r) in
      match r_slot r with
      | OnRegister => onRegisterFinished t u o d
      | OnRefresh => (acceptRegisterReply t u o d).2
      | OnManual => onManualReplyFinished t u o d
      | OnScan => onScanReplyFinished t u o d
      end
  end.
(** A single shot that is due fires, whichever was armed first; the rest stay. *)
Fixpoint take_due (t : Z) (shots : list Z) : option (list Z) :=
  match shots with
  | [] => None
  | at_ :: shots => if at_ <=? t then Some shots else cons at_ <$> take_due t shots
  end.
Definition handle (t : Z) (e : event) (d : Discovery) : Discovery :=
  match e with
  | Start => start t d
  | Stop => stop d
  | Refresh => refresh t d
  | AnnounceTimeout => if m_announceTimer d then announce t d else d
  | Shot => match take_due t (m_shots d) with
            | Some shots => announce t (d <| m_shots := shots |>)
            | None => d
            end
  | Datagrams pending => (readDatagrams t pending d).2
  | Register payload from => (registerPeer t payload from d).2
  | AddDevice address port => addDeviceAt t address port d
  | ScanSubnet => scanSubnet t d
  | CancelScan => cancelScan d
  | Finished id o => reply_finished t id o d
  end.
Definition run (d : Discovery) (events : list (Z * event)) : Discovery :=
  foldl (fun d te => handle te.1 te.2 d) d events.

(** ** Believing a reply *)


(** ** The sweep *)

Definition sweep (d : Discovery) : list qstring * Z * Z * Z * bool :=
  (m_scanQueue d, m_scanTotal d, m_scanDone d, m_scanInFlight d, m_scanning d).
Definition is_scan (ir : Z * Reply) : Prop := r_slot ir.2 = OnScan.
#[export] Instance is_scan_dec ir : Decision (is_scan ir) := decide (r_slot ir.2 = OnScan).
Definition scan_out (d : Discovery) : gmap Z Reply := filter is_scan (replies d).
Definition ids_ok (d : Discovery) : Prop := forall id, is_Some (replies d !! id) -> id < next_id d.

(** What leaves the sweep alone. *)
Definition frame (d d' : Discovery) : Prop :=
  sweep d' = sweep d /\ (ids_ok d -> ids_ok d' /\ scan_out d' = scan_out d).
Lemma frame_refl d : frame d d.
Proof. done. Qed.
Lemma frame_trans d1 d2 d3 : frame d1 d2 -> frame d2 d3 -> frame d1 d3.
Proof.
  intros [S1 R1] [S2 R2]. split; [congruence|]. intros Hi. destruct (R1 Hi) as [Hi2 E1].
  destruct (R2 Hi2) as [Hi3 E2]. split; [done|congruence].
Qed.
Lemma frame_same d d' : sweep d' = sweep d -> replies d' = replies d -> next_id d' = next_id d -> frame d d'.
Proof. intros E1 E2 E3. split; [done|]. unfold ids_ok, scan_out. rewrite E2, E3. done. Qed.
Ltac frame_by := apply frame_same; reflexivity.
Lemma frame_emit s d : frame d (emit s d).
Proof. frame_by. Qed.
Lemma frame_send s d : frame d (send s d).
Proof. frame_by. Qed.
Lemma frame_upsert t peer d : frame d (upsert t peer d).
Proof. unfold upsert. destruct (DeviceModel.upsert _ _ _ _) as [[] ?]; frame_by. Qed.
Lemma ids_ok_post t timeout r slot d : ids_ok d -> ids_ok (post t timeout r slot d).
Proof.
  intros Hi id. unfold ids_ok, post in *. cbn. intros Hs.
  destruct (decide (id = next_id d)) as [->|Hn]; [lia|]. rewrite lookup_insert_ne in Hs by done.
  specialize (Hi id Hs). lia.
Qed.
Lemma frame_post t timeout r slot d : slot <> OnScan -> frame d (post t timeout r slot d).
Proof.
  intros Hs. split; [done|]. intros Hi. split; [by apply ids_ok_post|].
  unfold scan_out, post. cbn. rewrite map_filter_insert_False by exact Hs. f_equal.
  apply delete_id, eq_None_not_Some. intros Hk%Hi. lia.
Qed.
Lemma frame_probe t timeout slot h p sc d : slot <> OnScan -> frame d (probe t timeout slot h p sc d).
Proof. intros. by apply frame_post. Qed.
Lemma frame_accept t u o d : frame d (acceptRegisterReply t u o d).2.
Proof.
  unfold acceptRegisterReply. destruct (out_error o); [apply frame_refl|].
  destruct (from_json _) as [[| | | | |?]|]; try apply frame_refl.
  destruct (_ || _); [apply frame_refl|]. destruct (_ && _); [apply frame_refl|]. apply frame_upsert.
Qed.
Lemma frame_foldl {A} (f : Discovery -> A -> Discovery) l d :
  (forall d x, frame d (f d x)) -> frame d (foldl f d l).
Proof.
  intros Hf. revert d. induction l as [|x l IH]; intros d; [apply frame_refl|].
  eapply frame_trans; [apply Hf|apply IH].
Qed.
Lemma frame_joinGroups t d : frame d (joinGroups t d).
Proof.
  unfold joinGroups. destruct (m_socket d); [|apply frame_refl]. apply frame_foldl. intros d0 [i b].
  cbn. destruct b; [|apply frame_refl]. case_bool_decide; [apply frame_refl|].
  destruct (udp_join t i); [frame_by|apply frame_refl].
Qed.
Lemma frame_sendAnnouncement t a d : frame d (sendAnnouncement t a d).
Proof.
  unfold sendAnnouncement. destruct (m_socket d); [|apply frame_refl]. cbn [negb].
  set (payload := announcement a d). clearbody payload.
  assert (Hf : forall (l : list (Z * bool)) any d0, frame d0 (foldl (fun '(any, d) iface =>
      if negb (bool_decide (iface.1 ∈ m_joinedInterfaces d)) then (any, d)
      else (any || udp_write t (Some iface.1) payload, send (Multicast (Some iface.1) payload) d))
      (any, d0) l).2).
  { induction l as [|x l IH]; intros any d0; [apply frame_refl|]. cbn [foldl].
    case_bool_decide; cbn [negb]; [|apply IH]. eapply frame_trans; [apply frame_send|apply IH]. }
  specialize (Hf (allInterfaces t) false d). destruct (foldl _ _ _) as [any d'].
  destruct any; [exact Hf|]. eapply frame_trans; [exact Hf|apply frame_send].
Qed.
Lemma frame_refreshManual t d : frame d (refreshManualDevices t d).
Proof.
  apply frame_foldl. intros d0 e. unfold refresh_endpoint.
  destruct (last_index_of 58 e) as [[|c]|]; try apply frame_refl.
  destruct (_ || _); [apply frame_refl|].
  eapply frame_trans; by apply frame_probe.
Qed.
Lemma frame_announce t d : frame d (announce t d).
Proof.
  unfold announce. eapply frame_trans; [apply frame_joinGroups|].
  eapply frame_trans; [apply frame_sendAnnouncement|].
  eapply frame_trans; [apply frame_refreshManual|]. frame_by.
Qed.
Lemma frame_start t d : frame d (start t d).
Proof.
  unfold start, bindSocket. destruct (m_running d); [apply frame_refl|].
  destruct (udp_bind t); cbn [negb]; [|frame_by].
  set (d1 := d <| m_socket := true |> <| m_running := true |>).
  assert (F1 : frame d d1) by frame_by.
  pose proof (frame_joinGroups t d1) as F2. set (d2 := joinGroups t d1) in *.
  set (d3 := emit runningChanged _). assert (F3 : frame d2 d3) by frame_by.
  pose proof (frame_announce t d3) as F4. set (d4 := announce t d3) in *.
  set (d5 := d4 <| m_shots ::= _ |>). assert (F5 : frame d4 d5) by frame_by.
  eauto using frame_trans.
Qed.
Lemma frame_stop d : frame d (stop d).
Proof. unfold stop. destruct (m_running d); [frame_by|apply frame_refl]. Qed.
Lemma frame_postRegister t peer d : frame d (postRegister t peer d).
Proof. unfold postRegister. destruct (is_empty _); [apply frame_refl|by apply frame_post]. Qed.
Lemma frame_respondTo t peer d : frame d (respondTo t peer d).
Proof.
  unfold respondTo. destruct (match m_lastResponse d !! address peer with Some _ => _ | None => _ end);
    [apply frame_refl|].
  set (d1 := if MaxTrackedResponders <=? _ then _ else d).
  assert (F1 : frame d d1) by (subst d1; destruct (MaxTrackedResponders <=? _); [frame_by|apply frame_refl]).
  clearbody d1. set (d2 := d1 <| m_lastResponse ::= _ |>).
  assert (F2 : frame d1 d2) by frame_by. clearbody d2.
  eapply frame_trans; [exact F1|]. eapply frame_trans; [exact F2|].
  destruct (m_socket d2); [|apply frame_postRegister].
  eapply frame_trans; [apply frame_send|apply frame_postRegister].
Qed.
Lemma frame_handlePayload t payload from d : frame d (handlePayload t payload from d).
Proof.
  unfold handlePayload. destruct (negb _); [apply frame_refl|]. destruct (qeq _ _); [apply frame_refl|].
  destruct (jbool_or _ _); [|apply frame_upsert].
  eapply frame_trans; [apply frame_upsert|apply frame_respondTo].
Qed.
Lemma frame_read_loop budget t pending d : frame d (read_loop budget t pending d).2.
Proof.
  revert budget d. induction pending as [|x pending IH]; intros [|budget] d; try apply frame_refl.
  cbn [read_loop]. eapply frame_trans; [|apply IH].
  destruct x as [[from text]|]; [|apply frame_refl].
  destruct (from_json text) as [[| | | | |?]|]; try apply frame_refl. apply frame_handlePayload.
Qed.
Lemma frame_addDeviceAt t a p d : frame d (addDeviceAt t a p d).
Proof.
  unfold addDeviceAt. destruct (0 <? _); [apply frame_refl|].
  destruct (split_port _ _) as [h tp]. destruct (is_empty _); [apply frame_refl|].
  eapply frame_trans; [|by apply frame_probe]. eapply frame_trans; [|by apply frame_probe]. frame_by.
Qed.
Lemma frame_onManual t u o d : frame d (onManualReplyFinished t u o d).
Proof.
  unfold onManualReplyFinished. cbv zeta.
  assert (F1 : frame d (if negb (m_manualFound (d <| m_manualPending ::= Z.pred |>))
      then let '(found, d0) := acceptRegisterReply t u o (d <| m_manualPending ::= Z.pred |>) in
           match found with
           | Some alias =>
               d0 <| m_manualFound := true |> <| m_manualAlias := alias |>
                 <| m_settings ::= AppSettings.addManualDevice
                      (m_manualEndpoint (d0 <| m_manualFound := true |> <| m_manualAlias := alias |>)) |>
           | None => d0
           end
      else d <| m_manualPending ::= Z.pred |>)).
  { destruct (negb _); [|frame_by].
    pose proof (frame_accept t u o (d <| m_manualPending ::= Z.pred |>)) as Ha.
    destruct (acceptRegisterReply _ _ _ _) as [[a|] d1]; cbn [snd] in Ha.
    - eapply frame_trans; [|eapply frame_trans; [exact Ha|]]; frame_by.
    - eapply frame_trans; [|exact Ha]. frame_by. }
  eapply frame_trans; [exact F1|]. destruct (0 <? _); [apply frame_refl|frame_by].
Qed.
Lemma frame_onRegister t u o d : frame d (onRegisterFinished t u o d).
Proof.
  unfold onRegisterFinished. destruct (out_error o); [apply frame_refl|].
  destruct (from_json _) as [[| | | | |?]|]; try apply frame_refl.
  destruct (_ || _); [apply frame_refl|]. apply frame_upsert.
Qed.

Definition remaining (d : Discovery) : Z := len (m_scanQueue d) + m_scanInFlight d.
(** What a pass of the pump starts from, and what every state keeps. *)
Record pumping (d : Discovery) : Prop := {
  pu_ids : ids_ok d;
  pu_inflight : m_scanInFlight d = Z.of_nat (size (scan_out d));
  pu_window : m_scanInFlight d <= ScanWindow;
  pu_done : 0 <= m_scanDone d;
  pu_total : m_scanDone d + remaining d <= m_scanTotal d;
  pu_on : m_scanning d = true
}.
Record sweep_ok (d : Discovery) : Prop := {
  so_ids : ids_ok d;
  so_inflight : m_scanInFlight d = Z.of_nat (size (scan_out d));
  so_window : m_scanInFlight d <= ScanWindow;
  so_done : 0 <= m_scanDone d;
  so_total : m_scanning d = true -> m_scanDone d + remaining d <= m_scanTotal d;
  so_idle : m_scanning d = false -> m_scanInFlight d = 0 /\ m_scanQueue d = [];
  so_busy : m_scanning d = true -> 0 < m_scanInFlight d
}.
Lemma sweep_ok_frame d d' : frame d d' -> sweep_ok d -> sweep_ok d'.
Proof.
  intros [Hs Hr] [J1 J2 J3 J4 J5 J6 J7]. destruct (Hr J1) as [Hi Ho].
  unfold sweep in Hs. injection Hs as E1 E2 E3 E4 E5.
  split; unfold remaining in *; rewrite ?E1, ?E2, ?E3, ?E4, ?E5, ?Ho; done.
Qed.

Lemma post_scan t timeout r d :
  ids_ok d -> size (scan_out (post t timeout r OnScan d)) = Datatypes.S (size (scan_out d)).
Proof.
  intros Hi. unfold scan_out, post. cbn. rewrite map_filter_insert_True by done.
  apply map_size_insert_None, map_lookup_filter_None. left.
  apply eq_None_not_Some. intros Hk%Hi. lia.
Qed.
Lemma pump_loop_ok fuel t d :
  pumping d -> (List.length (m_scanQueue d) <= fuel)%nat ->
  let d' := pump_loop fuel t d in
  pumping d' /\ remaining d' = remaining d /\ (m_scanQueue d' = [] \/ m_scanInFlight d' = ScanWindow).
Proof.
  revert d. induction fuel as [|fuel IH]; intros d Hp Hf; cbn [pump_loop].
  { destruct (m_scanQueue d) eqn:Eq; cbn in Hf; [|lia]. split_and!; [done|done|by left]. }
  destruct Hp as [J1 J2 J3 J4 J5 J6]. rewrite J6. cbn [andb].
  destruct (Z.ltb_spec (m_scanInFlight d) ScanWindow) as [Hlt|Hge]; last first.
  { split_and!; [by split|done|right; lia]. }
  destruct (m_scanQueue d) as [|target queue] eqn:Eq; [split_and!; [by split|done|by left]|].
  set (d1 := d <| m_scanQueue := queue |>). unfold probe.
  set (r := mkRequest _ _ _ _ _ _). clearbody r. set (d2 := post t ScanTimeoutMs r OnScan d1).
  set (d3 := d2 <| m_scanInFlight ::= Z.succ |>).
  assert (Hids : ids_ok d3).
  { assert (ids_ok d1) by exact J1. pose proof (ids_ok_post t ScanTimeoutMs r OnScan d1 H11) as Hx. exact Hx. }
  assert (Hsz : size (scan_out d3) = Datatypes.S (size (scan_out d))).
  { change (scan_out d3) with (scan_out d2). unfold d2. by rewrite post_scan. }
  assert (Hrem : remaining d3 = remaining d).
  { unfold remaining. rewrite Eq. cbn. rewrite len_cons. lia. }
  destruct (IH d3) as (Hp' & Hr' & Hend).
  - split; [done| | |done| |done].
    + rewrite Hsz. cbn. rewrite J2. lia.
    + cbn. lia.
    + rewrite Hrem. exact J5.
  - cbn in *. rewrite ?Eq in Hf. cbn in Hf. lia.
  - split_and!; [done|congruence|done].
Qed.
Lemma pump_ok t d : pumping d -> sweep_ok (pumpScanQueue t d) /\ remaining (pumpScanQueue t d) = remaining d.
Proof.
  intros Hp. unfold pumpScanQueue. destruct (pump_loop_ok _ t d Hp (le_n _)) as (Hp' & Hr & Hend).
  set (d' := pump_loop _ t d) in *. clearbody d'. destruct Hp' as [J1 J2 J3 J4 J5 J6].
  rewrite J6. cbn [andb]. destruct (is_empty (m_scanQueue d')) eqn:Ee; cbn [andb].
  - apply is_empty_spec in Ee. destruct (Z.eqb_spec (m_scanInFlight d') 0) as [Hz|Hz].
    + split; [|rewrite <- Hr; reflexivity].
      split; [exact J1|exact J2|exact J3|done|done|by split|done].
    + split; [|done]. split; try done; [congruence|]. intros _. rewrite J2 in *. lia.
  - apply is_empty_false in Ee. destruct Hend as [|Hw]; [done|]. split; [|done].
    split; try done; [congruence|]. intros _. rewrite Hw. done.
Qed.

Lemma sweep_ok_scan t d : sweep_ok d -> sweep_ok (scanSubnet t d).
Proof.
  intros [J1 J2 J3 J4 J5 J6 J7]. unfold scanSubnet. destruct (m_scanning d) eqn:Es; [by split; rewrite ?Es|].
  destruct (J6 eq_refl) as [Hz Hq]. set (d1 := d <| m_scanQueue := _ |>).
  destruct (is_empty (m_scanQueue d1)) eqn:Ee.
  - apply is_empty_spec in Ee. split; try done; cbn; [by rewrite Es|by rewrite Es].
  - set (d2 := emit scanningChanged _). apply (pump_ok t d2).
    split; [exact J1| |done|done| |done]; cbn.
    + rewrite <- Hz. exact J2.
    + unfold remaining. cbn. lia.
Qed.
Lemma sweep_ok_cancel d : sweep_ok d -> sweep_ok (cancelScan d).
Proof.
  intros [J1 J2 J3 J4 J5 J6 J7]. unfold cancelScan. destruct (m_scanning d) eqn:Es; cbn [negb]; [|by split; rewrite ?Es].
  cbn [m_scanInFlight set_field]. change (m_scanInFlight (d <| m_scanQueue := [] |>)) with (m_scanInFlight d).
  destruct (Z.eqb_spec (m_scanInFlight d) 0) as [Hz|Hz].
  - by split.
  - specialize (J5 eq_refl). pose proof (len_nonneg (m_scanQueue d)). unfold remaining at 1 in J5.
    split; try done; [|by intros Hx; cbn in Hx; rewrite Es in Hx|intros _; exact (J7 eq_refl)].
    intros _. change (m_scanDone d + m_scanInFlight d <= m_scanTotal d). lia.
Qed.
(** A sweep's reply, whatever it says. *)
Lemma sweep_reply t id o r d :
  sweep_ok d -> replies d !! id = Some r -> r_slot r = OnScan ->
  sweep_ok (reply_finished t id o d) /\ remaining (reply_finished t id o d) = remaining d - 1.
Proof.
  intros Hs Hr Hslot. unfold reply_finished. rewrite Hr, Hslot. unfold onScanReplyFinished.
  set (d1 := d <| replies ::= delete id |>).
  set (d2 := d1 <| m_scanInFlight ::= Z.pred |> <| m_scanDone ::= Z.succ |>).
  pose proof (frame_accept t (req_url (r_request r)) o d2) as Hfr.
  destruct (acceptRegisterReply t (req_url (r_request r)) o d2) as [a d3]. cbn [snd] in Hfr.
  destruct Hs as [J1 J2 J3 J4 J5 J6 J7].
  assert (Hin : scan_out d !! id = Some r) by by apply map_lookup_filter_Some.
  assert (Hsz : size (scan_out d) = Datatypes.S (size (scan_out d2))).
  { unfold scan_out at 2. cbn. rewrite map_filter_delete, map_size_delete_Some by eauto.
    fold (scan_out d). assert (size (scan_out d) <> 0%nat); [|lia].
    apply map_size_non_empty_iff. intros He. by rewrite He, lookup_empty in Hin. }
  assert (Hids : ids_ok d2).
  { intros k Hk. apply J1. cbn in Hk. destruct Hk as [x Hk]. apply lookup_delete_Some in Hk as [_ Hk]. by eexists. }
  assert (Hon : m_scanning d = true).
  { destruct (m_scanning d); [done|]. destruct (J6 eq_refl) as [Hz _]. lia. }
  destruct Hfr as [Hsw Hfr]. destruct (Hfr Hids) as [Hids3 Hout3]. unfold sweep in Hsw.
  injection Hsw as E1 E2 E3 E4 E5. set (d4 := emit scanningChanged d3).
  assert (Hrem : remaining d4 = remaining d - 1).
  { unfold remaining. cbn. rewrite E1, E4. cbn. lia. }
  assert (Hp : pumping d4).
  { split; [exact Hids3| | | | |].
    - change (scan_out d4) with (scan_out d3). rewrite Hout3. cbn. rewrite E4. cbn. lia.
    - cbn. rewrite E4. cbn. lia.
    - cbn. rewrite E3. cbn. lia.
    - rewrite Hrem. cbn. rewrite E2, E3. cbn. specialize (J5 Hon). lia.
    - cbn. rewrite E5. exact Hon. }
  destruct (pump_ok t d4 Hp) as [Ho Hr']. split; [exact Ho|congruence].
Qed.
Lemma frame_drop id d r :
  replies d !! id = Some r -> r_slot r <> OnScan -> frame d (d <| replies ::= delete id |>).
Proof.
  intros Hr Hs. split; [done|]. intros Hi. split.
  - intros k Hk. apply Hi. cbn in Hk. destruct Hk as [x Hk]. apply lookup_delete_Some in Hk as [_ Hk]. by eexists.
  - unfold scan_out. cbn. rewrite map_filter_delete. apply delete_id, map_lookup_filter_None.
    right. intros y Hy. rewrite Hr in Hy. by injection Hy as <-.
Qed.
Lemma frame_reply t id o d r :
  replies d !! id = Some r -> r_slot r <> OnScan -> frame d (reply_finished t id o d).
Proof.
  intros Hr Hs. unfold reply_finished. rewrite Hr.
  pose proof (frame_drop id d r Hr Hs) as Hd. set (d1 := d <| replies ::= delete id |>) in *.
  eapply frame_trans; [exact Hd|].
  destruct (r_slot r); [apply frame_onRegister|apply frame_accept|apply frame_onManual|done].
Qed.
Lemma sweep_ok_handle t e d : sweep_ok d -> sweep_ok (handle t e d).
Proof.
  intros Hs. assert (Hfr : forall d', frame d d' -> sweep_ok d') by eauto using sweep_ok_frame.
  destruct e as [| | | | |pending|payload from|a p| | |id o]; cbn [handle].
  - apply Hfr, frame_start.
  - apply Hfr, frame_stop.
  - apply Hfr. unfold refresh. destruct (negb _); [apply frame_start|apply frame_announce].
  - apply Hfr. destruct (m_announceTimer d); [apply frame_announce|apply frame_refl].
  - apply Hfr. destruct (take_due t (m_shots d)) as [shots|]; [|apply frame_refl].
    set (d1 := d <| m_shots := shots |>). assert (F1 : frame d d1) by frame_by.
    eapply frame_trans; [exact F1|apply frame_announce].
  - apply Hfr. unfold readDatagrams. destruct (negb _); [apply frame_refl|apply frame_read_loop].
  - apply Hfr. unfold registerPeer. cbn [snd]. destruct (_ && _); [apply frame_upsert|apply frame_refl].
  - apply Hfr, frame_addDeviceAt.
  - by apply sweep_ok_scan.
  - by apply sweep_ok_cancel.
  - destruct (replies d !! id) as [r|] eqn:Er; [|unfold reply_finished; by rewrite Er].
    destruct (decide (r_slot r = OnScan)) as [Hk|Hk]; [by eapply sweep_reply|]. by eapply Hfr, frame_reply.
Qed.

(** C23: the sweep ends. In every state the component can reach there are at
    most [ScanWindow] sweep requests in flight, exactly the outstanding ones,
    and the progress shown is between 0 and 100; a sweep that is on always has
    a request outstanding, and each that finishes, however it does, leaves one
    fewer to go, so it is over after as many as it had targets. A sweep that is
    off has nothing outstanding. *)
Theorem sweep_ends settings devices known events :
  let d := run (Discovery0 settings devices known) events in
  m_scanInFlight d = Z.of_nat (size (scan_out d)) /\ m_scanInFlight d <= ScanWindow
  /\ 0 <= scanProgress d <= 100
  /\ (m_scanning d = true -> exists id r, replies d !! id = Some r /\ r_slot r = OnScan)
  /\ (m_scanning d = false -> remaining d = 0)
  /\ (forall t id o r, replies d !! id = Some r -> r_slot r = OnScan ->
        remaining (handle t (Finished id o) d) = remaining d - 1).
Proof.
  cbv zeta. set (d0 := Discovery0 settings devices known).
  assert (Hs : sweep_ok (run d0 events)).
  { assert (H0' : sweep_ok d0).
    { split; try done. intros id [? Hx]. done. }
    revert H0'. generalize d0. unfold run. induction events as [|te events IH]; intros d Hd; [done|].
    by apply IH, sweep_ok_handle. }
  set (d := run d0 events) in *. clearbody d. destruct Hs as [J1 J2 J3 J4 J5 J6 J7].
  split; [done|]. split; [done|]. split.
  { unfold scanProgress. destruct (m_scanning d) eqn:Es; cbn [negb orb]; [|lia].
    destruct (Z.leb_spec (m_scanTotal d) 0); [lia|]. specialize (J5 eq_refl). unfold remaining in J5.
    pose proof (len_nonneg (m_scanQueue d)). split; [apply Z.quot_pos; lia|].
    apply Z.quot_le_upper_bound; lia. }
  split.
  { intros Hon. specialize (J7 Hon). assert (Hne : size (scan_out d) <> 0%nat) by lia.
    apply map_size_ne_0_lookup in Hne as (id & r & Hr). exists id, r.
    by apply map_lookup_filter_Some in Hr. }
  split.
  { intros Hoff. destruct (J6 Hoff) as [Hz Hq]. unfold remaining. rewrite Hz, Hq. done. }
  intros t id o r Hr Hk. cbn [handle]. by apply (sweep_reply t id o r d).
Qed.

(** ** Answering announcements *)

(** What one announcement may set off: at most one datagram to its address and
    one POST of our description to it. *)
Definition reply_to (peer : DeviceInfo) (items : list Sent) : Prop :=
  exists id r payload, req_url r = parse_url (apiBase peer ++ Protocol.PathRegister)
    /\ items `sublist_of` [Posted id r; Datagram (address peer) Protocol.DefaultPort payload].
(** The announcements answered, newest first, each with what it set off. *)
Abbreviation answer_log := (list (DeviceInfo * list Sent)).
Definition answered (a : qstring) (log : answer_log) : Z :=
  len (List.filter (fun x => qeq (address x.1) a) log).
(** Passes over the datagrams waiting, at their times. *)
Definition passes (d : Discovery) (l : list (Z * list (option (qstring * bytes)))) : Discovery :=
  foldl (fun d tp => (readDatagrams tp.1 tp.2 d).2) d l.
Definition datagrams (l : list (Z * list (option (qstring * bytes)))) : Z :=
  foldr (fun tp n => len tp.2 + n) 0 l.
(** The size of the table of addresses answered. *)
Definition tracked (d : Discovery) : Z := Z.of_nat (size (m_lastResponse d)).
Definition table_ok (d : Discovery) : Prop := tracked d <= MaxTrackedResponders.
(** Answered at [t0] or later, as far as the table knows. *)
Definition cooled (t0 : Z) (a : qstring) (d : Discovery) : bool :=
  match m_lastResponse d !! a with Some seen => t0 <=? seen | None => false end.
(** What an address costs that may be answered: a table to fill. *)
Definition warm (t0 : Z) (a : qstring) (d : Discovery) : Z := if cooled t0 a d then 0 else MaxTrackedResponders.

(** Nothing of this changes. *)
Definition quiet (d d' : Discovery) : Prop :=
  m_lastResponse d' = m_lastResponse d /\ sent d' = sent d /\ m_socket d' = m_socket d.
(** An announcement from [peer] is answered. *)
Definition replied (t : Z) (peer : DeviceInfo) (d d' : Discovery) : Prop :=
  (forall seen, m_lastResponse d !! address peer = Some seen -> ResponseCooldownMs <= t - seen)
  /\ m_lastResponse d' = <[address peer := t]> (if MaxTrackedResponders <=? tracked d then ∅ else m_lastResponse d)
  /\ exists items, reply_to peer items /\ sent d' = items ++ sent d.

Lemma respondTo_cases t peer d : respondTo t peer d = d \/ replied t peer d (respondTo t peer d).
Proof.
  unfold respondTo.
  destruct (match m_lastResponse d !! address peer with Some _ => _ | None => _ end) eqn:Ec; [by left|right].
  split. { intros seen Hs. rewrite Hs in Ec. lia. }
  set (d1 := if MaxTrackedResponders <=? _ then _ else d).
  assert (H1' : m_lastResponse d1 = (if MaxTrackedResponders <=? tracked d then ∅ else m_lastResponse d)
    /\ sent d1 = sent d).
  { subst d1. unfold tracked. by destruct (_ <=? _). }
  clearbody d1. destruct H1' as (K1 & K2). rewrite <- K1, <- K2. clear K1 K2 Ec.
  set (r := mkRequest (parse_url (apiBase peer ++ Protocol.PathRegister)) json_content None
    (Bytes (register_body d1)) (Some (our_tls d1)) (TlsClient.Pin (fingerprint peer))).
  cbv zeta. unfold postRegister. cbn [m_socket set_field].
  destruct (m_socket d1), (is_empty (address peer)); (split; [done|]).
  - exists [Datagram (address peer) Protocol.DefaultPort (announcement false d1)]. split; [|done].
    exists 0, r, (announcement false d1). split; [done|]. by apply sublist_cons.
  - exists [Posted (next_id d1) r; Datagram (address peer) Protocol.DefaultPort (announcement false d1)].
    split; [|done]. exists (next_id d1), r, (announcement false d1). by split.
  - exists []. split; [|done]. exists 0, r, []. split; [done|]. apply sublist_nil_l.
  - exists [Posted (next_id d1) r]. split; [|done]. exists (next_id d1), r, [].
    split; [done|]. apply sublist_skip, sublist_nil_l.
Qed.
Lemma upsert_quiet t peer d : quiet d (upsert t peer d).
Proof. unfold upsert. by destruct (DeviceModel.upsert _ _ _ _) as [[] ?]. Qed.

(** A payload either changes nothing of this, or is an announcement answered. *)
Lemma handlePayload_cases t payload from d :
  let d' := handlePayload t payload from d in
  (m_lastResponse d' = m_lastResponse d /\ sent d' = sent d) \/ exists peer, replied t peer d d'.
Proof.
  cbv zeta. unfold handlePayload. set (p0 := fromPayload payload).
  destruct (negb (isValid p0)); [by left|]. destruct (qeq (fingerprint p0) _); [by left|].
  set (peer := p0 <| address := from |>).
  destruct (upsert_quiet t peer d) as (U1 & U2 & _). set (d1 := upsert t peer d) in *. clearbody d1.
  destruct (jbool_or _ _); [|by left].
  destruct (respondTo_cases t peer d1) as [->|Hr]; [by left|right]. exists peer.
  destruct Hr as (C1 & C2 & C3). unfold replied, tracked in *. rewrite U1 in C1, C2. rewrite U2 in C3. done.
Qed.

Lemma size_insert_le (m : gmap qstring Z) k v : (size (<[k := v]> m) <= Datatypes.S (size m))%nat.
Proof. rewrite map_size_insert. destruct (m !! k); unfold id; lia. Qed.
Lemma replied_table_ok t peer d d' : replied t peer d d' -> table_ok d -> table_ok d'.
Proof.
  unfold table_ok, tracked. intros (_ & -> & _) Hd.
  pose proof (size_insert_le (if MaxTrackedResponders <=? tracked d then ∅ else m_lastResponse d) (address peer) t) as Hs.
  unfold tracked in *. destruct (Z.leb_spec MaxTrackedResponders (Z.of_nat (size (m_lastResponse d)))).
  - rewrite map_size_empty in Hs. unfold MaxTrackedResponders. lia.
  - lia.
Qed.

Lemma warm_or_listed t0 a d : 1 <= tracked d + warm t0 a d.
Proof.
  unfold warm, cooled, tracked, MaxTrackedResponders.
  destruct (m_lastResponse d !! a) as [seen|] eqn:E; [|lia]. case_match; [|lia].
  assert (size (m_lastResponse d) <> 0)%nat; [|lia]. apply map_size_non_empty_iff. intros He.
  by rewrite He, lookup_empty in E.
Qed.

(** ** What a burst of announcements can cause *)

Section Window.
Context (t0 : Z) (d0 : Discovery).
(** After [n] datagrams read since [d0], in a window of one cooldown from [t0]. *)
Record spent (n : Z) (log : answer_log) (d : Discovery) : Prop := {
  sp_table : table_ok d;
  sp_sent : sent d = List.concat (map snd log) ++ sent d0;
  sp_replies : Forall (fun x => reply_to x.1 x.2) log;
  sp_count : len log <= n;
  sp_each a : MaxTrackedResponders * answered a log + tracked d + warm t0 a d
              <= n + tracked d0 + warm t0 a d0
}.
Lemma spent_weaken n m log d : n <= m -> spent n log d -> spent m log d.
Proof. intros Hnm [J1 J2 J3 J4 J5]. split; try done; [lia|]. intros a. specialize (J5 a). lia. Qed.
Lemma spent_quiet n log d d' :
  m_lastResponse d' = m_lastResponse d -> sent d' = sent d -> spent n log d -> spent n log d'.
Proof.
  intros Ht Hs [J1 J2 J3 J4 J5]. unfold table_ok, tracked, warm, cooled in *.
  split; unfold table_ok, tracked, warm, cooled; rewrite ?Ht, ?Hs; done.
Qed.
Lemma spent_replied n log t peer d d' :
  t0 <= t < t0 + ResponseCooldownMs -> replied t peer d d' -> spent n log d ->
  exists items, spent (n + 1) ((peer, items) :: log) d'.
Proof.
  intros Ht Hrep [J1 J2 J3 J4 J5]. pose proof (replied_table_ok _ _ _ _ Hrep J1) as Hok.
  destruct Hrep as (Hcool & Htab & items & Hit & Hs). exists items. split; [done|..].
  - rewrite Hs, J2. cbn. by rewrite app_assoc.
  - by constructor.
  - rewrite len_cons. lia.
  - intros a. specialize (J5 a).
    assert (Hans : answered a ((peer, items) :: log)
      = (if qeq (address peer) a then 1 else 0) + answered a log).
    { unfold answered. cbn. destruct (qeq (address peer) a); [rewrite len_cons|]; lia. }
    rewrite Hans. unfold table_ok, warm, cooled, tracked in *. rewrite Htab.
    destruct (qeq (address peer) a) eqn:Ea; [apply qeq_spec in Ea as <-|apply qeq_false in Ea].
    + assert (Hw : match m_lastResponse d !! address peer with Some seen => t0 <=? seen | None => false end = false).
      { destruct (m_lastResponse d !! address peer) as [seen|] eqn:E; [|done].
        specialize (Hcool seen eq_refl). lia. }
      rewrite Hw in J5. rewrite lookup_insert_eq, (proj2 (Z.leb_le t0 t)) by lia.
      pose proof (size_insert_le (if MaxTrackedResponders <=? Z.of_nat (size (m_lastResponse d))
        then ∅ else m_lastResponse d) (address peer) t) as Hsz.
      destruct (_ <=? Z.of_nat _) eqn:E; [rewrite map_size_empty in Hsz; apply Z.leb_le in E;
        unfold MaxTrackedResponders in *; lia|lia].
    + rewrite lookup_insert_ne by done.
      pose proof (size_insert_le (if MaxTrackedResponders <=? Z.of_nat (size (m_lastResponse d))
        then ∅ else m_lastResponse d) (address peer) t) as Hsz.
      destruct (_ <=? Z.of_nat _) eqn:E; [|lia]. apply Z.leb_le in E. rewrite map_size_empty in Hsz.
      rewrite lookup_empty. unfold MaxTrackedResponders in *.
      destruct (match m_lastResponse d !! a with Some _ => _ | None => _ end); lia.
Qed.
Lemma spent_handlePayload n log t payload from d :
  t0 <= t < t0 + ResponseCooldownMs -> spent n log d ->
  exists log', spent (n + 1) log' (handlePayload t payload from d).
Proof.
  intros Ht Hd. destruct (handlePayload_cases t payload from d) as [[? ?]|(peer & Hr)].
  - exists log. apply (spent_weaken n); [lia|]. by apply (spent_quiet n log d).
  - destruct (spent_replied n log t peer _ _ Ht Hr Hd) as (items & Hs). eauto.
Qed.
Lemma spent_read_loop t pending : forall budget n log d,
  t0 <= t < t0 + ResponseCooldownMs -> spent n log d ->
  exists log', spent (n + len pending) log' (read_loop budget t pending d).2.
Proof.
  assert (Hstay : forall (p : list (option (qstring * bytes))) n log d,
    spent n log d -> exists log', spent (n + len p) log' d).
  { intros p n log d Hd. exists log. eapply spent_weaken, Hd. pose proof (len_nonneg p). lia. }
  induction pending as [|x pending IH]; intros budget n log d Ht Hd; [destruct budget; by eapply Hstay|].
  destruct budget as [|budget]; cbn [read_loop snd]; [by eapply (Hstay (x :: pending))|].
  rewrite len_cons, Z.add_assoc.
  assert (Hsame : exists log', spent (n + 1) log' d) by (exists log; eapply spent_weaken, Hd; lia).
  match goal with |- context [read_loop budget t pending ?d1] =>
    assert (Hx : exists log', spent (n + 1) log' d1); [|destruct Hx as [log1 Hx]; by eapply IH] end.
  destruct x as [[from text]|]; [|done].
  destruct (from_json text) as [[| | | | |object]|]; try done. by eapply spent_handlePayload.
Qed.
Lemma spent_passes l : forall n log d,
  Forall (fun tp => t0 <= tp.1 < t0 + ResponseCooldownMs) l -> spent n log d ->
  exists log', spent (n + datagrams l) log' (passes d l).
Proof.
  induction l as [|[t p] l IH]; intros n log d Ht Hd; cbn [passes datagrams foldl foldr fst snd].
  { exists log. by rewrite Z.add_0_r. }
  apply Forall_cons in Ht as [Ht Hl]. cbn in Ht. rewrite Z.add_assoc. unfold readDatagrams.
  destruct (negb _); cbn [snd].
  - eapply IH; [done|]. eapply spent_weaken, Hd. pose proof (len_nonneg p). lia.
  - destruct (spent_read_loop t p MaxDatagramsPerPass n log d Ht Hd) as [log1 Hs1]. by eapply IH.
Qed.
End Window.

(** C24: this device is no reflector. Whatever datagrams arrive in a window of
    one cooldown, whoever they claim to be from, everything sent in reply is
    accounted for by announcements that were answered, no more of them than
    datagrams, each with at most one datagram to its address and one POST of
    our description to it; the table of addresses answered stays within
    [MaxTrackedResponders]. An address is answered again only when the table
    has filled up and been cleared in between: [k] answers to one address take
    at least [256 * (k - 2)] datagrams, and an address that the table has as
    answered in the window is not answered at all before as many datagrams
    have come as the table still has room for. *)
Theorem reflection_is_bounded d l t0 :
  table_ok d -> Forall (fun tp => t0 <= tp.1 < t0 + ResponseCooldownMs) l ->
  table_ok (passes d l)
  /\ exists log : answer_log,
       sent (passes d l) = List.concat (map snd log) ++ sent d
       /\ Forall (fun x => reply_to x.1 x.2) log
       /\ len log <= datagrams l
       /\ forall a,
            256 * answered a log < datagrams l + tracked d + (if cooled t0 a d then 0 else 256)
            /\ (cooled t0 a d = true -> tracked d + datagrams l <= 256 -> answered a log = 0).
Proof.
  intros Hd Ht. destruct (spent_passes t0 d l 0 [] d Ht) as (log & Hs).
  { split; [done|done|constructor|done|]. intros a. unfold answered, len. cbn [List.filter List.length]. lia. }
  destruct Hs as [J1 J2 J3 J4 J5]. split; [done|]. exists log. split; [done|]. split; [done|].
  split; [lia|]. intros a. specialize (J5 a). pose proof (warm_or_listed t0 a (passes d l)) as Hw.
  assert (Hk : 256 * answered a log < datagrams l + tracked d + (if cooled t0 a d then 0 else 256)).
  { unfold warm at 2 in J5. unfold MaxTrackedResponders in J5. lia. }
  split; [exact Hk|]. intros Hc Hroom. rewrite Hc in Hk.
  assert (0 <= answered a log) by apply len_nonneg. lia.
Qed.

End Discovery.
End Discovery.
