(* ===== verification/RateLimiter.v ===== *)
(** * RateLimiter: src/src/ratelimiter.cpp

    The per-address throttle in front of the PIN. The clock reading
    [m_clock.elapsed()] is an argument of every operation that reads it; the
    [QHash] is a [gmap]. *)
From S2P Require Import Prelude.

Module RateLimiter.

Definition FreeAttempts : Z := 3.
Definition BaseBackoffMs : Z := 1000.
Definition MaxBackoffMs : Z := 15 * 60 * 1000.
Definition ForgetAfterMs : Z := 60 * 60 * 1000.
Definition MaxEntries : Z := 512.

Record Entry := mkEntry { failures : Z; blockedUntil : Z }.
#[export] Instance eta_Entry : Settable Entry :=
  fun r => mkEntry (failures r) (blockedUntil r).
Definition Entry0 : Entry := mkEntry 0 0.

Record RateLimiter := mkRateLimiter {
  m_entries : gmap qstring Entry;
  m_offset : Z
}.
#[export] Instance eta_RateLimiter : Settable RateLimiter :=
  fun r => mkRateLimiter (m_entries r) (m_offset r).
Definition RateLimiter0 : RateLimiter := mkRateLimiter ∅ 0.

(** [elapsed] is the reading of [m_clock]. *)
Definition now (elapsed : Z) (rl : RateLimiter) : Z := elapsed + m_offset rl.

Definition setClockOffset (ms : Z) (rl : RateLimiter) : RateLimiter :=
  rl <| m_offset := ms |>.

Definition allow (elapsed : Z) (key : qstring) (rl : RateLimiter) : bool :=
  match m_entries rl !! key with
  | None => true
  | Some e => blockedUntil e <=? now elapsed rl
  end.

Definition retryAfter (elapsed : Z) (key : qstring) (rl : RateLimiter) : Z :=
  match m_entries rl !! key with
  | None => 0
  | Some e =>
      let remaining := blockedUntil e - now elapsed rl in
      if remaining <=? 0 then 0 else Z.quot (remaining + 999) 1000
  end.

(** The condition under which [prune] erases an entry. *)
Definition forgettable (current : Z) (e : Entry) : bool :=
  negb (blockedUntil e =? 0) && (ForgetAfterMs <? current - blockedUntil e).

Definition prune (elapsed : Z) (rl : RateLimiter) : RateLimiter :=
  rl <| m_entries ::= filter (fun ke => forgettable (now elapsed rl) ke.2 = false) |>.

(** [for (i = start; i < failures && backoff < MaxBackoffMs; ++i) backoff *= 2] *)
Fixpoint backoff_loop (fuel : nat) (i failures backoff : Z) : Z :=
  match fuel with
  | O => backoff
  | S fuel =>
      if (i <? failures) && (backoff <? MaxBackoffMs)
      then backoff_loop fuel (i + 1) failures (backoff * 2)
      else backoff
  end.
Definition backoff_for (failures : Z) : Z :=
  Z.min MaxBackoffMs
    (backoff_loop (Z.to_nat failures) (FreeAttempts + 1) failures BaseBackoffMs).

Definition recordFailure (elapsed : Z) (key : qstring) (rl0 : RateLimiter) : RateLimiter :=
  let rl := prune elapsed rl0 in
  if bool_decide (m_entries rl !! key = None)
     && (MaxEntries <=? Z.of_nat (size (m_entries rl)))
  then rl
  else
    let entry := default Entry0 (m_entries rl !! key) in
    let entry := entry <| failures ::= Z.succ |> in
    let entry :=
      if failures entry <=? FreeAttempts then entry
      else entry <| blockedUntil := now elapsed rl + backoff_for (failures entry) |> in
    rl <| m_entries ::= <[key := entry]> |>.

Definition recordSuccess (key : qstring) (rl : RateLimiter) : RateLimiter :=
  rl <| m_entries ::= delete key |>.

Definition clear (rl : RateLimiter) : RateLimiter := rl <| m_entries := ∅ |>.

(** An attempt at the PIN: when, from where, and whether the PIN was right.
    The receiving service first asks [allow], then records the outcome. *)
Record attempt := mkAttempt { at_ : Z; who : qstring; right : bool }.
Definition let_through (a : attempt) (rl : RateLimiter) : bool := allow (at_ a) (who a) rl.
Definition attempt_step (rl : RateLimiter) (a : attempt) : RateLimiter :=
  if let_through a rl
  then if right a then recordSuccess (who a) rl else recordFailure (at_ a) (who a) rl
  else rl.
(** Any number of addresses trying, one attempt after another. *)
Definition serve (rl : RateLimiter) (l : list attempt) : RateLimiter := foldl attempt_step rl l.
(** The wrong PINs of [k] that were let through, so the guesses it got to make. *)
Fixpoint wrong (k : qstring) (l : list attempt) (rl : RateLimiter) : Z :=
  match l with
  | [] => 0
  | a :: l =>
      (if let_through a rl && qeq (who a) k && negb (right a) then 1 else 0)
      + wrong k l (attempt_step rl a)
  end.

(** The calls a server makes on the limiter. *)
Inductive op :=
| Failure (elapsed : Z) (key : qstring)
| Success (key : qstring)
| Offset (ms : Z)
| Clear.
Definition run_op (rl : RateLimiter) (o : op) : RateLimiter :=
  match o with
  | Failure t k => recordFailure t k rl
  | Success k => recordSuccess k rl
  | Offset ms => setClockOffset ms rl
  | Clear => clear rl
  end.

(** ** The backoff *)

Lemma backoff_loop_spec n i f b :
  0 < b -> f - i <= Z.of_nat n ->
  Z.min MaxBackoffMs (backoff_loop n i f b)
  = Z.min MaxBackoffMs (b * 2 ^ Z.max 0 (f - i)).
Proof.
  revert i b. induction n as [|n IH]; intros i b Hb Hn.
  { rewrite Z.max_l by lia. cbn. lia. }
  cbn [backoff_loop]. destruct (Z.ltb_spec i f) as [Hi|Hi]; cbn [andb]; last first.
  { rewrite Z.max_l by lia. lia. }
  destruct (Z.ltb_spec b MaxBackoffMs) as [Hm|Hm]; last first.
  { assert (1 <= 2 ^ Z.max 0 (f - i)) by (pose proof (Z.pow_pos_nonneg 2 (Z.max 0 (f - i))); lia).
    nia. }
  rewrite IH by lia. f_equal.
  replace (Z.max 0 (f - i)) with (Z.succ (Z.max 0 (f - (i + 1)))) by lia.
  rewrite Z.pow_succ_r by lia. lia.
Qed.

Lemma backoff_for_spec f :
  4 <= f -> backoff_for f = Z.min MaxBackoffMs (1000 * 2 ^ (f - 4)).
Proof.
  intros Hf. unfold backoff_for, BaseBackoffMs, FreeAttempts.
  rewrite backoff_loop_spec by lia. f_equal. do 2 f_equal. lia.
Qed.

Lemma backoff_for_bounds f : 4 <= f -> 1000 <= backoff_for f <= MaxBackoffMs.
Proof.
  intros Hf. rewrite backoff_for_spec by done.
  pose proof (Z.pow_pos_nonneg 2 (f - 4)). unfold MaxBackoffMs. lia.
Qed.

Lemma backoff_for_saturates f : 14 <= f -> backoff_for f = MaxBackoffMs.
Proof.
  intros Hf. rewrite backoff_for_spec by lia. apply Z.min_l.
  pose proof (Z.pow_le_mono_r 2 10 (f - 4)). unfold MaxBackoffMs. lia.
Qed.

(** ** Lookups after each operation *)

Lemma lookup_prune t rl k :
  m_entries (prune t rl) !! k
  = match m_entries rl !! k with
    | Some e => if forgettable (now t rl) e then None else Some e
    | None => None
    end.
Proof.
  cbn. destruct (m_entries rl !! k) as [e|] eqn:E.
  - destruct (forgettable (now t rl) e) eqn:F.
    + apply map_lookup_filter_None_2. right. intros e' He'. simplify_eq. cbn.
      by rewrite F.
    + by apply map_lookup_filter_Some_2.
  - apply map_lookup_filter_None_2. by left.
Qed.

Lemma size_prune t rl : (size (m_entries (prune t rl)) <= size (m_entries rl))%nat.
Proof.
  apply map_subseteq_size. cbn. apply map_filter_subseteq.
Qed.

#[global] Arguments prune : simpl never.

(** The entry a failure leaves behind, when it is recorded. *)
Definition bump (current : Z) (e : Entry) : Entry :=
  let f := Z.succ (failures e) in
  mkEntry f (if f <=? FreeAttempts then blockedUntil e else current + backoff_for f).

Lemma recordFailure_entries t k rl :
  m_entries (recordFailure t k rl)
  = let m := m_entries (prune t rl) in
    if bool_decide (m !! k = None) && (MaxEntries <=? Z.of_nat (size m)) then m
    else <[k := bump (now t rl) (default Entry0 (m !! k))]> m.
Proof.
  unfold recordFailure. cbv zeta.
  set (m := m_entries (prune t rl)). cbn [set_field].
  case_match; [done|]. subst m. cbn. f_equal. unfold bump.
  case_match; cbn; [|done].
  by destruct (default _ _).
Qed.

Lemma recordFailure_offset t k rl : m_offset (recordFailure t k rl) = m_offset rl.
Proof. unfold recordFailure. cbv zeta. by case_match. Qed.

(** The two questions a request handler asks agree. An address is let
    through exactly when the [Retry-After] it would be given is zero, waiting
    that many seconds always suffices, and one second less never does. *)
Theorem allow_retryAfter t k rl :
  (allow t k rl = true <-> retryAfter t k rl = 0)
  /\ allow (t + 1000 * retryAfter t k rl) k rl = true
  /\ (allow t k rl = false ->
      1 <= retryAfter t k rl
      /\ allow (t + 1000 * (retryAfter t k rl - 1)) k rl = false).
Proof.
  unfold allow, retryAfter, now.
  destruct (m_entries rl !! k) as [e|]; [|done].
  set (b := blockedUntil e). set (o := m_offset rl).
  assert (Hq : 0 < b - (t + o) ->
          b - (t + o) <= 1000 * Z.quot (b - (t + o) + 999) 1000 <= b - (t + o) + 999).
  { intros. rewrite Z.quot_div_nonneg by lia.
    pose proof (Z.div_mod (b - (t + o) + 999) 1000).
    pose proof (Z.mod_pos_bound (b - (t + o) + 999) 1000). lia. }
  destruct (Z.leb_spec (b - (t + o)) 0); [split_and!; lia|].
  specialize (Hq ltac:(lia)). split_and!; lia.
Qed.

(** Room for [k]: it is tracked already, or there is space to add it. *)
Definition room (k : qstring) (rl : RateLimiter) : Prop :=
  Z.of_nat (size (delete k (m_entries rl))) < MaxEntries.

Lemma room_prune t k rl : room k rl -> room k (prune t rl).
Proof.
  unfold room. intros H. eapply Z.le_lt_trans; [|exact H]. apply inj_le, map_subseteq_size.
  unfold prune. cbn. apply delete_mono, map_filter_subseteq.
Qed.

Lemma recordFailure_room t k rl :
  room k rl ->
  m_entries (recordFailure t k rl)
  = <[k := bump (now t rl) (default Entry0 (m_entries (prune t rl) !! k))]>
      (m_entries (prune t rl)).
Proof.
  intros Hr%(room_prune t). unfold room in Hr. rewrite recordFailure_entries. cbv zeta.
  set (m := m_entries (prune t rl)) in *.
  destruct (m !! k) as [e|] eqn:E.
  - by rewrite bool_decide_eq_false_2 by done.
  - rewrite delete_id in Hr by done. rewrite (proj2 (Z.leb_gt _ _)) by lia.
    by rewrite andb_false_r.
Qed.

Lemma recordFailure_size t k rl :
  Z.of_nat (size (m_entries rl)) <= MaxEntries ->
  Z.of_nat (size (m_entries (recordFailure t k rl))) <= MaxEntries.
Proof.
  intros Hsz. pose proof (size_prune t rl) as Hp.
  rewrite recordFailure_entries. cbv zeta.
  set (m := m_entries (prune t rl)) in *.
  destruct (m !! k) as [e|] eqn:E.
  - rewrite bool_decide_eq_false_2 by done. cbn [andb].
    rewrite map_size_insert_Some by done. lia.
  - rewrite bool_decide_eq_true_2 by done. cbn [andb].
    destruct (Z.leb_spec MaxEntries (Z.of_nat (size m))); [lia|].
    rewrite map_size_insert_None by done. lia.
Qed.

(** Whatever a network throws at it, the table never tracks more than
    [MaxEntries] addresses. *)
Theorem size_bounded ops :
  Z.of_nat (size (m_entries (foldl run_op RateLimiter0 ops))) <= MaxEntries.
Proof.
  assert (H : forall rl, Z.of_nat (size (m_entries rl)) <= MaxEntries ->
    Z.of_nat (size (m_entries (foldl run_op rl ops))) <= MaxEntries).
  { induction ops as [|o ops IH]; intros rl Hrl; [done|]. apply IH.
    destruct o; cbn [run_op].
    - by apply recordFailure_size.
    - unfold recordSuccess. cbn. etrans; [|exact Hrl].
      apply inj_le, map_subseteq_size, delete_subseteq.
    - done.
    - done. }
  apply H. done.
Qed.

(** ** How fast a PIN can be searched *)

(** What the limiter knows of one address. *)
Definition count_of (k : qstring) (rl : RateLimiter) : Z :=
  failures (default Entry0 (m_entries rl !! k)).
Definition block_of (k : qstring) (rl : RateLimiter) : Z :=
  blockedUntil (default Entry0 (m_entries rl !! k)).
(** Entries are as [recordFailure] leaves them. *)
Definition entry_ok (e : Entry) : Prop :=
  1 <= failures e /\ (failures e <= FreeAttempts <-> blockedUntil e = 0) /\ 0 <= blockedUntil e.
Definition tracked (k : qstring) (rl : RateLimiter) : Prop :=
  m_offset rl = 0 /\ from_option entry_ok True (m_entries rl !! k).

(** The potential: [14] guesses up front, then [14] an hour. [last] is the
    time of the last guess that was let through. *)
Definition potential (start last : Z) (k : qstring) (rl : RateLimiter) (n : Z) : Prop :=
  3600000 * n <= 14 * (Z.max last (block_of k rl) - start) + 3600000 * Z.min 14 (count_of k rl)
  /\ (FreeAttempts < count_of k rl -> last <= block_of k rl).

Lemma bump_ok t e :
  0 <= t -> e = Entry0 \/ entry_ok e -> entry_ok (bump t e).
Proof.
  intros Ht He. assert (Hf : 0 <= failures e /\ (failures e <= FreeAttempts <-> blockedUntil e = 0)
    /\ 0 <= blockedUntil e).
  { destruct He as [->|(?&?&?)]; [done|]. split_and!; try lia; done. }
  destruct Hf as (Hf & Hb & Hn). unfold entry_ok, bump. cbn.
  unfold FreeAttempts in *. destruct (Z.leb_spec (Z.succ (failures e)) 3) as [?|?].
  - split_and!; [lia| |done]. split; [|lia]. intros _. apply Hb. lia.
  - pose proof (backoff_for_bounds (Z.succ (failures e))). split_and!; lia.
Qed.

(** A failure of another address at most forgets [k]. *)
Lemma recordFailure_other t k k' rl :
  k' <> k -> m_entries (recordFailure t k' rl) !! k = m_entries (prune t rl) !! k.
Proof.
  intros Hk. rewrite recordFailure_entries. cbv zeta. case_match; [done|].
  by rewrite lookup_insert_ne.
Qed.
Lemma dom_recordFailure t k rl :
  dom (m_entries (recordFailure t k rl)) ⊆ {[k]} ∪ dom (m_entries rl).
Proof.
  assert (Hp : dom (m_entries (prune t rl)) ⊆ dom (m_entries rl)) by apply dom_filter_subseteq.
  rewrite recordFailure_entries. cbv zeta. case_match; [|rewrite dom_insert]; set_solver.
Qed.

Lemma tracked_recordFailure t k k' rl :
  0 <= t -> tracked k rl -> tracked k (recordFailure t k' rl).
Proof.
  intros Ht (Ho & He). split; [by rewrite recordFailure_offset|].
  assert (Hp : from_option entry_ok True (m_entries (prune t rl) !! k)).
  { rewrite lookup_prune. destruct (m_entries rl !! k) as [e|]; [|done]. by case_match. }
  destruct (decide (k' = k)) as [->|Hk]; [|by rewrite recordFailure_other].
  rewrite recordFailure_entries. cbv zeta. case_match; [done|].
  rewrite lookup_insert_eq. cbn. apply bump_ok; [unfold now; lia|].
  destruct (m_entries (prune t rl) !! k); [by right|by left].
Qed.
Lemma tracked_step k rl a : 0 <= at_ a -> tracked k rl -> tracked k (attempt_step rl a).
Proof.
  intros Ha Ht. unfold attempt_step. case_match; [|done]. case_match; [|by apply tracked_recordFailure].
  destruct Ht as [Ho He]. split; [done|]. cbn.
  destruct (decide (who a = k)) as [->|Hk]; [by rewrite lookup_delete_eq|by rewrite lookup_delete_ne].
Qed.

(** The numbers the limiter keeps about [k] after one more failure. *)
Lemma recordFailure_numbers t k rl :
  tracked k rl -> room k rl ->
  let e := default Entry0 (m_entries rl !! k) in
  let e' := if forgettable t e then Entry0 else e in
  count_of k (recordFailure t k rl) = Z.succ (failures e')
  /\ block_of k (recordFailure t k rl) = blockedUntil (bump t e').
Proof.
  intros (Ho & _) Hr. unfold count_of, block_of.
  rewrite recordFailure_room by done. rewrite lookup_insert_eq, lookup_prune.
  unfold now. rewrite Ho, Z.add_0_r.
  destruct (m_entries rl !! k) as [e|]; cbn; [|done].
  by destruct (forgettable t e).
Qed.
(** Nothing yet, or the potential since some guess. *)
Definition counted (start upto : Z) (k : qstring) (rl : RateLimiter) (n : Z) : Prop :=
  n = 0 \/ exists last, start <= last <= upto /\ potential start last k rl n.

(** One more guess of [k]. *)
Lemma counted_guess t start upto k rl n :
  0 <= start <= upto -> upto <= t -> tracked k rl -> room k rl -> allow t k rl = true ->
  counted start upto k rl n -> counted start t k (recordFailure t k rl) (n + 1).
Proof.
  intros Hl Ht Htr Hr Hal Hp. right. exists t. split; [lia|].
  destruct (recordFailure_numbers t k rl Htr Hr) as [Hc Hb].
  destruct Htr as (Ho & He). unfold counted, potential in *. rewrite Hc, Hb. clear Hc Hb Hr.
  unfold count_of, block_of in *. unfold allow, now in Hal. rewrite Ho, Z.add_0_r in Hal.
  unfold FreeAttempts, ForgetAfterMs in *.
  destruct (m_entries rl !! k) as [e|]; cbn in *; last first.
  { change (Z.succ 0 <=? 3) with true. cbv iota. destruct Hp as [->|(last & Hla & Hp)]; lia. }
  destruct e as [f b]. destruct He as (Hf & Hfb & Hnn). unfold forgettable.
  cbn -[backoff_for Z.mul] in *. unfold FreeAttempts in *.
  destruct (Z.eqb_spec b 0) as [->|Hb0]; cbn -[backoff_for Z.mul].
  { assert (f <= 3) by (by apply Hfb).
    destruct (Z.leb_spec (Z.succ f) 3); [destruct Hp as [->|(last & Hla & Hp)]; lia|].
    pose proof (backoff_for_bounds (Z.succ f)). destruct Hp as [->|(last & Hla & Hp)]; lia. }
  assert (~ f <= 3) by (intros ?; apply Hb0; by apply Hfb).
  unfold ForgetAfterMs.
  destruct (Z.ltb_spec (60 * 60 * 1000) (t - b)) as [Hq|Hq]; cbn -[backoff_for Z.mul].
  { change (Z.succ 0 <=? 3) with true. cbv iota. destruct Hp as [->|(last & Hla & Hp)]; lia. }
  rewrite (proj2 (Z.leb_gt (Z.succ f) 3)) by lia.
  pose proof (backoff_for_bounds (Z.succ f)).
  destruct Hp as [->|(last & Hla & Hp)]; [lia|].
  destruct (Z.le_gt_cases 14 (Z.succ f)) as [Hs|Hs]; [|lia].
  pose proof (backoff_for_saturates (Z.succ f)). unfold MaxBackoffMs in *. lia.
Qed.

(** Another address failing: [k] keeps its numbers, or an hour has passed. *)
Lemma counted_other t start upto k k' rl n :
  upto <= t -> tracked k rl -> k' <> k ->
  counted start upto k rl n -> counted start t k (recordFailure t k' rl) n.
Proof.
  intros Ht (Ho & He) Hk [->|(last & Hl & Hp)]; [by left|right].
  unfold potential, count_of, block_of in *. rewrite recordFailure_other, lookup_prune by done.
  unfold now. rewrite Ho, Z.add_0_r.
  destruct (m_entries rl !! k) as [e|]; [|exists last; split; [lia|done]].
  destruct (forgettable t e) eqn:F; [|exists last; split; [lia|done]].
  exists t. split; [lia|]. cbn -[Z.mul] in *. unfold forgettable in F.
  apply andb_true_iff in F as [Hb%negb_true_iff%Z.eqb_neq Hq%Z.ltb_lt].
  destruct He as (Hf & Hfb & Hnn). unfold ForgetAfterMs, FreeAttempts in *.
  assert (~ failures e <= 3) by (intros ?; apply Hb; by apply Hfb). lia.
Qed.

Lemma block_recent t upto k k' rl :
  0 <= t -> upto <= t -> tracked k rl -> (k' = k -> room k rl /\ allow t k rl = true) ->
  block_of k rl <= upto + MaxBackoffMs ->
  block_of k (recordFailure t k' rl) <= t + MaxBackoffMs.
Proof.
  intros Ht Hu Htr Hal Hb. destruct (decide (k' = k)) as [->|Hk]; last first.
  { unfold block_of in *. rewrite recordFailure_other, lookup_prune by done.
    destruct (m_entries rl !! k) as [e|]; cbn in *; [case_match; cbn|]; unfold MaxBackoffMs in *; lia. }
  destruct Hal as [Hr Hal]; [done|]. destruct (recordFailure_numbers t k rl Htr Hr) as [_ ->].
  destruct Htr as (Ho & _). unfold allow, now in Hal. rewrite Ho, Z.add_0_r in Hal. clear Hb Hr.
  destruct (m_entries rl !! k) as [e|]; cbn -[backoff_for] in *; last first.
  { change (Z.succ 0 <=? FreeAttempts) with true. cbv iota. unfold MaxBackoffMs. lia. }
  set (e' := if forgettable t e then Entry0 else e).
  assert (blockedUntil e' <= t) by (subst e'; case_match; cbn; lia).
  unfold FreeAttempts. destruct (Z.leb_spec (Z.succ (failures e')) 3).
  - unfold MaxBackoffMs. lia.
  - pose proof (backoff_for_bounds (Z.succ (failures e'))). lia.
Qed.

(** ** A whole history *)

(** The addresses that have tried. *)
Definition seen (l : list attempt) : gset qstring := list_to_set (map who l).

Section History.
(** The addresses of the whole history, few enough to be tracked. *)
Context (addresses : gset qstring) (few : Z.of_nat (size addresses) <= MaxEntries).

(** The table knows only addresses that tried, and [k]'s entry is sane. *)
Record known (k : qstring) (upto : Z) (rl : RateLimiter) : Prop := {
  kn_dom : dom (m_entries rl) ⊆ addresses;
  kn_tracked : tracked k rl;
  kn_block : block_of k rl <= upto + MaxBackoffMs
}.

Lemma known_room k upto rl : k ∈ addresses -> known k upto rl -> room k rl.
Proof using few.
  intros Hk [Hd _ _]. unfold room. rewrite <- size_dom, dom_delete_L.
  assert (Hs : (size (dom (m_entries rl) ∖ {[k]}) <= size (addresses ∖ {[k]}))%nat)
    by (apply subseteq_size; set_solver).
  rewrite (size_difference addresses {[k]}), size_singleton in Hs by set_solver.
  assert (size addresses <> 0)%nat by (rewrite size_empty_iff; set_solver). lia.
Qed.

Lemma known_step k upto rl a :
  0 <= upto <= at_ a -> who a ∈ addresses -> known k upto rl -> known k (at_ a) (attempt_step rl a).
Proof using few.
  intros Ht Ha Hk. pose proof (known_room k upto rl) as Hroom. destruct Hk as [Hd Htr Hb].
  assert (Hb' : block_of k rl <= at_ a + MaxBackoffMs) by lia.
  split; [|by apply tracked_step; [lia|]|]; unfold attempt_step;
    destruct (let_through a rl) eqn:Hl; try done; destruct (right a); cbn [recordSuccess].
  - cbn. rewrite dom_delete_L. set_solver.
  - etrans; [apply dom_recordFailure|]. set_solver.
  - unfold block_of. cbn. destruct (decide (who a = k)) as [->|Hk].
    + rewrite lookup_delete_eq. cbn. unfold MaxBackoffMs. lia.
    + by rewrite lookup_delete_ne.
  - apply (block_recent _ upto); [lia..|done| |done]. intros <-. split; [by apply Hroom|done].
Qed.

Lemma known_serve k l : forall upto rl,
  0 <= upto -> StronglySorted Z.le (map at_ l) -> Forall (fun a => upto <= at_ a) l ->
  seen l ⊆ addresses -> known k upto rl ->
  exists upto', upto <= upto' /\ known k upto' (serve rl l)
    /\ (upto' = upto \/ exists a, a ∈ l /\ at_ a = upto').
Proof using few.
  induction l as [|a l IH]; intros upto rl Hu Hs Hl Hd Hk; cbn in *;
    [exists upto; split_and!; [lia|done|by left]|].
  inversion_clear Hs as [|?? Hs' Hge]. inversion_clear Hl as [|?? Ha Hl'].
  rewrite Forall_map in Hge. unfold seen in *. cbn in Hd.
  destruct (IH (at_ a) (attempt_step rl a)) as (upto' & Hle & Hk' & He); [lia|done..|set_solver| |].
  { apply (known_step k upto); [lia|set_solver|done]. }
  exists upto'. split_and!; [lia|done|]. right. destruct He as [->|(b & Hb & <-)]; [exists a|exists b]; set_solver.
Qed.

Lemma counted_step k start upto rl n a :
  0 <= start <= upto -> upto <= at_ a -> who a ∈ addresses -> (who a = k -> right a = false) ->
  known k upto rl -> counted start upto k rl n ->
  counted start (at_ a) k (attempt_step rl a)
    (n + if let_through a rl && qeq (who a) k && negb (right a) then 1 else 0).
Proof using few.
  intros Hs Hu Ha Hr Hk Hc. pose proof (known_room k upto rl) as Hroom.
  assert (Hlater : counted start (at_ a) k rl n).
  { destruct Hc as [->|(last & Hl & Hp)]; [by left|right]. exists last. split; [lia|done]. }
  unfold attempt_step. destruct (let_through a rl) eqn:Hl; cbn [andb]; [|by rewrite Z.add_0_r].
  unfold qeq. case_bool_decide as Hw; cbn [andb].
  - rewrite Hr by done. subst k. cbn. apply (counted_guess _ _ upto); try done; [apply Hk|by apply Hroom].
  - rewrite Z.add_0_r. destruct (right a).
    + unfold recordSuccess. unfold counted, potential, count_of, block_of in *. cbn -[Z.mul].
      by rewrite lookup_delete_ne.
    + apply (counted_other _ _ upto); try done. apply Hk.
Qed.

Lemma counted_serve k start l : forall upto rl n,
  0 <= start <= upto -> StronglySorted Z.le (map at_ l) -> Forall (fun a => upto <= at_ a) l ->
  seen l ⊆ addresses -> Forall (fun a => who a = k -> right a = false) l ->
  known k upto rl -> counted start upto k rl n ->
  exists upto', known k upto' (serve rl l) /\ counted start upto' k (serve rl l) (n + wrong k l rl)
    /\ (upto' = upto \/ exists a, a ∈ l /\ at_ a = upto').
Proof using few.
  induction l as [|a l IH]; intros upto rl n Hu Hs Hl Hd Hr Hk Hc; cbn in *.
  { exists upto. rewrite Z.add_0_r. eauto. }
  inversion_clear Hs as [|?? Hs' Hge]. inversion_clear Hl as [|?? Ha Hl'].
  inversion_clear Hr as [|?? Hra Hr']. rewrite Forall_map in Hge. unfold seen in *. cbn in Hd.
  rewrite Z.add_assoc.
  destruct (IH (at_ a) (attempt_step rl a) _ ltac:(lia) Hs' Hge ltac:(set_solver) Hr'
    (known_step k upto rl a ltac:(lia) ltac:(set_solver) Hk)
    (counted_step k start upto rl n a ltac:(lia) Ha ltac:(set_solver) Hra Hk Hc))
    as (upto' & Hk' & Hc' & He).
  exists upto'. split_and!; [done..|]. right. destruct He as [->|(b & Hb & <-)]; [exists a|exists b]; set_solver.
Qed.
End History.

(** C18: the search of a PIN over the network is as slow as the header says.
    From start-up on, any number of addresses try PINs, right and wrong, in
    any order, as long as no more than [MaxEntries] different addresses ever
    try and the clock does not run backwards. Then over any stretch of time in
    which an address does not give the right PIN, and however it times its
    attempts, the limiter lets at most [18] wrong guesses of it through, plus
    [14] for each hour that passes. (With more addresses than the table holds
    the limit can be defeated: [full_table_disables_limit].) *)
Theorem guess_rate_bounded k start finish before during :
  Z.of_nat (size (seen (before ++ during))) <= MaxEntries ->
  Forall (fun a => 0 <= at_ a) (before ++ during) ->
  Sorted Z.le (map at_ (before ++ during)) ->
  0 <= start <= finish -> Forall (fun a => start <= at_ a <= finish) during ->
  Forall (fun a => who a = k -> right a = false) during ->
  3600000 * wrong k during (serve RateLimiter0 before) <= 14 * (finish - start) + 18 * 3600000.
Proof.
  intros Hfew Hpos Hsort Hst Hin Hwrong.
  apply Sorted_StronglySorted in Hsort; [|intros ???; lia].
  rewrite map_app in Hsort. apply StronglySorted_app in Hsort as (Hcross & Hsb & Hsd).
  rewrite Forall_app in Hpos. destruct Hpos as [Hpb Hpd].
  assert (Hseen : seen before ⊆ seen (before ++ during) /\ seen during ⊆ seen (before ++ during)).
  { unfold seen. rewrite map_app, list_to_set_app_L. set_solver. }
  destruct (known_serve _ Hfew k before 0 RateLimiter0) as (mid & Hm & Hk & Hmid); [done..|by destruct Hseen| |].
  { split; [set_solver|done|vm_compute; discriminate]. }
  destruct during as [|a during]; [cbn; lia|].
  set (upto := Z.max start mid).
  assert (Hupto : Forall (fun b => upto <= at_ b) (a :: during)).
  { apply Forall_forall. intros b Hb. rewrite Forall_forall in Hin, Hpd.
    specialize (Hin b Hb). specialize (Hpd b Hb). destruct Hmid as [->|(c & Hc & <-)]; [lia|].
    assert (at_ c <= at_ b); [|lia]. apply Hcross; apply list_elem_of_fmap; eauto. }
  destruct (counted_serve _ Hfew k start (a :: during) upto (serve RateLimiter0 before) 0)
    as (last & Hk' & Hc & Hl); [lia|done..|by destruct Hseen|done| |by left|].
  { destruct Hk. split; [done..|]. unfold upto. lia. }
  assert (Hlast : last <= finish).
  { rewrite Forall_forall in Hin, Hupto. destruct Hl as [->|(b & Hb & <-)]; [|by apply Hin].
    specialize (Hin a ltac:(set_solver)). specialize (Hupto a ltac:(set_solver)). lia. }
  destruct Hk' as [_ _ Hb]. unfold MaxBackoffMs in Hb.
  destruct Hc as [Hn|(u & Hu & Hp & _)]; lia.
Qed.

(** A guesser, and a neighbour who knows the PIN and mistypes it once. *)
Definition evening : list attempt :=
  let guess t := mkAttempt t (lit "10.0.0.9") false in
  let friend t ok := mkAttempt t (lit "10.0.0.2") ok in
  [friend 0 false; guess 1; friend 5 true; guess 2000; guess 2001].
Definition night : list attempt :=
  map (fun t => mkAttempt t (lit "10.0.0.9") false)
    [5000; 5001; 5002; 6001; 6002; 8003; 8004; 1000000].
Lemma guess_rate_bounded_witness :
  3600000 * wrong (lit "10.0.0.9") night (serve RateLimiter0 evening)
  <= 14 * (1000000 - 5000) + 18 * 3600000
  /\ wrong (lit "10.0.0.9") night (serve RateLimiter0 evening) = 4.
Proof.
  split; [|vm_compute; reflexivity].
  apply (guess_rate_bounded (lit "10.0.0.9") 5000 1000000 evening night).
  - vm_compute. discriminate.
  - repeat (apply List.Forall_cons; [cbn; lia|]). constructor.
  - repeat (first [apply Sorted_nil|apply Sorted_cons|apply HdRel_nil|apply HdRel_cons; cbn; lia]).
  - lia.
  - repeat (apply List.Forall_cons; [cbn; lia|]). constructor.
  - repeat (apply List.Forall_cons; [reflexivity|]). constructor.
Defined.

(** ** A table filled by strangers *)

(** Entries that were never blocked. *)
Definition free_entry (e : Entry) : Prop := blockedUntil e = 0.

Lemma prune_free t rl :
  map_Forall (fun _ e => free_entry e) (m_entries rl) -> prune t rl = rl.
Proof.
  intros Hf. destruct rl as [m o]. unfold prune. cbn. f_equal.
  apply map_filter_id. intros i e Hi. cbn. specialize (Hf i e Hi). cbn in Hf.
  unfold forgettable, free_entry in *. by rewrite Hf.
Qed.

(** An address can be locked out of the bookkeeping. Entries within the
    free allowance carry no timestamp and are never pruned, so once
    [MaxEntries] other addresses have failed once each, the failures of a new
    address are dropped however much time passes, and it may guess without
    any limit. *)
Theorem full_table_disables_limit k times rl :
  map_Forall (fun _ e => free_entry e) (m_entries rl) ->
  MaxEntries <= Z.of_nat (size (m_entries rl)) ->
  m_entries rl !! k = None ->
  let l := map (fun t => mkAttempt t k false) times in
  wrong k l rl = len l /\ serve rl l = rl.
Proof.
  intros Hf Hsz Hk. cbv zeta. induction times as [|t times IH]; [done|].
  assert (Hal : allow t k rl = true) by (unfold allow; by rewrite Hk).
  assert (Hst : attempt_step rl (mkAttempt t k false) = rl).
  { unfold attempt_step, let_through. cbn. rewrite Hal.
    unfold recordFailure. cbv zeta. rewrite prune_free by done.
    rewrite Hk, bool_decide_eq_true_2 by done.
    by rewrite (proj2 (Z.leb_le _ _)) by done. }
  destruct IH as [IHw IHs]. split.
  - cbn [map wrong]. rewrite Hst, IHw. unfold let_through, qeq. cbn [at_ who right].
    rewrite Hal, bool_decide_eq_true_2 by done. rewrite len_cons. cbn [andb negb]. lia.
  - unfold serve in *. cbn [map foldl]. by rewrite Hst.
Qed.

(** The hypotheses of the theorem, decided. *)
Definition full_for (k : qstring) (rl : RateLimiter) : bool :=
  bool_decide (map_Forall (fun _ e => free_entry e) (m_entries rl))
  && (MaxEntries <=? Z.of_nat (size (m_entries rl))) && bool_decide (m_entries rl !! k = None).
Lemma full_for_spec k rl :
  full_for k rl = true ->
  map_Forall (fun _ e => free_entry e) (m_entries rl)
  /\ MaxEntries <= Z.of_nat (size (m_entries rl)) /\ m_entries rl !! k = None.
Proof.
  unfold full_for. rewrite !andb_true_iff, !bool_decide_eq_true, Z.leb_le. tauto.
Qed.

Definition strangers (n : nat) : RateLimiter :=
  foldl (fun rl i => recordFailure 0 (number (Z.of_nat i)) rl) RateLimiter0 (seq 0 n).

Lemma full_table_disables_limit_witness :
  let rl := strangers 512 in
  let guess t := mkAttempt t (lit "10.0.0.9") false in
  wrong (lit "10.0.0.9") (map guess (replicate 20 1)) rl = 20.
Proof.
  assert (H : full_for (lit "10.0.0.9") (strangers 512) = true) by (vm_compute; reflexivity).
  destruct (full_for_spec _ _ H) as (Hf & Hs & Hk).
  exact (proj1 (full_table_disables_limit (lit "10.0.0.9") (replicate 20 1) (strangers 512) Hf Hs Hk)).
Defined.

End RateLimiter.
