(* ===== verification/TransferModel.v ===== *)
(** * TransferModel: src/src/transfermodel.cpp, transfermodel.h

    The one transfer that can be in flight, as the list model QML reads. Time
    is an argument: [t] is the reading of the monotonic clock. Signals are
    logged in [m_emitted], newest first. *)
From S2P Require Import Prelude.

Module TransferModel.

Inductive State := Idle | Pending | Requesting | Active | Finished | Failed | Cancelled.
Inductive Direction := NoDirection | Sending | Receiving.
Inductive FileStatus := FileWaiting | FileTransferring | FileDone | FileFailed | FileSkipped.
#[export] Instance State_eq_dec : EqDecision State.
Proof. solve_decision. Defined.
#[export] Instance Direction_eq_dec : EqDecision Direction.
Proof. solve_decision. Defined.
#[export] Instance FileStatus_eq_dec : EqDecision FileStatus.
Proof. solve_decision. Defined.
Definition state_is (a b : State) : bool := bool_decide (a = b).
Definition status_is (a b : FileStatus) : bool := bool_decide (a = b).

Definition FlushIntervalMs : Z := 200.
Definition SpeedWindowMs : Z := 1000.

Record FileEntry := mkFileEntry {
  id : qstring; fileName : qstring; size : Z; fileType : qstring; sha256 : qstring;
  preview : qstring; token : qstring; localPath : qstring; transferred : Z;
  status : FileStatus; error : qstring
}.
#[export] Instance eta_FileEntry : Settable FileEntry := fun r =>
  mkFileEntry (id r) (fileName r) (size r) (fileType r) (sha256 r) (preview r) (token r)
    (localPath r) (transferred r) (status r) (error r).
Definition FileEntry0 : FileEntry := mkFileEntry [] [] 0 [] [] [] [] [] 0 FileWaiting [].

Inductive signal :=
| stateChanged | peerChanged | progressChanged | destinationChanged
| dataChanged (first last : Z)
| modelReset.

Record TransferModel := mkTransferModel {
  m_files : list FileEntry;
  m_state : State;
  m_direction : Direction;
  m_peerAlias : qstring; m_peerAddress : qstring; m_peerDeviceType : qstring;
  m_peerFingerprint : qstring; m_destination : qstring; m_errorText : qstring;
  m_totalBytes : Z; m_transferredBytes : Z;
  m_dirtyFirst : Z; m_dirtyLast : Z;
  m_flushActive : bool;            (* m_flushTimer->isActive() *)
  m_clock : option Z;              (* start of m_clock, None while invalid *)
  m_speedSampleMs : Z; m_speedSampleBytes : Z; m_bytesPerSecond : Z;
  m_emitted : list signal
}.
#[export] Instance eta_TransferModel : Settable TransferModel := fun r =>
  mkTransferModel (m_files r) (m_state r) (m_direction r) (m_peerAlias r) (m_peerAddress r)
    (m_peerDeviceType r) (m_peerFingerprint r) (m_destination r) (m_errorText r)
    (m_totalBytes r) (m_transferredBytes r) (m_dirtyFirst r) (m_dirtyLast r) (m_flushActive r)
    (m_clock r) (m_speedSampleMs r) (m_speedSampleBytes r) (m_bytesPerSecond r) (m_emitted r).
Definition TransferModel0 : TransferModel :=
  mkTransferModel [] Idle NoDirection [] [] [] [] [] [] 0 0 (-1) (-1) false None 0 0 0 [].

Definition emit (s : signal) (m : TransferModel) : TransferModel :=
  m <| m_emitted ::= cons s |>.

(** ** What the pages read *)

Definition fileStatusName (s : FileStatus) : qstring :=
  match s with
  | FileTransferring => lit "transferring"
  | FileDone => lit "done"
  | FileFailed => lit "failed"
  | FileSkipped => lit "skipped"
  | FileWaiting => lit "waiting"
  end.
Definition stateName (m : TransferModel) : qstring :=
  match m_state m with
  | Pending => lit "pending"
  | Requesting => lit "requesting"
  | Active => lit "active"
  | Finished => lit "finished"
  | Failed => lit "failed"
  | Cancelled => lit "cancelled"
  | Idle => lit "idle"
  end.
Definition directionName (m : TransferModel) : qstring :=
  match m_direction m with
  | Sending => lit "send" | Receiving => lit "receive" | NoDirection => []
  end.
Definition active (m : TransferModel) : bool :=
  state_is (m_state m) Active || state_is (m_state m) Pending || state_is (m_state m) Requesting.
Definition fileCount (m : TransferModel) : Z := len (m_files m).

(** The loops of [completedCount], [failedCount], [currentIndex],
    [indexOfFile], [transferredPaths]. *)
Definition count_if (p : FileEntry -> bool) (files : list FileEntry) : Z :=
  foldl (fun count e => if p e then count + 1 else count) 0 files.
Fixpoint first_index (p : FileEntry -> bool) (i : Z) (files : list FileEntry) : Z :=
  match files with
  | [] => -1
  | e :: files => if p e then i else first_index p (i + 1) files
  end.
Definition completedCount (m : TransferModel) : Z :=
  count_if (fun e => status_is (status e) FileDone) (m_files m).
Definition failedCount (m : TransferModel) : Z :=
  count_if (fun e => status_is (status e) FileFailed || status_is (status e) FileSkipped)
    (m_files m).
Definition currentIndex (m : TransferModel) : Z :=
  let i := first_index (fun e => status_is (status e) FileTransferring) 0 (m_files m) in
  if 0 <=? i then i
  else
    let j := first_index (fun e => status_is (status e) FileWaiting) 0 (m_files m) in
    if 0 <=? j then j
    else if is_empty (m_files m) then -1 else fileCount m - 1.
Definition indexOfFile (fileId : qstring) (m : TransferModel) : Z :=
  first_index (fun e => qeq (id e) fileId) 0 (m_files m).

(** [m_files.at(row)]; reading past the end is undefined in C++. *)
Definition entry_at (row : Z) (m : TransferModel) : option FileEntry :=
  if row <? 0 then None else m_files m !! Z.to_nat row.
Definition entry (row : Z) (m : TransferModel) : FileEntry := default FileEntry0 (entry_at row m).
Definition transferredPaths (m : TransferModel) : list qstring :=
  foldl (fun paths e =>
    if status_is (status e) FileDone && negb (is_empty (localPath e))
    then paths ++ [localPath e] else paths) [] (m_files m).

(** [progress()]: the fraction, clamped to one. *)
Definition progress (m : TransferModel) : Z * Z :=
  if m_totalBytes m <=? 0 then
    if is_empty (m_files m) then (0, 1) else (completedCount m, fileCount m)
  else if m_totalBytes m <? m_transferredBytes m then (1, 1)
  else (m_transferredBytes m, m_totalBytes m).
Definition secondsRemaining (m : TransferModel) : Z :=
  if (m_bytesPerSecond m <=? 0) || (m_totalBytes m <=? 0) || negb (state_is (m_state m) Active)
  then -1
  else
    let left := m_totalBytes m - m_transferredBytes m in
    if left <=? 0 then 0 else wrap32 (Z.quot left (m_bytesPerSecond m)).
Definition elapsedSeconds (t : Z) (m : TransferModel) : Z :=
  match m_clock m with Some start => wrap32 (Z.quot (t - start) 1000) | None => 0 end.

Inductive Role :=
| FileIdRole | FileNameRole | FileSizeRole | FileTypeRole | TransferredRole
| FileProgressRole | FileStatusRole | FileErrorRole | LocalPathRole.
Definition data_of (role : Role) (file : FileEntry) : variant :=
  match role with
  | FileIdRole => VString (id file)
  | FileNameRole => VString (fileName file)
  | FileSizeRole => VInt (size file)
  | FileTypeRole => VString (fileType file)
  | TransferredRole => VInt (transferred file)
  | FileProgressRole =>
      if 0 <? size file then VRatio (transferred file) (size file)
      else if status_is (status file) FileDone then VRatio 1 1 else VRatio 0 1
  | FileStatusRole => VString (fileStatusName (status file))
  | FileErrorRole => VString (error file)
  | LocalPathRole => VString (localPath file)
  end.
Definition data (row : Z) (role : Role) (m : TransferModel) : variant :=
  match entry_at row m with Some file => data_of role file | None => VInvalid end.

(** ** Operations *)

Definition recomputeTotals (m : TransferModel) : TransferModel :=
  m <| m_totalBytes := foldl (fun acc e => wrap64 (acc + size e)) 0 (m_files m) |>.

Definition begin (t : Z) (direction : Direction) (alias address deviceType fingerprint : qstring)
    (files : list FileEntry) (m : TransferModel) : TransferModel :=
  m <| m_files := files |> <| m_direction := direction |> <| m_peerAlias := alias |>
    <| m_peerAddress := address |> <| m_peerDeviceType := deviceType |>
    <| m_peerFingerprint := fingerprint |> <| m_errorText := [] |> <| m_destination := [] |>
    <| m_transferredBytes := 0 |> <| m_bytesPerSecond := 0 |> <| m_speedSampleBytes := 0 |>
    <| m_dirtyFirst := -1 |> <| m_dirtyLast := -1 |>
  |>> recomputeTotals
  |>> emit modelReset
  |>> set_field m_clock (fun _ => Some t)
  |>> set_field m_speedSampleMs (fun _ => 0)
  |>> emit peerChanged |>> emit progressChanged |>> emit destinationChanged.

(** The [dataChanged] half of [flush]. *)
Definition flush_rows (m : TransferModel) : TransferModel :=
  if 0 <=? m_dirtyFirst m
  then emit (dataChanged (m_dirtyFirst m) (m_dirtyLast m)) m
         <| m_dirtyFirst := -1 |> <| m_dirtyLast := -1 |>
  else m.
(** The speed half: a sample once per window. *)
Definition flush_speed (t : Z) (m : TransferModel) : TransferModel :=
  match m_clock m with
  | None => m
  | Some start =>
      let now := t - start in
      let span := now - m_speedSampleMs m in
      if SpeedWindowMs <=? span then
        let moved := wrap64 (m_transferredBytes m - m_speedSampleBytes m) in
        let sampled := Z.quot (wrap64 (moved * 1000)) span in
        m <| m_bytesPerSecond :=
               if 0 <? m_bytesPerSecond m
               then Z.quot (wrap64 (m_bytesPerSecond m + wrap64 (sampled * 2))) 3
               else sampled |>
          <| m_speedSampleMs := now |>
          <| m_speedSampleBytes := m_transferredBytes m |>
      else m
  end.
Definition flush (t : Z) (m : TransferModel) : TransferModel :=
  m |>> flush_rows |>> flush_speed t |>> emit progressChanged.

Definition stop_flush_timer (m : TransferModel) : TransferModel := m <| m_flushActive := false |>.
Definition flushTimeout (t : Z) (m : TransferModel) : TransferModel :=
  m |>> stop_flush_timer |>> flush t.

Definition setState (t : Z) (state : State) (error : qstring) (m : TransferModel) : TransferModel :=
  if state_is (m_state m) state && qeq (m_errorText m) error then m
  else
    let m := m <| m_state := state |> <| m_errorText := error |> in
    let m := if state_is state Active && bool_decide (m_clock m = None)
             then m <| m_clock := Some t |> else m in
    let m := if negb (state_is state Active)
             then (m |>> stop_flush_timer |>> flush t) <| m_bytesPerSecond := 0 |> else m in
    m |>> emit stateChanged |>> emit progressChanged.

Definition setDestination (path : qstring) (m : TransferModel) : TransferModel :=
  if qeq (m_destination m) path then m
  else m <| m_destination := path |> |>> emit destinationChanged.

Definition touch (row : Z) (m : TransferModel) : TransferModel :=
  let m := if (m_dirtyFirst m <? 0) || (row <? m_dirtyFirst m)
           then m <| m_dirtyFirst := row |> else m in
  let m := if m_dirtyLast m <? row then m <| m_dirtyLast := row |> else m in
  m <| m_flushActive := true |>.

(** The guard [row < 0 || row >= m_files.count()] of every setter. *)
Definition in_rows (row : Z) (m : TransferModel) : bool := (0 <=? row) && (row <? fileCount m).
Definition update_row (row : Z) (f : FileEntry -> FileEntry) (m : TransferModel) : TransferModel :=
  m <| m_files ::= alter f (Z.to_nat row) |>.

Definition setFileToken (row : Z) (tok : qstring) (m : TransferModel) : TransferModel :=
  if negb (in_rows row m) then m else update_row row (fun e => e <| token := tok |>) m.
Definition setFileLocalPath (row : Z) (path : qstring) (m : TransferModel) : TransferModel :=
  if negb (in_rows row m) then m
  else m |>> update_row row (fun e => e <| localPath := path |>) |>> touch row.
Definition setFileStatus (t row : Z) (st : FileStatus) (err : qstring) (m : TransferModel)
    : TransferModel :=
  if negb (in_rows row m) then m
  else
    let m := update_row row (fun e => e <| status := st |> <| error := err |>) m in
    let file := entry row m in
    let m := if status_is st FileDone && negb (transferred file =? size file)
             then m <| m_transferredBytes ::=
                        fun b => wrap64 (b + (size file - transferred file)) |>
                    |>> update_row row (fun e => e <| transferred := size file |>)
             else m in
    m |>> touch row |>> stop_flush_timer |>> flush t.
Definition setFileTransferred (row bytes : Z) (m : TransferModel) : TransferModel :=
  if negb (in_rows row m) then m
  else
    let file := entry row m in
    let bytes := if bytes <? 0 then 0 else bytes in
    let bytes := if (size file <? bytes) && (0 <? size file) then size file else bytes in
    if bytes =? transferred file then m
    else m <| m_transferredBytes ::= fun b => wrap64 (b + (bytes - transferred file)) |>
           |>> update_row row (fun e => e <| transferred := bytes |>)
           |>> touch row.

(** The calls the services and the timer make. *)
Inductive op :=
| OpBegin (t : Z) (d : Direction) (alias address deviceType fingerprint : qstring)
    (files : list FileEntry)
| OpState (t : Z) (s : State) (error : qstring)
| OpDestination (path : qstring)
| OpToken (row : Z) (tok : qstring)
| OpLocalPath (row : Z) (path : qstring)
| OpStatus (t row : Z) (st : FileStatus) (error : qstring)
| OpTransferred (row bytes : Z)
| OpFlush (t : Z).
Definition run_op (m : TransferModel) (o : op) : TransferModel :=
  match o with
  | OpBegin t d a b c f files => begin t d a b c f files m
  | OpState t s e => setState t s e m
  | OpDestination p => setDestination p m
  | OpToken r tok => setFileToken r tok m
  | OpLocalPath r p => setFileLocalPath r p m
  | OpStatus t r st e => setFileStatus t r st e m
  | OpTransferred r b => setFileTransferred r b m
  | OpFlush t => flushTimeout t m
  end.
(** Files as the services hand them to [begin]: nothing moved yet. *)
Definition fresh (e : FileEntry) : Prop := transferred e = 0 /\ 0 <= size e.
Definition op_ok (o : op) : Prop :=
  match o with OpBegin _ _ _ _ _ _ files => Forall fresh files | _ => True end.

(** ** Facts about the pieces *)

Lemma in_rows_spec row m :
  in_rows row m = true <-> 0 <= row /\ exists e, m_files m !! Z.to_nat row = Some e.
Proof.
  unfold in_rows, fileCount, len. rewrite andb_true_iff, Z.leb_le, Z.ltb_lt. split.
  - intros [? ?]. split; [done|]. apply lookup_lt_is_Some_2. lia.
  - intros [? Hs]. apply lookup_lt_is_Some_1 in Hs. lia.
Qed.
Lemma entry_lookup row m e :
  0 <= row -> m_files m !! Z.to_nat row = Some e -> entry row m = e.
Proof.
  intros Hr He. unfold entry, entry_at. rewrite (proj2 (Z.ltb_ge _ _)) by done. by rewrite He.
Qed.
Lemma flush_speed_frame t m :
  m_files (flush_speed t m) = m_files m
  /\ m_totalBytes (flush_speed t m) = m_totalBytes m
  /\ m_transferredBytes (flush_speed t m) = m_transferredBytes m
  /\ m_dirtyFirst (flush_speed t m) = m_dirtyFirst m
  /\ m_dirtyLast (flush_speed t m) = m_dirtyLast m
  /\ m_flushActive (flush_speed t m) = m_flushActive m
  /\ m_emitted (flush_speed t m) = m_emitted m
  /\ m_state (flush_speed t m) = m_state m
  /\ m_errorText (flush_speed t m) = m_errorText m.
Proof. unfold flush_speed. repeat case_match; done. Qed.

(** What [flush] leaves of the model, and the signals it adds. *)
Lemma flush_frame t m :
  m_files (flush t m) = m_files m
  /\ m_totalBytes (flush t m) = m_totalBytes m
  /\ m_transferredBytes (flush t m) = m_transferredBytes m
  /\ m_flushActive (flush t m) = m_flushActive m
  /\ m_state (flush t m) = m_state m
  /\ m_errorText (flush t m) = m_errorText m
  /\ (0 <= m_dirtyFirst m ->
      m_dirtyFirst (flush t m) = -1 /\ m_dirtyLast (flush t m) = -1
      /\ m_emitted (flush t m)
         = progressChanged :: dataChanged (m_dirtyFirst m) (m_dirtyLast m) :: m_emitted m)
  /\ (m_dirtyFirst m < 0 ->
      m_dirtyFirst (flush t m) = m_dirtyFirst m /\ m_dirtyLast (flush t m) = m_dirtyLast m
      /\ m_emitted (flush t m) = progressChanged :: m_emitted m).
Proof.
  unfold flush.
  destruct (flush_speed_frame t (flush_rows m)) as (H1&H2&H3&H4&H5&H6&H7&H8&H9).
  cbn. rewrite H1, H2, H3, H4, H5, H6, H7, H8, H9. unfold flush_rows.
  destruct (Z.leb_spec 0 (m_dirtyFirst m)); cbn; split_and!; try done; lia.
Qed.

(** ** The accounting invariant *)

Definition entry_ok (e : FileEntry) : Prop :=
  0 <= size e /\ 0 <= transferred e /\ (0 < size e -> transferred e <= size e).
Definition span_ok (m : TransferModel) : Prop :=
  (m_dirtyFirst m = -1 /\ m_dirtyLast m = -1)
  \/ (0 <= m_dirtyFirst m <= m_dirtyLast m /\ m_dirtyLast m < fileCount m).
(** A pending span has the timer that will flush it. *)
Definition dirty_ok (m : TransferModel) : Prop :=
  span_ok m /\ (0 <= m_dirtyFirst m -> m_flushActive m = true).
Record well_formed (m : TransferModel) : Prop := {
  wf_total : m_totalBytes m = wrap64 (zsum size (m_files m));
  wf_transferred : m_transferredBytes m = wrap64 (zsum transferred (m_files m));
  wf_entries : Forall entry_ok (m_files m);
  wf_dirty : dirty_ok m
}.

Lemma total_loop files acc :
  foldl (fun acc e => wrap64 (acc + size e)) (wrap64 acc) files = wrap64 (acc + zsum size files).
Proof.
  revert acc. induction files as [|e files IH]; intros acc; cbn.
  { unfold zsum. cbn. by rewrite Z.add_0_r. }
  rewrite wrap64_add_l, IH. unfold zsum. cbn. f_equal. lia.
Qed.

Lemma dirty_flush t m : span_ok m -> m_dirtyFirst (flush t m) = -1 /\ m_dirtyLast (flush t m) = -1.
Proof.
  intros Hd. destruct (flush_frame t m) as (_&_&_&_&_&_&Hp&Hn).
  destruct Hd as [[Hf Hl]|(Hr & _)].
  - destruct Hn as (-> & -> & _); [lia|]. lia.
  - destruct Hp as (-> & -> & _); lia.
Qed.

Lemma wf_flush t m :
  m_totalBytes m = wrap64 (zsum size (m_files m)) ->
  m_transferredBytes m = wrap64 (zsum transferred (m_files m)) ->
  Forall entry_ok (m_files m) ->
  m_dirtyFirst (flush t m) = -1 /\ m_dirtyLast (flush t m) = -1 -> well_formed (flush t m).
Proof.
  intros Ht Hx He Hd. destruct (flush_frame t m) as (H1&H2&H3&_).
  split; rewrite ?H1, ?H2, ?H3; [done..|]. split; [by left|lia].
Qed.

Lemma alter_rows row f m : fileCount (update_row row f m) = fileCount m.
Proof. unfold fileCount, len, update_row. cbn. by rewrite length_alter. Qed.

Lemma touch_dirty row m :
  (m_dirtyFirst m = -1 /\ m_dirtyLast m = -1 \/ 0 <= m_dirtyFirst m <= m_dirtyLast m) ->
  0 <= row ->
  m_dirtyFirst (touch row m) = (if m_dirtyFirst m <? 0 then row else Z.min row (m_dirtyFirst m))
  /\ m_dirtyLast (touch row m) = Z.max row (m_dirtyLast m)
  /\ m_flushActive (touch row m) = true
  /\ m_files (touch row m) = m_files m /\ m_emitted (touch row m) = m_emitted m
  /\ m_totalBytes (touch row m) = m_totalBytes m
  /\ m_transferredBytes (touch row m) = m_transferredBytes m.
Proof.
  intros Hd Hr. unfold touch.
  destruct (Z.ltb_spec (m_dirtyFirst m) 0), (Z.ltb_spec row (m_dirtyFirst m)); cbn;
    destruct (Z.ltb_spec (m_dirtyLast m) row); cbn; split_and!; try done; lia.
Qed.

Lemma touch_emitted row m : m_emitted (touch row m) = m_emitted m.
Proof. unfold touch. by repeat case_match. Qed.

Lemma wf_touch row m :
  m_totalBytes m = wrap64 (zsum size (m_files m)) ->
  m_transferredBytes m = wrap64 (zsum transferred (m_files m)) ->
  Forall entry_ok (m_files m) -> span_ok m -> in_rows row m = true ->
  well_formed (touch row m).
Proof.
  intros Ht Hx He Hd [Hr [e Hl]]%in_rows_spec.
  destruct (touch_dirty row m) as (H1&H2&H3&H4&H5&H6&H7); [destruct Hd; intuition lia|done|].
  split; rewrite ?H4, ?H6, ?H7; [done..|]. split; [right|by rewrite H3].
  unfold fileCount. rewrite H1, H2, H4. apply lookup_lt_Some in Hl.
  destruct Hd as [[-> ->]|(?&Hc)]; unfold fileCount, len in *; [cbn; lia|].
  rewrite (proj2 (Z.ltb_ge _ _)) by lia. lia.
Qed.

Lemma Forall_alter_lookup {A} (P : A -> Prop) f i (l : list A) :
  Forall P l -> (forall x, l !! i = Some x -> P (f x)) -> Forall P (alter f i l).
Proof.
  intros Hl Hf. apply Forall_lookup. intros j x. destruct (decide (i = j)) as [->|Hne].
  - rewrite list_lookup_alter_eq. destruct (l !! j) eqn:E; [|done]. cbn. intros [= <-]. by apply Hf.
  - rewrite list_lookup_alter_ne by done. by apply Forall_lookup_1.
Qed.

(** A row update that leaves the byte counts alone. *)
Lemma zsum_update {f : FileEntry -> Z} (g : FileEntry -> FileEntry) row m e :
  m_files m !! Z.to_nat row = Some e ->
  zsum f (m_files (update_row row g m)) = zsum f (m_files m) - f e + f (g e).
Proof. intros He. cbn. by apply zsum_alter. Qed.

Lemma wf_row_update row g m e :
  well_formed m -> 0 <= row -> m_files m !! Z.to_nat row = Some e ->
  size (g e) = size e -> transferred (g e) = transferred e ->
  let m' := update_row row g m in
  m_totalBytes m' = wrap64 (zsum size (m_files m'))
  /\ m_transferredBytes m' = wrap64 (zsum transferred (m_files m'))
  /\ Forall entry_ok (m_files m') /\ dirty_ok m' /\ in_rows row m' = true.
Proof.
  intros [Ht Hx He Hd] Hr Hl Hs Htr. cbv zeta.
  rewrite !(zsum_update g row m e) by done. rewrite Hs, Htr. split_and!.
  - cbn. rewrite Ht. f_equal. lia.
  - cbn. rewrite Hx. f_equal. lia.
  - cbn. apply Forall_alter_lookup; [done|]. intros x Hx'. simplify_eq.
    unfold entry_ok. rewrite Hs, Htr. by apply (Forall_lookup_1 _ _ _ _ He Hl).
  - unfold dirty_ok, span_ok. rewrite alter_rows. exact Hd.
  - unfold in_rows. rewrite alter_rows. apply in_rows_spec. eauto.
Qed.

(** One more step for the byte counter of a row. *)
Lemma wf_row_bytes row b g m e :
  well_formed m -> 0 <= row -> m_files m !! Z.to_nat row = Some e ->
  size (g e) = size e -> transferred (g e) = b -> 0 <= b -> (0 < size e -> b <= size e) ->
  let m' := update_row row g (m <| m_transferredBytes ::= fun x => wrap64 (x + (b - transferred e)) |>) in
  m_totalBytes m' = wrap64 (zsum size (m_files m'))
  /\ m_transferredBytes m' = wrap64 (zsum transferred (m_files m'))
  /\ Forall entry_ok (m_files m') /\ dirty_ok m' /\ in_rows row m' = true.
Proof.
  intros [Ht Hx He Hd] Hr Hl Hs Htr Hb Hbs. cbv zeta.
  set (m1 := m <| m_transferredBytes ::= _ |>).
  rewrite !(zsum_update g row m1 e) by done. rewrite Hs, Htr. split_and!.
  - cbn. rewrite Ht. f_equal. lia.
  - cbn. rewrite Hx, wrap64_add_l. f_equal. lia.
  - cbn. apply Forall_alter_lookup; [done|]. intros x Hx'. simplify_eq.
    unfold entry_ok. rewrite Hs. pose proof (Forall_lookup_1 _ _ _ _ He Hl) as (?&?&?).
    split_and!; [done|lia|lia].
  - unfold dirty_ok, span_ok. rewrite alter_rows. exact Hd.
  - unfold in_rows. rewrite alter_rows. apply in_rows_spec. eauto.
Qed.

Lemma wf_setFileStatus t row st err m : well_formed m -> well_formed (setFileStatus t row st err m).
Proof.
  intros Hwf. unfold setFileStatus. destruct (in_rows row m) eqn:Hin; cbn [negb]; [|done].
  apply in_rows_spec in Hin as [Hr [e He]].
  set (g := fun e : FileEntry => e <| status := st |> <| error := err |>).
  destruct (wf_row_update row g m e Hwf Hr He eq_refl eq_refl) as (H1&H2&H3&H4&H5).
  set (m1 := update_row row g m) in *.
  assert (He1 : m_files m1 !! Z.to_nat row = Some (g e)).
  { subst m1. cbn. by rewrite list_lookup_alter_eq, He. }
  rewrite (entry_lookup row m1 (g e)) by done.
  assert (Hd : well_formed m1) by by split.
  set (m2 := if _ && _ then _ else _).
  assert (Hm2 : m_totalBytes m2 = wrap64 (zsum size (m_files m2))
    /\ m_transferredBytes m2 = wrap64 (zsum transferred (m_files m2))
    /\ Forall entry_ok (m_files m2) /\ dirty_ok m2 /\ in_rows row m2 = true).
  { subst m2. destruct (_ && _) eqn:Eb; [|done].
    pose proof (Forall_lookup_1 _ _ _ _ H3 He1) as (Hsz&_&_). cbn in Hsz.
    apply (wf_row_bytes row (size (g e)) (fun x : FileEntry => x <| transferred := size (g e) |>) m1 (g e));
      cbn; try done; lia. }
  destruct Hm2 as (?&?&?&[??]&?).
  destruct (wf_touch row m2) as [Hw1 Hw2 Hw3 [Hw4 _]]; try done.
  apply wf_flush; [exact Hw1|exact Hw2|exact Hw3|]. apply dirty_flush. exact Hw4.
Qed.

Lemma wf_run_op m o : op_ok o -> well_formed m -> well_formed (run_op m o).
Proof.
  intros Ho Hwf. destruct o as [t d a b c f files|t s e|p|r tok|r p|t r st e|r b|t]; cbn [run_op].
  - assert (Hz : zsum transferred files = 0).
    { cbn in Ho. clear Hwf. induction Ho as [|x l [Hx _] _ IH]; [done|].
      unfold zsum in *. cbn. lia. }
    split; cbn.
    + exact (total_loop files 0).
    + by rewrite Hz.
    + eapply Forall_impl; [exact Ho|]. intros x [Hx ?]. unfold entry_ok. lia.
    + split; [by left|cbn; lia].
  - unfold setState. case_match; [done|]. destruct Hwf as [H1 H2 H3 H4].
    destruct (state_is s Active); cbn [andb negb].
    + case_match; by split.
    + set (m1 := m <| m_state := s |> <| m_errorText := e |>).
      destruct (wf_flush t (stop_flush_timer m1)) as [K1 K2 K3 [K4 K5]]; cbn; try done.
      apply dirty_flush. apply H4.
  - unfold setDestination. case_match; [done|]. by destruct Hwf; split.
  - unfold setFileToken. destruct (in_rows r m) eqn:Hin; cbn [negb]; [|done].
    apply in_rows_spec in Hin as [Hr [e He]].
    edestruct (wf_row_update r (fun e : FileEntry => e <| token := tok |>) m e)
      as (?&?&?&?&?); [done..|]. by split.
  - unfold setFileLocalPath. destruct (in_rows r m) eqn:Hin; cbn [negb]; [|done].
    apply in_rows_spec in Hin as [Hr [e He]].
    edestruct (wf_row_update r (fun e : FileEntry => e <| localPath := p |>) m e)
      as (?&?&?&[]&?); [done..|]. by apply wf_touch.
  - by apply wf_setFileStatus.
  - unfold setFileTransferred. destruct (in_rows r m) eqn:Hin; cbn [negb]; [|done].
    apply in_rows_spec in Hin as [Hr [e He]]. rewrite (entry_lookup r m e) by done.
    set (b1 := if b <? 0 then 0 else b).
    set (b2 := if _ && _ then _ else b1).
    case_match; [done|].
    edestruct (wf_row_bytes r b2 (fun x : FileEntry => x <| transferred := b2 |>) m e)
      as (?&?&?&[]&?); [done..| | |].
    + subst b2 b1. pose proof (Forall_lookup_1 _ _ _ _ (wf_entries _ Hwf) He) as (?&?&?).
      destruct (Z.ltb_spec b 0); case_match; lia.
    + subst b2. destruct (Z.ltb_spec (size e) b1), (Z.ltb_spec 0 (size e)); cbn; lia.
    + by apply wf_touch.
  - unfold flushTimeout. destruct Hwf as [H1 H2 H3 [H4 H5]]. apply wf_flush; [exact H1|exact H2|exact H3|].
    apply dirty_flush. exact H4.
Qed.

Lemma wf_run ops m : Forall op_ok ops -> well_formed m -> well_formed (foldl run_op m ops).
Proof.
  intros Ho. revert m. induction Ho as [|o ops Ho _ IH]; intros m Hm; [done|].
  by apply IH, wf_run_op.
Qed.
Lemma wf_initial : well_formed TransferModel0.
Proof. split; [done..|constructor|]. split; [by left|cbn; lia]. Qed.

(** C19: the byte counters never drift from the rows. After any sequence of
    calls, the totals the pages show are the sums over the files (exactly, as
    long as the sums fit the 64-bit counters), no row has moved more than its
    declared size, and rows waiting to be repainted lie within the list and
    have the flush timer running. *)
Theorem accounting ops :
  Forall op_ok ops ->
  let m := foldl run_op TransferModel0 ops in
  (in_int64 (zsum size (m_files m)) -> m_totalBytes m = zsum size (m_files m))
  /\ (in_int64 (zsum transferred (m_files m)) ->
      m_transferredBytes m = zsum transferred (m_files m))
  /\ Forall entry_ok (m_files m)
  /\ (0 <= m_dirtyFirst m ->
      m_dirtyFirst m <= m_dirtyLast m < fileCount m /\ m_flushActive m = true).
Proof.
  intros Ho. cbv zeta. destruct (wf_run ops _ Ho wf_initial) as [Ht Hx He [Hd Hf]].
  rewrite Ht, Hx. split_and!; auto using wrap64_id.
  intros Hpos. split; [|by apply Hf]. destruct Hd as [[? ?]|?]; lia.
Qed.

(** ** The pages' copy of the rows

    QML delegates repaint on [dataChanged] and rebuild on a reset. [view] is
    what they show; a token is never shown. *)
Definition displayed (e : FileEntry) : FileEntry := e <| token := [] |>.
Fixpoint repaint (first last i : Z) (files view : list FileEntry) : list FileEntry :=
  match files, view with
  | e :: files, v :: view =>
      (if (first <=? i) && (i <=? last) then displayed e else v)
      :: repaint first last (i + 1) files view
  | _, _ => view
  end.
Definition apply_signal (files : list FileEntry) (s : signal) (view : list FileEntry)
    : list FileEntry :=
  match s with
  | modelReset => map displayed files
  | dataChanged first last => repaint first last 0 files view
  | _ => view
  end.
(** One call, and the pages' reaction to the signals it emitted. *)
Definition run_view (mv : TransferModel * list FileEntry) (o : op)
    : TransferModel * list FileEntry :=
  let m := run_op (mv.1 <| m_emitted := [] |>) o in
  (m, foldr (apply_signal (m_files m)) mv.2 (m_emitted m)).

Lemma repaint_length first last i files view :
  List.length (repaint first last i files view) = List.length view.
Proof.
  revert i view. induction files as [|e files IH]; intros i [|v view]; cbn; try done.
  by rewrite IH.
Qed.
Lemma repaint_lookup first last i files view j e :
  List.length view = List.length files -> files !! j = Some e ->
  repaint first last i files view !! j
  = if (first <=? i + Z.of_nat j) && (i + Z.of_nat j <=? last) then Some (displayed e) else view !! j.
Proof.
  revert i view j. induction files as [|f files IH]; intros i [|v view] [|j]; cbn; try done.
  - intros _ [= ->]. rewrite Z.add_0_r. by case_match.
  - intros [= Hl] He. rewrite (IH (i + 1)) by done.
    by replace (i + 1 + Z.of_nat j) with (i + Z.of_nat (S j)) by lia.
Qed.

(** Every row outside the dirty span is shown as it is. *)
Definition coherent (m : TransferModel) (view : list FileEntry) : Prop :=
  List.length view = List.length (m_files m)
  /\ forall i e, m_files m !! i = Some e ->
       ~ (m_dirtyFirst m <= Z.of_nat i <= m_dirtyLast m) -> view !! i = Some (displayed e).

Definition shown (m : TransferModel) (view : list FileEntry) : list FileEntry :=
  foldr (apply_signal (m_files m)) view (m_emitted m).

Lemma coherent_flush t m view :
  m_emitted m = [] -> span_ok m -> coherent m view -> coherent (flush t m) (shown (flush t m) view).
Proof.
  intros He Hd [Hl Hv]. unfold shown, coherent.
  destruct (flush_frame t m) as (Hf&_&_&_&_&_&Hp&Hn). rewrite Hf.
  destruct (Z.le_gt_cases 0 (m_dirtyFirst m)) as [Hge|Hlt].
  - destruct (Hp Hge) as (-> & -> & ->). rewrite He. cbn.
    split; [by rewrite repaint_length|]. intros i e Hi _.
    rewrite (repaint_lookup _ _ _ _ _ _ e) by done. case_match eqn:E; [done|].
    apply Hv; [done|]. lia.
  - destruct (Hn Hlt) as (-> & -> & ->). rewrite He. cbn. done.
Qed.

Lemma coherent_row row g m view :
  (forall e, displayed (g e) = displayed e) -> coherent m view -> coherent (update_row row g m) view.
Proof.
  intros Hg [Hl Hv]. split; cbn; [by rewrite length_alter|]. intros i e.
  destruct (decide (Z.to_nat row = i)) as [->|Hne].
  - rewrite list_lookup_alter_eq. destruct (m_files m !! i) as [x|] eqn:E; [|done]. cbn.
    intros [= <-] Hd. rewrite Hg. by apply Hv.
  - rewrite list_lookup_alter_ne by done. apply Hv.
Qed.

(** Changes to one row stay coherent once the row is touched. *)
Record same_but (row : Z) (m m' : TransferModel) : Prop := {
  sb_first : m_dirtyFirst m' = m_dirtyFirst m;
  sb_last : m_dirtyLast m' = m_dirtyLast m;
  sb_len : List.length (m_files m') = List.length (m_files m);
  sb_rows : forall i, i <> Z.to_nat row -> m_files m' !! i = m_files m !! i;
  sb_emitted : m_emitted m' = m_emitted m
}.
Lemma same_but_row row g m m' : same_but row m m' -> same_but row m (update_row row g m').
Proof.
  intros [H1 H2 H3 H4 H5]. split; cbn; [done..| | |done].
  - by rewrite length_alter.
  - intros i Hi. rewrite list_lookup_alter_ne by done. by apply H4.
Qed.
Lemma same_but_refl row m : same_but row m m.
Proof. by split. Qed.

Lemma coherent_touch row m m' view :
  span_ok m -> 0 <= row -> coherent m view -> same_but row m m' -> coherent (touch row m') view.
Proof.
  intros Hd Hr [Hl Hv] [Hf Ht Hn Hs _].
  destruct (touch_dirty row m') as (H1&H2&_&H3&_);
    [rewrite Hf, Ht; destruct Hd; intuition lia|done|].
  unfold coherent. rewrite H1, H2, H3, Hf, Ht, Hn. split; [done|]. intros i e.
  destruct (decide (i = Z.to_nat row)) as [->|Hne].
  - intros _ Hx. exfalso. apply Hx. case_match; lia.
  - rewrite Hs by done. intros Hi Hx. apply Hv; [done|].
    destruct (Z.ltb_spec (m_dirtyFirst m) 0) as [?|?]; [|lia].
    destruct Hd as [[-> ->]|?]; lia.
Qed.

Lemma span_touch row m m' :
  span_ok m -> in_rows row m = true -> same_but row m m' -> span_ok (touch row m').
Proof.
  intros Hd [Hr [e He]]%in_rows_spec [Hf Ht Hn _ _]. apply lookup_lt_Some in He.
  destruct (touch_dirty row m') as (H1&H2&_&H3&_);
    [rewrite Hf, Ht; destruct Hd; intuition lia|done|].
  right. unfold fileCount, len. rewrite H1, H2, H3, Hf, Ht, Hn.
  destruct Hd as [[-> ->]|(?&Hc)]; [cbn; lia|]. unfold fileCount, len in Hc.
  rewrite (proj2 (Z.ltb_ge _ _)) by lia. lia.
Qed.

Lemma coherent_transport m m' view :
  m_files m' = m_files m -> m_dirtyFirst m' = m_dirtyFirst m -> m_dirtyLast m' = m_dirtyLast m ->
  coherent m view -> coherent m' view.
Proof. unfold coherent. by intros -> -> ->. Qed.

Lemma coherent_quiet m view :
  m_emitted m = [] -> coherent m view -> coherent m (shown m view).
Proof. unfold shown. by intros ->. Qed.
Lemma coherent_begin t d a b c f files m view :
  coherent (begin t d a b c f files m) (shown (begin t d a b c f files m) view).
Proof.
  split; cbn; [by rewrite length_map|].
  intros i e Hi _. by rewrite list_lookup_fmap, Hi.
Qed.
Lemma coherent_announce f m view :
  (forall m, m_files (f m) = m_files m /\ m_dirtyFirst (f m) = m_dirtyFirst m
             /\ m_dirtyLast (f m) = m_dirtyLast m /\ m_emitted (f m) = m_emitted m) ->
  coherent m (shown m view) ->
  let m' := emit progressChanged (emit stateChanged (f m)) in coherent m' (shown m' view).
Proof.
  intros Hf Hc. destruct (Hf m) as (H1&H2&H3&H4). cbv zeta.
  assert (Hs : shown (emit progressChanged (emit stateChanged (f m))) view = shown m view).
  { unfold shown. cbn. by rewrite H1, H4. }
  rewrite Hs. by apply (coherent_transport m).
Qed.
Lemma coherent_setState t s e m view :
  m_emitted m = [] -> span_ok m -> coherent m view ->
  coherent (setState t s e m) (shown (setState t s e m) view).
Proof.
  intros He Hd Hc. unfold setState. case_match; [by apply coherent_quiet|].
  set (m1 := m <| m_state := s |> <| m_errorText := e |>).
  set (m2 := if _ && _ then _ else m1).
  assert (Hm2 : m_emitted m2 = [] /\ span_ok m2 /\ coherent m2 view).
  { subst m2 m1. by case_match. }
  clearbody m2. destruct Hm2 as (He2&Hd2&Hc2). destruct (state_is s Active); cbn [negb].
  - apply (coherent_announce (fun m => m)); [done|by apply coherent_quiet].
  - apply (coherent_announce (fun m => m <| m_bytesPerSecond := 0 |>)); [done|].
    by apply coherent_flush.
Qed.
Lemma coherent_setFileLocalPath row p m view :
  m_emitted m = [] -> span_ok m -> coherent m view ->
  coherent (setFileLocalPath row p m) (shown (setFileLocalPath row p m) view).
Proof.
  intros He Hd Hc. unfold setFileLocalPath.
  destruct (in_rows row m) eqn:Hin; cbn [negb]; [|by apply coherent_quiet].
  pose proof (proj1 (in_rows_spec _ _) Hin) as [Hr _].
  set (m1 := update_row _ _ _).
  assert (Hs : same_but row m m1) by apply same_but_row, same_but_refl. clearbody m1.
  apply coherent_quiet; [|by apply (coherent_touch row m)].
  by rewrite (touch_emitted row m1), (sb_emitted _ _ _ Hs).
Qed.
Lemma coherent_setFileStatus t row st err m view :
  m_emitted m = [] -> span_ok m -> coherent m view ->
  coherent (setFileStatus t row st err m) (shown (setFileStatus t row st err m) view).
Proof.
  intros He Hd Hc. unfold setFileStatus.
  destruct (in_rows row m) eqn:Hin; cbn [negb]; [|by apply coherent_quiet].
  pose proof (proj1 (in_rows_spec _ _) Hin) as [Hr _].
  set (m1 := update_row _ _ m).
  assert (Hs : same_but row m m1) by apply same_but_row, same_but_refl. clearbody m1.
  set (m2 := if _ && _ then _ else m1).
  assert (Hs2 : same_but row m m2).
  { subst m2. case_match; [|done]. apply same_but_row. destruct Hs; by split. }
  clearbody m2. apply coherent_flush.
  - transitivity (m_emitted (touch row m2)); [done|].
    by rewrite touch_emitted, (sb_emitted _ _ _ Hs2).
  - exact (span_touch row m m2 Hd Hin Hs2).
  - exact (coherent_touch row m m2 view Hd Hr Hc Hs2).
Qed.
Lemma coherent_setFileTransferred row b m view :
  m_emitted m = [] -> span_ok m -> coherent m view ->
  coherent (setFileTransferred row b m) (shown (setFileTransferred row b m) view).
Proof.
  intros He Hd Hc. unfold setFileTransferred.
  destruct (in_rows row m) eqn:Hin; cbn [negb]; [|by apply coherent_quiet].
  pose proof (proj1 (in_rows_spec _ _) Hin) as [Hr _].
  case_match; [by apply coherent_quiet|].
  set (m2 := update_row row _ _).
  assert (Hs2 : same_but row m m2) by by apply same_but_row. clearbody m2.
  apply coherent_quiet; [|by apply (coherent_touch row m)].
  by rewrite (touch_emitted row m2), (sb_emitted _ _ _ Hs2).
Qed.

Lemma coherent_run_op m o view :
  m_emitted m = [] -> span_ok m -> coherent m view ->
  coherent (run_op m o) (shown (run_op m o) view).
Proof.
  intros He Hd Hc. destruct o; cbn [run_op].
  - by apply coherent_begin.
  - by apply coherent_setState.
  - unfold setDestination, shown. case_match; cbn; rewrite He; cbn; exact Hc.
  - unfold setFileToken. case_match; (apply coherent_quiet; [done|]); [done|by apply coherent_row].
  - by apply coherent_setFileLocalPath.
  - by apply coherent_setFileStatus.
  - by apply coherent_setFileTransferred.
  - by apply coherent_flush.
Qed.

Definition run_pages (ops : list op) : TransferModel * list FileEntry :=
  foldl run_view (TransferModel0, []) ops.

Lemma coherent_run ops m view :
  Forall op_ok ops -> well_formed m -> coherent m view ->
  let mv := foldl run_view (m, view) ops in
  well_formed mv.1 /\ coherent mv.1 mv.2.
Proof.
  intros Ho. revert m view. induction Ho as [|o ops Ho _ IH]; intros m view Hw Hc; [done|].
  cbn [foldl]. unfold run_view at 2. cbn [fst snd].
  assert (Hw' : well_formed (m <| m_emitted := [] |>)) by by destruct Hw; split.
  apply IH; [by apply wf_run_op|].
  apply coherent_run_op; [done|apply Hw'|exact Hc].
Qed.

(** C31: no repaint is lost. The model folds the changes of many rows into one
    [dataChanged] span, sent from a timer. Whatever calls are made, every row
    outside the pending span is displayed as it stands in the model; a pending
    span has the timer running; and once the timer has fired the pages show
    the model exactly. *)
Theorem pages_in_step ops t :
  Forall op_ok ops ->
  let '(m, view) := run_pages ops in
  (forall i e, m_files m !! i = Some e -> ~ (m_dirtyFirst m <= Z.of_nat i <= m_dirtyLast m) ->
     view !! i = Some (displayed e))
  /\ (0 <= m_dirtyFirst m -> m_flushActive m = true)
  /\ (let '(m', view') := run_pages (ops ++ [OpFlush t]) in view' = map displayed (m_files m')).
Proof.
  intros Ho. unfold run_pages.
  assert (Hc0 : coherent TransferModel0 []) by by split.
  pose proof (coherent_run ops _ _ Ho wf_initial Hc0) as Hrun. cbv zeta in Hrun.
  destruct (foldl run_view (TransferModel0, []) ops) as [m view] eqn:E.
  destruct Hrun as [Hw Hc]. cbn [fst snd] in *.
  split_and!; [apply Hc|apply Hw|].
  assert (Ho' : Forall op_ok (ops ++ [OpFlush t])) by (apply Forall_app; by repeat constructor).
  pose proof (coherent_run _ _ _ Ho' wf_initial Hc0) as Hrun'.
  rewrite foldl_snoc, E in Hrun' |- *.
  destruct (run_view (m, view) (OpFlush t)) as [m' view'] eqn:E'.
  destruct Hrun' as [_ [Hl Hv]]. cbn [fst snd] in *.
  assert (Hd : m_dirtyFirst m' = -1 /\ m_dirtyLast m' = -1).
  { apply (f_equal fst) in E'. cbn [run_view fst run_op] in E'. rewrite <- E'.
    apply dirty_flush. destruct Hw as [_ _ _ [Hs _]]. exact Hs. }
  apply list_eq. intros i. rewrite list_lookup_fmap.
  destruct (m_files m' !! i) as [e|] eqn:Ei; cbn.
  - apply Hv; [done|]. lia.
  - apply lookup_ge_None. rewrite Hl. by apply lookup_ge_None.
Qed.

(** ** When a session is over

    [onFileFinished] and the sender end a session once
    [completedCount + failedCount] reaches [fileCount]. *)
Definition settled (e : FileEntry) : bool :=
  status_is (status e) FileDone
  || (status_is (status e) FileFailed || status_is (status e) FileSkipped).

Lemma count_if_acc (p : FileEntry -> bool) files (acc : Z) :
  foldl (fun (count : Z) (e : FileEntry) => if p e then count + 1 else count) acc files
  = acc + count_if p files.
Proof.
  unfold count_if. revert acc. induction files as [|e files IH]; intros acc; cbn; [lia|].
  rewrite IH, (IH (if p e then _ else _)). destruct (p e); lia.
Qed.
Lemma count_if_cons p e files :
  count_if p (e :: files) = (if p e then 1 else 0) + count_if p files.
Proof. unfold count_if at 1. cbn [foldl]. rewrite count_if_acc. by destruct (p e). Qed.
Lemma count_if_range p files : 0 <= count_if p files <= len files.
Proof.
  induction files as [|e files IH]; [done|]. rewrite count_if_cons, len_cons.
  destruct (p e); lia.
Qed.
Lemma count_if_full p files : count_if p files = len files <-> Forall (fun e => p e = true) files.
Proof.
  induction files as [|e files IH]; [by split|].
  rewrite count_if_cons, len_cons, Forall_cons, <- IH. pose proof (count_if_range p files).
  destruct (p e); intuition (try done; lia).
Qed.
Lemma count_if_disjoint p q files :
  (forall e, p e = true -> q e = false) ->
  count_if p files + count_if q files = count_if (fun e => p e || q e) files.
Proof.
  intros Hd. induction files as [|e files IH]; [done|]. rewrite !count_if_cons, <- IH.
  specialize (Hd e). destruct (p e), (q e); cbn; intuition (try done; lia).
Qed.
Lemma settled_counts m :
  completedCount m + failedCount m = count_if settled (m_files m).
Proof.
  apply count_if_disjoint. intros e. unfold status_is. by destruct (status e).
Qed.

(** The end-of-session test [completedCount + failedCount >= fileCount]
    holds exactly when no row is waiting or transferring any more: a session
    neither ends early nor hangs on a row that has settled. *)
Theorem session_over_iff_settled m :
  fileCount m <= completedCount m + failedCount m <->
  Forall (fun e => status e = FileDone \/ status e = FileFailed \/ status e = FileSkipped) (m_files m).
Proof.
  rewrite settled_counts. unfold fileCount. pose proof (count_if_range settled (m_files m)).
  transitivity (count_if settled (m_files m) = len (m_files m)); [lia|].
  rewrite count_if_full. apply Forall_iff. intros e. unfold settled, status_is.
  destruct (status e); cbn; intuition done.
Qed.

(** Reading the totals: a fraction in [0, 1], and a non-negative estimate. *)
Lemma progress_fraction m :
  well_formed m -> in_int64 (zsum transferred (m_files m)) ->
  let '(num, den) := progress m in 0 <= num <= den /\ 0 < den.
Proof.
  intros Hw Hi. unfold progress. destruct (Z.leb_spec (m_totalBytes m) 0).
  - unfold completedCount. pose proof (count_if_range (fun e => status_is (status e) FileDone) (m_files m)).
    unfold fileCount. destruct (m_files m); cbn [is_empty] in *; [lia|]. rewrite len_cons in *.
    pose proof (len_nonneg l). lia.
  - destruct (Z.ltb_spec (m_totalBytes m) (m_transferredBytes m)); [lia|].
    destruct Hw as [_ Hx He _]. rewrite wrap64_id in Hx by done.
    assert (0 <= zsum transferred (m_files m)); [|lia]. apply zsum_nonneg.
    eapply Forall_impl; [exact He|]. intros e. unfold entry_ok. lia.
Qed.

(** The sizes come from the other device: two of them can carry the total past
    the 64-bit counter, and the pages then see a negative total. *)
Example total_overflows :
  m_totalBytes (begin 0 Receiving [] [] [] []
    [FileEntry0 <| size := int64_max |>; FileEntry0 <| size := 1 |>] TransferModel0) = int64_min.
Proof. vm_compute. reflexivity. Qed.

Definition sample_ops : list op :=
  [OpBegin 0 Sending (lit "Swift Otter") [] [] []
     [FileEntry0 <| id := lit "a" |> <| size := 10 |>; FileEntry0 <| id := lit "b" |> <| size := 4 |>];
   OpState 0 Active []; OpStatus 0 0 FileTransferring []; OpTransferred 0 7;
   OpStatus 1 0 FileDone []; OpTransferred 1 9].
Lemma sample_ops_ok : Forall op_ok sample_ops.
Proof.
  repeat (constructor; [try done|]); [|constructor]. repeat (constructor; [split; done|]). constructor.
Defined.
Lemma accounting_witness :
  let m := foldl run_op TransferModel0 sample_ops in
  m_totalBytes m = 14 /\ m_transferredBytes m = 14 /\ m_dirtyFirst m = 1 /\ m_flushActive m = true.
Proof.
  pose proof (accounting sample_ops sample_ops_ok) as (H1 & H2 & _ & H4). cbv zeta.
  rewrite H1, H2 by (vm_compute; split; discriminate).
  destruct H4 as [_ ->]; [vm_compute; discriminate|]. vm_compute. repeat split.
Defined.
Lemma pages_in_step_witness :
  (run_pages sample_ops).2 !! 0%nat = Some (displayed (entry 0 (run_pages sample_ops).1))
  /\ (run_pages (sample_ops ++ [OpFlush 2])).2
     = map displayed (m_files (run_pages (sample_ops ++ [OpFlush 2])).1).
Proof.
  pose proof (pages_in_step sample_ops 2 sample_ops_ok) as Hp. split.
  - vm_compute. reflexivity.
  - exact (proj2 (proj2 Hp)).
Defined.

End TransferModel.
