(* ===== verification/TransferFacts.v ===== *)
(** * TransferFacts: what the services rely on of the transfer model

    How the statuses of the rows move under each operation, and that their
    declared sizes do not. *)
From S2P Require Import Prelude TransferModel.

Module TransferFacts.
Import TransferModel.

Definition statuses (m : TransferModel) : list FileStatus :=
  map status (m_files m).
Lemma map_alter {A B} (f : A -> B) (g : A -> A) h (l : list A) i :
  (forall x, f (g x) = h (f x)) -> map f (alter g i l) = alter h i (map f l).
Proof.
  intros Hf. revert i. induction l as [|x l IH]; intros [|i]; cbn; [done..| |].
  - by rewrite Hf.
  - f_equal. apply IH.
Qed.
Lemma flush_files t m : m_files (flush t m) = m_files m.
Proof. apply flush_frame. Qed.
Lemma touch_files row m : m_files (touch row m) = m_files m.
Proof. unfold touch. cbv zeta. by repeat case_match. Qed.
Lemma setState_files t st e m :
  m_files (setState t st e m) = m_files m.
Proof.
  unfold setState. cbv zeta. destruct (_ && _); [done|].
  match goal with |- context [negb (state_is st Active)] =>
    destruct (state_is st Active) end; cbn [negb andb].
  - by case_bool_decide.
  - cbn -[flush]. by rewrite flush_files.
Qed.
Lemma setFileStatus_statuses t i st m :
  st <> FileDone -> (i < List.length (m_files m))%nat ->
  statuses (setFileStatus t (Z.of_nat i) st [] m) = <[i := st]> (statuses m).
Proof.
  intros Hst Hi. unfold setFileStatus.
  assert (in_rows (Z.of_nat i) m = true) as ->.
  { unfold in_rows, fileCount, len. lia. }
  assert (status_is st FileDone = false) as -> by (by destruct st).
  cbn [negb andb]. unfold statuses. cbn -[flush touch alter].
  rewrite flush_files. cbn -[touch alter]. rewrite touch_files. cbn -[alter]. rewrite Nat2Z.id.
  rewrite (map_alter _ _ (fun _ => st)) by done. apply list_eq. intros j.
  destruct (decide (i = j)) as [->|Hn].
  - rewrite list_lookup_alter_eq, list_lookup_insert_eq by (by rewrite length_map).
    assert (is_Some (map status (m_files m) !! j)) as [x ->]; [|done].
    apply lookup_lt_is_Some. by rewrite length_map.
  - by rewrite list_lookup_alter_ne, list_lookup_insert_ne.
Qed.
Lemma setState_state t st e m : m_state (setState t st e m) = st.
Proof.
  unfold setState. cbv zeta. destruct (_ && _) eqn:E.
  - apply andb_true_iff in E as [E _]. unfold state_is in E.
    by destruct (m_state m), st.
  - match goal with |- context [negb (state_is st Active)] =>
      destruct (state_is st Active) end; cbn [negb andb].
    + by case_bool_decide.
    + cbn -[flush].
      match goal with |- context [flush t ?x] =>
        destruct (flush_frame t x) as (_ & _ & _ & _ & Hs & _) end.
      by rewrite Hs.
Qed.
(** The status of one row. *)
Definition row_status (r : Z) (m : TransferModel) : option FileStatus :=
  statuses m !! Z.to_nat r.
Lemma row_status_files r m m' : m_files m = m_files m' -> row_status r m = row_status r m'.
Proof. unfold row_status, statuses. by intros ->. Qed.
Lemma row_status_update r i f m :
  0 <= r -> 0 <= i ->
  row_status r (update_row i f m)
  = if decide (i = r) then (fun e => status (f e)) <$> m_files m !! Z.to_nat i
    else row_status r m.
Proof.
  intros Hr Hi. unfold row_status, statuses, update_row. cbn -[alter].
  rewrite !list_lookup_fmap. case_decide as Hn.
  - subst. rewrite list_lookup_alter_eq. by destruct (m_files m !! Z.to_nat r).
  - by rewrite list_lookup_alter_ne by lia.
Qed.
Lemma setFileStatus_row t i st err m r :
  0 <= r ->
  row_status r (setFileStatus t i st err m)
  = if in_rows i m && bool_decide (i = r) then Some st else row_status r m.
Proof.
  intros Hr. unfold setFileStatus.
  destruct (in_rows i m) eqn:Hin; cbn [negb andb]; [|done].
  apply in_rows_spec in Hin as [Hi [e He]].
  cbv zeta. set (m1 := update_row i _ m).
  assert (Hm1 : row_status r m1 = if bool_decide (i = r) then Some st else row_status r m).
  { unfold m1. rewrite row_status_update by done. case_decide; [rewrite bool_decide_true by done|by rewrite bool_decide_false].
    by rewrite He. }
  assert (He1 : exists e1, m_files m1 !! Z.to_nat i = Some e1 /\ status e1 = st).
  { unfold m1, update_row. cbn -[alter]. rewrite list_lookup_alter_eq, He. by eexists. }
  clearbody m1. rewrite (row_status_files r _ _ (flush_files _ _)).
  match goal with |- row_status r (?m' |>> touch i |>> stop_flush_timer) = _ =>
    transitivity (row_status r m'); [apply row_status_files; exact (touch_files i m')|] end.
  destruct (_ && _); [|done]. rewrite row_status_update by done.
  case_decide as Hn; [|exact Hm1]. destruct He1 as (e1 & He1 & Hs).
  match goal with |- context [m_files ?x] =>
    change (m_files x) with (m_files m1) end.
  rewrite He1. cbn. by rewrite Hs.
Qed.
Lemma setFileLocalPath_row i p m r : 0 <= r -> row_status r (setFileLocalPath i p m) = row_status r m.
Proof.
  intros Hr. unfold setFileLocalPath. destruct (in_rows i m) eqn:Hin; [|done].
  apply in_rows_spec in Hin as [Hi [e He]]. cbn [negb].
  rewrite (row_status_files r _ _ (touch_files i _)), row_status_update by done.
  case_decide as Hn; [|done]. subst. unfold row_status, statuses. rewrite list_lookup_fmap, He. done.
Qed.

Lemma setFileStatus_count t i st err m :
  List.length (m_files (setFileStatus t i st err m)) = List.length (m_files m).
Proof.
  unfold setFileStatus. destruct (negb _); [done|]. cbv zeta. rewrite flush_files. cbn [m_files stop_flush_timer set_field].
  match goal with |- context [touch i ?m'] => change (m_files (stop_flush_timer (touch i m'))) with (m_files (touch i m')) end.
  rewrite touch_files. destruct (_ && _); unfold update_row; cbn -[alter]; by rewrite ?length_alter.
Qed.

(** ** The declared sizes *)

Definition sizes (m : TransferModel) : list Z := map size (m_files m).
Lemma sizes_files m m' : m_files m = m_files m' -> sizes m = sizes m'.
Proof. unfold sizes. by intros ->. Qed.
Lemma size_entry r m : size (entry r m) = default 0 (if r <? 0 then None else sizes m !! Z.to_nat r).
Proof.
  unfold entry, entry_at, sizes. destruct (r <? 0); [done|]. rewrite list_lookup_fmap.
  by destruct (m_files m !! Z.to_nat r).
Qed.
Lemma size_entry_nonneg r m : Forall (fun n => 0 <= n) (sizes m) -> 0 <= size (entry r m).
Proof.
  intros Hm. rewrite size_entry. destruct (r <? 0); [done|].
  destruct (sizes m !! Z.to_nat r) as [n|] eqn:E; [|done]. by eapply Forall_lookup_1 in E.
Qed.
Lemma sizes_update row f m : (forall e, size (f e) = size e) -> sizes (update_row row f m) = sizes m.
Proof.
  intros Hf. unfold sizes, update_row. cbn -[alter]. rewrite (map_alter _ _ (fun n => n)) by done.
  apply list_eq. intros j. destruct (decide (Z.to_nat row = j)) as [<-|Hn].
  - rewrite list_lookup_alter_eq. by destruct (_ !! _).
  - by rewrite list_lookup_alter_ne.
Qed.
Lemma sizes_setState t st e m : sizes (setState t st e m) = sizes m.
Proof. apply sizes_files, setState_files. Qed.
Lemma sizes_setDestination p m : sizes (setDestination p m) = sizes m.
Proof. unfold setDestination. by destruct (qeq _ _). Qed.
Lemma sizes_flushTimeout t m : sizes (flushTimeout t m) = sizes m.
Proof. exact (sizes_files _ _ (flush_files t (stop_flush_timer m))). Qed.
Lemma sizes_touch r m : sizes (touch r m) = sizes m.
Proof. apply sizes_files, touch_files. Qed.
Lemma sizes_setFileToken r tok m : sizes (setFileToken r tok m) = sizes m.
Proof. unfold setFileToken. destruct (negb _); [done|]. by apply sizes_update. Qed.
Lemma sizes_setFileLocalPath r p m : sizes (setFileLocalPath r p m) = sizes m.
Proof. unfold setFileLocalPath. destruct (negb _); [done|]. rewrite sizes_touch. by apply sizes_update. Qed.
Lemma sizes_setFileTransferred r b m : sizes (setFileTransferred r b m) = sizes m.
Proof.
  unfold setFileTransferred. destruct (negb _); [done|]. cbv zeta. destruct (_ =? _); [done|].
  rewrite sizes_touch. match goal with |- sizes (update_row _ _ ?m1) = _ => transitivity (sizes m1) end;
    [by apply sizes_update|done].
Qed.
Lemma sizes_setFileStatus t r st err m : sizes (setFileStatus t r st err m) = sizes m.
Proof.
  unfold setFileStatus. destruct (negb _); [done|]. cbv zeta. set (m1 := update_row r _ m).
  assert (Hm1 : sizes m1 = sizes m) by by apply sizes_update.
  rewrite (sizes_files _ _ (flush_files _ _)).
  match goal with |- sizes (?m' |>> touch r |>> stop_flush_timer) = _ =>
    transitivity (sizes m'); [exact (sizes_touch r m')|] end.
  destruct (_ && _); [|exact Hm1].
  match goal with |- sizes (update_row _ _ ?m2) = _ => transitivity (sizes m2) end;
    [by apply sizes_update|exact Hm1].
Qed.

End TransferFacts.
