(* ===== verification/HttpConnection.v ===== *)
(** * HttpConnection: the HTTP/1.1 request reader of src/src/httpserver.cpp

    One socket, one request. A connection lives in a world [W] that also holds
    whatever its signals are connected to; the functions here are the methods,
    on the connection number [i] at clock reading [t]. What the socket does to
    us are the events: data, a timer, a disconnection.

    Not modelled: [flush()]; and a socket that disconnects inside
    [disconnectFromHost()] is the event that follows. *)
From S2P Require Import Prelude Json Crypto.

(** [QUrl::fromEncoded] with [QUrlQuery], and [QByteArray::toLongLong(ok, base)],
    [None] when [ok] comes back false. *)
Class HttpText := {
  url_path : bytes -> qstring;
  url_query : bytes -> list (qstring * qstring);
  toLongLong : Z -> bytes -> option Z
}.

Module HttpConnection.

Definition MaxHeadSize : Z := 32 * 1024.
Definition MaxBufferedBody : Z := 16 * 1024 * 1024.
Definition IdleTimeoutMs : Z := 60 * 1000.
Definition DrainTimeoutMs : Z := 5 * 1000.
Definition HeaderDeadlineMs : Z := 30 * 1000.

Definition reasonPhrase (status : Z) : bytes :=
  if status =? 100 then lit "Continue"
  else if status =? 200 then lit "OK"
  else if status =? 204 then lit "No Content"
  else if status =? 400 then lit "Bad Request"
  else if status =? 401 then lit "Unauthorized"
  else if status =? 403 then lit "Forbidden"
  else if status =? 404 then lit "Not Found"
  else if status =? 405 then lit "Method Not Allowed"
  else if status =? 408 then lit "Request Timeout"
  else if status =? 409 then lit "Conflict"
  else if status =? 413 then lit "Payload Too Large"
  else if status =? 429 then lit "Too Many Requests"
  else if status =? 431 then lit "Request Header Fields Too Large"
  else if status =? 500 then lit "Internal Server Error"
  else lit "Unknown".

Definition crlf : bytes := [13; 10].

(** A single-shot [QTimer]; [deadline] is set while it is active. *)
Record Timer := mkTimer { interval : Z; deadline : option Z }.
Definition start (t : Z) (tm : Timer) : Timer := mkTimer (interval tm) (Some (t + interval tm)).
Definition start_with (t ms : Z) (tm : Timer) : Timer := mkTimer ms (Some (t + ms)).
Definition stop (tm : Timer) : Timer := mkTimer (interval tm) None.

Inductive State := ReadingHeaders | ReadingBody | Responded.
Inductive ChunkState := ChunkSize | ChunkData | ChunkCrlf | ChunkTrailer | ChunkDone.
Inductive SocketState := Connected | Closing | Unconnected.
#[export] Instance State_eq_dec : EqDecision State.
Proof. solve_decision. Defined.
#[export] Instance ChunkState_eq_dec : EqDecision ChunkState.
Proof. solve_decision. Defined.
#[export] Instance SocketState_eq_dec : EqDecision SocketState.
Proof. solve_decision. Defined.
Definition state_is (a b : State) : bool := bool_decide (a = b).

Inductive signal := headersReady | requestReady | bodyProgress (received total : Z) | closed.

Record Conn := mkConn {
  s_state : SocketState;
  s_written : list bytes;              (* write() calls, oldest first *)
  m_idleTimer : Timer;
  m_headerDeadline : Timer;
  m_state : State;
  m_buffer : bytes;
  m_method : qstring;
  m_path : qstring;
  m_query : gmap qstring qstring;
  m_headers : gmap bytes bytes;
  m_extraHeaders : list (bytes * bytes);
  m_body : bytes;
  m_sink : option Z;                   (* the device the body is streamed to *)
  m_maxBodyBytes : Z;
  m_contentLength : Z;
  m_bodyReceived : Z;
  m_chunked : bool;
  m_chunkState : ChunkState;
  m_chunkRemaining : Z;
  m_trailerBytes : Z;
  m_bodyComplete : bool;
  m_peerAddress : qstring;
  m_peerCertificate : option bytes;
  m_closedEmitted : bool;
  m_emitted : list signal              (* newest first *)
}.
#[export] Instance eta_Conn : Settable Conn := fun r =>
  mkConn (s_state r) (s_written r) (m_idleTimer r) (m_headerDeadline r) (m_state r) (m_buffer r)
    (m_method r) (m_path r) (m_query r) (m_headers r) (m_extraHeaders r) (m_body r) (m_sink r)
    (m_maxBodyBytes r) (m_contentLength r) (m_bodyReceived r) (m_chunked r) (m_chunkState r)
    (m_chunkRemaining r) (m_trailerBytes r) (m_bodyComplete r) (m_peerAddress r)
    (m_peerCertificate r) (m_closedEmitted r) (m_emitted r).

(** The constructor, on an accepted socket. *)
Definition peer_text (address : qstring) : qstring :=
  if starts_with (lit "::ffff:") address then qmid 7 address else address.
Definition Conn0 (t : Z) (address : qstring) (certificate : option bytes) : Conn :=
  mkConn Connected [] (start t (mkTimer IdleTimeoutMs None)) (start t (mkTimer HeaderDeadlineMs None))
    ReadingHeaders [] [] [] ∅ ∅ [] [] None (-1) 0 0 false ChunkSize 0 0 false
    (peer_text address) certificate false [].

(** ** Accessors *)
Definition query (key : qstring) (c : Conn) : qstring := default [] (m_query c !! key).
Definition hasQuery (key : qstring) (c : Conn) : bool := bool_decide (is_Some (m_query c !! key)).
Definition header_value (name : bytes) (c : Conn) : bytes := default [] (m_headers c !! name).
Definition header (name : bytes) (c : Conn) : bytes := header_value (latin1_lower name) c.
Definition hasResponded (c : Conn) : bool := state_is (m_state c) Responded.
Definition jsonBody `{JsonText} (c : Conn) : jobject := json_object (m_body c).

(** ** Answering *)

Definition strip_newlines (s : bytes) : bytes := remove_char 10 (remove_char 13 s).
Definition addHeader (name value : bytes) (c : Conn) : Conn :=
  c <| m_extraHeaders ::= fun l => l ++ [(strip_newlines name, strip_newlines value)] |>.

Definition extra_lines (extra : list (bytes * bytes)) : bytes :=
  foldl (fun response nv => response ++ nv.1 ++ lit ": " ++ nv.2 ++ crlf) [] extra.
Definition render (status : Z) (payload contentType : bytes) (extra : list (bytes * bytes)) : bytes :=
  let response := lit "HTTP/1.1 " ++ number status ++ lit " " ++ reasonPhrase status ++ crlf in
  let response := if negb (is_empty contentType)
                  then response ++ lit "Content-Type: " ++ contentType ++ crlf else response in
  let response := response ++ lit "Content-Length: " ++ number (len payload) ++ crlf in
  let response := response ++ extra_lines extra in
  let response := response ++ lit "Access-Control-Allow-Origin: *" ++ crlf in
  let response := response ++ lit "Access-Control-Allow-Methods: GET, POST, OPTIONS" ++ crlf in
  let response := response ++ lit "Access-Control-Allow-Headers: Content-Type" ++ crlf in
  let response := response ++ lit "Connection: close" ++ crlf ++ crlf in
  response ++ payload.

Definition respond (t status : Z) (payload contentType : bytes) (c : Conn) : Conn :=
  if state_is (m_state c) Responded then c
  else
    let c := c <| m_state := Responded |> <| m_idleTimer ::= stop |> in
    if negb (bool_decide (s_state c = Connected)) then c
    else
      let c := c <| s_written ::= fun l => l ++ [render status payload contentType (m_extraHeaders c)] |> in
      if m_bodyComplete c then c <| s_state := Closing |>       (* disconnectFromHost() *)
      else c <| m_idleTimer ::= start_with t DrainTimeoutMs |>.
Definition json_type : bytes := lit "application/json".
(** [respond(status)] with its default arguments. *)
Definition respond_ (t status : Z) (c : Conn) : Conn := respond t status [] json_type c.
Definition fail (t status : Z) (c : Conn) : Conn := respond_ t status c.
Definition respondJson `{JsonText} (t status : Z) (object : jobject) (c : Conn) : Conn :=
  respond t status (to_json (JObject object)) json_type c.

Definition streamBodyTo (t sink maxBytes : Z) (c : Conn) : Conn :=
  let c := c <| m_sink := Some sink |> <| m_maxBodyBytes := maxBytes |> in
  if (0 <=? m_maxBodyBytes c) && (m_maxBodyBytes c <? m_contentLength c) then fail t 413 c else c.

(** ** The head *)

Section Parse.
Context `{QtText, HttpText}.

(** One header line: [None] when it is skipped. *)
Definition split_header (line : bytes) : option (bytes * bytes) :=
  match index_of [58] (trimmed line) with
  | None | Some O => None
  | Some colon => Some (latin1_lower (trimmed (take colon (trimmed line))),
                        trimmed (drop (S colon) (trimmed line)))
  end.
(** The loop over the header lines; [None] when two of them disagree. *)
Fixpoint parse_lines (lines : list bytes) (headers : gmap bytes bytes)
    : bool * gmap bytes bytes :=
  match lines with
  | [] => (true, headers)
  | line :: lines =>
      match split_header line with
      | None => parse_lines lines headers
      | Some (name, value) =>
          match headers !! name with
          | Some other => if negb (qeq other value) then (false, headers)
                          else parse_lines lines (<[name := value]> headers)
          | None => parse_lines lines (<[name := value]> headers)
          end
      end
  end.

Definition parseHead (t : Z) (head : bytes) (c : Conn) : bool * Conn :=
  match split_on 10 head with
  | [] => (false, fail t 400 c)
  | first :: lines =>
      match split_on 32 (trimmed first) with
      | method :: target :: _ =>
          let c := c <| m_method := q_upper method |> <| m_path := url_path target |>
                     <| m_query ::= fun q => foldl (fun q kv => <[kv.1 := kv.2]> q) q (url_query target) |> in
          let '(ok, headers) := parse_lines lines (m_headers c) in
          let c := c <| m_headers := headers |> in
          if negb ok then (false, fail t 400 c)
          else
            let c := c <| m_headerDeadline ::= stop |> in
            let c := c <| m_chunked := contains_sub (lit "chunked")
                            (latin1_lower (header_value (lit "transfer-encoding") c)) |> in
            if m_chunked c then (true, c <| m_contentLength := -1 |>)
            else
              let declared := toLongLong 10 (header_value (lit "content-length") c) in
              (true, c <| m_contentLength :=
                         match declared with
                         | Some n => if 0 <? n then n else 0
                         | None => 0
                         end |>)
      | _ => (false, fail t 400 c)
      end
  end.
End Parse.

(** ** The world a connection lives in *)

Class HttpWorld (W : Type) := {
  conn : Z -> W -> Conn;
  set_conn : Z -> Conn -> W -> W;
  sink_write : Z -> bytes -> W -> Z * W;               (* QIODevice::write *)
  on_headersReady : Z -> Z -> W -> W;                  (* clock, connection *)
  on_requestReady : Z -> Z -> W -> W;
  on_bodyProgress : Z -> Z -> Z -> Z -> W -> W;
  on_closed : Z -> Z -> W -> W
}.

Section Reading.
Context {W : Type} `{HttpWorld W} `{QtText, HttpText}.

Definition upd (i : Z) (f : Conn -> Conn) (w : W) : W := set_conn i (f (conn i w)) w.
Definition emit (s : signal) (c : Conn) : Conn := c <| m_emitted ::= cons s |>.

(** Whether to go on, and the world. *)
Definition deliver (t i : Z) (data : bytes) (w : W) : bool * W :=
  let c := conn i w in
  if is_empty data then (true, w)
  else
    let '(ok, w) :=
      match m_sink c with
      | Some sink =>
          if (0 <=? m_maxBodyBytes c) && (m_maxBodyBytes c <? m_bodyReceived c + len data)
          then (false, upd i (fail t 413) w)
          else let '(n, w) := sink_write sink data w in
               if n =? len data then (true, w) else (false, upd i (fail t 500) w)
      | None =>
          if MaxBufferedBody <? len (m_body c) + len data
          then (false, upd i (fail t 413) w)
          else (true, upd i (fun c => c <| m_body ::= fun b => b ++ data |>) w)
      end in
    if negb ok then (false, w)
    else
      let w := upd i (fun c => c <| m_bodyReceived ::= fun n => n + len data |>) w in
      let c := conn i w in
      let w := upd i (emit (bodyProgress (m_bodyReceived c) (m_contentLength c))) w in
      (true, on_bodyProgress t i (m_bodyReceived c) (m_contentLength c) w).

Definition finishBody (t i : Z) (w : W) : W :=
  if m_bodyComplete (conn i w) then w
  else
    let w := upd i (fun c => c <| m_bodyComplete := true |> <| m_idleTimer ::= stop |>
                               <| m_buffer := [] |> |>> emit requestReady) w in
    on_requestReady t i w.

(** The loop of the identity-coded body. *)
Fixpoint plain_loop (fuel : nat) (t i : Z) (w : W) : bool * W :=
  match fuel with
  | O => (true, w)
  | S fuel =>
      let c := conn i w in
      if (m_bodyReceived c <? m_contentLength c) && negb (is_empty (m_buffer c))
      then
        let take := Z.min (m_contentLength c - m_bodyReceived c) (len (m_buffer c)) in
        let data := qleft take (m_buffer c) in
        let w := upd i (fun c => c <| m_buffer ::= qmid take |>) w in
        let '(ok, w) := deliver t i data w in
        if negb ok then (false, w) else plain_loop fuel t i w
      else (true, w)
  end.

(** One turn of the chunked loop; true when it goes round again. *)
Definition chunk_step (t i : Z) (w : W) : bool * W :=
  let c := conn i w in
  match m_chunkState c with
  | ChunkSize =>
      match index_of crlf (m_buffer c) with
      | None => (false, if MaxHeadSize <? len (m_buffer c) then upd i (fail t 400) w else w)
      | Some eol =>
          let sizeLine := take eol (m_buffer c) in
          let w := upd i (fun c => c <| m_buffer ::= drop (eol + 2) |>) w in
          let sizeLine := match index_of [59] sizeLine with
                          | Some extension => take extension sizeLine
                          | None => sizeLine
                          end in
          match toLongLong 16 (trimmed sizeLine) with
          | None => (false, upd i (fun c => c <| m_chunkRemaining := 0 |> |>> fail t 400) w)
          | Some n =>
              if n <? 0 then (false, upd i (fun c => c <| m_chunkRemaining := n |> |>> fail t 400) w)
              else (true, upd i (fun c => c <| m_chunkRemaining := n |>
                     <| m_chunkState := if n =? 0 then ChunkTrailer else ChunkData |>) w)
          end
      end
  | ChunkData =>
      if is_empty (m_buffer c) then (false, w)
      else
        let take := Z.min (m_chunkRemaining c) (len (m_buffer c)) in
        let data := qleft take (m_buffer c) in
        let w := upd i (fun c => c <| m_buffer ::= qmid take |>
                                   <| m_chunkRemaining ::= fun n => n - take |>) w in
        let '(ok, w) := deliver t i data w in
        if negb ok then (false, w)
        else (true, if m_chunkRemaining (conn i w) =? 0
                    then upd i (fun c => c <| m_chunkState := ChunkCrlf |>) w else w)
  | ChunkCrlf =>
      if len (m_buffer c) <? 2 then (false, w)
      else (true, upd i (fun c => c <| m_buffer ::= drop 2 |> <| m_chunkState := ChunkSize |>) w)
  | ChunkTrailer =>
      match index_of crlf (m_buffer c) with
      | None => (false, w)
      | Some eol =>
          let w := upd i (fun c => c <| m_trailerBytes ::= fun n => n + Z.of_nat eol + 2 |>) w in
          if MaxHeadSize <? m_trailerBytes (conn i w) then (false, upd i (fail t 431) w)
          else
            let w := upd i (fun c => c <| m_buffer ::= drop (eol + 2) |>) w in
            if Nat.eqb eol 0
            then
              let w := upd i (fun c => c <| m_chunkState := ChunkDone |>
                                         <| m_contentLength := m_bodyReceived c |>) w in
              (false, finishBody t i w)
            else (true, w)
      end
  | ChunkDone => (false, w)
  end.
Fixpoint chunk_loop (fuel : nat) (t i : Z) (w : W) : W :=
  match fuel with
  | O => w
  | S fuel => let '(again, w) := chunk_step t i w in if again then chunk_loop fuel t i w else w
  end.
(** Every turn takes at least one byte off the buffer or moves on to the
    state that waits for the next. *)
Definition consumeChunkedBody (t i : Z) (w : W) : W :=
  chunk_loop (List.length (m_buffer (conn i w)) + 2) t i w.

Definition consumeBody (t i : Z) (w : W) : W :=
  let c := conn i w in
  if negb (state_is (m_state c) ReadingBody) || m_bodyComplete c then w
  else if m_chunked c then consumeChunkedBody t i w
  else
    let '(ok, w) := plain_loop (List.length (m_buffer c) + 1) t i w in
    if negb ok then w
    else
      let c := conn i w in
      if m_contentLength c <=? m_bodyReceived c then finishBody t i w else w.

Definition continue_line : bytes := lit "HTTP/1.1 100 Continue" ++ crlf ++ crlf.
Definition options : qstring := lit "OPTIONS".

(** ** Events *)

Definition onReadyRead (t i : Z) (data : bytes) (w : W) : W :=
  let w := upd i (fun c => c <| m_idleTimer ::= start t |>) w in
  let c := conn i w in
  if state_is (m_state c) Responded || m_bodyComplete c then w
  else
    let w := upd i (fun c => c <| m_buffer ::= fun b => b ++ data |>) w in
    let c := conn i w in
    if state_is (m_state c) ReadingHeaders
    then
      match index_of (crlf ++ crlf) (m_buffer c) with
      | None => if MaxHeadSize <? len (m_buffer c) then upd i (fail t 431) w else w
      | Some stop =>
          let head := take stop (m_buffer c) in
          let w := upd i (fun c => c <| m_buffer ::= drop (stop + 4) |>) w in
          let '(ok, c) := parseHead t head (conn i w) in
          let w := set_conn i c w in
          if negb ok then w
          else
            let w := upd i (fun c => c <| m_state := ReadingBody |>) w in
            if qeq (m_method (conn i w)) options then upd i (respond t 204 [] []) w
            else
              let w := upd i (emit headersReady) w in
              let w := on_headersReady t i w in
              let c := conn i w in
              if negb (state_is (m_state c) ReadingBody) then w
              else
                let w := if qeq (latin1_lower (header_value (lit "expect") c)) (lit "100-continue")
                         then upd i (fun c => c <| s_written ::= fun l => l ++ [continue_line] |>) w
                         else w in
                consumeBody t i w
      end
    else consumeBody t i w.

Definition onDisconnected (t i : Z) (w : W) : W :=
  let c := conn i w in
  if m_closedEmitted c then w
  else
    let w := upd i (fun c => c <| s_state := Unconnected |> <| m_closedEmitted := true |>
                               <| m_state := Responded |> |>> emit closed) w in
    on_closed t i w.
(** [abort()] reports the disconnection at once. *)
Definition abort (t i : Z) (w : W) : W :=
  if bool_decide (s_state (conn i w) = Unconnected) then w else onDisconnected t i w.

Definition onIdleTimeout (t i : Z) (w : W) : W :=
  let w := upd i (fun c => c <| m_idleTimer ::= stop |>) w in
  if state_is (m_state (conn i w)) Responded then abort t i w else upd i (fail t 408) w.
Definition onHeaderDeadline (t i : Z) (w : W) : W :=
  let w := upd i (fun c => c <| m_headerDeadline ::= stop |>) w in
  if state_is (m_state (conn i w)) ReadingHeaders then upd i (fail t 408) w else w.

(** What can happen to a connection. A timer fires only when it is due. *)
Inductive event := Data (t : Z) (data : bytes) | IdleFires (t : Z) | HeaderFires (t : Z) | Gone (t : Z).
Definition due (t : Z) (tm : Timer) : bool :=
  match deadline tm with Some d => d <=? t | None => false end.
Definition handle (i : Z) (w : W) (e : event) : W :=
  let c := conn i w in
  if m_closedEmitted c then w              (* deleted *)
  else match e with
       | Data t data => onReadyRead t i data w
       | IdleFires t => if due t (m_idleTimer c) then onIdleTimeout t i w else w
       | HeaderFires t => if due t (m_headerDeadline c) then onHeaderDeadline t i w else w
       | Gone t => onDisconnected t i w
       end.
End Reading.
End HttpConnection.
