(* ===== verification/HttpFacts.v ===== *)
(** * What HttpConnection guarantees

    Theorems about the request reader, against any world whose handlers only
    use the public methods of a connection ([HttpWorldLaws]). *)
From S2P Require Import Prelude Json Crypto HttpConnection.
Import HttpConnection.

(** ** The methods open to a handler *)

(** Text that cannot end a line of the response. *)
Definition one_line (s : bytes) : Prop := Forall (fun c => c <> 13 /\ c <> 10) s.

(** What a handler may do to a connection, at clock reading [t]: add headers
    and answer; [prepares] adds [streamBodyTo], legal from [headersReady]. *)
Inductive answers (t : Z) (c : Conn) : Conn -> Prop :=
| ans_refl : answers t c c
| ans_header name value c' : answers t c c' -> answers t c (addHeader name value c')
| ans_respond status payload contentType c' :
    one_line contentType -> answers t c c' -> answers t c (respond t status payload contentType c').
Inductive prepares (t : Z) (c : Conn) : Conn -> Prop :=
| prep_answers c' : answers t c c' -> prepares t c c'
| prep_stream sink maxBytes c' c'' :
    prepares t c c' -> answers t (streamBodyTo t sink maxBytes c') c'' -> prepares t c c''.

Class HttpWorldLaws (W : Type) `{HttpWorld W} := {
  conn_set_eq i c w : conn i (set_conn i c w) = c;
  conn_set_ne i j c w : i <> j -> conn j (set_conn i c w) = conn j w;
  sink_write_conn s d j w : conn j (sink_write s d w).2 = conn j w;
  bodyProgress_conn t i r n j w : conn j (on_bodyProgress t i r n w) = conn j w;
  headersReady_self t i w : prepares t (conn i w) (conn i (on_headersReady t i w));
  headersReady_other t i j w : i <> j -> answers t (conn j w) (conn j (on_headersReady t i w));
  requestReady_api t i j w : answers t (conn j w) (conn j (on_requestReady t i w));
  closed_api t i j w : answers t (conn j w) (conn j (on_closed t i w))
}.

(** ** The life of a connection *)

Definition signal_is (s : signal) (k : signal) : bool :=
  match s, k with
  | headersReady, headersReady | requestReady, requestReady | closed, closed => true
  | _, _ => false
  end.
Definition emissions (k : signal) (c : Conn) : nat :=
  List.length (List.filter (signal_is k) (m_emitted c)).

Definition extra_ok (extra : list (bytes * bytes)) : Prop :=
  Forall (fun nv => one_line nv.1 /\ one_line nv.2) extra.
Definition is_response (r : bytes) : Prop :=
  exists status payload contentType extra,
    r = render status payload contentType extra /\ one_line contentType /\ extra_ok extra.

(** The socket's output: an interim line at most, then a response at most. *)
Definition output_ok (c : Conn) : Prop :=
  exists interim response,
    s_written c = interim ++ response
    /\ (interim = [] \/ interim = [continue_line])
    /\ (response = [] \/ exists r, response = [r] /\ is_response r)
    /\ (m_state c <> Responded -> response = [])
    /\ (m_state c = ReadingHeaders -> interim = []).
(** What has been taken of the body: within the ceiling of the device it goes
    to, or of the buffer. *)
Definition account (c : Conn) : Prop :=
  match m_sink c with
  | None => m_bodyReceived c = len (m_body c) /\ len (m_body c) <= MaxBufferedBody
  | Some _ => m_body c = [] /\ 0 <= m_bodyReceived c
              /\ (0 <= m_maxBodyBytes c -> m_bodyReceived c <= m_maxBodyBytes c)
  end
  /\ (m_state c = ReadingHeaders -> m_bodyReceived c = 0).
Record conn_ok (c : Conn) : Prop := {
  co_output : output_ok c;
  co_request : emissions requestReady c = (if m_bodyComplete c then 1 else 0)%nat;
  co_headers : (emissions headersReady c <= 1)%nat
               /\ (m_state c = ReadingHeaders -> emissions headersReady c = 0%nat);
  co_closed : emissions closed c = (if m_closedEmitted c then 1 else 0)%nat;
  co_body : m_state c = ReadingHeaders -> m_bodyComplete c = false;
  co_extra : extra_ok (m_extraHeaders c);
  co_account : account c
}.

Lemma state_is_spec a b : state_is a b = true <-> a = b.
Proof. apply bool_decide_eq_true. Qed.
Lemma state_is_false a b : state_is a b = false <-> a <> b.
Proof. apply bool_decide_eq_false. Qed.

(** An update that leaves the life of the connection alone. *)
Record quiet (f : Conn -> Conn) : Prop := {
  q_written c : s_written (f c) = s_written c;
  q_state c : m_state (f c) = m_state c;
  q_complete c : m_bodyComplete (f c) = m_bodyComplete c;
  q_closed c : m_closedEmitted (f c) = m_closedEmitted c;
  q_extra c : m_extraHeaders (f c) = m_extraHeaders c;
  q_sink c : m_sink (f c) = m_sink c;
  q_max c : m_maxBodyBytes (f c) = m_maxBodyBytes c;
  q_received c : m_bodyReceived (f c) = m_bodyReceived c;
  q_body c : m_body (f c) = m_body c;
  q_emitted c k : emissions k (f c) = emissions k c
}.
Lemma quiet_ok f c : quiet f -> conn_ok c -> conn_ok (f c).
Proof.
  intros [K1 K2 K3 K4 K6 L1 L2 L3 L4 K5] [J1 J2 J3 J4 J5 J6 J7].
  split; rewrite ?K1, ?K2, ?K3, ?K4, ?K5, ?K6; try done.
  - unfold output_ok. by rewrite K1, K2.
  - unfold account. by rewrite L1, L2, L3, L4, K2.
Qed.
Ltac solve_quiet := split; intros []; done.

(** [respond], the frame: what it leaves alone and what it writes. *)
Lemma respond_cases t st p ct c :
  let c' := respond t st p ct c in
  (m_state c = Responded /\ c' = c)
  \/ (m_state c <> Responded /\ m_state c' = Responded
      /\ m_bodyComplete c' = m_bodyComplete c /\ m_closedEmitted c' = m_closedEmitted c
      /\ m_emitted c' = m_emitted c /\ m_extraHeaders c' = m_extraHeaders c
      /\ m_buffer c' = m_buffer c /\ m_body c' = m_body c /\ m_sink c' = m_sink c
      /\ m_bodyReceived c' = m_bodyReceived c /\ m_maxBodyBytes c' = m_maxBodyBytes c
      /\ s_written c' = s_written c ++ (if bool_decide (s_state c = Connected)
                                        then [render st p ct (m_extraHeaders c)] else [])).
Proof.
  cbv zeta. unfold respond. destruct (state_is (m_state c) Responded) eqn:E.
  - left. by apply state_is_spec in E.
  - right. apply state_is_false in E. split; [done|].
    destruct c; cbn. case_bool_decide; cbn; [destruct m_bodyComplete0; cbn; split_and!; done|].
    rewrite app_nil_r. split_and!; done.
Qed.
Lemma respond_ok t st p ct c : one_line ct -> conn_ok c -> conn_ok (respond t st p ct c).
Proof.
  intros Hct [(interim & resp & Hw & Hi & Hr & Hn & Hh) J2 [J3 J3'] J4 J5 J6 J7].
  destruct (respond_cases t st p ct c)
    as [[_ ->]|(Hs & Hs' & Hb & Hc & He & Hx & _ & Hbo & Hsi & Hre & Hma & Hw')].
  - split; try done. by exists interim, resp.
  - specialize (Hn Hs). subst resp. rewrite app_nil_r in Hw.
    assert (Hem : forall k, emissions k (respond t st p ct c) = emissions k c).
    { intros k. unfold emissions. by rewrite He. }
    split; rewrite ?Hem, ?Hb, ?Hc, ?Hx; try done;
      [|split; [done|by rewrite Hs']|by rewrite Hs'
       |unfold account; rewrite Hsi, Hbo, Hre, Hma, Hs'; split; [apply J7|done]].
    rewrite Hw in Hw'. eexists interim, _. split_and!; [exact Hw'|done| | |].
    + case_bool_decide; [right|by left]. eexists. split; [done|]. by repeat eexists.
    + by rewrite Hs'.
    + by rewrite Hs'.
Qed.
Lemma strip_one_line s : one_line (strip_newlines s).
Proof.
  unfold strip_newlines, remove_char, one_line. apply Forall_forall. intros c Hc.
  apply list_elem_of_In, filter_In in Hc as [Hc K1]. apply filter_In in Hc as [_ K2]. lia.
Qed.
Lemma addHeader_ok n v c : conn_ok c -> conn_ok (addHeader n v c).
Proof.
  intros [J1 J2 J3 J4 J5 J6 J7]. split; try done. unfold addHeader. cbn.
  apply Forall_app. split; [done|]. constructor; [|done]. split; apply strip_one_line.
Qed.
Lemma json_type_one_line : one_line json_type.
Proof. by apply (bool_decide_unpack _). Qed.
Lemma answers_ok t c c' : answers t c c' -> conn_ok c -> conn_ok c'.
Proof.
  induction 1 as [|n v c' _ IH|s p ct c' Hct _ IH]; intros Hc; [done|..].
  - by apply addHeader_ok, IH.
  - by apply respond_ok, IH.
Qed.
Lemma fail_ok t st c : conn_ok c -> conn_ok (fail t st c).
Proof. unfold fail, respond_. apply respond_ok, json_type_one_line. Qed.
(** [streamBodyTo]: the device is set, and a length past the ceiling fails. *)
Lemma streamBodyTo_cases t s n c :
  exists c1, c1 = c <| m_sink := Some s |> <| m_maxBodyBytes := n |>
    /\ streamBodyTo t s n c = (if (0 <=? n) && (n <? m_contentLength c) then fail t 413 c1 else c1).
Proof. eexists. split; [reflexivity|]. by destruct c. Qed.
Lemma streamBodyTo_ok t s n c :
  m_bodyReceived c = 0 -> conn_ok c -> conn_ok (streamBodyTo t s n c).
Proof.
  intros Hz [J1 J2 J3 J4 J5 J6 J7]. destruct (streamBodyTo_cases t s n c) as (c1 & Hc1 & ->).
  assert (Hok : conn_ok c1); [|destruct ((0 <=? n) && _); [by apply fail_ok|done]].
  subst c1. split; try done. unfold account in *. cbn. rewrite Hz in *.
  destruct J7 as [J7 _]. split; [|done]. destruct (m_sink c); [by destruct J7 as [-> _]|].
  destruct J7 as [J7 _]. split_and!; [|lia|lia]. destruct (m_body c); [done|].
  rewrite len_cons in J7. pose proof (len_nonneg l). lia.
Qed.
Lemma answers_received t c c' : answers t c c' -> m_bodyReceived c' = m_bodyReceived c.
Proof.
  induction 1 as [|n v c' _ IH|s p ct c' _ _ IH]; [done|done|].
  by destruct (respond_cases t s p ct c') as [[_ ->]|(_ & _ & _ & _ & _ & _ & _ & _ & _ & -> & _)].
Qed.
Lemma fail_answers t st c : answers t c (fail t st c).
Proof. unfold fail, respond_. apply ans_respond; [apply json_type_one_line|apply ans_refl]. Qed.
Lemma stream_received t s n c : m_bodyReceived (streamBodyTo t s n c) = m_bodyReceived c.
Proof.
  destruct (streamBodyTo_cases t s n c) as (c1 & Hc1 & ->).
  transitivity (m_bodyReceived c1); [|by subst].
  destruct (_ && _); [|done]. apply (answers_received t), fail_answers.
Qed.
Lemma fail_responded t st c : m_state (fail t st c) = Responded.
Proof.
  unfold fail, respond_.
  by destruct (respond_cases t st [] json_type c) as [[Hr ->]|(_ & Hr & _)].
Qed.
Lemma prepares_ok t c c' :
  prepares t c c' -> m_bodyReceived c = 0 -> conn_ok c -> conn_ok c' /\ m_bodyReceived c' = 0.
Proof.
  induction 1 as [c' Ha|s n c' c'' _ IH Ha]; intros Hz Hc.
  - split; [by eapply answers_ok|]. by rewrite (answers_received _ _ _ Ha).
  - destruct (IH Hz Hc) as [Hc' Hz']. split; [|by rewrite (answers_received _ _ _ Ha), stream_received].
    eapply answers_ok; [exact Ha|]. by apply streamBodyTo_ok.
Qed.
(** A handler that did not answer left the state and the output alone. *)
Lemma answers_silent t c c' :
  answers t c c' -> m_state c' <> Responded ->
  m_state c' = m_state c /\ s_written c' = s_written c.
Proof.
  induction 1 as [|n v c' _ IH|s p ct c' _ _ IH]; intros Hs; [done|by apply IH|].
  destruct (respond_cases t s p ct c') as [[_ Heq]|(_ & Hs' & _)]; [|done].
  rewrite Heq in *. by apply IH.
Qed.
Lemma prepares_silent t c c' :
  prepares t c c' -> m_state c' <> Responded ->
  m_state c' = m_state c /\ s_written c' = s_written c.
Proof.
  induction 1 as [c' Ha|s n c' c'' _ IH Ha]; intros Hs; [by eapply answers_silent|].
  destruct (answers_silent _ _ _ Ha Hs) as [H1 H2]. rewrite H1, H2.
  destruct (streamBodyTo_cases t s n c') as (c1 & -> & Hc1). rewrite Hc1 in H1 |- *.
  case_match; [by rewrite H1, fail_responded in Hs|].
  apply IH. by rewrite H1 in Hs.
Qed.

Section Facts.
Context {W : Type} `{HttpWorldLaws W} `{QtText, HttpText}.

Lemma conn_upd_eq i f w : conn i (upd i f w) = f (conn i w).
Proof. apply conn_set_eq. Qed.
Lemma conn_upd_ne i j f w : i <> j -> conn j (upd i f w) = conn j w.
Proof. intros. by apply conn_set_ne. Qed.

Definition all_ok (w : W) : Prop := forall j, conn_ok (conn j w).
Lemma all_ok_set i c w : conn_ok c -> all_ok w -> all_ok (set_conn i c w).
Proof.
  intros Hc Hw j. destruct (decide (i = j)) as [<-|Hne]; [by rewrite conn_set_eq|].
  by rewrite conn_set_ne.
Qed.
Lemma all_ok_upd i f w : (conn_ok (conn i w) -> conn_ok (f (conn i w))) -> all_ok w -> all_ok (upd i f w).
Proof. intros Hf Hw. apply all_ok_set; [apply Hf, Hw|done]. Qed.
Lemma all_ok_quiet i f w : quiet f -> all_ok w -> all_ok (upd i f w).
Proof. intros Hf. apply all_ok_upd. by apply quiet_ok. Qed.
Lemma all_ok_fail i t st w : all_ok w -> all_ok (upd i (fail t st) w).
Proof. apply all_ok_upd, fail_ok. Qed.

(** Delivering a block, for the connection itself: the bytes are accepted, or
    the request is failed. *)
Definition advance (d : bytes) (c : Conn) : Conn :=
  let c1 := match m_sink c with Some _ => c | None => c <| m_body ::= fun b => b ++ d |> end in
  let c2 := c1 <| m_bodyReceived ::= fun n => n + len d |> in
  emit (bodyProgress (m_bodyReceived c2) (m_contentLength c2)) c2.
(** Whether a block fits what the connection may take. *)
Definition fits (d : bytes) (c : Conn) : bool :=
  match m_sink c with
  | Some _ => negb ((0 <=? m_maxBodyBytes c) && (m_maxBodyBytes c <? m_bodyReceived c + len d))
  | None => negb (MaxBufferedBody <? len (m_body c) + len d)
  end.
Lemma deliver_cases t i d w :
  d <> [] ->
  let '(ok, w') := deliver t i d w in
  (forall j, i <> j -> conn j w' = conn j w)
  /\ if ok
     then conn i w' = advance d (conn i w) /\ fits d (conn i w) = true
     else exists st, conn i w' = fail t st (conn i w).
Proof.
  intros Hd. unfold deliver. rewrite (proj2 (is_empty_false d) Hd). unfold fits, advance.
  destruct (m_sink (conn i w)) as [sk|] eqn:Es.
  - destruct ((0 <=? _) && _) eqn:Ef; cbn [negb].
    { split; [by intros; apply conn_upd_ne|]. eexists. apply conn_upd_eq. }
    pose proof (fun j => sink_write_conn sk d j w) as Hsw.
    destruct (sink_write sk d w) as [n w']. cbn in Hsw.
    destruct (n =? len d); cbn [negb].
    + split.
      * intros j Hj. by rewrite bodyProgress_conn, !conn_upd_ne, Hsw.
      * by rewrite bodyProgress_conn, !conn_upd_eq, Hsw.
    + split; [by intros; rewrite conn_upd_ne|]. eexists. by rewrite conn_upd_eq, Hsw.
  - destruct (MaxBufferedBody <? _) eqn:Ef; cbn [negb].
    { split; [by intros; apply conn_upd_ne|]. eexists. apply conn_upd_eq. }
    split.
    + intros j Hj. by rewrite bodyProgress_conn, !conn_upd_ne.
    + by rewrite bodyProgress_conn, !conn_upd_eq.
Qed.
Lemma deliver_nil t i w : deliver t i [] w = (true, w).
Proof. done. Qed.

(** What taking a block leaves of the connection. *)
Lemma advance_frame d c :
  let c' := advance d c in
  s_written c' = s_written c /\ m_state c' = m_state c /\ m_bodyComplete c' = m_bodyComplete c
  /\ m_closedEmitted c' = m_closedEmitted c /\ m_extraHeaders c' = m_extraHeaders c
  /\ (forall k, emissions k c' = emissions k c)
  /\ m_sink c' = m_sink c /\ m_maxBodyBytes c' = m_maxBodyBytes c
  /\ m_bodyReceived c' = m_bodyReceived c + len d
  /\ m_body c' = (match m_sink c with Some _ => m_body c | None => m_body c ++ d end).
Proof.
  cbv zeta. unfold advance. destruct (m_sink c) eqn:E; split_and!; try done; by intros [].
Qed.
Lemma advance_state d c : m_state (advance d c) = m_state c.
Proof. apply advance_frame. Qed.
Lemma advance_ok d c :
  m_state c = ReadingBody -> fits d c = true -> conn_ok c -> conn_ok (advance d c).
Proof.
  intros Hst Hf [J1 J2 J3 J4 J5 J6 J7].
  destruct (advance_frame d c) as (K1&K2&K3&K4&K5&K6&K7&K8&K9&K10).
  split; rewrite ?K2, ?K3, ?K4, ?K5, ?K6; try done.
  - unfold output_ok. by rewrite K1, K2.
  - unfold account. rewrite K2, K7, K8, K9, K10. split; [|by rewrite Hst].
    destruct J7 as [J7 _]. unfold fits in Hf. pose proof (len_nonneg d).
    destruct (m_sink c).
    + destruct J7 as (?&?&?). split_and!; [done|lia|lia].
    + rewrite len_app. lia.
Qed.
Lemma all_ok_change i w w' :
  (forall j, i <> j -> conn j w' = conn j w) -> (conn_ok (conn i w) -> conn_ok (conn i w')) ->
  all_ok w -> all_ok w'.
Proof.
  intros Hj Hi Hw j. destruct (decide (i = j)) as [<-|Hne]; [apply Hi, Hw|]. rewrite Hj by done.
  apply Hw.
Qed.
Lemma all_ok_deliver t i d w :
  m_state (conn i w) = ReadingBody -> all_ok w -> all_ok (deliver t i d w).2.
Proof.
  intros Hs. destruct d as [|b d]; [done|]. pose proof (deliver_cases t i (b :: d) w ltac:(done)) as Hd.
  destruct (deliver t i (b :: d) w) as [ok w']. destruct Hd as [Hj Hi]. cbn [snd].
  apply (all_ok_change i); [done|]. intros Hc. destruct ok.
  - destruct Hi as [-> ?]. by apply advance_ok.
  - destruct Hi as [st ->]. by apply fail_ok.
Qed.

(** [requestReady] is emitted once, and only by a request being read. *)
Definition complete (c : Conn) : Conn :=
  c <| m_bodyComplete := true |> <| m_idleTimer ::= HttpConnection.stop |> <| m_buffer := [] |>
    |>> emit requestReady.
Lemma complete_ok c :
  m_state c = ReadingBody -> m_bodyComplete c = false -> conn_ok c -> conn_ok (complete c).
Proof.
  intros Hs Hb [J1 J2 J3 J4 J5 J6 J7]. split; [..|exact J6|exact J7].
  - destruct J1 as (x & y & Hx). by exists x, y.
  - change (S (emissions requestReady c) = 1%nat). by rewrite J2, Hb.
  - exact J3.
  - exact J4.
  - intros Hh. change (m_state c = ReadingHeaders) in Hh. congruence.
Qed.
Lemma all_ok_finishBody t i w :
  m_state (conn i w) = ReadingBody -> all_ok w -> all_ok (finishBody t i w).
Proof.
  intros Hs Hw. unfold finishBody. destruct (m_bodyComplete (conn i w)) eqn:Hb; [done|].
  fold complete. set (w1 := upd i _ w).
  assert (Hw1 : all_ok w1) by by apply all_ok_upd; [apply complete_ok|].
  intros j. eapply answers_ok; [apply requestReady_api|apply Hw1].
Qed.

Lemma deliver_reading t i d w :
  m_state (conn i w) = ReadingBody ->
  let '(ok, w') := deliver t i d w in ok = true -> m_state (conn i w') = ReadingBody.
Proof.
  intros Hs. destruct d as [|b d]; [by rewrite deliver_nil|].
  pose proof (deliver_cases t i (b :: d) w ltac:(done)) as Hd.
  destruct (deliver t i (b :: d) w) as [[] w']; [|done]. intros _. destruct Hd as (_ & -> & _).
  by rewrite advance_state.
Qed.
Lemma plain_loop_ok n t i w :
  m_state (conn i w) = ReadingBody -> all_ok w ->
  let '(ok, w') := plain_loop n t i w in
  all_ok w' /\ (ok = true -> m_state (conn i w') = ReadingBody).
Proof.
  revert w. induction n as [|n IH]; intros w Hs Hw; [done|]. cbn [plain_loop].
  destruct ((m_bodyReceived _ <? _) && _); [|done].
  set (k := Z.min _ _). set (w1 := upd i _ w).
  assert (Hw1 : all_ok w1) by (apply all_ok_quiet; [solve_quiet|done]).
  assert (Hs1 : m_state (conn i w1) = ReadingBody) by (unfold w1; by rewrite conn_upd_eq).
  pose proof (all_ok_deliver t i (qleft k (m_buffer (conn i w))) w1 Hs1 Hw1) as Hd.
  pose proof (deliver_reading t i (qleft k (m_buffer (conn i w))) w1 Hs1) as Hr.
  destruct (deliver _ _ _ w1) as [[] w2]; cbn [negb snd] in *; [|done].
  apply IH; [by apply Hr|done].
Qed.

Lemma chunk_step_ok t i w :
  m_state (conn i w) = ReadingBody -> all_ok w ->
  let '(again, w') := chunk_step t i w in
  all_ok w' /\ (again = true -> m_state (conn i w') = ReadingBody).
Proof.
  intros Hs Hw. unfold chunk_step. destruct (m_chunkState (conn i w)).
  - destruct (index_of crlf _) as [eol|]; [|split; [case_match; [by apply all_ok_fail|done]|done]].
    set (w1 := upd i _ w).
    assert (Hw1 : all_ok w1) by (apply all_ok_quiet; [solve_quiet|done]).
    assert (Hs1 : m_state (conn i w1) = ReadingBody) by (unfold w1; by rewrite conn_upd_eq). clearbody w1.
    assert (Hfail : forall n, all_ok (upd i (fun c => c <| m_chunkRemaining := n |> |>> fail t 400) w1)).
    { intros n. apply all_ok_upd; [|done]. intros Hc. apply fail_ok.
      apply (quiet_ok (fun c => c <| m_chunkRemaining := n |>)); [solve_quiet|done]. }
    destruct (toLongLong 16 _) as [n|]; [|done]. destruct (n <? 0); [done|]. split.
    + apply all_ok_quiet; [solve_quiet|done].
    + intros _. by rewrite conn_upd_eq.
  - destruct (is_empty (m_buffer (conn i w))); [done|]. set (k := Z.min _ _). set (w1 := upd i _ w).
    assert (Hw1 : all_ok w1) by (apply all_ok_quiet; [solve_quiet|done]).
    assert (Hs1 : m_state (conn i w1) = ReadingBody) by (unfold w1; by rewrite conn_upd_eq).
    pose proof (all_ok_deliver t i (qleft k (m_buffer (conn i w))) w1 Hs1 Hw1) as Hd.
    pose proof (deliver_reading t i (qleft k (m_buffer (conn i w))) w1 Hs1) as Hr.
    destruct (deliver _ _ _ w1) as [[] w2]; cbn [negb snd] in *; [|done].
    destruct (m_chunkRemaining (conn i w2) =? 0); split; try (by intros _; rewrite ?conn_upd_eq; apply Hr);
      [|done]. apply all_ok_quiet; [solve_quiet|done].
  - destruct (len (m_buffer (conn i w)) <? 2); [done|]. split; [apply all_ok_quiet; [solve_quiet|done]|].
    intros _. by rewrite conn_upd_eq.
  - destruct (index_of crlf _) as [eol|]; [|done].
    set (w1 := upd i _ w).
    assert (Hw1 : all_ok w1) by (apply all_ok_quiet; [solve_quiet|done]).
    assert (Hs1 : m_state (conn i w1) = ReadingBody) by (unfold w1; by rewrite conn_upd_eq). clearbody w1.
    destruct (MaxHeadSize <? _); [split; [by apply all_ok_fail|done]|].
    set (w2 := upd i _ w1).
    assert (Hw2 : all_ok w2) by (apply all_ok_quiet; [solve_quiet|done]).
    assert (Hs2 : m_state (conn i w2) = ReadingBody) by (unfold w2; by rewrite conn_upd_eq). clearbody w2.
    destruct (Nat.eqb eol 0); [|done]. split; [|done]. apply all_ok_finishBody; [by rewrite conn_upd_eq|].
    apply all_ok_quiet; [solve_quiet|done].
  - done.
Qed.
Lemma chunk_loop_ok n t i w :
  m_state (conn i w) = ReadingBody -> all_ok w -> all_ok (chunk_loop n t i w).
Proof.
  revert w. induction n as [|n IH]; intros w Hs Hw; [done|]. cbn [chunk_loop].
  pose proof (chunk_step_ok t i w Hs Hw) as Hc. destruct (chunk_step t i w) as [[] w'].
  - apply IH; [by apply Hc|apply Hc].
  - apply Hc.
Qed.
Lemma consumeBody_ok t i w : all_ok w -> all_ok (consumeBody t i w).
Proof.
  intros Hw. unfold consumeBody. destruct (state_is (m_state (conn i w)) ReadingBody) eqn:Es;
    cbn [negb orb]; [|done]. apply state_is_spec in Es.
  case_match; [done|]. case_match; [by apply chunk_loop_ok|].
  pose proof (plain_loop_ok (List.length (m_buffer (conn i w)) + 1) t i w Es Hw) as Hp.
  destruct (plain_loop _ t i w) as [[] w1]; cbn [negb]; [|apply Hp]. destruct Hp as [Hw1 Hs1].
  case_match; [|done]. apply all_ok_finishBody; [by apply Hs1|done].
Qed.

(** The head: parsing only fails or fills in the request. *)
Lemma parseHead_ok t head c : conn_ok c -> conn_ok (parseHead t head c).2.
Proof.
  intros Hc. unfold parseHead. destruct (split_on 10 head) as [|first lines]; [by apply fail_ok|].
  destruct (split_on 32 (trimmed first)) as [|method [|target rest]]; [by apply fail_ok..|].
  set (f := fun c => c <| m_method := q_upper method |> <| m_path := url_path target |>
     <| m_query ::= fun q => foldl (fun q kv => <[kv.1 := kv.2]> q) q (url_query target) |>).
  fold (f c). destruct (parse_lines lines (m_headers (f c))) as [ok headers].
  set (g := fun c => f c <| m_headers := headers |>). fold (g c).
  assert (Hg : quiet g) by solve_quiet.
  assert (Hgc : conn_ok (g c)) by by apply quiet_ok.
  destruct ok; cbn [negb snd]; [|by apply fail_ok].
  set (c3 := _ <| m_chunked := _ |>).
  assert (H3 : conn_ok c3).
  { subst c3. apply (quiet_ok (fun c => c <| m_headerDeadline ::= HttpConnection.stop |>
      <| m_chunked := contains_sub (lit "chunked") (latin1_lower (header_value (lit "transfer-encoding")
         (c <| m_headerDeadline ::= HttpConnection.stop |>))) |>)); [solve_quiet|done]. }
  clearbody c3. assert (Hl : forall n, quiet (fun c => c <| m_contentLength := n |>)) by (intros; solve_quiet).
  destruct (m_chunked c3); cbn [snd].
  - by apply (quiet_ok _ c3 (Hl (-1))).
  - by apply (quiet_ok _ c3 (Hl _)).
Qed.

Lemma parseHead_state t head c :
  let '(ok, c') := parseHead t head c in ok = true -> m_state c' = m_state c.
Proof.
  unfold parseHead. destruct (split_on 10 head) as [|first lines]; [done|].
  destruct (split_on 32 (trimmed first)) as [|method [|target rest]]; [done..|].
  destruct (parse_lines _ _) as [[] headers]; cbn [negb]; [|done].
  match goal with |- context [if ?b then _ else _] => destruct b end; done.
Qed.
Lemma reading_headers_fresh c :
  m_state c = ReadingHeaders -> conn_ok c ->
  s_written c = [] /\ emissions headersReady c = 0%nat /\ m_bodyComplete c = false.
Proof.
  intros Hs [(x & y & Hw & _ & _ & Hn & Hx) _ [_ Hh] _ Hb _ _].
  rewrite Hw, Hx, Hn by congruence. auto.
Qed.
(** The head has been read. *)
Lemma begin_body_ok c :
  m_state c = ReadingHeaders -> conn_ok c -> conn_ok (c <| m_state := ReadingBody |>).
Proof.
  intros Hs Hc. destruct (reading_headers_fresh c Hs Hc) as (Hw & He & Hb).
  destruct Hc as [_ J2 _ J4 _ J6 [J7 _]]. split; [|exact J2| |exact J4|done|exact J6|by split].
  - exists [], []. cbn. split_and!; auto.
  - split; [|done]. change (emissions headersReady c <= 1)%nat. lia.
Qed.
Lemma announce_ok c :
  m_state c = ReadingBody -> emissions headersReady c = 0%nat -> conn_ok c ->
  conn_ok (emit headersReady c).
Proof.
  intros Hs He [J1 J2 _ J4 _ J6 J7]. split; [exact J1|exact J2| |exact J4| |exact J6|exact J7].
  - change (S (emissions headersReady c) <= 1 /\ (m_state c = ReadingHeaders ->
      S (emissions headersReady c) = 0))%nat. rewrite He, Hs. split; [done|discriminate].
  - intros Hh. change (m_state c = ReadingHeaders) in Hh. congruence.
Qed.
Lemma continue_ok c :
  m_state c = ReadingBody -> s_written c = [] -> conn_ok c ->
  conn_ok (c <| s_written ::= fun l => l ++ [continue_line] |>).
Proof.
  intros Hs Hw [_ J2 J3 J4 J5 J6 J7]. split; [|exact J2|exact J3|exact J4|exact J5|exact J6|exact J7].
  exists [continue_line], []. cbn. rewrite Hw. split_and!; auto. congruence.
Qed.

Lemma all_ok_headersReady t i w :
  m_bodyReceived (conn i w) = 0 -> all_ok w -> all_ok (on_headersReady t i w).
Proof.
  intros Hz Hw j. destruct (decide (i = j)) as [<-|Hne].
  - by eapply prepares_ok; [apply headersReady_self| |apply Hw].
  - eapply answers_ok; [by apply headersReady_other|apply Hw].
Qed.

Lemma all_ok_onReadyRead t i data w : all_ok w -> all_ok (onReadyRead t i data w).
Proof.
  intros Hw. unfold onReadyRead. set (w1 := upd i _ w).
  assert (Hw1 : all_ok w1) by (apply all_ok_quiet; [solve_quiet|done]). clearbody w1. clear w Hw.
  case_match; [done|]. set (w2 := upd i _ w1).
  assert (Hw2 : all_ok w2) by (apply all_ok_quiet; [solve_quiet|done]). clearbody w2. clear w1 Hw1 H3.
  destruct (state_is (m_state (conn i w2)) ReadingHeaders) eqn:Es; [|by apply consumeBody_ok].
  apply state_is_spec in Es.
  destruct (index_of _ _) as [stop|]; [|case_match; [by apply all_ok_fail|done]].
  set (w3 := upd i _ w2).
  assert (Hw3 : all_ok w3) by (apply all_ok_quiet; [solve_quiet|done]).
  assert (Hs3 : m_state (conn i w3) = ReadingHeaders) by (unfold w3; by rewrite conn_upd_eq).
  set (head := take stop _). clearbody head w3. clear w2 Hw2 Es.
  pose proof (parseHead_ok t head _ (Hw3 i)) as Hp.
  pose proof (parseHead_state t head (conn i w3)) as Hps.
  destruct (parseHead t head (conn i w3)) as [ok c]. cbn [snd] in Hp.
  pose proof (all_ok_set i c w3 Hp Hw3) as Hw4.
  destruct ok; cbn [negb]; [|done]. specialize (Hps eq_refl). rewrite Hs3 in Hps.
  assert (Hc4 : conn i (set_conn i c w3) = c) by apply conn_set_eq.
  set (w4 := set_conn i c w3) in *. clearbody w4. clear w3 Hw3 Hs3.
  set (w5 := upd i _ w4).
  assert (Hc5 : conn i w5 = c <| m_state := ReadingBody |>) by (unfold w5; by rewrite conn_upd_eq, Hc4).
  assert (Hw5 : all_ok w5).
  { apply all_ok_upd; [|done]. rewrite Hc4. by apply begin_body_ok. }
  destruct (reading_headers_fresh c Hps Hp) as (Hwr & He & Hb).
  pose proof (proj2 (co_account _ Hp) Hps) as Hz.
  clearbody w5. case_match; [by apply all_ok_upd; [apply respond_ok; constructor|]|].
  set (w6 := upd i _ w5).
  assert (Hw6 : all_ok w6).
  { apply all_ok_upd; [|done]. rewrite Hc5. by apply announce_ok. }
  assert (Hwr6 : s_written (conn i w6) = []) by (unfold w6; by rewrite conn_upd_eq, Hc5).
  assert (Hz6 : m_bodyReceived (conn i w6) = 0) by (unfold w6; by rewrite conn_upd_eq, Hc5).
  clearbody w6. pose proof (headersReady_self t i w6) as Hprep.
  pose proof (all_ok_headersReady t i w6 Hz6 Hw6) as Hw7.
  set (w7 := on_headersReady t i w6) in *. clearbody w7.
  destruct (state_is (m_state (conn i w7)) ReadingBody) eqn:E7; cbn [negb]; [|done].
  apply state_is_spec in E7.
  destruct (prepares_silent _ _ _ Hprep) as [_ Hwr7]; [by rewrite E7|]. rewrite Hwr6 in Hwr7.
  apply consumeBody_ok. case_match; [|done]. by apply all_ok_upd; [apply continue_ok|].
Qed.

Lemma all_ok_onDisconnected t i w : all_ok w -> all_ok (onDisconnected t i w).
Proof.
  intros Hw. unfold onDisconnected. destruct (m_closedEmitted (conn i w)) eqn:Ec; [done|].
  set (w1 := upd i _ w).
  assert (Hw1 : all_ok w1).
  { apply all_ok_upd; [|done]. intros [(x & y & Ho & Hi & Hr & _ & _) J2 [J3 _] J4 _ J6 [J7 _]]. split; [..|exact J6|by split].
    - exists x, y. split_and!; [exact Ho|done|done|by intros []|by intros [=]].
    - exact J2.
    - split; [exact J3|done].
    - change (S (emissions closed (conn i w)) = 1%nat). by rewrite J4, Ec.
    - done. }
  clearbody w1. intros j. eapply answers_ok; [apply closed_api|apply Hw1].
Qed.

Lemma all_ok_handle i w e : all_ok w -> all_ok (handle i w e).
Proof.
  intros Hw. unfold handle. case_match; [done|]. destruct e as [t data|t|t|t].
  - by apply all_ok_onReadyRead.
  - case_match; [|done]. unfold onIdleTimeout. set (w1 := upd i _ w).
    assert (Hw1 : all_ok w1) by (apply all_ok_quiet; [solve_quiet|done]). clearbody w1.
    case_match; [|by apply all_ok_fail]. unfold abort. case_match; [done|].
    by apply all_ok_onDisconnected.
  - case_match; [|done]. unfold onHeaderDeadline. set (w1 := upd i _ w).
    assert (Hw1 : all_ok w1) by (apply all_ok_quiet; [solve_quiet|done]). clearbody w1.
    case_match; [by apply all_ok_fail|done].
  - by apply all_ok_onDisconnected.
Qed.

(** A fresh connection is well-formed. *)
Lemma Conn0_ok t address certificate : conn_ok (Conn0 t address certificate).
Proof.
  split; [|reflexivity|split; [cbn; lia|done]|reflexivity|done|constructor|done]. exists [], []. split_and!; auto.
Qed.

Definition run (w : W) (events : list (Z * event)) : W :=
  foldl (fun w ie => handle ie.1 w ie.2) w events.

Lemma all_ok_run w events :
  (forall j, exists t address certificate, conn j w = Conn0 t address certificate) ->
  all_ok (run w events).
Proof.
  intros Hfresh. assert (Hok : all_ok w).
  { intros j. destruct (Hfresh j) as (t & a & k & ->). apply Conn0_ok. }
  clear Hfresh. revert w Hok. induction events as [|[j e] events IH]; intros w Hok; [done|].
  by apply IH, all_ok_handle.
Qed.

(** C16: one request, one answer. Whatever the sockets deliver, in whatever
    pieces and interleaved however, and whenever handlers answer, each
    connection announces its headers, its request and its end at most once
    each, and writes at most the interim [100 Continue] followed by one
    response. *)
Theorem one_request_one_answer w events i :
  (forall j, exists t address certificate, conn j w = Conn0 t address certificate) ->
  let c := conn i (run w events) in
  (emissions headersReady c <= 1 /\ emissions requestReady c <= 1 /\ emissions closed c <= 1)%nat
  /\ (s_written c = [] \/ s_written c = [continue_line]
      \/ exists r, is_response r
         /\ (s_written c = [r] \/ s_written c = [continue_line; r])).
Proof.
  intros Hfresh. cbv zeta.
  destruct (all_ok_run w events Hfresh i) as [(x & y & Ho & Hi & Hr & _ & _) J2 [J3 _] J4 _ _ _]. split.
  - split_and!; [done|rewrite J2; destruct (m_bodyComplete _); lia
      |rewrite J4; destruct (m_closedEmitted _); lia].
  - rewrite Ho. destruct Hi as [->| ->], Hr as [->|(r & -> & Hr)]; cbn; eauto 8.
Qed.

(** ** The shape of a response *)

Lemma one_line_app a b : one_line a -> one_line b -> one_line (a ++ b).
Proof. intros. by apply Forall_app. Qed.
Lemma one_line_digits s : Forall (fun c => 48 <= c <= 57) s -> one_line s.
Proof. intros Hs. eapply Forall_impl; [exact Hs|]. cbn. lia. Qed.
Lemma number_one_line z : one_line (number z).
Proof.
  assert (HN : forall n : N, one_line (lit (pretty n))).
  { intros n. unfold pretty, pretty_N. case_decide; [by apply (bool_decide_unpack _)|].
    by apply one_line_digits, pretty_digits. }
  unfold number. destruct z as [|p|p].
  - by apply (bool_decide_unpack _).
  - apply (HN (Npos p)).
  - apply Forall_cons. split; [cbn; lia|]. apply (HN (Npos p)).
Qed.
Lemma reasonPhrase_one_line st : one_line (reasonPhrase st).
Proof. unfold reasonPhrase. repeat case_match; by apply (bool_decide_unpack _). Qed.

Definition lines_text (lines : list bytes) : bytes := List.concat (map (fun l => l ++ crlf) lines).
(** A message of one head and one payload: lines that cannot be broken by
    their contents, the first the status, one of them the payload's length. *)
Definition framed (r : bytes) : Prop :=
  exists lines payload status,
    r = lines_text lines ++ crlf ++ payload
    /\ Forall (fun l => one_line l /\ l <> []) lines
    /\ head lines = Some (lit "HTTP/1.1 " ++ number status ++ lit " " ++ reasonPhrase status)
    /\ lit "Content-Length: " ++ number (len payload) ∈ lines.

Lemma extra_lines_text extra :
  extra_lines extra = lines_text (map (fun nv => nv.1 ++ lit ": " ++ nv.2) extra).
Proof.
  unfold extra_lines, lines_text.
  assert (Hg : forall acc, foldl (fun response (nv : bytes * bytes) =>
      response ++ nv.1 ++ lit ": " ++ nv.2 ++ crlf) acc extra
    = acc ++ List.concat (map (fun l => l ++ crlf) (map (fun nv => nv.1 ++ lit ": " ++ nv.2) extra))).
  { induction extra as [|nv extra IH]; intros acc; cbn [foldl map List.concat]; [by rewrite app_nil_r|].
    rewrite IH, <- !app_assoc. done. }
  apply Hg.
Qed.
Lemma lines_text_app a b : lines_text (a ++ b) = lines_text a ++ lines_text b.
Proof. unfold lines_text. by rewrite map_app, concat_app. Qed.
Lemma lines_text_cons l b : lines_text (l :: b) = l ++ crlf ++ lines_text b.
Proof. unfold lines_text. cbn. by rewrite <- app_assoc. Qed.

Lemma render_framed r : is_response r -> framed r.
Proof.
  intros (st & p & ct & extra & -> & Hct & Hx).
  exists ((lit "HTTP/1.1 " ++ number st ++ lit " " ++ reasonPhrase st)
    :: (if negb (is_empty ct) then [lit "Content-Type: " ++ ct] else [])
    ++ (lit "Content-Length: " ++ number (len p))
    :: map (fun nv => nv.1 ++ lit ": " ++ nv.2) extra
    ++ [lit "Access-Control-Allow-Origin: *"; lit "Access-Control-Allow-Methods: GET, POST, OPTIONS";
        lit "Access-Control-Allow-Headers: Content-Type"; lit "Connection: close"]), p, st.
  split_and!.
  - unfold render. rewrite extra_lines_text.
    rewrite lines_text_cons, !lines_text_app, lines_text_cons, lines_text_app.
    destruct ct as [|c ct]; cbn [is_empty negb]; rewrite ?lines_text_cons;
      change (lines_text []) with (@nil Z); rewrite ?app_nil_r, <- !app_assoc; done.
  - assert (Hlit : forall a b : bytes, one_line a -> a <> [] -> one_line b ->
      one_line (a ++ b) /\ a ++ b <> []).
    { intros a b Ha Hn Hb. split; [by apply one_line_app|]. by destruct a. }
    constructor.
    { apply Hlit; [by apply (bool_decide_unpack _)|done|].
      repeat apply one_line_app; [apply number_one_line|by apply (bool_decide_unpack _)
        |apply reasonPhrase_one_line]. }
    apply Forall_app. split.
    { destruct (is_empty ct); cbn [negb]; [constructor|]. constructor; [|constructor].
      apply Hlit; [by apply (bool_decide_unpack _)|done|done]. }
    constructor.
    { apply Hlit; [by apply (bool_decide_unpack _)|done|apply number_one_line]. }
    apply Forall_app. split.
    + apply Forall_map. eapply Forall_impl; [exact Hx|]. intros [n v] [Hn Hv]. cbn in *.
      split; [|by destruct n].
      apply one_line_app; [done|]. apply (one_line_app (lit ": ")); [by apply (bool_decide_unpack _)|done].
    + repeat (constructor; [split; [by apply (bool_decide_unpack _)|discriminate]|]). constructor.
  - done.
  - apply elem_of_cons. right. apply elem_of_app. right. by left.
Qed.

(** C29: no header can be forged into a response. However a handler builds its
    answer, and whatever text reaches a header value, each response written is
    one status line, header lines none of which contains a line break or is
    blank, one blank line, and exactly the payload announced by its
    [Content-Length]. *)
Theorem response_framing w events i r :
  (forall j, exists t address certificate, conn j w = Conn0 t address certificate) ->
  r ∈ s_written (conn i (run w events)) -> r = continue_line \/ framed r.
Proof.
  intros Hfresh Hr.
  destruct (all_ok_run w events Hfresh i) as [(x & y & Ho & Hi & Hy & _ & _) _ _ _ _ _ _].
  rewrite Ho in Hr. apply elem_of_app in Hr as [Hr|Hr].
  - left. destruct Hi as [->| ->]; [by apply not_elem_of_nil in Hr|by apply list_elem_of_singleton in Hr].
  - right. destruct Hy as [->|(r' & -> & Hy)]; [by apply not_elem_of_nil in Hr|].
    apply list_elem_of_singleton in Hr as ->. by apply render_framed.
Qed.

(** What a peer may send is bounded by what was agreed. A body streamed to
    a device never exceeds the ceiling given with it, declared length or not;
    a buffered body never exceeds [MaxBufferedBody], and the count reported is
    the number of bytes kept. *)
Theorem body_within_bounds w events i :
  (forall j, exists t address certificate, conn j w = Conn0 t address certificate) ->
  let c := conn i (run w events) in
  match m_sink c with
  | Some _ => 0 <= m_maxBodyBytes c -> m_bodyReceived c <= m_maxBodyBytes c
  | None => len (m_body c) <= MaxBufferedBody /\ m_bodyReceived c = len (m_body c)
  end.
Proof.
  intros Hfresh. cbv zeta. destruct (all_ok_run w events Hfresh i) as [_ _ _ _ _ _ [J _]].
  destruct (m_sink _); [apply J|by destruct J].
Qed.

(** ** The header lines *)

Lemma parse_lines_spec lines headers :
  let '(ok, h) := parse_lines lines headers in
  if ok
  then (forall n v, headers !! n = Some v -> h !! n = Some v)
       /\ (forall l n v, l ∈ lines -> split_header l = Some (n, v) -> h !! n = Some v)
       /\ (forall n v, h !! n = Some v ->
            headers !! n = Some v \/ exists l, l ∈ lines /\ split_header l = Some (n, v))
  else exists l n v v', l ∈ lines /\ split_header l = Some (n, v) /\ v' <> v
       /\ (headers !! n = Some v' \/ exists l', l' ∈ lines /\ split_header l' = Some (n, v')).
Proof.
  revert headers. induction lines as [|l lines IH]; intros headers; cbn [parse_lines].
  { split_and!; [done|by intros ??? []%not_elem_of_nil|by left]. }
  destruct (split_header l) as [[n v]|] eqn:El.
  - assert (Hins : (headers !! n = None \/ headers !! n = Some v) ->
      forall p, p = parse_lines lines (<[n := v]> headers) ->
      let '(ok, h) := p in
      if ok
      then (forall n v, headers !! n = Some v -> h !! n = Some v)
           /\ (forall l0 n v, l0 ∈ l :: lines -> split_header l0 = Some (n, v) -> h !! n = Some v)
           /\ (forall n v, h !! n = Some v ->
                headers !! n = Some v \/ exists l0, l0 ∈ l :: lines /\ split_header l0 = Some (n, v))
      else exists l0 n v v', l0 ∈ l :: lines /\ split_header l0 = Some (n, v) /\ v' <> v
           /\ (headers !! n = Some v' \/ exists l', l' ∈ l :: lines /\ split_header l' = Some (n, v'))).
    { intros Hh p ->. specialize (IH (<[n := v]> headers)).
      destruct (parse_lines lines (<[n := v]> headers)) as [[] h].
      - destruct IH as (K1 & K2 & K3). split_and!.
        + intros n' v' Hn'. apply K1. destruct (decide (n = n')) as [<-|Hne].
          * rewrite lookup_insert_eq. destruct Hh; congruence.
          * by rewrite lookup_insert_ne.
        + intros l0 n' v' [->|Hl]%elem_of_cons Hs; [|by eapply K2].
          rewrite El in Hs. simplify_eq. apply K1, lookup_insert_eq.
        + intros n' v' Hn'. apply K3 in Hn' as [Hn'|(l' & Hl & Hs)]; [|right; exists l'; by split; [right|]].
          destruct (decide (n = n')) as [<-|Hne].
          * rewrite lookup_insert_eq in Hn'. simplify_eq. right. exists l. by split; [left|].
          * rewrite lookup_insert_ne in Hn' by done. by left.
      - destruct IH as (l' & n' & v' & w' & Hl & Hs & Hne & Hw). exists l', n', v', w'.
        split_and!; [by right|done|done|]. destruct Hw as [Hw|(l2 & Hl2 & Hs2)].
        + destruct (decide (n = n')) as [<-|Hn].
          * rewrite lookup_insert_eq in Hw. simplify_eq. right. exists l. by split; [left|].
          * rewrite lookup_insert_ne in Hw by done. by left.
        + right. exists l2. by split; [right|]. }
    destruct (headers !! n) as [other|] eqn:Eh; [|by apply Hins; [left|]].
    destruct (qeq other v) eqn:Eq; cbn [negb].
    + apply qeq_spec in Eq as ->. by apply Hins; [right|].
    + apply qeq_false in Eq. exists l, n, v, other. split_and!; [by left|done|done|by left].
  - specialize (IH headers). destruct (parse_lines lines headers) as [[] h].
    + destruct IH as (K1 & K2 & K3). split_and!; [done| |].
      * intros l0 n v [->|Hl]%elem_of_cons Hs; [congruence|by eapply K2].
      * intros n v Hn. apply K3 in Hn as [Hn|(l0 & Hl & Hs)]; [by left|].
        right. exists l0. by split; [right|].
    + destruct IH as (l' & n' & v' & w' & Hl & Hs & Hne & Hw). exists l', n', v', w'.
      split_and!; [by right|done|done|]. destruct Hw as [Hw|(l2 & Hl2 & Hs2)]; [by left|].
      right. exists l2. by split; [right|].
Qed.

(** The table holds the header lines, and nothing else. *)
Definition table_of (lines : list bytes) (headers : gmap bytes bytes) : Prop :=
  forall n v, headers !! n = Some v <-> exists l, l ∈ lines /\ split_header l = Some (n, v).

(** No header is read two ways. When a head is accepted, every header line
    of it is in the table with its value, whichever of its repetitions is
    looked at, and the table holds nothing else; two lines that disagree make
    the request fail with 400 before any handler sees it. *)
Theorem headers_unambiguous t first rest c :
  m_headers c = ∅ ->
  let head := first ++ 10 :: rest in
  ~ In 10 first ->
  let '(ok, c') := parseHead t head c in
  let lines := split_on 10 rest in
  (ok = true -> table_of lines (m_headers c'))
  /\ (ok = true -> forall l1 l2 n v1 v2, l1 ∈ lines -> l2 ∈ lines ->
       split_header l1 = Some (n, v1) -> split_header l2 = Some (n, v2) -> v1 = v2)
  /\ (ok = false -> m_state c' = Responded).
Proof.
  intros Hh. cbv zeta. intros Hf.
  assert (Hsplit : split_on 10 (first ++ 10 :: rest) = first :: split_on 10 rest).
  { clear -Hf. induction first as [|x first IH]; [done|]. cbn.
    destruct (Z.eqb_spec x 10) as [->|]; [by exfalso; apply Hf; left|].
    rewrite IH; [done|]. intros ?. apply Hf. by right. }
  unfold parseHead. rewrite Hsplit.
  destruct (split_on 32 (trimmed first)) as [|method [|target more]];
    [split_and!; [done|done|intros _; apply fail_responded]..|].
  set (c1 := _ <| m_query ::= _ |>).
  assert (Hc1 : m_headers c1 = ∅) by exact Hh. rewrite Hc1.
  pose proof (parse_lines_spec (split_on 10 rest) ∅) as Hp.
  destruct (parse_lines (split_on 10 rest) ∅) as [[] h]; cbn [negb].
  2: { split_and!; [done|done|intros _; apply fail_responded]. }
  destruct Hp as (_ & K2 & K3).
  set (c2 := _ <| m_chunked := _ |>).
  assert (Hc2 : m_headers c2 = h) by done. clearbody c2.
  set (p := if m_chunked c2 then _ else _).
  assert (Hpp : p.1 = true /\ m_headers p.2 = h) by (subst p; destruct (m_chunked c2); by rewrite <- Hc2).
  clearbody p. destruct p as [ok c3]. destruct Hpp as [Hok Hpp]. cbn in Hok, Hpp. subst ok.
  split_and!; [|intros _ l1 l2 n v1 v2 L1 L2 S1 S2; pose proof (K2 _ _ _ L1 S1);
    pose proof (K2 _ _ _ L2 S2); congruence|done].
  intros _ n v. rewrite Hpp. split.
  - intros [Hn|?]%K3; [by rewrite lookup_empty in Hn|done].
  - intros (l & Hl & Hs). by eapply K2.
Qed.

(** ** The timers *)

(** A refused request can hold its connection for ever, although the
    drain timeout is documented as how long it may go on sending: every block
    received restarts the timer with the drain interval, so while blocks keep
    coming less than [DrainTimeoutMs] apart the timer never fires, and nothing
    else ends the connection. *)
Theorem drain_is_rearmed w i blocks t d :
  m_state (conn i w) = Responded -> m_closedEmitted (conn i w) = false ->
  interval (m_idleTimer (conn i w)) = DrainTimeoutMs ->
  let w' := run w (map (fun b => (i, Data b.1 b.2)) (blocks ++ [(t, d)])) in
  conn i w' = (conn i w) <| m_idleTimer := mkTimer DrainTimeoutMs (Some (t + DrainTimeoutMs)) |>
  /\ forall now, now < t + DrainTimeoutMs -> handle i w' (IdleFires now) = w'.
Proof.
  intros Hs Hc Hi. cbv zeta.
  assert (Hone : forall w b, m_state (conn i w) = Responded -> m_closedEmitted (conn i w) = false ->
    interval (m_idleTimer (conn i w)) = DrainTimeoutMs ->
    conn i (handle i w (Data b.1 b.2))
    = (conn i w) <| m_idleTimer := mkTimer DrainTimeoutMs (Some (b.1 + DrainTimeoutMs)) |>).
  { clear Hs Hc Hi w. intros w b Hs Hc Hi. unfold handle. rewrite Hc. unfold onReadyRead. cbv zeta.
    rewrite conn_upd_eq. cbn [m_state set_field].
    replace (state_is _ Responded) with true; [|symmetry; by apply state_is_spec].
    cbn [orb]. rewrite conn_upd_eq. destruct (conn i w). cbn in *. unfold start. by rewrite Hi. }
  assert (Hrun : conn i (run w (map (fun b => (i, Data b.1 b.2)) (blocks ++ [(t, d)])))
    = (conn i w) <| m_idleTimer := mkTimer DrainTimeoutMs (Some (t + DrainTimeoutMs)) |>).
  { unfold run. rewrite map_app, foldl_app. cbn [map foldl fst snd].
    assert (Hpre : exists tm, interval tm = DrainTimeoutMs /\
      conn i (foldl (fun w ie => handle ie.1 w ie.2) w (map (fun b => (i, Data b.1 b.2)) blocks))
      = (conn i w) <| m_idleTimer := tm |>).
    { clear t d. revert w Hs Hc Hi. induction blocks as [|b blocks IH]; intros w Hs Hc Hi.
      - exists (m_idleTimer (conn i w)). split; [done|]. cbn. by destruct (conn i w).
      - cbn [map foldl fst snd]. pose proof (Hone w b Hs Hc Hi) as Hb.
        destruct (IH (handle i w (Data b.1 b.2))) as (tm & Htm & ->); [by rewrite Hb..|].
        exists tm. split; [done|]. rewrite Hb. by destruct (conn i w). }
    destruct Hpre as (tm & Htm & Hpre).
    pose proof (Hone _ (t, d) ltac:(rewrite Hpre; exact Hs) ltac:(rewrite Hpre; exact Hc)
      ltac:(rewrite Hpre; exact Htm)) as Hlast. cbn [fst snd] in Hlast. rewrite Hlast, Hpre.
    by destruct (conn i w). }
  split; [done|]. intros now Hnow. unfold handle. rewrite Hrun.
  destruct (m_closedEmitted _); [done|].
  replace (due now _) with false; [done|]. unfold due. cbn. symmetry. by apply Z.leb_gt.
Qed.

(** The idle timer is said to be stopped once the request is complete, so
    that a parked [prepare-upload] can wait for the person; one stray byte from
    the sender re-arms it, and the request is answered 408 after
    [IdleTimeoutMs], before the prompt itself would time out. *)
Theorem parked_request_times_out w i t d :
  let c := conn i w in
  m_state c = ReadingBody -> m_bodyComplete c = true -> s_state c = Connected ->
  m_closedEmitted c = false -> interval (m_idleTimer c) = IdleTimeoutMs ->
  let w' := run w [(i, Data t d); (i, IdleFires (t + IdleTimeoutMs))] in
  s_written (conn i w') = s_written c ++ [render 408 [] json_type (m_extraHeaders c)]
  /\ m_state (conn i w') = Responded.
Proof.
  cbv zeta. intros Hs Hb Hk Hc Hi. unfold run. cbn [foldl fst snd].
  set (w1 := handle i w (Data t d)).
  assert (H3 : conn i w1 = (conn i w) <| m_idleTimer ::= start t |>).
  { unfold w1, handle. rewrite Hc. unfold onReadyRead. cbv zeta. rewrite !conn_upd_eq.
    replace (_ || _) with true; [by rewrite conn_upd_eq|].
    symmetry. apply orb_true_iff. right. exact Hb. }
  clearbody w1.
  assert (Hc1 : m_closedEmitted (conn i w1) = false) by (rewrite H3; exact Hc).
  assert (Hd1 : due (t + IdleTimeoutMs) (m_idleTimer (conn i w1)) = true).
  { rewrite H3. unfold due. cbn [m_idleTimer set_field]. cbn. rewrite Hi. apply Z.leb_refl. }
  unfold handle. rewrite Hc1, Hd1. unfold onIdleTimeout. cbv zeta. rewrite conn_upd_eq.
  set (c2 := (conn i w1) <| m_idleTimer ::= HttpConnection.stop |>).
  assert (Hs2 : m_state c2 = ReadingBody) by (unfold c2; rewrite H3; exact Hs).
  replace (state_is (m_state c2) Responded) with false by by rewrite Hs2.
  rewrite !conn_upd_eq. fold c2. unfold fail, respond_.
  destruct (respond_cases (t + IdleTimeoutMs) 408 [] json_type c2)
    as [[Hr _]|(_ & Hr & _ & _ & _ & _ & _ & _ & _ & _ & _ & Hw)]; [by rewrite Hs2 in Hr|].
  assert (Hk2 : s_state c2 = Connected) by (unfold c2; rewrite H3; exact Hk).
  rewrite Hk2, bool_decide_eq_true_2 in Hw by done. rewrite Hw, Hr. split; [|done].
  unfold c2. by rewrite H3.
Qed.

End Facts.
