(* ===== verification/HttpBody.v ===== *)
(** * Bodies: the reader against the grammar of HTTP/1.1 bodies

    A chunked body is given by its grammar ([chunks]); the reader, fed the
    text in any pieces, hands over exactly the payload and then announces the
    request. The same for a body with a declared length. *)
From S2P Require Import Prelude Json Crypto HttpConnection HttpFacts.
Import HttpConnection.

(** ** Finding a line end in a prefix *)

Lemma starts_with_spec p s : starts_with p s = true <-> p `prefix_of` s.
Proof. apply bool_decide_eq_true. Qed.
Lemma index_of_crlf_line l s : one_line l -> index_of crlf (l ++ crlf ++ s) = Some (List.length l).
Proof.
  induction 1 as [|c l [Hc Hl] _ IH]; [done|]. cbn [app index_of length].
  destruct (starts_with crlf (c :: _)) eqn:E.
  - apply starts_with_spec in E as [k Hk]. cbn in Hk. injection Hk as -> _. done.
  - by rewrite IH.
Qed.
Lemma index_of_crlf_short l : one_line l -> index_of crlf l = None /\ index_of crlf (l ++ [13]) = None.
Proof.
  assert (Hne : forall c l, c <> 13 -> starts_with crlf (c :: l) = false).
  { intros c k Hc. apply bool_decide_eq_false. intros [x Hx]. cbn in Hx. congruence. }
  induction 1 as [|c l [Hc Hl] _ [IH1 IH2]]; [done|]. cbn [app index_of].
  rewrite !Hne by done. by rewrite IH1, IH2.
Qed.
(** The buffer holds the start of [l ++ crlf ++ s]: either the whole line is
    there and is found, or it is not and the buffer is shorter. *)
Lemma buffer_line l s buffer rest :
  one_line l -> buffer ++ rest = l ++ crlf ++ s ->
  (index_of crlf buffer = Some (List.length l) /\ exists tl, buffer = l ++ crlf ++ tl /\ tl ++ rest = s)
  \/ (index_of crlf buffer = None /\ len buffer <= len l + 1 /\ rest <> []).
Proof.
  intros Hl Heq.
  destruct (decide (len l + 2 <= len buffer)) as [Hge|Hlt].
  - left. assert (Hb : exists tl, buffer = l ++ crlf ++ tl).
    { exists (drop (List.length l + 2) buffer).
      assert (Ht : take (List.length l + 2) buffer = l ++ crlf).
      { rewrite <- (take_app_le buffer rest) by (unfold len in Hge; lia).
        rewrite Heq, (app_assoc l crlf s).
        replace (List.length l + 2)%nat with (List.length (l ++ crlf)) by by rewrite length_app.
        by rewrite take_app_length. }
      rewrite <- (take_drop (List.length l + 2) buffer) at 1. rewrite Ht. by rewrite <- app_assoc. }
    destruct Hb as [tl ->]. split; [by apply index_of_crlf_line|]. exists tl. split; [done|].
    rewrite <- !app_assoc in Heq. do 2 apply app_inv_head in Heq. done.
  - right. split_and!; [|lia|].
    + assert (Hb : buffer = take (List.length buffer) (l ++ [13])).
      { transitivity (take (List.length buffer) (buffer ++ rest)); [by rewrite take_app_length|].
        rewrite Heq, (app_assoc l crlf s). change crlf with ([13] ++ [10]).
        rewrite (app_assoc l [13] [10]), <- app_assoc. rewrite take_app_le; [done|].
        rewrite length_app. unfold len in Hlt. cbn. lia. }
      destruct (decide (List.length buffer = S (List.length l))) as [He|Hn].
      * rewrite Hb, take_ge; [by apply index_of_crlf_short|]. rewrite length_app. cbn. lia.
      * rewrite Hb, take_app_le by (unfold len in Hlt; lia).
        apply index_of_crlf_short. by apply Forall_take.
    + intros ->. rewrite app_nil_r in Heq. subst. unfold len in Hlt. rewrite !length_app in Hlt.
      cbn in Hlt. lia.
Qed.

Section Body.
Context {W : Type} `{HttpWorldLaws W} `{QtText, HttpText}.

(** What a sink holds. *)
Class SinkData := {
  sink_data : Z -> W -> bytes;
  sink_data_set s i c w : sink_data s (set_conn i c w) = sink_data s w;
  sink_data_progress s t i r n w : sink_data s (on_bodyProgress t i r n w) = sink_data s w;
  sink_data_write s d w :
    (sink_write s d w).1 = len d -> sink_data s (sink_write s d w).2 = sink_data s w ++ d
}.
Context `{SinkData}.

(** The body as far as it has been handed over. *)
Definition kept (i : Z) (w : W) : bytes :=
  match m_sink (conn i w) with Some s => sink_data s w | None => m_body (conn i w) end.
(** The device takes whatever it is given, and [n] more bytes are within the
    ceiling. *)
Definition room (i : Z) (w : W) (n : Z) : Prop :=
  match m_sink (conn i w) with
  | Some s => (0 <= m_maxBodyBytes (conn i w) ->
               m_bodyReceived (conn i w) + n <= m_maxBodyBytes (conn i w))
              /\ forall d w, (sink_write s d w).1 = len d
  | None => len (m_body (conn i w)) + n <= MaxBufferedBody
  end.

Lemma deliver_room t i d w n :
  d <> [] -> 0 <= n -> room i w (len d + n) ->
  let '(ok, w') := deliver t i d w in
  ok = true /\ conn i w' = advance d (conn i w) /\ kept i w' = kept i w ++ d /\ room i w' n.
Proof.
  intros Hd Hn Hr. unfold deliver. rewrite (proj2 (is_empty_false d) Hd).
  unfold room, kept in *. destruct (m_sink (conn i w)) as [sk|] eqn:Es.
  - destruct Hr as [Hmax Hw]. destruct ((0 <=? _) && _) eqn:Ef; [exfalso; lia|].
    pose proof (Hw d w) as Hlen. pose proof (fun j => sink_write_conn sk d j w) as Hsw.
    pose proof (sink_data_write sk d w Hlen) as Hdata.
    destruct (sink_write sk d w) as [k w']. cbn in Hlen, Hsw, Hdata. subst k.
    rewrite Z.eqb_refl. cbn [negb].
    assert (Hc : conn i (on_bodyProgress t i
      (m_bodyReceived (conn i (upd i (fun c => c <| m_bodyReceived ::= fun n => n + len d |>) w')))
      (m_contentLength (conn i (upd i (fun c => c <| m_bodyReceived ::= fun n => n + len d |>) w')))
      (upd i (emit (bodyProgress
        (m_bodyReceived (conn i (upd i (fun c => c <| m_bodyReceived ::= fun n => n + len d |>) w')))
        (m_contentLength (conn i (upd i (fun c => c <| m_bodyReceived ::= fun n => n + len d |>) w')))))
        (upd i (fun c => c <| m_bodyReceived ::= fun n => n + len d |>) w')))
      = advance d (conn i w)).
    { unfold advance. by rewrite bodyProgress_conn, !conn_upd_eq, Hsw, Es. }
    rewrite Hc. destruct (advance_frame d (conn i w)) as (_&_&_&_&_&_&K7&K8&K9&_).
    rewrite K7, Es, K8, K9. split_and!; [done|done| |lia|done].
    rewrite sink_data_progress. unfold upd. by rewrite !sink_data_set.
  - destruct (MaxBufferedBody <? _) eqn:Ef; [exfalso; lia|]. cbn [negb].
    match goal with |- context [on_bodyProgress t i ?r ?n ?w'] =>
      assert (Hc : conn i (on_bodyProgress t i r n w') = advance d (conn i w)) end.
    { unfold advance. by rewrite bodyProgress_conn, !conn_upd_eq, Es. }
    rewrite Hc. destruct (advance_frame d (conn i w)) as (_&_&_&_&_&_&K7&_&_&K10).
    rewrite K7, K10, Es. split_and!; [done|done|done|]. rewrite len_app. lia.
Qed.

(** ** The grammar *)

(** The value of a size line: what precedes any extension, in hexadecimal. *)
Definition size_value (line : bytes) : option Z :=
  toLongLong 16 (trimmed match index_of [59] line with
                         | Some extension => take extension line
                         | None => line
                         end).
(** Trailer lines and the blank line, [n] bytes in all; then anything. *)
Inductive trailer : Z -> bytes -> Prop :=
| tr_end tail : trailer 2 (crlf ++ tail)
| tr_line l n s : one_line l -> l <> [] -> trailer n s -> trailer (len l + 2 + n) (l ++ crlf ++ s).
(** [chunks text payload] *)
Inductive chunks : bytes -> bytes -> Prop :=
| ch_last line n tr :
    one_line line -> len line < MaxHeadSize -> size_value line = Some 0 ->
    trailer n tr -> n <= MaxHeadSize -> chunks (line ++ crlf ++ tr) []
| ch_chunk line d eol s p :
    one_line line -> len line < MaxHeadSize -> size_value line = Some (len d) -> d <> [] ->
    len eol = 2 -> chunks s p -> chunks (line ++ crlf ++ d ++ eol ++ s) (d ++ p).

(** What the text ahead must be in each state of the reader. *)
Definition ahead (c : Conn) (s p : bytes) : Prop :=
  match m_chunkState c with
  | ChunkSize => chunks s p /\ m_trailerBytes c = 0
  | ChunkData =>
      exists d eol s' p', s = d ++ eol ++ s' /\ p = d ++ p' /\ len d = m_chunkRemaining c
        /\ d <> [] /\ len eol = 2 /\ chunks s' p' /\ m_trailerBytes c = 0
  | ChunkCrlf => exists eol s', s = eol ++ s' /\ len eol = 2 /\ chunks s' p /\ m_trailerBytes c = 0
  | ChunkTrailer => p = [] /\ exists n, trailer n s /\ m_trailerBytes c + n <= MaxHeadSize
  | ChunkDone => False
  end.
Record reading (i : Z) (w : W) (rest p : bytes) : Prop := {
  rd_state : m_state (conn i w) = ReadingBody;
  rd_open : m_bodyComplete (conn i w) = false;
  rd_alive : m_closedEmitted (conn i w) = false;
  rd_chunked : m_chunked (conn i w) = true;
  rd_ahead : ahead (conn i w) (m_buffer (conn i w) ++ rest) p;
  rd_room : room i w (len p)
}.

(** The request has been announced, with [p] handed over in all. *)
Definition announced (t i : Z) (w : W) (p : bytes) : Prop :=
  exists w0, w = on_requestReady t i w0 /\ kept i w0 = p
    /\ m_bodyComplete (conn i w0) = true /\ m_state (conn i w0) = ReadingBody
    /\ m_contentLength (conn i w0) = m_bodyReceived (conn i w0).

(** [w'] is [w] after changes to the reader's own position: [c] is what has
    become of the connection. *)
Record moved (i : Z) (w : W) (c : Conn) (w' : W) : Prop := {
  mv_conn : conn i w' = c;
  mv_data s : sink_data s w' = sink_data s w;
  mv_state : m_state c = m_state (conn i w);
  mv_complete : m_bodyComplete c = m_bodyComplete (conn i w);
  mv_closed : m_closedEmitted c = m_closedEmitted (conn i w);
  mv_chunked : m_chunked c = m_chunked (conn i w);
  mv_sink : m_sink c = m_sink (conn i w);
  mv_body : m_body c = m_body (conn i w);
  mv_received : m_bodyReceived c = m_bodyReceived (conn i w);
  mv_max : m_maxBodyBytes c = m_maxBodyBytes (conn i w)
}.
(** The functions that only move the reader. *)
Definition moves (f : Conn -> Conn) : Prop :=
  forall c, m_state (f c) = m_state c /\ m_bodyComplete (f c) = m_bodyComplete c
    /\ m_closedEmitted (f c) = m_closedEmitted c /\ m_chunked (f c) = m_chunked c
    /\ m_sink (f c) = m_sink c /\ m_body (f c) = m_body c
    /\ m_bodyReceived (f c) = m_bodyReceived c /\ m_maxBodyBytes (f c) = m_maxBodyBytes c.
Lemma moved_refl i w : moved i w (conn i w) w.
Proof. by split. Qed.
Lemma moved_upd i f w c w' : moved i w c w' -> moves f -> moved i w (f c) (upd i f w').
Proof.
  intros [M1 M2 M3 M4 M5 M6 M7 M8 M9 M10] Hf. destruct (Hf c) as (F1&F2&F3&F4&F5&F6&F7&F8).
  split; try congruence; [by rewrite conn_upd_eq, M1|]. intros s. unfold upd.
  by rewrite sink_data_set.
Qed.
Lemma moved_kept i w c w' : moved i w c w' -> kept i w' = kept i w.
Proof.
  intros [M1 M2 M3 M4 M5 M6 M7 M8 M9 M10]. unfold kept. rewrite M1, M7, M8.
  destruct (m_sink (conn i w)); [apply M2|done].
Qed.
Lemma moved_room i w c w' n : moved i w c w' -> room i w n -> room i w' n.
Proof.
  intros [M1 M2 M3 M4 M5 M6 M7 M8 M9 M10]. unfold room. by rewrite M1, M7, M8, M9, M10.
Qed.
Ltac solve_moves := intros []; split_and!; done.

(** A turn that went round: the same text lies ahead, less what was taken. *)
Definition progressed (i : Z) (w w' : W) (rest p : bytes) : Prop :=
  exists p', reading i w' rest p' /\ kept i w' ++ p' = kept i w ++ p
    /\ (List.length (m_buffer (conn i w')) < List.length (m_buffer (conn i w)))%nat.
Lemma progress_moved i c w w' rest p :
  reading i w rest p -> moved i w c w' -> ahead c (m_buffer c ++ rest) p ->
  (List.length (m_buffer c) < List.length (m_buffer (conn i w)))%nat ->
  progressed i w w' rest p.
Proof.
  intros [R1 R2 R3 R4 R5 R6] Hm Ha Hl. exists p.
  rewrite (moved_kept _ _ _ _ Hm), (mv_conn _ _ _ _ Hm). split; [|done].
  pose proof (moved_room _ _ _ _ _ Hm R6). destruct Hm.
  split; rewrite ?mv_conn0; congruence || done.
Qed.

Lemma step_size t i w rest p :
  reading i w rest p -> m_chunkState (conn i w) = ChunkSize ->
  let '(again, w') := chunk_step t i w in
  if again then progressed i w w' rest p else w' = w /\ rest <> [].
Proof.
  intros Hr Hs. pose proof (rd_ahead _ _ _ _ Hr) as Ha. unfold ahead in Ha. rewrite Hs in Ha.
  unfold chunk_step. rewrite Hs. destruct Ha as [Hc Htb].
  assert (Hline : exists line s', one_line line /\ len line < MaxHeadSize
    /\ m_buffer (conn i w) ++ rest = line ++ crlf ++ s'
    /\ exists n, size_value line = Some n /\ 0 <= n
       /\ forall c, m_chunkState c = (if n =? 0 then ChunkTrailer else ChunkData) ->
             m_chunkRemaining c = n -> m_trailerBytes c = 0 -> ahead c s' p).
  { inversion Hc as [line n tr Hl Hm Hv Ht Hn Heq Hp|line d eol s p0 Hl Hm Hv Hd He Hcs Heq Hp].
    - exists line, tr. split_and!; [done..|]. exists 0. split_and!; [done|done|].
      intros c Hst _ Hz. cbn in Hst. unfold ahead. rewrite Hst. split; [done|]. exists n. split; [done|lia].
    - exists line, (d ++ eol ++ s). split_and!; [done..|]. exists (len d). split_and!; [done|done|].
      intros c Hst Hrem Hz. destruct (Z.eqb_spec (len d) 0) as [Hld|].
      { destruct d; [done|]. rewrite len_cons in Hld. pose proof (len_nonneg d). lia. }
      unfold ahead. rewrite Hst. by exists d, eol, s, p0. }
  destruct Hline as (line & s' & Hl & Hm & Heq & n & Hv & Hn & Hnext).
  destruct (buffer_line line s' _ rest Hl Heq) as [(Hi & tl & Hb & Htl)|(Hi & Hle & Hne)]; rewrite Hi.
  - set (w1 := upd i _ w). replace (take (List.length line) (m_buffer (conn i w))) with line
      by (rewrite Hb; by rewrite take_app_length).
    change (toLongLong 16 _) with (size_value line). rewrite Hv, (proj2 (Z.ltb_ge _ _)) by done.
    assert (Hm1 : moved i w _ w1) by (apply moved_upd; [apply moved_refl|solve_moves]).
    eapply progress_moved; [done|apply (moved_upd _ _ _ _ _ Hm1); solve_moves| |].
    + assert (Hd : drop (List.length line + 2) (m_buffer (conn i w)) = tl).
      { rewrite Hb, (app_assoc line crlf tl).
        replace (List.length line + 2)%nat with (List.length (line ++ crlf)) by by rewrite length_app.
        apply drop_app_length. }
      cbn. rewrite Hd, Htl. by apply Hnext.
    + cbn. rewrite Hb, length_drop, !length_app. cbn. lia.
  - rewrite (proj2 (Z.ltb_ge _ _)) by (unfold MaxHeadSize in *; lia). done.
Qed.

Lemma qleft_take {A} n (s : list A) : 0 <= n <= len s -> qleft n s = take (Z.to_nat n) s.
Proof.
  intros Hn. unfold qleft. rewrite (proj2 (Z.ltb_ge _ _)) by lia. cbn [orb].
  destruct (Z.leb_spec (len s) n); [|done]. rewrite take_ge; [done|]. unfold len in *. lia.
Qed.
(** The start of a block that is at least partly in the buffer. *)
Lemma split_block (d rest buffer tl : bytes) k :
  buffer ++ rest = d ++ tl -> 0 <= k -> k <= len buffer -> k <= len d ->
  take (Z.to_nat k) buffer = take (Z.to_nat k) d
  /\ drop (Z.to_nat k) buffer ++ rest = drop (Z.to_nat k) d ++ tl.
Proof.
  intros Heq Hk Hb Hd. unfold len in *. split.
  - rewrite <- (take_app_le buffer rest) by lia. rewrite Heq. by rewrite take_app_le by lia.
  - rewrite <- (drop_app_le buffer rest) by lia. rewrite Heq. by rewrite drop_app_le by lia.
Qed.

Lemma step_data t i w rest p :
  reading i w rest p -> m_chunkState (conn i w) = ChunkData ->
  let '(again, w') := chunk_step t i w in
  if again then progressed i w w' rest p else w' = w /\ rest <> [].
Proof.
  intros Hr Hs. pose proof (rd_ahead _ _ _ _ Hr) as Ha. unfold ahead in Ha. rewrite Hs in Ha.
  destruct Ha as (d & eol & s' & p' & Heq & -> & Hrem & Hd & He & Hc & Htb).
  unfold chunk_step. rewrite Hs.
  destruct (is_empty (m_buffer (conn i w))) eqn:Eb.
  { apply is_empty_spec in Eb. split; [done|]. rewrite Eb in Heq. intros ->. by destruct d. }
  apply is_empty_false in Eb. set (k := Z.min _ _).
  assert (Hld : 0 < len d) by (destruct d; [done|]; rewrite len_cons; pose proof (len_nonneg d); lia).
  assert (Hlb : 0 < len (m_buffer (conn i w))).
  { destruct (m_buffer (conn i w)) as [|b0 bs]; [done|]. rewrite len_cons. pose proof (len_nonneg bs). lia. }
  assert (Hk : 0 < k /\ k <= len (m_buffer (conn i w)) /\ k <= len d) by (subst k; rewrite <- Hrem; lia).
  destruct (split_block d rest _ _ k Heq) as [Ht Hdr]; [lia..|].
  rewrite qleft_take by lia. rewrite Ht.
  set (d1 := take (Z.to_nat k) d) in *. set (d2 := drop (Z.to_nat k) d) in *.
  assert (Hd12 : d = d1 ++ d2) by by (symmetry; apply take_drop).
  assert (Hl1 : len d1 = k) by (unfold d1, len in *; rewrite length_take; lia).
  assert (Hd1 : d1 <> []) by (intros Hn; rewrite Hn, len_nil in Hl1; lia).
  set (w1 := upd i _ w).
  assert (Hm1 : moved i w _ w1) by (apply moved_upd; [apply moved_refl|solve_moves]).
  assert (Hroom : room i w1 (len d1 + len (d2 ++ p'))).
  { eapply moved_room; [exact Hm1|]. rewrite len_app, Z.add_assoc, <- !len_app, <- Hd12, len_app.
    pose proof (rd_room _ _ _ _ Hr) as R. by rewrite len_app in R. }
  pose proof (deliver_room t i d1 w1 (len (d2 ++ p')) Hd1 (len_nonneg _) Hroom) as Hdel.
  destruct (deliver t i d1 w1) as [ok w2]. destruct Hdel as (-> & Hc2 & Hk2 & Hr2). cbn [negb].
  rewrite (moved_kept _ _ _ _ Hm1) in Hk2. rewrite (mv_conn _ _ _ _ Hm1) in Hc2.
  set (c1 := (conn i w) <| m_buffer ::= _ |> <| m_chunkRemaining ::= _ |>) in *.
  assert (Hrem1 : m_chunkRemaining (conn i w2) = len d2).
  { rewrite Hc2. transitivity (m_chunkRemaining c1); [unfold advance; by destruct (m_sink c1)|].
    unfold c1. cbn. rewrite <- Hrem, Hd12 at 1. rewrite len_app. lia. }
  assert (Hfr : m_state (conn i w2) = ReadingBody /\ m_bodyComplete (conn i w2) = false
    /\ m_closedEmitted (conn i w2) = false /\ m_chunked (conn i w2) = true
    /\ m_buffer (conn i w2) = drop (Z.to_nat k) (m_buffer (conn i w))
    /\ m_chunkState (conn i w2) = ChunkData /\ m_trailerBytes (conn i w2) = 0).
  { rewrite Hc2. unfold advance. destruct Hr as [R1 R2 R3 R4 _ _].
    destruct (m_sink c1); by split_and!. }
  destruct Hfr as (F1&F2&F3&F4&F5&F6&F7).
  assert (Hlen : (List.length (m_buffer (conn i w2)) < List.length (m_buffer (conn i w)))%nat).
  { rewrite F5, length_drop. unfold len in *. lia. }
  assert (Hkp : kept i w2 ++ d2 ++ p' = kept i w ++ d ++ p').
  { rewrite Hk2, Hd12, <- !app_assoc. done. }
  rewrite Hrem1. destruct (Z.eqb_spec (len d2) 0) as [Hz|Hnz].
  - assert (Hd2 : d2 = []) by (destruct d2; [done|]; rewrite len_cons in Hz; pose proof (len_nonneg d2); lia).
    set (w3 := upd i _ w2).
    assert (Hm3 : moved i w2 _ w3) by (apply moved_upd; [apply moved_refl|solve_moves]).
    exists p'. rewrite (moved_kept _ _ _ _ Hm3), (mv_conn _ _ _ _ Hm3).
    split_and!; [|by rewrite <- Hkp, Hd2|exact Hlen].
    pose proof (moved_room _ _ _ _ _ Hm3 Hr2) as Hr3. rewrite Hd2 in Hr3.
    split; rewrite ?(mv_conn _ _ _ _ Hm3); try done. unfold ahead. cbn. rewrite F5, Hdr, Hd2.
    exists eol, s'. done.
  - exists (d2 ++ p'). split_and!; [|exact Hkp|exact Hlen]. split; try done.
    unfold ahead. rewrite F6, F5, Hdr. exists d2, eol, s', p'. split_and!; try done.
    intros Hn. by rewrite Hn in Hnz.
Qed.

Lemma step_crlf t i w rest p :
  reading i w rest p -> m_chunkState (conn i w) = ChunkCrlf ->
  let '(again, w') := chunk_step t i w in
  if again then progressed i w w' rest p else w' = w /\ rest <> [].
Proof.
  intros Hr Hs. pose proof (rd_ahead _ _ _ _ Hr) as Ha. unfold ahead in Ha. rewrite Hs in Ha.
  destruct Ha as (eol & s' & Heq & He & Hc & Htb). unfold chunk_step. rewrite Hs.
  destruct (Z.ltb_spec (len (m_buffer (conn i w))) 2) as [Hlt|Hge].
  - split; [done|]. intros ->. rewrite app_nil_r in Heq. rewrite Heq, len_app in Hlt.
    pose proof (len_nonneg s'). lia.
  - destruct (split_block eol rest _ _ 2 Heq) as [_ Hdr]; [lia..|].
    replace (drop (Z.to_nat 2) eol) with (@nil Z) in Hdr; last first.
    { symmetry. apply drop_ge. unfold len in He. lia. }
    eapply progress_moved; [done|apply moved_upd; [apply moved_refl|solve_moves]| |].
    + unfold ahead. cbn. split; [|done]. change (chunks (drop 2 (m_buffer (conn i w)) ++ rest) p).
      change (Z.to_nat 2) with 2%nat in Hdr. by rewrite Hdr.
    + cbn -[drop]. rewrite length_drop. unfold len in Hge. lia.
Qed.

Lemma trailer_nonneg n s : trailer n s -> 0 <= n.
Proof. induction 1 as [tl|l n s _ _ _ IH]; [lia|]. pose proof (len_nonneg l). lia. Qed.
Lemma step_trailer t i w rest p :
  reading i w rest p -> m_chunkState (conn i w) = ChunkTrailer ->
  let '(again, w') := chunk_step t i w in
  if again then progressed i w w' rest p
  else (w' = w /\ rest <> []) \/ announced t i w' (kept i w ++ p).
Proof.
  intros Hr Hs. pose proof (rd_ahead _ _ _ _ Hr) as Ha. unfold ahead in Ha. rewrite Hs in Ha.
  destruct Ha as (-> & n & Htr & Hn). unfold chunk_step. rewrite Hs.
  assert (Hline : exists line s' m, one_line line /\ m_buffer (conn i w) ++ rest = line ++ crlf ++ s'
    /\ n = len line + 2 + m /\ 0 <= m /\ (line <> [] -> trailer m s')).
  { inversion Htr as [tail Hz Heq|l m s Hl Hne Ht Hz Heq].
    - exists [], tail, 0. split_and!; [constructor|done|done|done|done].
    - exists l, s, m. split_and!; try done. by apply trailer_nonneg in Ht. }
  destruct Hline as (line & s' & m & Hl & Heq & -> & Hm & Hnext).
  destruct (buffer_line line s' _ rest Hl Heq) as [(Hi & tl & Hb & Htl)|(Hi & Hle & Hne)]; rewrite Hi;
    [|by left].
  set (w1 := upd i _ w).
  assert (Hm1 : moved i w _ w1) by (apply moved_upd; [apply moved_refl|solve_moves]).
  assert (Htb : m_trailerBytes (conn i w1) = m_trailerBytes (conn i w) + (len line + 2)).
  { rewrite (mv_conn _ _ _ _ Hm1). cbn. unfold len. lia. }
  rewrite Htb, (proj2 (Z.ltb_ge _ _)) by lia.
  set (w2 := upd i _ w1).
  assert (Hm2 : moved i w _ w2) by (apply moved_upd; [exact Hm1|solve_moves]).
  assert (Hd : drop (List.length line + 2) (m_buffer (conn i w)) = tl).
  { rewrite Hb, (app_assoc line crlf tl).
    replace (List.length line + 2)%nat with (List.length (line ++ crlf)) by by rewrite length_app.
    apply drop_app_length. }
  destruct line as [|x line].
  - right. cbn [List.length Nat.eqb]. set (w3 := upd i _ w2).
    assert (Hm3 : moved i w _ w3) by (apply moved_upd; [exact Hm2|solve_moves]).
    unfold finishBody.
    replace (m_bodyComplete (conn i w3)) with false
      by (rewrite (mv_conn _ _ _ _ Hm3); symmetry; apply Hr).
    eexists. split; [done|]. split_and!.
    + rewrite app_nil_r. transitivity (kept i w3); [|by eapply moved_kept].
      unfold kept. rewrite conn_upd_eq. cbn. destruct (m_sink (conn i w3)); [|done].
      unfold upd. by rewrite sink_data_set.
    + by rewrite conn_upd_eq.
    + rewrite conn_upd_eq. cbn. rewrite (mv_conn _ _ _ _ Hm3). apply Hr.
    + rewrite conn_upd_eq. cbn. by rewrite (mv_conn _ _ _ _ Hm3).
  - cbn [List.length Nat.eqb]. eapply progress_moved; [done|exact Hm2| |].
    + unfold ahead. cbn -[drop]. rewrite Hs. split; [done|]. exists m.
      change (S (List.length line + 2))%nat with (List.length (x :: line) + 2)%nat. rewrite Hd, Htl.
      split; [by apply Hnext|]. rewrite len_cons in Hn. unfold len in *. lia.
    + cbn -[drop]. change (S (List.length line + 2))%nat with (List.length (x :: line) + 2)%nat.
      rewrite length_drop, Hb, !length_app. cbn. lia.
Qed.

Lemma chunk_loop_reads fuel t i w rest p :
  reading i w rest p -> (List.length (m_buffer (conn i w)) < fuel)%nat ->
  let w' := chunk_loop fuel t i w in
  (rest <> [] /\ exists p', reading i w' rest p' /\ kept i w' ++ p' = kept i w ++ p)
  \/ announced t i w' (kept i w ++ p).
Proof.
  revert w p. induction fuel as [|fuel IH]; intros w p Hr Hf; [lia|]. cbn [chunk_loop].
  assert (Hstep : let '(again, w') := chunk_step t i w in
    if again then progressed i w w' rest p
    else (w' = w /\ rest <> []) \/ announced t i w' (kept i w ++ p)).
  { destruct (m_chunkState (conn i w)) eqn:Es.
    - pose proof (step_size t i w rest p Hr Es) as Hx. destruct (chunk_step t i w) as [[] w']; [done|by left].
    - pose proof (step_data t i w rest p Hr Es) as Hx. destruct (chunk_step t i w) as [[] w']; [done|by left].
    - pose proof (step_crlf t i w rest p Hr Es) as Hx. destruct (chunk_step t i w) as [[] w']; [done|by left].
    - by apply step_trailer.
    - pose proof (rd_ahead _ _ _ _ Hr) as Ha. unfold ahead in Ha. by rewrite Es in Ha. }
  destruct (chunk_step t i w) as [[] w'].
  - destruct Hstep as (p' & Hr' & Hk & Hl). cbv zeta in *.
    destruct (IH w' p' Hr' ltac:(lia)) as [(Hne & p2 & Hr2 & Hk2)|Han].
    + left. split; [done|]. exists p2. split; [done|congruence].
    + right. by rewrite <- Hk.
  - destruct Hstep as [[-> Hne]|Han]; [|by right]. left. split; [done|]. by exists p.
Qed.

(** ** A declared length *)

Record reading_plain (i : Z) (w : W) (rest p tail : bytes) : Prop := {
  rp_state : m_state (conn i w) = ReadingBody;
  rp_open : m_bodyComplete (conn i w) = false;
  rp_alive : m_closedEmitted (conn i w) = false;
  rp_plain : m_chunked (conn i w) = false;
  rp_ahead : m_buffer (conn i w) ++ rest = p ++ tail;
  rp_length : m_contentLength (conn i w) = m_bodyReceived (conn i w) + len p;
  rp_room : room i w (len p)
}.
(** The loop takes what there is, up to the declared length. *)
Lemma plain_loop_reads fuel t i w rest p tail :
  reading_plain i w rest p tail -> (List.length (m_buffer (conn i w)) < fuel)%nat ->
  let '(ok, w') := plain_loop fuel t i w in
  ok = true /\ exists p', reading_plain i w' rest p' tail /\ kept i w' ++ p' = kept i w ++ p
    /\ (p' = [] \/ m_buffer (conn i w') = []).
Proof.
  revert w p. induction fuel as [|fuel IH]; intros w p Hr Hf; [lia|]. cbn [plain_loop].
  pose proof Hr as [R1 R2 R3 R4 R5 R6 R7].
  destruct ((_ <? _) && _) eqn:Eg; last first.
  { split; [done|]. exists p. split_and!; [done|done|].
    apply andb_false_iff in Eg as [Eg|Eg].
    - left. destruct p as [|x p]; [done|]. rewrite len_cons in R6. pose proof (len_nonneg p). lia.
    - right. apply negb_false_iff, is_empty_spec in Eg. done. }
  apply andb_true_iff in Eg as [Elt%Z.ltb_lt Ene%negb_true_iff%is_empty_false].
  set (k := Z.min _ _).
  assert (Hlb : 0 < len (m_buffer (conn i w))).
  { destruct (m_buffer (conn i w)) as [|b0 bs]; [done|]. rewrite len_cons. pose proof (len_nonneg bs). lia. }
  assert (Hk : 0 < k /\ k <= len (m_buffer (conn i w)) /\ k <= len p) by (subst k; lia).
  destruct (split_block p rest _ _ k R5) as [Ht Hdr]; [lia..|].
  rewrite qleft_take by lia. rewrite Ht.
  set (d1 := take (Z.to_nat k) p) in *. set (d2 := drop (Z.to_nat k) p) in *.
  assert (Hd12 : p = d1 ++ d2) by by (symmetry; apply take_drop).
  assert (Hl1 : len d1 = k) by (unfold d1, len in *; rewrite length_take; lia).
  assert (Hd1 : d1 <> []) by (intros Hn; rewrite Hn, len_nil in Hl1; lia).
  set (w1 := upd i _ w).
  assert (Hm1 : moved i w _ w1) by (apply moved_upd; [apply moved_refl|solve_moves]).
  assert (Hroom : room i w1 (len d1 + len d2)).
  { eapply moved_room; [exact Hm1|]. by rewrite <- len_app, <- Hd12. }
  pose proof (deliver_room t i d1 w1 (len d2) Hd1 (len_nonneg _) Hroom) as Hdel.
  destruct (deliver t i d1 w1) as [ok w2]. destruct Hdel as (-> & Hc2 & Hk2 & Hr2). cbn [negb].
  rewrite (moved_kept _ _ _ _ Hm1) in Hk2. rewrite (mv_conn _ _ _ _ Hm1) in Hc2.
  set (c1 := (conn i w) <| m_buffer ::= _ |>) in *.
  assert (Hfr : m_state (conn i w2) = ReadingBody /\ m_bodyComplete (conn i w2) = false
    /\ m_closedEmitted (conn i w2) = false /\ m_chunked (conn i w2) = false
    /\ m_buffer (conn i w2) = drop (Z.to_nat k) (m_buffer (conn i w))
    /\ m_contentLength (conn i w2) = m_bodyReceived (conn i w2) + len d2).
  { assert (Hcl : m_contentLength (conn i w) = m_bodyReceived (conn i w) + len d1 + len d2)
      by (rewrite R6, Hd12, len_app; lia).
    rewrite Hc2. unfold advance. destruct (m_sink c1); by split_and!. }
  destruct Hfr as (F1&F2&F3&F4&F5&F6).
  assert (Hr' : reading_plain i w2 rest d2 tail) by (split; try done; by rewrite F5, Hdr).
  assert (Hlt : (List.length (m_buffer (conn i w2)) < fuel)%nat).
  { rewrite F5, length_drop. unfold len in *. lia. }
  specialize (IH w2 d2 Hr' Hlt). destruct (plain_loop fuel t i w2) as [ok w'].
  destruct IH as (-> & p' & Hp' & Hkp & Hend). split; [done|]. exists p'.
  split_and!; [done| |done]. by rewrite Hkp, Hk2, <- app_assoc, <- Hd12.
Qed.
Lemma finish_announces t i w p :
  m_state (conn i w) = ReadingBody -> m_bodyComplete (conn i w) = false -> kept i w = p ->
  m_contentLength (conn i w) = m_bodyReceived (conn i w) -> announced t i (finishBody t i w) p.
Proof.
  intros Hs Hb Hk Hc. unfold finishBody. rewrite Hb. eexists. split; [done|]. split_and!.
  - rewrite <- Hk. unfold kept. rewrite conn_upd_eq. cbn. destruct (m_sink (conn i w)); [|done].
    unfold upd. by rewrite sink_data_set.
  - by rewrite conn_upd_eq.
  - by rewrite conn_upd_eq.
  - by rewrite conn_upd_eq.
Qed.

(** One block of either body. *)
Lemma feed_moved t i d w :
  m_state (conn i w) = ReadingBody -> m_bodyComplete (conn i w) = false ->
  exists w1, onReadyRead t i d w = consumeBody t i w1
    /\ moved i w ((conn i w) <| m_idleTimer ::= start t |> <| m_buffer ::= fun b => b ++ d |>) w1.
Proof.
  intros Hs Hb. unfold onReadyRead. cbv zeta. set (w1 := upd i _ w).
  assert (Hm1 : moved i w _ w1) by (apply moved_upd; [apply moved_refl|solve_moves]).
  pose proof (mv_conn _ _ _ _ Hm1) as Hc1.
  assert (Hs1 : m_state (conn i w1) = ReadingBody) by (rewrite Hc1; exact Hs).
  assert (Hb1 : m_bodyComplete (conn i w1) = false) by (rewrite Hc1; exact Hb).
  rewrite Hs1, Hb1.
  change (state_is ReadingBody Responded || false) with false. cbv iota.
  set (w2 := upd i _ w1).
  assert (Hm2 : moved i w _ w2) by (apply moved_upd; [exact Hm1|solve_moves]).
  assert (Hs2 : m_state (conn i w2) = ReadingBody) by (rewrite (mv_conn _ _ _ _ Hm2); exact Hs).
  rewrite Hs2. change (state_is ReadingBody ReadingHeaders) with false. cbv iota.
  exists w2. split; [done|exact Hm2].
Qed.

Lemma feed_chunked t i d w rest p :
  reading i w (d ++ rest) p ->
  let w' := onReadyRead t i d w in
  (rest <> [] /\ exists p', reading i w' rest p' /\ kept i w' ++ p' = kept i w ++ p)
  \/ announced t i w' (kept i w ++ p).
Proof.
  intros [R1 R2 R3 R4 R5 R6]. cbv zeta. destruct (feed_moved t i d w R1 R2) as (w1 & -> & Hm).
  assert (Hr : reading i w1 rest p).
  { pose proof (moved_room _ _ _ _ _ Hm R6). split; rewrite ?(mv_conn _ _ _ _ Hm); try done.
    unfold ahead in *. cbn. by rewrite <- app_assoc. }
  rewrite <- (moved_kept _ _ _ _ Hm).
  unfold consumeBody. rewrite (rd_state _ _ _ _ Hr), (rd_open _ _ _ _ Hr), (rd_chunked _ _ _ _ Hr).
  change (negb (state_is ReadingBody ReadingBody) || false) with false. cbv iota.
  apply chunk_loop_reads; [done|lia].
Qed.
Lemma feed_plain t i d w rest p tail :
  reading_plain i w (d ++ rest) p tail ->
  let w' := onReadyRead t i d w in
  (rest <> [] /\ exists p', p' <> [] /\ reading_plain i w' rest p' tail
     /\ kept i w' ++ p' = kept i w ++ p)
  \/ announced t i w' (kept i w ++ p).
Proof.
  intros [R1 R2 R3 R4 R5 R6 R7]. cbv zeta. destruct (feed_moved t i d w R1 R2) as (w1 & -> & Hm).
  assert (Hr : reading_plain i w1 rest p tail).
  { pose proof (moved_room _ _ _ _ _ Hm R7). split; rewrite ?(mv_conn _ _ _ _ Hm); try done.
    cbn. by rewrite <- app_assoc. }
  rewrite <- (moved_kept _ _ _ _ Hm).
  unfold consumeBody. rewrite (rp_state _ _ _ _ _ Hr), (rp_open _ _ _ _ _ Hr), (rp_plain _ _ _ _ _ Hr).
  change (negb (state_is ReadingBody ReadingBody) || false) with false. cbv iota.
  pose proof (plain_loop_reads (List.length (m_buffer (conn i w1)) + 1) t i w1 rest p tail Hr ltac:(lia)) as Hl.
  destruct (plain_loop _ t i w1) as [ok w2]. destruct Hl as (-> & p' & Hp & Hk & Hend). cbn [negb].
  rewrite (rp_length _ _ _ _ _ Hp).
  destruct p' as [|x p'].
  - right. rewrite len_nil, (proj2 (Z.leb_le _ _)) by lia. rewrite app_nil_r in Hk.
    apply finish_announces; [apply Hp|apply Hp|done|]. rewrite (rp_length _ _ _ _ _ Hp), len_nil. lia.
  - left. rewrite len_cons. pose proof (len_nonneg p').
    rewrite (proj2 (Z.leb_gt _ _)) by lia. destruct Hend as [Hn|Hb]; [done|].
    pose proof (rp_ahead _ _ _ _ _ Hp) as Ha. rewrite Hb in Ha. cbn in Ha.
    split; [by rewrite Ha|by exists (x :: p')].
Qed.

(** ** Any segmentation *)

Definition feeds (i : Z) (segments : list (Z * bytes)) : list (Z * event) :=
  map (fun td => (i, Data td.1 td.2)) segments.
Definition received (segments : list (Z * bytes)) : bytes := List.concat (map snd segments).

(** The request was announced by one of the segments, with [p] handed over. *)
Definition announced_within (i : Z) (w : W) (segments : list (Z * bytes)) (p : bytes) : Prop :=
  exists before t d after,
    segments = before ++ (t, d) :: after
    /\ announced t i (run w (feeds i (before ++ [(t, d)]))) p.

Lemma announced_later i w t d segments p :
  announced_within i (handle i w (Data t d)) segments p -> announced_within i w ((t, d) :: segments) p.
Proof.
  intros (b & t' & d' & a & -> & Hs). exists ((t, d) :: b), t', d', a. split; [done|].
  exact Hs.
Qed.
Lemma handle_data i w t d :
  m_closedEmitted (conn i w) = false -> handle i w (Data t d) = onReadyRead t i d w.
Proof. unfold handle. by intros ->. Qed.

Lemma feeds_announce (P : W -> bytes -> bytes -> Prop) i :
  (forall t d w rest p, P w (d ++ rest) p ->
     m_closedEmitted (conn i w) = false
     /\ ((rest <> [] /\ exists p', P (onReadyRead t i d w) rest p'
           /\ kept i (onReadyRead t i d w) ++ p' = kept i w ++ p)
         \/ announced t i (onReadyRead t i d w) (kept i w ++ p))) ->
  forall segments w p,
    received segments <> [] -> P w (received segments) p ->
    announced_within i w segments (kept i w ++ p).
Proof.
  intros Hstep. induction segments as [|[t d] segments IH]; intros w p Hne HP; [done|].
  change (received ((t, d) :: segments)) with (d ++ received segments) in *.
  destruct (Hstep t d w (received segments) p HP) as [Hc [(Hr & p' & HP' & Hk)|Ha]].
  - rewrite <- Hk. apply announced_later. rewrite handle_data by done. by apply IH.
  - exists [], t, d, segments. split; [done|]. cbn. by rewrite handle_data.
Qed.

(** C17: chunked bodies are decoded whatever the network does to them. Let
    [text] be a chunked body for [payload], with extensions, trailers and
    whatever follows it. Cut into any pieces, it makes the connection announce
    the request at one of them, and by then exactly the payload has been
    handed over: to the device, or to the buffer. *)
Theorem chunked_body_decoded i w segments text payload :
  m_state (conn i w) = ReadingBody -> m_bodyComplete (conn i w) = false ->
  m_closedEmitted (conn i w) = false -> m_chunked (conn i w) = true ->
  m_chunkState (conn i w) = ChunkSize -> m_trailerBytes (conn i w) = 0 -> m_buffer (conn i w) = [] ->
  room i w (len payload) ->
  chunks text payload -> received segments = text ->
  announced_within i w segments (kept i w ++ payload).
Proof.
  intros Hs Hb Hc Hch Hcs Htb Hbuf Hroom Htext Hseg.
  apply (feeds_announce (reading i)).
  - intros t d w' rest p Hr. split; [apply Hr|]. by apply feed_chunked.
  - rewrite Hseg. inversion Htext as [line|line]; by destruct line.
  - split; try done. unfold ahead. rewrite Hcs, Hbuf, Hseg. done.
Qed.

(** A body of declared length is read whatever the network does to it:
    the first [m_contentLength] bytes are handed over, and nothing of what
    follows them. *)
Theorem declared_body_read i w segments payload tail :
  m_state (conn i w) = ReadingBody -> m_bodyComplete (conn i w) = false ->
  m_closedEmitted (conn i w) = false -> m_chunked (conn i w) = false ->
  m_bodyReceived (conn i w) = 0 -> m_contentLength (conn i w) = len payload ->
  m_buffer (conn i w) = [] -> room i w (len payload) ->
  payload <> [] -> received segments = payload ++ tail ->
  announced_within i w segments (kept i w ++ payload).
Proof.
  intros Hs Hb Hc Hch Hz Hcl Hbuf Hroom Hne Hseg.
  apply (feeds_announce (fun w rest p => reading_plain i w rest p tail)).
  - intros t d w' rest p Hr. split; [apply Hr|].
    destruct (feed_plain t i d w' rest p tail Hr) as [(Hn & p' & _ & Hr' & Hk)|Ha]; [|by right].
    left. split; [done|]. by exists p'.
  - rewrite Hseg. by destruct payload.
  - split; try done; [by rewrite Hbuf|]. rewrite Hz. lia.
Qed.

(** ** The loops end *)

(** A turn that goes round again took bytes off the buffer, or found an empty
    chunk to leave. *)
Definition turns_left (c : Conn) : nat :=
  (List.length (m_buffer c) + (if bool_decide (m_chunkState c = ChunkData) then 1 else 0))%nat.

Lemma deliver_keeps t i d w :
  let '(ok, w') := deliver t i d w in
  ok = true -> m_buffer (conn i w') = m_buffer (conn i w)
    /\ m_chunkState (conn i w') = m_chunkState (conn i w)
    /\ m_chunkRemaining (conn i w') = m_chunkRemaining (conn i w)
    /\ m_contentLength (conn i w') = m_contentLength (conn i w).
Proof.
  destruct d as [|x d]; [done|]. pose proof (deliver_cases t i (x :: d) w ltac:(done)) as Hd.
  destruct (deliver t i (x :: d) w) as [[] w']; [|done]. intros _. destruct Hd as (_ & -> & _).
  unfold advance. destruct (m_sink (conn i w)); by split_and!.
Qed.
Lemma len_pos {A} (s : list A) : s <> [] -> 0 < len s.
Proof. destruct s as [|x s]; [done|]. intros _. rewrite len_cons. pose proof (len_nonneg s). lia. Qed.
Lemma qmid_shorter {A} k (b : list A) : b <> [] -> 0 < k -> (List.length (qmid k b) < List.length b)%nat.
Proof. intros Hb Hk. unfold qmid. rewrite length_drop. destruct b; [done|]. cbn. lia. Qed.

Lemma index_crlf_room b n : index_of crlf b = Some n -> (n + 2 <= List.length b)%nat.
Proof.
  revert n. induction b as [|x b IH]; intros n; [done|]. cbn [index_of].
  destruct (starts_with crlf (x :: b)) eqn:E.
  - intros [= <-]. apply starts_with_spec in E as [k ->]. rewrite length_app. cbn. lia.
  - intros (m & Hm & ->)%fmap_Some. specialize (IH m Hm). cbn. lia.
Qed.

Lemma chunk_step_turns t i w :
  0 <= m_chunkRemaining (conn i w) ->
  let '(again, w') := chunk_step t i w in
  again = true ->
  0 <= m_chunkRemaining (conn i w') /\ (turns_left (conn i w') < turns_left (conn i w))%nat.
Proof.
  intros Hrem. unfold chunk_step. destruct (m_chunkState (conn i w)) eqn:Es; [| | | |done].
  - destruct (index_of crlf _) as [eol|] eqn:Ei; [|done]. apply index_crlf_room in Ei.
    destruct (toLongLong 16 _) as [n|]; [|done]. destruct (Z.ltb_spec n 0); [done|]. intros _.
    rewrite !conn_upd_eq. unfold turns_left. rewrite Es. cbn -[drop]. rewrite length_drop.
    split; [done|]. repeat case_bool_decide; lia.
  - destruct (is_empty (m_buffer (conn i w))) eqn:Eb; [done|]. apply is_empty_false in Eb.
    set (k := Z.min _ _). set (w1 := upd i _ w). pose proof (deliver_keeps t i (qleft k (m_buffer (conn i w))) w1) as Hd.
    destruct (deliver t i _ w1) as [[] w2]; [|done]. destruct (Hd eq_refl) as (D1 & D2 & D3 & _).
    cbn [negb]. intros _. unfold w1 in D1, D2, D3. rewrite conn_upd_eq in D1, D2, D3. cbn in D1, D2, D3.
    assert (Hk : 0 <= k /\ k <= m_chunkRemaining (conn i w)) by (subst k; pose proof (len_nonneg (m_buffer (conn i w))); lia).
    unfold turns_left. rewrite Es. destruct (Z.eqb_spec (m_chunkRemaining (conn i w2)) 0) as [Hz|Hz].
    + rewrite conn_upd_eq. cbn. rewrite D1, D3. split; [lia|]. unfold qmid. rewrite length_drop.
      repeat case_bool_decide; try done; lia.
    + rewrite D1, D2, D3, Es. split; [lia|].
      assert (0 < k) by (pose proof (len_pos _ Eb); subst k; lia).
      pose proof (qmid_shorter k _ Eb ltac:(lia)). case_bool_decide; lia.
  - destruct (Z.ltb_spec (len (m_buffer (conn i w))) 2); [done|]. intros _. rewrite conn_upd_eq.
    unfold turns_left. rewrite Es. cbn -[drop]. rewrite length_drop. unfold len in *. split; [done|]. repeat case_bool_decide; try done; lia.
  - destruct (index_of crlf _) as [eol|] eqn:Ei; [|done]. apply index_crlf_room in Ei. cbv zeta.
    destruct (MaxHeadSize <? _); [done|]. destruct (Nat.eqb eol 0); [done|]. intros _.
    rewrite !conn_upd_eq. unfold turns_left. cbn -[drop]. rewrite Es, length_drop. split; [done|]. case_bool_decide; lia.
Qed.
Lemma chunk_loop_enough t i fuel k w :
  0 <= m_chunkRemaining (conn i w) -> (turns_left (conn i w) < fuel)%nat ->
  chunk_loop (fuel + k) t i w = chunk_loop fuel t i w.
Proof.
  revert w. induction fuel as [|fuel IH]; intros w Hr Hf; [lia|]. cbn [chunk_loop Nat.add].
  pose proof (chunk_step_turns t i w Hr) as Hs. destruct (chunk_step t i w) as [[] w']; [|done].
  destruct (Hs eq_refl). apply IH; [done|lia].
Qed.
Lemma plain_loop_enough t i fuel k w :
  (List.length (m_buffer (conn i w)) < fuel)%nat ->
  plain_loop (fuel + k) t i w = plain_loop fuel t i w.
Proof.
  revert w. induction fuel as [|fuel IH]; intros w Hf; [lia|]. cbn [plain_loop Nat.add].
  destruct (_ && _) eqn:Eg; [|done].
  apply andb_true_iff in Eg as [Elt%Z.ltb_lt Ene%negb_true_iff%is_empty_false].
  set (n := Z.min _ _). set (w1 := upd i _ w). pose proof (deliver_keeps t i (qleft n (m_buffer (conn i w))) w1) as Hd.
  destruct (deliver t i _ w1) as [[] w2]; [|done]. destruct (Hd eq_refl) as (D1 & _). cbn [negb].
  apply IH. rewrite D1. unfold w1. rewrite conn_upd_eq. cbn.
  assert (0 < n) by (pose proof (len_pos _ Ene); subst n; lia).
  pose proof (qmid_shorter n _ Ene ltac:(lia)). lia.
Qed.

(** The body loops end. Every turn that goes round again leaves fewer to
    come ([turns_left]), so any number of turns above it gives the same state:
    the one the program's loops, which have no limit, stop in. It holds
    whatever the buffer contains and however the handlers answer meanwhile. *)
Theorem body_loops_end t i w fuel :
  (0 <= m_chunkRemaining (conn i w) -> (turns_left (conn i w) < fuel)%nat ->
     chunk_loop fuel t i w = consumeChunkedBody t i w)
  /\ ((List.length (m_buffer (conn i w)) < fuel)%nat ->
      plain_loop fuel t i w = plain_loop (List.length (m_buffer (conn i w)) + 1) t i w).
Proof.
  split.
  - intros Hr Hf. unfold consumeChunkedBody.
    set (n := (List.length (m_buffer (conn i w)) + 2)%nat).
    assert (Hn : (turns_left (conn i w) < n)%nat) by (subst n; unfold turns_left; case_bool_decide; lia).
    destruct (Nat.le_ge_cases fuel n) as [Hl|Hl].
    + replace n with (fuel + (n - fuel))%nat by lia. symmetry. by apply chunk_loop_enough.
    + replace fuel with (n + (fuel - n))%nat by lia. by apply chunk_loop_enough.
  - intros Hf. replace fuel with (List.length (m_buffer (conn i w)) + 1 + (fuel - (List.length (m_buffer (conn i w)) + 1)))%nat by lia.
    apply plain_loop_enough. lia.
Qed.

End Body.
