(* ===== verification/HttpFrame.v ===== *)
(** * HttpFrame: what a connection can do to the world around it

    A connection reaches the world through [set_conn], its sink and its four
    signals. What these keep, every event of a connection keeps; the clients
    of the HTTP server prove their invariants through this. [Framed] is for
    invariants that know nothing of a connection, [Metered] for those that tie
    what a device holds to the account its connection keeps. *)
From S2P Require Import Prelude Crypto HttpConnection HttpFacts.

Module HttpFrame.
Import HttpConnection.

Section HttpFrame.
Context {W : Type} `{HttpWorld W} `{QtText, HttpText}.

(** A predicate the six effects of a connection preserve. *)
Class Framed (P : W -> Prop) : Prop := {
  framed_conn i c w : P w -> P (set_conn i c w);
  framed_sink s d w : P w -> P (sink_write s d w).2;
  framed_headers t i w : P w -> P (on_headersReady t i w);
  framed_request t i w : P w -> P (on_requestReady t i w);
  framed_progress t i r n w : P w -> P (on_bodyProgress t i r n w);
  framed_closed t i w : P w -> P (on_closed t i w)
}.

Context (P : W -> Prop) `{!Framed P}.
#[local] Hint Extern 1 (P _) => first
  [apply framed_conn|apply framed_sink|apply framed_headers|apply framed_request|apply framed_progress
  |apply framed_closed] : frame.

Lemma frame_upd i f w : P w -> P (upd i f w).
Proof. apply framed_conn. Qed.
#[local] Hint Resolve frame_upd : frame.

Lemma frame_deliver t i d w : P w -> P (deliver t i d w).2.
Proof.
  intros Hw. unfold deliver. destruct (is_empty d); [done|].
  destruct (m_sink (conn i w)) as [s|].
  - destruct (_ && _); [cbn; auto with frame|].
    pose proof (framed_sink s d w Hw) as Hs. destruct (sink_write s d w) as [n w']. cbn [snd] in Hs.
    destruct (n =? len d); cbn; auto 6 with frame.
  - destruct (_ <? _); cbn; auto 8 with frame.
Qed.
#[local] Hint Resolve frame_deliver : frame.
Lemma frame_finishBody t i w : P w -> P (finishBody t i w).
Proof. intros Hw. unfold finishBody. destruct (m_bodyComplete _); auto with frame. Qed.
#[local] Hint Resolve frame_finishBody : frame.

Lemma frame_plain_loop n t i w : P w -> P (plain_loop n t i w).2.
Proof.
  revert w. induction n as [|n IH]; intros w Hw; [done|]. cbn [plain_loop]. cbv zeta.
  destruct (_ && _); [|done]. set (w' := upd i _ w). set (d := qleft _ _).
  pose proof (frame_deliver t i d w' (frame_upd _ _ _ Hw)) as Hd.
  destruct (deliver t i d w') as [ok w'']. cbn [snd] in Hd. destruct ok; cbn; auto.
Qed.
Lemma frame_chunk_step t i w : P w -> P (chunk_step t i w).2.
Proof.
  intros Hw. unfold chunk_step. destruct (m_chunkState (conn i w)); cbv zeta.
  - repeat case_match; cbn; auto with frame.
  - destruct (is_empty _); [done|]. set (w' := upd i _ w). set (d := qleft _ _).
    pose proof (frame_deliver t i d w' (frame_upd _ _ _ Hw)) as Hd.
    destruct (deliver t i d w') as [ok w'']. cbn [snd] in Hd. destruct ok; cbn; [|done].
    case_match; auto with frame.
  - case_match; cbn; auto with frame.
  - repeat case_match; cbn; auto 8 with frame.
  - done.
Qed.
Lemma frame_chunk_loop n t i w : P w -> P (chunk_loop n t i w).
Proof.
  revert w. induction n as [|n IH]; intros w Hw; [done|]. cbn [chunk_loop].
  pose proof (frame_chunk_step t i w Hw) as Hs. destruct (chunk_step t i w) as [[] w']; auto.
Qed.
Lemma frame_consumeBody t i w : P w -> P (consumeBody t i w).
Proof.
  intros Hw. unfold consumeBody. cbv zeta. destruct (_ || _); [done|].
  destruct (m_chunked _); [by apply frame_chunk_loop|].
  pose proof (frame_plain_loop (List.length (m_buffer (conn i w)) + 1) t i w Hw) as Hp.
  destruct (plain_loop _ _ _ _) as [ok w']. cbn [snd] in Hp.
  repeat case_match; auto with frame.
Qed.
#[local] Hint Resolve frame_consumeBody : frame.

Lemma frame_onReadyRead t i d w : P w -> P (onReadyRead t i d w).
Proof.
  intros Hw. unfold onReadyRead. cbv zeta. set (w1 := upd i _ w).
  assert (P w1) as Hw1 by (unfold w1; auto with frame). clearbody w1.
  destruct (_ || _); [done|]. set (w2 := upd i _ w1).
  assert (P w2) as Hw2 by (unfold w2; auto with frame). clearbody w2.
  destruct (state_is _ _); [|auto with frame]. destruct (index_of _ _); [|case_match; auto with frame].
  set (w3 := upd i _ w2). assert (P w3) as Hw3 by (unfold w3; auto with frame). clearbody w3.
  destruct (parseHead _ _ _) as [ok c]. destruct ok; [|cbn; auto with frame]. cbn [negb].
  set (w4 := upd i _ (set_conn i c w3)). assert (P w4) as Hw4 by (unfold w4; auto with frame). clearbody w4.
  destruct (qeq _ _); [auto with frame|].
  set (w5 := on_headersReady t i _). assert (P w5) as Hw5 by (unfold w5; auto with frame). clearbody w5.
  destruct (negb _); [done|]. case_match; auto with frame.
Qed.
Lemma frame_onDisconnected t i w : P w -> P (onDisconnected t i w).
Proof. intros Hw. unfold onDisconnected. cbv zeta. case_match; auto with frame. Qed.
Lemma frame_onIdleTimeout t i w : P w -> P (onIdleTimeout t i w).
Proof.
  intros Hw. unfold onIdleTimeout, abort. cbv zeta. repeat case_match; auto using frame_onDisconnected with frame.
Qed.

(** Every event of a connection keeps what its effects keep. *)
Lemma frame_handle i w e : P w -> P (handle i w e).
Proof.
  intros Hw. unfold handle. cbv zeta. destruct (m_closedEmitted _); [done|]. destruct e.
  - by apply frame_onReadyRead.
  - case_match; [|done]. by apply frame_onIdleTimeout.
  - case_match; [|done]. unfold onHeaderDeadline. cbv zeta. case_match; auto with frame.
  - by apply frame_onDisconnected.
Qed.
End HttpFrame.

(** ** Invariants over the account of a body *)

(** What every step but the delivery of a block does to a connection: it
    stays on its device and ceiling, takes nothing back, and once answered
    it stays answered. *)
Record tame (c c' : Conn) : Prop := {
  ta_sink : m_sink c' = m_sink c;
  ta_max : m_maxBodyBytes c' = m_maxBodyBytes c;
  ta_received : m_bodyReceived c <= m_bodyReceived c';
  ta_open : m_state c' <> Responded -> m_state c <> Responded
}.
#[export] Instance tame_preorder : PreOrder tame.
Proof.
  split; [by intros c; split|]. intros a b c [? ? ? ?] [? ? ? ?]. split; [congruence|congruence|lia|auto].
Qed.
Lemma tame_respond t st p ct c : tame c (respond t st p ct c).
Proof.
  destruct (respond_cases t st p ct c) as [[_ ->]|(Hs & Hs' & _ & _ & _ & _ & _ & _ & Hk & Hr & Hm & _)]; [done|].
  split; [done..|rewrite Hr; lia|done].
Qed.
Lemma tame_fail t st c : tame c (fail t st c).
Proof. exact (tame_respond t st [] json_type c). Qed.
Lemma tame_answers t c c' : answers t c c' -> tame c c'.
Proof.
  induction 1 as [|n v c' _ IH|s p ct c' _ _ IH]; [done|..].
  - etransitivity; [exact IH|]. by split.
  - etransitivity; [exact IH|]. apply tame_respond.
Qed.
(** For an update of other fields. *)
#[local] Ltac solve_tame :=
  lazymatch goal with
  | |- tame _ (fail _ _ _) => apply tame_fail
  | |- tame _ (respond _ _ _ _ _) => apply tame_respond
  | |- _ => split; [reflexivity|reflexivity|apply Z.le_refl|first [done|intros Hr; by destruct Hr]]
  end.
Lemma tame_parseHead `{QtText, HttpText} t head c : tame c (parseHead t head c).2.
Proof.
  unfold parseHead. destruct (split_on 10 head) as [|first lines]; [apply tame_fail|].
  destruct (split_on 32 (trimmed first)) as [|method [|target rest]]; [apply tame_fail..|].
  destruct (parse_lines _ _) as [[] headers]; cbn [negb snd].
  - match goal with |- context [if ?b then _ else _] => destruct b end; solve_tame.
  - etransitivity; [|apply tame_fail]. solve_tame.
Qed.

Section Metered.
Context {W : Type} `{HttpWorldLaws W} `{QtText, HttpText}.

Class Metered (P : W -> Prop) : Prop := {
  metered_conn i c w : tame (conn i w) c -> P w -> P (set_conn i c w);
  metered_deliver t i d w : m_state (conn i w) = ReadingBody -> P w -> P (deliver t i d w).2;
  metered_headers t i w : P w -> P (on_headersReady t i w);
  metered_request t i w : P w -> P (on_requestReady t i w);
  metered_closed t i w : P w -> P (on_closed t i w)
}.
Context (P : W -> Prop) `{!Metered P}.

Lemma meter_upd i f w : tame (conn i w) (f (conn i w)) -> P w -> P (upd i f w).
Proof. apply metered_conn. Qed.
Lemma meter_fail i t st w : P w -> P (upd i (fail t st) w).
Proof. apply meter_upd, tame_fail. Qed.
#[local] Hint Extern 1 (tame _ _) => solve_tame : meter.
#[local] Hint Resolve meter_upd meter_fail : meter.
(** The connection is still reading its body. *)
#[local] Abbreviation reading i w := (m_state (conn i w) = ReadingBody).
Lemma reading_upd i f w : m_state (f (conn i w)) = m_state (conn i w) -> reading i w -> reading i (upd i f w).
Proof. intros Hf Hs. by rewrite conn_upd_eq, Hf. Qed.

Lemma meter_finishBody t i w : P w -> P (finishBody t i w).
Proof.
  intros Hw. unfold finishBody. destruct (m_bodyComplete _); [done|]. apply metered_request. auto with meter.
Qed.
Lemma meter_block t i d w :
  reading i w -> P w ->
  P (deliver t i d w).2 /\ ((deliver t i d w).1 = true -> reading i (deliver t i d w).2).
Proof.
  intros Hs Hw. split; [by apply metered_deliver|]. pose proof (deliver_reading t i d w Hs) as Hd.
  by destruct (deliver t i d w).
Qed.
Lemma meter_plain_loop n t i w :
  reading i w -> P w -> P (plain_loop n t i w).2.
Proof.
  revert w. induction n as [|n IH]; intros w Hs Hw; [done|]. cbn [plain_loop]. cbv zeta.
  destruct (_ && _); [|done]. set (w1 := upd i _ w). set (d := qleft _ _).
  destruct (meter_block t i d w1) as [Hd Hr]; [by apply reading_upd|unfold w1; auto with meter|].
  destruct (deliver t i d w1) as [ok w2]. cbn [fst snd] in Hd, Hr. destruct ok; cbn [negb]; [|done].
  apply IH; [by apply Hr|done].
Qed.
Lemma meter_chunk_step t i w :
  reading i w -> P w ->
  P (chunk_step t i w).2 /\ ((chunk_step t i w).1 = true -> reading i (chunk_step t i w).2).
Proof.
  intros Hs Hw. unfold chunk_step. destruct (m_chunkState (conn i w)); cbv zeta.
  - destruct (index_of _ _) as [eol|]; cbn [fst snd];
      [|split; [case_match; auto with meter|done]].
    set (w1 := upd i _ w). assert (Hw1 : P w1) by (unfold w1; auto with meter).
    assert (Hs1 : reading i w1) by by apply reading_upd. clearbody w1.
    assert (Hfail : forall n, P (upd i (fun c => c <| m_chunkRemaining := n |> |>> fail t 400) w1)).
    { intros n. apply meter_upd; [|done]. etransitivity; [|apply tame_fail]. solve_tame. }
    destruct (toLongLong _ _) as [n|]; cbn [fst snd]; [|done]. destruct (n <? 0); cbn [fst snd]; [done|].
    split; [auto with meter|]. intros _. by apply reading_upd.
  - destruct (is_empty _); [done|]. set (w1 := upd i _ w). set (d := qleft _ _).
    destruct (meter_block t i d w1) as [Hd Hr]; [by apply reading_upd|unfold w1; auto with meter|].
    destruct (deliver t i d w1) as [ok w2]. cbn [fst snd] in Hd, Hr. destruct ok; cbn [negb fst snd]; [|done].
    specialize (Hr eq_refl). case_match; [|done]. split; [auto with meter|]. intros _. by apply reading_upd.
  - case_match; [done|]. split; [cbn [snd]; auto with meter|]. intros _. by apply reading_upd.
  - destruct (index_of _ _) as [eol|]; [|done].
    set (w1 := upd i _ w). assert (Hw1 : P w1) by (unfold w1; auto with meter).
    assert (Hs1 : reading i w1) by by apply reading_upd. clearbody w1.
    destruct (MaxHeadSize <? _); cbn [fst snd]; [split; [auto with meter|done]|].
    set (w2 := upd i _ w1). assert (Hw2 : P w2) by (unfold w2; auto with meter).
    assert (Hs2 : reading i w2) by by apply reading_upd. clearbody w2.
    destruct (Nat.eqb _ _); cbn [fst snd]; [|done]. split; [|done]. apply meter_finishBody. auto with meter.
  - done.
Qed.
Lemma meter_chunk_loop n t i w : reading i w -> P w -> P (chunk_loop n t i w).
Proof.
  revert w. induction n as [|n IH]; intros w Hs Hw; [done|]. cbn [chunk_loop].
  destruct (meter_chunk_step t i w Hs Hw) as [Hc Hr]. destruct (chunk_step t i w) as [[] w']; [|done].
  apply IH; [by apply Hr|done].
Qed.
Lemma meter_consumeBody t i w : P w -> P (consumeBody t i w).
Proof.
  intros Hw. unfold consumeBody. cbv zeta. destruct (state_is _ _) eqn:Hs; cbn [negb orb]; [|done].
  apply state_is_spec in Hs. destruct (m_bodyComplete _); [done|].
  destruct (m_chunked _); [by apply meter_chunk_loop|].
  pose proof (meter_plain_loop (List.length (m_buffer (conn i w)) + 1) t i w Hs Hw) as Hp.
  destruct (plain_loop _ _ _ _) as [ok w']. cbn [snd] in Hp.
  destruct ok; cbn [negb]; [|done]. case_match; [by apply meter_finishBody|done].
Qed.

Lemma meter_onReadyRead t i d w : P w -> P (onReadyRead t i d w).
Proof.
  intros Hw. unfold onReadyRead. cbv zeta. set (w1 := upd i _ w).
  assert (Hw1 : P w1) by (unfold w1; auto with meter). clearbody w1.
  destruct (_ || _); [done|]. set (w2 := upd i _ w1).
  assert (Hw2 : P w2) by (unfold w2; auto with meter). clearbody w2.
  destruct (state_is _ _) eqn:Hs; [|by apply meter_consumeBody]. apply state_is_spec in Hs.
  destruct (index_of _ _); [|case_match; auto with meter].
  set (w3 := upd i _ w2). assert (Hw3 : P w3) by (unfold w3; auto with meter).
  assert (Hs3 : m_state (conn i w3) = ReadingHeaders) by (unfold w3; by rewrite conn_upd_eq).
  set (head := take _ _). clearbody w3 head.
  pose proof (tame_parseHead t head (conn i w3)) as Hp. pose proof (parseHead_state t head (conn i w3)) as Hps.
  destruct (parseHead t head (conn i w3)) as [ok c]. cbn [snd] in Hp.
  pose proof (metered_conn i c w3 Hp Hw3) as Hw4. destruct ok; cbn [negb]; [|done].
  specialize (Hps eq_refl). rewrite Hs3 in Hps.
  assert (Hc4 : conn i (set_conn i c w3) = c) by apply conn_set_eq.
  set (w4 := set_conn i c w3) in *. clearbody w4.
  set (w5 := upd i _ w4). assert (Hw5 : P w5).
  { apply meter_upd; [|done]. rewrite Hc4. split; cbn; [done|done|lia|congruence]. } clearbody w5.
  destruct (qeq _ _); [apply meter_upd; [apply tame_respond|done]|].
  set (w6 := on_headersReady t i _). assert (Hw6 : P w6) by (apply metered_headers; auto with meter). clearbody w6.
  destruct (negb _); [done|]. apply meter_consumeBody. case_match; auto with meter.
Qed.
Lemma meter_onDisconnected t i w : P w -> P (onDisconnected t i w).
Proof.
  intros Hw. unfold onDisconnected. cbv zeta. case_match; [done|]. apply metered_closed. auto with meter.
Qed.

(** Every event of a connection keeps what is kept by the delivery of a block
    and by everything that leaves the account alone. *)
Lemma meter_handle i w e : P w -> P (handle i w e).
Proof.
  intros Hw. unfold handle. cbv zeta. destruct (m_closedEmitted _); [done|]. destruct e.
  - by apply meter_onReadyRead.
  - case_match; [|done]. unfold onIdleTimeout, abort. cbv zeta.
    repeat case_match; auto using meter_onDisconnected with meter.
  - case_match; [|done]. unfold onHeaderDeadline. cbv zeta. case_match; auto with meter.
  - by apply meter_onDisconnected.
Qed.
End Metered.
End HttpFrame.
