(* ===== verification/ReferenceHttp.v ===== *)
(** * A reference world for the HTTP reader

    Connections and sinks in two maps, handlers that stream a POST to sink 1
    and answer 200 when the request is there; a number parser and a URL
    splitter. The witnesses of HttpFacts and HttpBody run on it. *)
From S2P Require Import Prelude Json Crypto Reference HttpConnection HttpFacts HttpBody.
Import HttpConnection Reference.

Module ReferenceHttp.

Record ToyWorld := mkToy { toy_conns : gmap Z Conn; toy_sinks : gmap Z bytes }.
#[export] Instance eta_ToyWorld : Settable ToyWorld := fun r => mkToy (toy_conns r) (toy_sinks r).

Definition toy_conn (i : Z) (w : ToyWorld) : Conn := default (Conn0 0 [] None) (toy_conns w !! i).
Definition toy_set (i : Z) (c : Conn) (w : ToyWorld) : ToyWorld := w <| toy_conns ::= <[i := c]> |>.
Definition toy_upd (i : Z) (f : Conn -> Conn) (w : ToyWorld) : ToyWorld := toy_set i (f (toy_conn i w)) w.

#[export] Instance toy_world : HttpWorld ToyWorld := {|
  conn := toy_conn;
  set_conn := toy_set;
  sink_write := fun s d w => (len d, w <| toy_sinks ::= fun m => <[s := default [] (m !! s) ++ d]> m |>);
  on_headersReady := fun t i w =>
    toy_upd i (fun c => if qeq (m_method c) (lit "POST") then streamBodyTo t 1 100 c else c) w;
  on_requestReady := fun t i w => toy_upd i (respond t 200 (lit "{}") json_type) w;
  on_bodyProgress := fun _ _ _ _ w => w;
  on_closed := fun _ _ w => w
|}.

Lemma toy_get_eq i c w : toy_conn i (toy_set i c w) = c.
Proof. unfold toy_conn, toy_set. cbn. by rewrite lookup_insert_eq. Qed.
Lemma toy_get_ne i j c w : i <> j -> toy_conn j (toy_set i c w) = toy_conn j w.
Proof. intros ?. unfold toy_conn, toy_set. cbn. by rewrite lookup_insert_ne. Qed.

#[export] Instance toy_laws : HttpWorldLaws ToyWorld.
Proof.
  split.
  - apply toy_get_eq.
  - apply toy_get_ne.
  - done.
  - done.
  - intros t i w. cbn. unfold toy_upd. rewrite toy_get_eq. destruct (qeq _ _).
    + eapply prep_stream; [apply prep_answers|]; apply ans_refl.
    + apply prep_answers, ans_refl.
  - intros t i j w Hj. cbn. unfold toy_upd. rewrite toy_get_ne by done. apply ans_refl.
  - intros t i j w. cbn. unfold toy_upd. destruct (decide (i = j)) as [<-|Hj].
    + rewrite toy_get_eq. apply ans_respond; [apply json_type_one_line|apply ans_refl].
    + rewrite toy_get_ne by done. apply ans_refl.
  - intros t i j w. apply ans_refl.
Qed.

#[export] Program Instance toy_sink_data : SinkData := {|
  sink_data := fun s w => default [] (toy_sinks w !! s)
|}.
Next Obligation. done. Qed.
Next Obligation. done. Qed.
Next Obligation. intros s d w _. cbn. by rewrite lookup_insert_eq. Qed.

(** Digits of the base only, and at least one. *)
Definition digit_value (c : Z) : Z :=
  if (48 <=? c) && (c <=? 57) then c - 48
  else if (97 <=? c) && (c <=? 102) then c - 87
  else if (65 <=? c) && (c <=? 70) then c - 55 else 99.
Definition parse_digits (base : Z) (s : bytes) : option Z :=
  foldl (fun acc c => acc ≫= fun n => if digit_value c <? base then Some (n * base + digit_value c) else None)
    (Some 0) s.
#[export] Instance toy_http_text : HttpText := {|
  url_path := fun target => default [] (head (split_on 63 target));
  url_query := fun target =>
    match split_on 63 target with
    | _ :: q :: _ => omap (fun kv => match split_on 61 kv with k :: v :: _ => Some (k, v) | _ => None end)
                          (split_on 38 q)
    | _ => []
    end;
  toLongLong := fun base s => if is_empty s then None else parse_digits base s
|}.

(** An empty world; every connection is freshly accepted. *)
Definition nothing : ToyWorld := mkToy ∅ ∅.
Definition ln (s : string) : bytes := lit s ++ crlf.
Definition post_head : bytes :=
  ln "POST /upload?sessionId=a&token=b HTTP/1.1" ++ ln "Content-Length: 5" ++ ln "Expect: 100-continue"
  ++ ln "content-length:5" ++ crlf.
Definition posts : list (Z * event) :=
  [(1, Data 0 (take 20 post_head)); (2, Data 1 (ln "GET / HTTP/1.1" ++ crlf)); (1, Data 2 (drop 20 post_head));
   (1, Data 3 (lit "he")); (2, Gone 4); (1, Data 5 (lit "llo, world")); (1, Gone 6)].

Lemma fresh : forall j, exists t address certificate, conn j nothing = Conn0 t address certificate.
Proof. intros j. exists 0, [], None. done. Defined.

Lemma one_request_one_answer_witness :
  let c := conn 1 (run nothing posts) in
  List.length (s_written c) = 2%nat /\ (emissions requestReady c <= 1)%nat.
Proof.
  split; [vm_compute; reflexivity|].
  exact (proj1 (proj2 (proj1 (one_request_one_answer nothing posts 1 fresh)))).
Defined.

Definition ok_response : bytes := render 200 (lit "{}") json_type [].
Lemma ok_response_written : ok_response ∈ s_written (conn 1 (run nothing posts)).
Proof. apply (bool_decide_unpack _). vm_compute. exact I. Qed.
Lemma response_framing_witness : ok_response = continue_line \/ framed ok_response.
Proof. exact (response_framing nothing posts 1 ok_response fresh ok_response_written). Defined.

Lemma body_within_bounds_witness :
  let c := conn 1 (run nothing posts) in
  m_sink c = Some 1 /\ m_bodyReceived c = 5 /\ m_bodyReceived c <= 100.
Proof.
  cbv zeta. assert (Hs : m_sink (conn 1 (run nothing posts)) = Some 1) by (vm_compute; reflexivity).
  split; [exact Hs|]. split; [vm_compute; reflexivity|].
  assert (Hm : m_maxBodyBytes (conn 1 (run nothing posts)) = 100) by (vm_compute; reflexivity).
  pose proof (body_within_bounds nothing posts 1 fresh) as Hb. cbv zeta in Hb.
  rewrite Hs, Hm in Hb. apply Hb. discriminate.
Defined.

Lemma headers_unambiguous_witness :
  let first := lit "POST / HTTP/1.1" in
  let rest := lit "Host: a" ++ 10 :: lit "host:b" in
  (parseHead 0 (first ++ 10 :: rest) (Conn0 0 [] None)).1 = false
  /\ m_state (parseHead 0 (first ++ 10 :: rest) (Conn0 0 [] None)).2 = Responded.
Proof.
  cbv zeta. split; [vm_compute; reflexivity|].
  pose proof (headers_unambiguous 0 (lit "POST / HTTP/1.1") (lit "Host: a" ++ 10 :: lit "host:b")
    (Conn0 0 [] None) eq_refl) as Hp. cbv zeta in Hp.
  assert (Hn : ~ In 10 (lit "POST / HTTP/1.1")) by (rewrite <- list_elem_of_In; apply (bool_decide_unpack _); vm_compute; exact I).
  specialize (Hp Hn).
  destruct (parseHead 0 (lit "POST / HTTP/1.1" ++ 10 :: lit "Host: a" ++ 10 :: lit "host:b") (Conn0 0 [] None))
    as [ok c] eqn:Eh.
  apply (proj2 (proj2 Hp)). change ok with (fst (ok, c)). rewrite <- Eh. vm_compute. reflexivity.
Defined.

(** Refused for its length, and still sending. *)
Definition refused : ToyWorld :=
  run nothing [(1, Data 0 (ln "POST / HTTP/1.1" ++ ln "Content-Length: 999999" ++ crlf))].
Lemma drain_is_rearmed_witness :
  let w' := run refused (map (fun b => (1, Data b.1 b.2)) ([(4000, [0]); (8000, [0])] ++ [(12000, [0])])) in
  handle 1 w' (IdleFires 16000) = w'.
Proof.
  pose proof (drain_is_rearmed refused 1 [(4000, [0]); (8000, [0])] 12000 [0]) as Hp.
  destruct Hp as [_ Hp]; [vm_compute; reflexivity..|]. apply Hp. reflexivity.
Defined.

(** A request that is complete and waits for an answer. *)
Definition parked : ToyWorld :=
  toy_set 1 ((Conn0 0 [] None) <| m_state := ReadingBody |> <| m_bodyComplete := true |>
               <| m_idleTimer ::= HttpConnection.stop |>) nothing.
Lemma parked_request_times_out_witness :
  let w' := run parked [(1, Data 1000 [10]); (1, IdleFires 61000)] in
  s_written (conn 1 w') = [render 408 [] json_type []].
Proof.
  pose proof (parked_request_times_out parked 1 1000 [10]) as Hp.
  destruct Hp as [Hp _]; [vm_compute; reflexivity..|]. exact Hp.
Defined.

Lemma toy_room i w n :
  m_sink (conn i w) = Some 1 ->
  (m_bodyReceived (conn i w) + n <=? m_maxBodyBytes (conn i w)) = true -> room i w n.
Proof. intros Hs Hn. unfold room. rewrite Hs. split; [lia|done]. Qed.

(** The head of a chunked POST has been read. *)
Definition chunked_start : ToyWorld :=
  run nothing [(1, Data 0 (ln "POST / HTTP/1.1" ++ ln "Transfer-Encoding: chunked" ++ crlf))].
Definition chunked_text : bytes :=
  lit "5;name=x" ++ crlf ++ lit "hello" ++ crlf ++ lit "0" ++ crlf ++ lit "Trailer: x" ++ crlf ++ crlf ++ lit "GET".
Lemma chunked_grammar : chunks chunked_text (lit "hello").
Proof.
  rewrite <- (app_nil_r (lit "hello")). unfold chunked_text.
  apply (ch_chunk (lit "5;name=x") (lit "hello") crlf); [by apply (bool_decide_unpack _)|done|done|done|done|].
  apply (ch_last (lit "0") 14); [by apply (bool_decide_unpack _)|done|done| |done].
  apply (tr_line (lit "Trailer: x") 2); [by apply (bool_decide_unpack _)|done|]. apply tr_end.
Qed.
Lemma chunked_body_decoded_witness :
  let segments := [(1, take 3 chunked_text); (2, take 9 (drop 3 chunked_text)); (3, drop 12 chunked_text)] in
  announced_within 1 chunked_start segments (kept 1 chunked_start ++ lit "hello").
Proof.
  apply (chunked_body_decoded 1 chunked_start
    [(1, take 3 chunked_text); (2, take 9 (drop 3 chunked_text)); (3, drop 12 chunked_text)]
    chunked_text (lit "hello")); try (vm_compute; reflexivity).
  - apply toy_room; vm_compute; reflexivity.
  - exact chunked_grammar.
Defined.

Definition plain_start : ToyWorld :=
  run nothing [(1, Data 0 (ln "POST / HTTP/1.1" ++ ln "Content-Length: 5" ++ crlf))].
Lemma declared_body_read_witness :
  announced_within 1 plain_start [(1, lit "he"); (2, lit "llo, world")]
    (kept 1 plain_start ++ lit "hello").
Proof.
  apply (declared_body_read 1 plain_start [(1, lit "he"); (2, lit "llo, world")] (lit "hello") (lit ", world"));
    try (vm_compute; reflexivity).
  - apply toy_room; vm_compute; reflexivity.
  - vm_compute. discriminate.
Defined.

Lemma body_loops_end_witness :
  let w := toy_upd 1 (fun c => c <| m_buffer := chunked_text |>) chunked_start in
  chunk_loop 1000 0 1 w = consumeChunkedBody 0 1 w.
Proof.
  cbv zeta. apply (proj1 (body_loops_end 0 1 (toy_upd 1 (fun c => c <| m_buffer := chunked_text |>) chunked_start) 1000)).
  - vm_compute. discriminate.
  - apply Nat.ltb_lt. vm_compute. reflexivity.
Defined.

End ReferenceHttp.
