(* ===== verification/HttpServer.v ===== *)
(** * HttpServer: the listener of src/src/httpserver.cpp

    The sockets it has accepted, each from the handshake to its destruction,
    and the count that limits them. What the operating system answers
    ([listen], [setSocketDescriptor]) comes with the call. *)
From S2P Require Import Prelude Json Crypto HttpConnection.

Module HttpServer.

Definition MaxConnections : Z := 24.
Definition HandshakeTimeoutMs : Z := 15 * 1000.

(** A tracked socket. [doomed] is a pending [deleteLater()], of the socket or
    of the connection that owns it; an adopted one belongs to an
    [HttpConnection]. *)
Record Socket := mkSocket {
  tls : bool; encrypted : bool; connected : bool; adopted : bool; doomed : bool;
  handshakeTimer : option Z
}.
#[export] Instance eta_Socket : Settable Socket := fun r =>
  mkSocket (tls r) (encrypted r) (connected r) (adopted r) (doomed r) (handshakeTimer r).

Record HttpServer := mkServer {
  m_lastError : qstring;
  m_certificate : option bytes;          (* None for a null one *)
  m_key : option bytes;
  m_liveConnections : Z;
  listening : option Z;                  (* the port bound *)
  sockets : gmap Z Socket;
  connectionReady : list Z;              (* emitted for these sockets, newest first *)
  refused : list Z
}.
#[export] Instance eta_HttpServer : Settable HttpServer := fun r =>
  mkServer (m_lastError r) (m_certificate r) (m_key r) (m_liveConnections r) (listening r) (sockets r)
    (connectionReady r) (refused r).
Definition HttpServer0 : HttpServer := mkServer [] None None 0 None ∅ [] [].

Definition setIdentity (certificate key : option bytes) (s : HttpServer) : HttpServer :=
  s <| m_certificate := certificate |> <| m_key := key |>.
Definition isSecure (s : HttpServer) : bool :=
  bool_decide (is_Some (m_certificate s)) && bool_decide (is_Some (m_key s)).
Definition liveConnections (s : HttpServer) : Z := m_liveConnections s.
Definition isListening (s : HttpServer) : bool := bool_decide (is_Some (listening s)).
Definition boundPort (s : HttpServer) : Z := default 0 (listening s).
Definition lastError (s : HttpServer) : qstring := m_lastError s.

Definition stop (s : HttpServer) : HttpServer :=
  if isListening s then s <| listening := None |> else s.
(** [listened]: [listen]'s answer, an error text when it is refused. *)
Definition start (port : Z) (listened : option qstring) (s : HttpServer) : bool * HttpServer :=
  let s := stop s in
  match listened with
  | Some error => (false, s <| m_lastError := error |>)
  | None => (true, s <| listening := Some port |> <| m_lastError := [] |>)
  end.

Definition track (d : Z) (socket : Socket) (s : HttpServer) : HttpServer :=
  s <| m_liveConnections ::= Z.succ |> <| sockets ::= <[d := socket]> |>.
Definition adopt (d : Z) (s : HttpServer) : HttpServer :=
  s <| sockets ::= alter (fun k => k <| adopted := true |>) d |> <| connectionReady ::= cons d |>.

Definition incomingConnection (t d : Z) (descriptor_ok : bool) (s : HttpServer) : HttpServer :=
  if MaxConnections <=? m_liveConnections s then s <| refused ::= cons d |>
  else if negb (isSecure s)
  then
    if negb descriptor_ok then s
    else adopt d (track d (mkSocket false false true false false None) s)
  else
    if negb descriptor_ok then s
    else track d (mkSocket true false true false false (Some (t + HandshakeTimeoutMs))) s.

(** The lambdas wired up there, and the end of a socket. *)
Definition onEncrypted (d : Z) (s : HttpServer) : HttpServer :=
  adopt d (s <| sockets ::= alter (fun k => k <| encrypted := true |>) d |>).
Definition onError (d : Z) (s : HttpServer) : HttpServer :=
  s <| sockets ::= alter (fun k => k <| doomed := true |>) d |>.
Definition onHandshakeTimeout (d : Z) (s : HttpServer) : HttpServer :=
  s <| sockets ::= alter (fun k =>
    let k := k <| handshakeTimer := None |> in
    if negb (encrypted k) then k <| connected := false |> else k) d |>.   (* abort() *)
Definition onConnectionClosed (d : Z) (s : HttpServer) : HttpServer :=
  s <| sockets ::= alter (fun k => k <| connected := false |> <| doomed := true |>) d |>.
Definition onDestroyed (d : Z) (s : HttpServer) : HttpServer :=
  s <| sockets ::= delete d |> <| m_liveConnections ::= Z.pred |>.

(** What can happen. [abort()] closes the socket: it reports a disconnection
    and no error, so nothing more comes from it; only a doomed socket is
    destroyed. *)
Inductive step (s : HttpServer) : HttpServer -> Prop :=
| st_identity certificate key : step s (setIdentity certificate key s)
| st_start port listened : step s (start port listened s).2
| st_stop : step s (stop s)
| st_incoming t d descriptor_ok :
    sockets s !! d = None -> step s (incomingConnection t d descriptor_ok s)
| st_encrypted d k :
    sockets s !! d = Some k -> tls k = true -> encrypted k = false -> connected k = true ->
    step s (onEncrypted d s)
| st_error d k : sockets s !! d = Some k -> tls k = true -> connected k = true -> step s (onError d s)
| st_timeout t d k :
    sockets s !! d = Some k -> handshakeTimer k = Some t -> step s (onHandshakeTimeout d s)
| st_closed d k : sockets s !! d = Some k -> adopted k = true -> step s (onConnectionClosed d s)
| st_destroyed d k : sockets s !! d = Some k -> doomed k = true -> step s (onDestroyed d s).
Inductive reachable : HttpServer -> Prop :=
| reach_start : reachable HttpServer0
| reach_step s s' : reachable s -> step s s' -> reachable s'.

(** ** The invariant *)

Definition times_ready (d : Z) (s : HttpServer) : nat :=
  List.length (List.filter (Z.eqb d) (connectionReady s)).

Record server_ok (s : HttpServer) : Prop := {
  so_count : m_liveConnections s = Z.of_nat (size (sockets s));
  so_bound : m_liveConnections s <= MaxConnections;
  so_adopted : map_Forall (fun d k => adopted k = (negb (tls k) || encrypted k)) (sockets s)
}.

Lemma size_alter {A} (f : A -> A) d (m : gmap Z A) : size (alter f d m) = size m.
Proof. by rewrite <- !size_dom, dom_alter_L. Qed.
Lemma Forall_alter {A} (P : Z -> A -> Prop) f d (m : gmap Z A) :
  map_Forall P m -> (forall k, m !! d = Some k -> P d k -> P d (f k)) -> map_Forall P (alter f d m).
Proof.
  intros Hm Hf i k [(<- & y & Hy & ->)|[? Hk]]%lookup_alter_Some; [by apply Hf, Hm|by eapply Hm].
Qed.
Lemma server_ok_alter f d s :
  server_ok s ->
  (forall k, sockets s !! d = Some k -> adopted k = (negb (tls k) || encrypted k) ->
     adopted (f k) = (negb (tls (f k)) || encrypted (f k))) ->
  server_ok (s <| sockets ::= alter f d |>).
Proof. intros [J1 J2 J3] Hf. split; [cbn; by rewrite size_alter|done|by apply Forall_alter]. Qed.
Lemma server_ok_eq s s' :
  server_ok s -> m_liveConnections s' = m_liveConnections s -> sockets s' = sockets s -> server_ok s'.
Proof. intros [J1 J2 J3] E1 E2. split; by rewrite ?E1, ?E2. Qed.
(** Accepting a socket that is, or is about to be, in the state it claims. *)
Lemma server_ok_track d k s :
  server_ok s -> sockets s !! d = None -> m_liveConnections s < MaxConnections ->
  adopted k = (negb (tls k) || encrypted k) -> server_ok (track d k s).
Proof.
  intros [J1 J2 J3] Hd Hlt Hk. split; cbn; [rewrite map_size_insert_None by done; lia|lia|].
  by apply map_Forall_insert_2.
Qed.

Lemma step_ok s s' : server_ok s -> step s s' -> server_ok s'.
Proof.
  intros Hs [? ?|port [?|]| |t d ok Hd|d k Hk Ht He Hc|d k Hk Ht Hc|t d k Hk Ht|d k Hk Ha|d k Hk Hx].
  - by apply (server_ok_eq s).
  - unfold start, stop. destruct (isListening s); by apply (server_ok_eq s).
  - unfold start, stop. destruct (isListening s); by apply (server_ok_eq s).
  - unfold stop. destruct (isListening s); by apply (server_ok_eq s).
  - unfold incomingConnection. destruct (Z.leb_spec MaxConnections (m_liveConnections s)).
    { by apply (server_ok_eq s). }
    destruct (isSecure s), ok; cbn [negb]; try done; [by apply server_ok_track|].
    apply (server_ok_eq (track d (mkSocket false false true true false None) s)).
    + by apply server_ok_track.
    + done.
    + cbn. by rewrite alter_insert_eq.
  - unfold onEncrypted, adopt.
    apply (server_ok_eq (s <| sockets ::= alter (fun k => k <| encrypted := true |> <| adopted := true |>) d |>)).
    + apply server_ok_alter; [done|]. intros k' Hk' _. cbn. by rewrite orb_true_r.
    + done.
    + cbn. by rewrite alter_alter_eq.
  - apply server_ok_alter; [done|]. by intros [].
  - apply server_ok_alter; [done|]. intros [? [] ? ? ? ?]; done.
  - apply server_ok_alter; [done|]. by intros [].
  - destruct Hs as [J1 J2 J3]. unfold onDestroyed.
    assert (size (sockets s) <> 0%nat) by (apply map_size_non_empty_iff; intros He; by rewrite He, lookup_empty in Hk).
    split; cbn; [rewrite map_size_delete_Some by eauto; lia|lia|by apply map_Forall_delete].
Qed.

(** C30: the listener's limits. In every state it can reach, the count of live
    connections is the number of sockets it holds and never passes
    [MaxConnections]; and a socket has been handed to the receive service
    exactly when it is a plain one or its TLS handshake has finished. *)
Theorem slots_are_bounded s :
  reachable s ->
  m_liveConnections s = Z.of_nat (size (sockets s)) /\ m_liveConnections s <= MaxConnections
  /\ forall d k, sockets s !! d = Some k -> adopted k = true <-> (tls k = false \/ encrypted k = true).
Proof.
  intros Hr. assert (Hs : server_ok s).
  { induction Hr as [|s s' _ IH Hst]; [|by eapply step_ok]. split; [done|done|apply map_Forall_empty]. }
  destruct Hs as [J1 J2 J3]. split_and!; [done|done|]. intros d k Hk. rewrite (J3 d k Hk).
  destruct (tls k), (encrypted k); cbn; naive_solver.
Qed.

(** ** The handshake timer *)

(** Cut off by the handshake timer: closed, never adopted, never deleted. *)
Definition cut_off (k : Socket) : bool :=
  tls k && negb (encrypted k) && negb (connected k) && negb (doomed k) && negb (adopted k).
Definition cut_off_count (s : HttpServer) : nat := size (filter (fun dk => cut_off dk.2 = true) (sockets s)).

Lemma cut_off_step s s' d k :
  step s s' -> sockets s !! d = Some k -> cut_off k = true ->
  exists k', sockets s' !! d = Some k' /\ cut_off k' = true.
Proof.
  intros Hst Hk Hc. unfold cut_off in *.
  destruct k as [kt ke kc ka kd kh]; cbn in *. rewrite !andb_true_iff, !negb_true_iff in Hc.
  destruct Hc as ((((-> & ->) & ->) & ->) & ->).
  destruct Hst as [? ?|port [?|]| |t d' ok Hd|d' k' Hk' Ht He Hcn|d' k' Hk' Ht Hcn|t d' k' Hk' Ht|d' k' Hk' Ha|d' k' Hk' Hx];
    try (unfold start, stop; destruct (isListening s); by eexists).
  - assert (d <> d') by (intros ->; by rewrite Hk in Hd).
    unfold incomingConnection. destruct (_ <=? _), (isSecure s), ok; cbn;
      rewrite ?lookup_alter_ne, ?lookup_insert_ne by done; by eauto.
  - destruct (decide (d = d')) as [<-|]; [rewrite Hk in Hk'; by simplify_eq|].
    cbn. rewrite !lookup_alter_ne by done. by eexists.
  - destruct (decide (d = d')) as [<-|]; [rewrite Hk in Hk'; by simplify_eq|].
    cbn. rewrite !lookup_alter_ne by done. by eexists.
  - cbn. destruct (decide (d = d')) as [<-|]; [|rewrite lookup_alter_ne by done; by eexists].
    rewrite lookup_alter_eq, Hk. by eexists.
  - destruct (decide (d = d')) as [<-|]; [rewrite Hk in Hk'; by simplify_eq|].
    cbn. rewrite !lookup_alter_ne by done. by eexists.
  - destruct (decide (d = d')) as [<-|]; [rewrite Hk in Hk'; by simplify_eq|].
    cbn. rewrite lookup_delete_ne by done. by eexists.
Qed.

(** A socket that lets its handshake time out keeps its slot. The timer
    aborts the socket but nothing deletes it, and the slot is given back only
    on destruction: whatever happens afterwards it is still counted. Two dozen
    of them leave the listener refusing everybody, the state the handshake
    timeout is there to prevent. *)
Theorem handshake_timeout_keeps_slot s s' d k t :
  reachable s -> sockets s !! d = Some k -> handshakeTimer k = Some t ->
  encrypted k = false -> doomed k = false -> tls k = true ->
  rtc step (onHandshakeTimeout d s) s' ->
  (exists k', sockets s' !! d = Some k' /\ cut_off k' = true)
  /\ (Z.of_nat (cut_off_count s') = MaxConnections ->
      forall now e ok, sockets (incomingConnection now e ok s') = sockets s').
Proof.
  intros Hr Hk Ht He Hd Htls Hsteps.
  assert (Hok : forall x, reachable x -> server_ok x).
  { intros x Hx. induction Hx as [|x x' _ IH Hst]; [|by eapply step_ok]. split; [done|done|apply map_Forall_empty]. }
  assert (Hcut : exists k', sockets (onHandshakeTimeout d s) !! d = Some k' /\ cut_off k' = true).
  { cbn. rewrite lookup_alter_eq, Hk. eexists. split; [done|].
    pose proof (so_adopted _ (Hok s Hr) d k Hk) as Ha. cbn in Ha.
    destruct k; cbn in *. subst. cbn. done. }
  assert (Hr' : reachable (onHandshakeTimeout d s)) by (eapply reach_step, st_timeout; eauto).
  clear Hk Ht He Hd Htls. induction Hsteps as [x|x y z Hst _ IH].
  - split; [done|]. intros Hn now e ok. unfold incomingConnection.
    assert (MaxConnections <= m_liveConnections x).
    { rewrite (so_count _ (Hok x Hr')). rewrite <- Hn. apply inj_le.
      unfold cut_off_count. apply map_subseteq_size, map_filter_subseteq. }
    rewrite (proj2 (Z.leb_le _ _)) by done. done.
  - apply IH; [|by eapply reach_step]. destruct Hcut as (k' & Hk' & Hc'). by eapply cut_off_step.
Qed.

Definition quiet_server : HttpServer := setIdentity (Some [1]) (Some [2]) HttpServer0.
Lemma quiet_reachable : reachable quiet_server.
Proof. exact (reach_step _ _ reach_start (st_identity HttpServer0 (Some [1]) (Some [2]))). Qed.
Definition one_silent : HttpServer := incomingConnection 0 7 true quiet_server.
Lemma silent_reachable : reachable one_silent.
Proof. apply (reach_step _ _ quiet_reachable). by constructor. Qed.
Lemma slots_are_bounded_witness : m_liveConnections one_silent <= MaxConnections /\ m_liveConnections one_silent = 1.
Proof. split; [exact (proj1 (proj2 (slots_are_bounded one_silent silent_reachable)))|reflexivity]. Defined.
Lemma handshake_timeout_keeps_slot_witness :
  exists k', sockets (onHandshakeTimeout 7 one_silent) !! 7 = Some k' /\ cut_off k' = true.
Proof.
  exact (proj1 (handshake_timeout_keeps_slot one_silent (onHandshakeTimeout 7 one_silent) 7
    (mkSocket true false true false false (Some HandshakeTimeoutMs)) HandshakeTimeoutMs silent_reachable
    eq_refl eq_refl eq_refl eq_refl eq_refl (rtc_refl _ _))).
Defined.

End HttpServer.
