(* ===== verification/SendService.v ===== *)
(** * SendService: src/src/sendservice.cpp, sendservice.h

    The sending side: the request for permission, the PIN, one upload after
    another, and every way it ends. The settings, the transfer, the history and
    the known devices are the shared objects it points to; what it posts is
    outstanding until an event finishes it. *)
From S2P Require Import Prelude QtArg Json Crypto Reference Protocol DeviceInfo SecureStore Certificate TlsClient.
From S2P Require Import KnownDevices AppSettings HistoryModel SelectionModel DeviceModel Network TransferModel.
Import DeviceInfo QtArg.

(** Whether the [n]-th file opened for reading opens. *)
Class OpenFiles := { file_opens : nat -> qstring -> bool }.

Module SendService.

(** ** State *)

Inductive signal := busyChanged | pinRequired (retry : bool) | declined | finished (status : qstring) (fileCount : Z).
(** The slot a reply is connected to; an upload's progress goes to its row. *)
Inductive Slot := OnPrepare | OnUpload (trackedRow : Z) | OnDiscard.
#[export] Instance Slot_eq_dec : EqDecision Slot.
Proof. solve_decision. Defined.

#[local] Existing Instances AppSettings.eta_AppSettings TransferModel.eta_FileEntry TransferModel.eta_TransferModel.

Section SendService.
Context `{OpenSSL, QtText, QHashOrder, Platform, JsonText, X509, AppPaths, SettingsHost, UrlText, LocalFiles, OpenFiles}.
Context {S : Type} `{StoredFiles S}.

Record World := mkWorld {
  m_settings : AppSettings.AppSettings (S := S);
  m_transfer : TransferModel.TransferModel;
  m_history : HistoryModel.HistoryModel (S := S);
  m_known : option (KnownDevices.KnownDevices (S := S));
  m_peer : DeviceInfo;
  m_sessionId : qstring;
  m_reply : option Z;
  m_currentFile : option qstring;          (* the file open for reading *)
  m_currentRow : Z;
  m_busy : bool;
  m_cancelled : bool;
  m_pinAttempted : bool;
  replies : gmap Z Slot;                   (* outstanding *)
  next_id : Z;
  opens : nat;
  sent : list Request;                     (* newest first *)
  emitted : list signal                    (* newest first *)
}.
#[export] Instance eta_World : Settable World := fun r =>
  mkWorld (m_settings r) (m_transfer r) (m_history r) (m_known r) (m_peer r) (m_sessionId r) (m_reply r)
    (m_currentFile r) (m_currentRow r) (m_busy r) (m_cancelled r) (m_pinAttempted r) (replies r) (next_id r)
    (opens r) (sent r) (emitted r).
Definition World0 (settings : AppSettings.AppSettings (S := S)) (transfer : TransferModel.TransferModel)
    (history : HistoryModel.HistoryModel (S := S)) (known : option (KnownDevices.KnownDevices (S := S))) : World :=
  mkWorld settings transfer history known DeviceInfo0 [] None None (-1) false false false ∅ 0 0 [] [].

Definition isBusy (w : World) : bool := m_busy w.
Definition emit (s : signal) (w : World) : World := w <| emitted ::= cons s |>.
Definition transfer (f : TransferModel.TransferModel -> TransferModel.TransferModel) (w : World) : World :=
  w <| m_transfer ::= f |>.
Definition entry (row : Z) (w : World) : TransferModel.FileEntry := TransferModel.entry row (m_transfer w).
Definition fileCount (w : World) : nat := List.length (TransferModel.m_files (m_transfer w)).
Definition setState (t : Z) (s : TransferModel.State) (error : qstring) : World -> World :=
  transfer (TransferModel.setState t s error).
Definition setFileStatus (t row : Z) (st : TransferModel.FileStatus) (error : qstring) : World -> World :=
  transfer (TransferModel.setFileStatus t row st error).
(** [m_busy = false; emit busyChanged(); emit finished(...)]. *)
Definition idle (status : qstring) (count : Z) (w : World) : World :=
  w <| m_busy := false |> |>> emit busyChanged |>> emit (finished status count).
Definition our_tls (w : World) : TlsClient.TlsConfig :=
  TlsClient.configure (Certificate.certificate (AppSettings.identity (m_settings w)))
    (Certificate.privateKey (AppSettings.identity (m_settings w))).
(** A post, pinned to the peer's fingerprint: its number, and the world. *)
Definition post (u : Url) (contentType : bytes) (contentLength : option Z) (body : Body) (slot : Slot) (w : World)
    : Z * World :=
  (next_id w,
   w <| sent ::= cons (mkRequest u contentType contentLength body (Some (our_tls w))
                         (TlsClient.Pin (fingerprint (m_peer w)))) |>
     <| replies ::= <[next_id w := slot]> |> <| next_id ::= Z.succ |>).
Definition apiUrl (path : qstring) (w : World) : Url := parse_url (apiBase (m_peer w) ++ path).

(** ** Files and records *)

Definition closeCurrentFile (w : World) : World := w <| m_currentFile := None |>.
Definition sent_entries (m : TransferModel.TransferModel) : list TransferModel.FileEntry :=
  List.filter (fun e => TransferModel.status_is (TransferModel.status e) TransferModel.FileDone)
    (TransferModel.m_files m).
Definition writeHistory (t : Z) (w : World) : World :=
  if negb (AppSettings.historyEnabled (m_settings w)) then w
  else
    let '(id, w) := if is_empty (m_sessionId w)
                    then let '(token, p) := Protocol.generateToken (AppSettings.pool (m_settings w)) in
                         (token, w <| m_settings ::= fun s => s <| AppSettings.pool := p |> |>)
                    else (m_sessionId w, w) in
    let entries := sent_entries (m_transfer w) in
    let record := HistoryModel.mkHistoryRecord id (lit "send") (alias (m_peer w)) (deviceType (m_peer w)) (Some t)
                    (map TransferModel.fileName entries)
                    (foldl (fun acc e => wrap64 (acc + TransferModel.size e)) 0 entries)
                    (TransferModel.stateName (m_transfer w)) [] in
    if negb (is_empty (HistoryModel.fileNames record))
    then w <| m_history ::= HistoryModel.append record |> else w.

Definition notifyPeerCancelled (w : World) : World :=
  if is_empty (m_sessionId w) || is_empty (address (m_peer w)) then w
  else (post ((apiUrl Protocol.PathCancel w) <| url_query := [(lit "sessionId", m_sessionId w)] |>)
          json_content None (Bytes []) OnDiscard w).2.

(** ** Ends *)

Definition rows (w : World) : list nat := seq 0 (fileCount w).
(** The loops that give up rows, over every row. *)
Definition skip_if (p : TransferModel.FileStatus -> bool) (t : Z) (w : World) (row : nat) : World :=
  if p (TransferModel.status (entry (Z.of_nat row) w))
  then setFileStatus t (Z.of_nat row) TransferModel.FileSkipped [] w else w.
Definition waiting (st : TransferModel.FileStatus) : bool := TransferModel.status_is st TransferModel.FileWaiting.
Definition unfinished (st : TransferModel.FileStatus) : bool :=
  waiting st || TransferModel.status_is st TransferModel.FileTransferring.

Definition failTransfer (t : Z) (message : qstring) (w : World) : World :=
  let w := closeCurrentFile w in
  let w := foldl (skip_if waiting t) w (rows w) in
  let w := setState t TransferModel.Failed message w in
  let w := if 0 <? TransferModel.completedCount (m_transfer w) then writeHistory t w else w in
  w <| m_busy := false |> <| m_sessionId := [] |> |>> emit busyChanged
    |>> emit (finished (lit "failed") (TransferModel.completedCount (m_transfer w))).
Definition sent_text (done total : Z) : qstring :=
  arg (number total) (arg (number done) (lit "%1 of %2 files were sent")).
Definition completeTransfer (t : Z) (w : World) : World :=
  let done := TransferModel.completedCount (m_transfer w) in
  let total := TransferModel.fileCount (m_transfer w) in
  let w := if done =? total then setState t TransferModel.Finished [] w
           else if 0 <? done then setState t TransferModel.Failed (sent_text done total) w
           else setState t TransferModel.Failed (lit "Nothing was sent") w in
  let w := if bool_decide (is_Some (m_known w)) && (0 <? done)
           then w <| m_known ::= fmap (KnownDevices.remember t (fingerprint (m_peer w)) (alias (m_peer w))) |> else w in
  let w := writeHistory t w in
  w <| m_busy := false |> <| m_sessionId := [] |> |>> emit busyChanged
    |>> emit (finished (TransferModel.stateName (m_transfer w)) done).

(** ** One file after another *)

Definition octet_content : bytes := lit "application/octet-stream".
Definition upload (t : Z) (row : Z) (w : World) : World :=
  let e := entry row w in
  let u := (apiUrl Protocol.PathUpload w)
             <| url_query := [(lit "sessionId", m_sessionId w); (lit "fileId", TransferModel.id e);
                              (lit "token", TransferModel.token e)] |> in
  let w := setFileStatus t row TransferModel.FileTransferring [] w in
  let '(id, w) := post u octet_content (Some (TransferModel.size e)) (File (TransferModel.localPath e))
                    (OnUpload row) w in
  w <| m_reply := Some id |>.
(** The search for the next row that waits; a file that does not open fails
    and the search goes on after it. *)
Fixpoint next_file (t : Z) (candidates : list nat) (w : World) : World :=
  match candidates with
  | [] => completeTransfer t w
  | row :: candidates =>
      let row := Z.of_nat row in
      if negb (waiting (TransferModel.status (entry row w))) then next_file t candidates w
      else
        let w := w <| m_currentRow := row |> in
        let path := TransferModel.localPath (entry row w) in
        let opened := file_opens (opens w) path in
        let w := w <| opens ::= Datatypes.S |> in
        if negb opened
        then setFileStatus t row TransferModel.FileFailed (lit "Could not open the file") w |>> next_file t candidates
        else upload t row (w <| m_currentFile := Some path |>)
  end.
Definition startNextFile (t : Z) (w : World) : World :=
  let w := closeCurrentFile w in
  if m_cancelled w then w
  else let first := Z.to_nat (m_currentRow w + 1) in next_file t (seq first (fileCount w - first)) w.

Definition onUploadFinished (t : Z) (o : Outcome) (w : World) : World :=
  if m_cancelled w then w
  else if bool_decide (out_error o = None) && (200 <=? out_status o) && (out_status o <? 300)
  then setFileStatus t (m_currentRow w) TransferModel.FileDone [] w |>> startNextFile t
  else if out_status o =? 409
  then setFileStatus t (m_currentRow w) TransferModel.FileFailed (lit "The transfer was stopped") w
         |>> failTransfer t (arg (alias (m_peer w)) (lit "%1 stopped the transfer"))
  else setFileStatus t (m_currentRow w) TransferModel.FileFailed (default (lit "Unknown error") (out_error o)) w |>> startNextFile t.

(** ** Asking *)

Definition descriptor (e : TransferModel.FileEntry) : jobject :=
  []
  |>> jinsert (lit "id") (JString (TransferModel.id e))
  |>> jinsert (lit "fileName") (JString (TransferModel.fileName e))
  |>> jinsert (lit "size") (JNum (double_of_Z (TransferModel.size e)))
  |>> jinsert (lit "fileType") (JString (TransferModel.fileType e)).
Definition offered (entries : list TransferModel.FileEntry) : jobject :=
  foldl (fun files e => jinsert (TransferModel.id e) (JObject (descriptor e)) files) [] entries.
Definition payload (w : World) : jobject :=
  []
  |>> jinsert (lit "info") (JObject (toRegisterBody (AppSettings.self (m_settings w))))
  |>> jinsert (lit "files") (JObject (offered (TransferModel.m_files (m_transfer w)))).
Definition requestUpload (pin : qstring) (w : World) : World :=
  let u := apiUrl Protocol.PathPrepareUpload w in
  let u := if negb (is_empty pin) then u <| url_query := [(lit "pin", pin)] |> else u in
  let '(id, w) := post u json_content None (Bytes (to_json (JObject (payload w)))) OnPrepare w in
  w <| m_reply := Some id |>.

Definition variant_string (v : variant) : qstring :=
  match v with
  | VString s => s
  | VInt z => number z
  | VBool b => if b then lit "true" else lit "false"
  | _ => []
  end.
Definition variant_int (v : variant) : Z :=
  match v with
  | VInt z => z
  | VString s => default 0 (string_to_int s)
  | VBool b => if b then 1 else 0
  | _ => 0
  end.
Definition device_value (key : string) (d : variant) (device : list (qstring * variant)) : variant :=
  default d (snd <$> List.find (fun kv => qeq kv.1 (lit key)) device).
Definition device_text (key : string) (device : list (qstring * variant)) : qstring :=
  variant_string (device_value key VInvalid device).
Definition peer_of (device : list (qstring * variant)) : DeviceInfo :=
  DeviceInfo0
    <| alias := device_text "alias" device |> <| deviceModel := device_text "hardware" device |>
    <| deviceType := device_text "deviceType" device |> <| fingerprint := device_text "fingerprint" device |>
    <| address := device_text "address" device |>
    <| port := variant_int (device_value "port" (VInt Protocol.DefaultPort) device) |>
    <| protocol := variant_string (device_value "protocol" (VString (lit "http")) device) |>.
Definition localPathOf (pathOrUrl : qstring) : qstring :=
  if starts_with (lit "file://") pathOrUrl then url_toLocalFile pathOrUrl else pathOrUrl.
(** The loop over the paths: the index of the next one, the generator, the rows. *)
Definition pick_entry (state : Z * Crypto.Pool * list TransferModel.FileEntry) (pathOrUrl : qstring)
    : Z * Crypto.Pool * list TransferModel.FileEntry :=
  let '(i, p, entries) := state in
  let path := localPathOf pathOrUrl in
  if negb (is_readable_file path) then (i + 1, p, entries)
  else
    let '(token, p) := Protocol.generateToken p in
    (i + 1, p, entries ++ [TransferModel.FileEntry0
      <| TransferModel.id := number i ++ lit "-" ++ qleft 12 token |>
      <| TransferModel.fileName := info_fileName path |> <| TransferModel.size := info_size path |>
      <| TransferModel.localPath := path |> <| TransferModel.fileType := mime_type path |>]).
Definition sendFiles (t : Z) (device : list (qstring * variant)) (paths : list qstring) (w : World) : World :=
  if m_busy w then w
  else
    let peer := peer_of device in
    if is_empty (address peer) || is_empty paths then w
    else if match m_known w with Some kd => KnownDevices.isBlocked (fingerprint peer) kd | None => false end
    then transfer (TransferModel.begin t TransferModel.Sending (alias peer) (address peer) (deviceType peer)
                     (fingerprint peer) []) w
           |>> setState t TransferModel.Failed (lit "This device is blocked")
    else
      let '(_, p, entries) := foldl pick_entry (0, AppSettings.pool (m_settings w), []) paths in
      let w := w <| m_settings ::= fun s => s <| AppSettings.pool := p |> |> in
      if is_empty entries then w
      else
        let w := w <| m_peer := peer |> <| m_sessionId := [] |> <| m_cancelled := false |>
                   <| m_pinAttempted := false |> <| m_busy := true |> |>> emit busyChanged in
        transfer (TransferModel.begin t TransferModel.Sending (alias peer) (address peer) (deviceType peer)
                    (fingerprint peer) entries) w
          |>> setState t TransferModel.Requesting [] |>> requestUpload [].
Definition submitPin (t : Z) (pin : qstring) (w : World) : World :=
  if negb (m_busy w) || is_empty pin then w
  else w <| m_pinAttempted := true |> |>> setState t TransferModel.Requesting [] |>> requestUpload pin.

(** The loop over the tokens the receiver sent: how many rows have one. *)
Definition take_token (tokens : jobject) (t : Z) (state : Z * World) (row : nat) : Z * World :=
  let '(accepted, w) := state in
  let token := jstring (jvalue (TransferModel.id (entry (Z.of_nat row) w)) tokens) in
  if is_empty token then (accepted, setFileStatus t (Z.of_nat row) TransferModel.FileSkipped [] w)
  else (accepted + 1, transfer (TransferModel.setFileToken (Z.of_nat row) token) w).
Definition onAccepted (t : Z) (o : Outcome) (w : World) : World :=
  let unreadable := failTransfer t (arg (alias (m_peer w)) (lit "%1 sent an unreadable reply")) in
  match from_json (out_body o) with
  | Some (JObject response) =>
      let w := w <| m_sessionId := jstring (jvalue (lit "sessionId") response) |> in
      let tokens := jobj (jvalue (lit "files") response) in
      if is_empty (m_sessionId w) || is_empty tokens then unreadable w
      else
        let '(accepted, w) := foldl (take_token tokens t) (0, w) (rows w) in
        if accepted =? 0
        then setState t TransferModel.Finished [] w |>> idle (lit "finished") 0
        else setState t TransferModel.Active [] w |>> set_field m_currentRow (fun _ => -1) |>> startNextFile t
  | _ => unreadable w
  end.
Definition onPrepareFinished (t : Z) (o : Outcome) (w : World) : World :=
  if m_cancelled w then w
  else
    let status := out_status o in
    let name := alias (m_peer w) in
    if bool_decide (is_Some (out_error o)) && (status =? 0)
    then failTransfer t (arg name (lit "Could not reach %1")) w
    else if status =? 200 then onAccepted t o w
    else if status =? 204 then setState t TransferModel.Finished [] w |>> idle (lit "finished") 0
    else if status =? 401 then setState t TransferModel.Idle [] w |>> emit (pinRequired (m_pinAttempted w))
    else if status =? 403
    then setState t TransferModel.Cancelled [] w |>> set_field m_busy (fun _ => false) |>> emit busyChanged
           |>> emit declined |>> emit (finished (lit "declined") 0)
    else if status =? 409 then failTransfer t (arg name (lit "%1 is busy with another transfer")) w
    else if status =? 429 then failTransfer t (arg name (lit "%1 is refusing new requests")) w
    else failTransfer t (arg (number status) (arg name (lit "%1 refused the transfer (%2)"))) w.

(** A reply that finishes is taken off the outstanding ones - and off
    [m_reply], if it is that one - and handed to its slot. *)
Definition reply_finished (t id : Z) (o : Outcome) (w : World) : World :=
  match replies w !! id with
  | None => w
  | Some slot =>
      let w := w <| replies ::= delete id |> in
      let forget w := if bool_decide (m_reply w = Some id) then w <| m_reply := None |> else w in
      match slot with
      | OnPrepare => onPrepareFinished t o (forget w)
      | OnUpload _ => onUploadFinished t o (forget w)
      | OnDiscard => w
      end
  end.

(** [abort()] finishes the reply there and then. *)
Definition aborted : Outcome := mkOutcome (Some (lit "Operation canceled")) 0 [] None.
Definition cancel (t : Z) (w : World) : World :=
  if negb (m_busy w) then w
  else
    let w := w <| m_cancelled := true |> in
    let w := match m_reply w with Some id => reply_finished t id aborted w | None => w end in
    let w := closeCurrentFile w |>> notifyPeerCancelled in
    let w := foldl (skip_if unfinished t) w (rows w) in
    let w := setState t TransferModel.Cancelled [] w in
    let w := if 0 <? TransferModel.completedCount (m_transfer w) then writeHistory t w else w in
    w <| m_busy := false |> <| m_sessionId := [] |> |>> emit busyChanged
      |>> emit (finished (lit "cancelled") (TransferModel.completedCount (m_transfer w))).

(** ** Everything that can happen *)

Definition onUploadProgress (id bytes : Z) (w : World) : World :=
  match replies w !! id with
  | Some (OnUpload row) => transfer (TransferModel.setFileTransferred row bytes) w
  | _ => w
  end.
Inductive event :=
| SendFiles (device : list (qstring * variant)) (paths : list qstring)
| SubmitPin (pin : qstring) | Cancel
| Finished (id : Z) (o : Outcome) | Progress (id bytes : Z)
| Settings (o : AppSettings.op) | Known (o : KnownDevices.op) | TransferFlush
| Elsewhere (m : TransferModel.TransferModel) (h : HistoryModel.HistoryModel (S := S)).
(** The transfer and the history are shared with the receiving service, which
    may leave them as it likes. *)
Definition handle (t : Z) (e : event) (w : World) : World :=
  match e with
  | SendFiles device paths => sendFiles t device paths w
  | SubmitPin pin => submitPin t pin w
  | Cancel => cancel t w
  | Finished id o => reply_finished t id o w
  | Progress id bytes => onUploadProgress id bytes w
  | Settings o => w <| m_settings ::= fun s => AppSettings.run_op s o |>
  | Known o => w <| m_known ::= fmap (fun kd => KnownDevices.run_op kd o) |>
  | TransferFlush => if TransferModel.m_flushActive (m_transfer w)
                     then transfer (TransferModel.flushTimeout t) w else w
  | Elsewhere m h => w <| m_transfer := m |> <| m_history := h |>
  end.
Definition run (w : World) (events : list (Z * event)) : World := foldl (fun w te => handle te.1 te.2 w) w events.
End SendService.
End SendService.
