(* ===== verification/SendFacts.v ===== *)
(** * SendFacts: what the sending service guarantees

    The invariant of [SendService] over every interleaving of the person's
    calls, the replies and whatever else uses the shared transfer, and the
    theorems about its requests and its progress. *)
From S2P Require Import Prelude QtArg Json Crypto Reference Protocol DeviceInfo SecureStore Certificate TlsClient.
From S2P Require Import KnownDevices AppSettings HistoryModel SelectionModel DeviceModel Network TransferModel.
From S2P Require Import TransferFacts SendService.
Import DeviceInfo TransferFacts SendService.

Module SendFacts.

#[local] Existing Instances AppSettings.eta_AppSettings TransferModel.eta_FileEntry TransferModel.eta_TransferModel.

Section SendFacts.
Context `{OpenSSL, QtText, QHashOrder, Platform, JsonText, X509, AppPaths, SettingsHost, UrlText, LocalFiles, OpenFiles}.
Context {S : Type} `{StoredFiles S}.
#[local] Abbreviation World := (World (S := S)).
#[local] Abbreviation event := (event (S := S)).

(** ** The invariant *)

Record sender_ok (w : World) : Prop := {
  so_ids i : is_Some (replies w !! i) -> i < next_id w;
  so_reply i s : replies w !! i = Some s -> s <> OnDiscard -> m_reply w = Some i;
  so_real i : m_reply w = Some i -> exists s, replies w !! i = Some s /\ s <> OnDiscard;
  so_busy : is_Some (m_reply w) -> m_busy w = true;
  so_wait : m_busy w = true -> m_reply w = None -> exists retry l, emitted w = pinRequired retry :: l;
  so_file : is_Some (m_currentFile w) -> exists i r, replies w !! i = Some (OnUpload r);
  so_upload i r : replies w !! i = Some (OnUpload r) -> 0 <= r /\ m_currentRow w = r /\ is_Some (m_currentFile w);
  so_cancel : m_cancelled w = true -> m_busy w = false
}.
(** Nothing of ours is outstanding. *)
Record resting (w : World) : Prop := {
  rs_ids i : is_Some (replies w !! i) -> i < next_id w;
  rs_none i s : replies w !! i = Some s -> s = OnDiscard;
  rs_reply : m_reply w = None
}.

(** What it depends on. *)
Definition control (w : World) :=
  (m_peer w, m_reply w, m_currentFile w, m_currentRow w, m_busy w, m_cancelled w, replies w, next_id w, sent w, emitted w).
Lemma sender_ok_eq w w' : control w = control w' -> sender_ok w -> sender_ok w'.
Proof.
  intros He [O1 O2 O3 O4 O5 O6 O7 O8]. unfold control in He. injection He as _ E1 E2 E3 E4 E5 E6 E7 _ E8.
  split; rewrite <- ?E1, <- ?E2, <- ?E3, <- ?E4, <- ?E5, <- ?E6, <- ?E7, <- ?E8; assumption.
Qed.
Lemma resting_eq w w' : replies w = replies w' -> next_id w = next_id w' -> m_reply w = m_reply w' -> resting w -> resting w'.
Proof. intros E1 E2 E3 [R1 R2 R3]. split; rewrite <- ?E1, <- ?E2, <- ?E3; assumption. Qed.
Lemma sender_ended_ok w : resting w -> m_busy w = false -> m_currentFile w = None -> sender_ok w.
Proof.
  intros [R1 R2 R3] Hb Hf. split; rewrite ?R3, ?Hb, ?Hf; try done.
  - intros i s Hs Hn. by apply R2 in Hs.
  - intros i r Hr. by apply R2 in Hr.
Qed.

(** ** What the parts leave alone *)

Lemma control_skip p t w r : control (skip_if p t w r) = control w.
Proof. unfold skip_if. by destruct (p _). Qed.
Lemma control_skips p t l w : control (foldl (skip_if p t) w l) = control w.
Proof. revert w. induction l as [|r l IH]; intros w; [done|]. cbn [foldl]. by rewrite IH, control_skip. Qed.
Lemma control_writeHistory t w : control (writeHistory t w) = control w.
Proof.
  unfold writeHistory. destruct (negb _); [done|]. cbv zeta.
  destruct (is_empty (m_sessionId w)); [destruct (Protocol.generateToken _)|]; by destruct (negb _).
Qed.
Lemma control_fields w w' : control w = control w' ->
  m_peer w = m_peer w' /\ m_reply w = m_reply w' /\ m_currentFile w = m_currentFile w' /\ m_currentRow w = m_currentRow w'
  /\ m_busy w = m_busy w' /\ m_cancelled w = m_cancelled w' /\ replies w = replies w' /\ next_id w = next_id w'
  /\ sent w = sent w' /\ emitted w = emitted w'.
Proof. unfold control. intros He. by injection He. Qed.
Lemma resting_control w w' : control w = control w' -> resting w -> resting w'.
Proof.
  intros (_ & E1 & _ & _ & _ & _ & E2 & E3 & _)%control_fields. by apply resting_eq.
Qed.
(** The bookkeeping of the three ends: history or not, then idle. *)
Definition concluded (w w' : World) : Prop :=
  replies w' = replies w /\ next_id w' = next_id w /\ m_reply w' = m_reply w /\ m_peer w' = m_peer w /\ sent w' = sent w
  /\ m_busy w' = false /\ m_currentFile w' = None /\ m_sessionId w' = [].
Lemma concluded_ok w w' : resting w -> concluded w w' -> sender_ok w'.
Proof.
  intros Hr (E1 & E2 & E3 & _ & _ & Hb & Hf & _). apply sender_ended_ok; [|done|done].
  by eapply resting_eq, Hr.
Qed.
Lemma concluded_emits w w1 s1 s2 :
  control w1 = control (closeCurrentFile w) ->
  concluded w (emit s2 (emit s1 (w1 <| m_busy := false |> <| m_sessionId := [] |>))).
Proof.
  intros (C1 & C2 & C3 & C4 & C5 & C6 & C7 & C8 & C9 & C10)%control_fields. by split_and!.
Qed.
Lemma control_writeHistory_if (b : bool) t w : control (if b then writeHistory t w else w) = control w.
Proof. destruct b; [apply control_writeHistory|done]. Qed.
Lemma concluded_failTransfer t message w : concluded w (failTransfer t message w).
Proof.
  unfold failTransfer. cbv zeta. apply concluded_emits. rewrite control_writeHistory_if.
  exact (control_skips waiting t _ (closeCurrentFile w)).
Qed.
Lemma control_closed w : m_currentFile w = None -> control (closeCurrentFile w) = control w.
Proof. intros Hf. unfold control. cbn. by rewrite Hf. Qed.
Lemma concluded_completeTransfer t w : m_currentFile w = None -> concluded w (completeTransfer t w).
Proof.
  intros Hf. unfold completeTransfer. cbv zeta. apply concluded_emits. rewrite control_writeHistory.
  rewrite (control_closed w Hf).
  transitivity (control (if TransferModel.completedCount (m_transfer w) =? TransferModel.fileCount (m_transfer w)
    then setState t TransferModel.Finished [] w
    else if 0 <? TransferModel.completedCount (m_transfer w)
         then setState t TransferModel.Failed (sent_text (TransferModel.completedCount (m_transfer w))
                (TransferModel.fileCount (m_transfer w))) w
         else setState t TransferModel.Failed (lit "Nothing was sent") w)).
  - by destruct (bool_decide _ && _).
  - destruct (_ =? _); [done|]. by destruct (0 <? _).
Qed.
(** ** One file after another *)

Lemma upload_ok t r p w :
  resting w -> m_busy w = true -> m_cancelled w = false -> 0 <= r -> m_currentRow w = r -> m_currentFile w = Some p ->
  sender_ok (upload t r w).
Proof.
  intros [R1 R2 R3] Hb Hc Hpos Hr Hf. unfold upload, post. cbv zeta. split; cbn.
  - intros i [s Hs]. apply lookup_insert_Some in Hs as [[<- _]|[_ Hs]]; [lia|].
    assert (i < next_id w) by (apply R1; eauto). lia.
  - intros i s Hs Hn. apply lookup_insert_Some in Hs as [[<- _]|[_ Hs]]; [done|]. by apply R2 in Hs.
  - intros i [= <-]. eexists. by rewrite lookup_insert_eq.
  - done.
  - done.
  - intros _. do 2 eexists. by rewrite lookup_insert_eq.
  - intros i r' Hs. apply lookup_insert_Some in Hs as [[_ [= <-]]|[_ Hs]].
    + rewrite Hf. split_and!; [done|done|by eexists].
    + by apply R2 in Hs.
  - congruence.
Qed.
Lemma next_file_ok t l w :
  resting w -> m_busy w = true -> m_cancelled w = false -> m_currentFile w = None -> sender_ok (next_file t l w).
Proof.
  revert w. induction l as [|r l IH]; intros w Hr Hb Hc Hf; cbn [next_file].
  { eapply concluded_ok; [exact Hr|by apply concluded_completeTransfer]. }
  destruct (negb _); [by apply IH|]. cbv zeta. destruct (negb _).
  - apply IH; [by eapply resting_eq, Hr|done..].
  - eapply upload_ok; [by eapply resting_eq, Hr|done|done|lia|done|reflexivity].
Qed.
Lemma startNextFile_ok t w :
  resting w -> m_busy w = true -> m_cancelled w = false -> sender_ok (startNextFile t w).
Proof.
  intros Hr Hb Hc. unfold startNextFile. cbv zeta. change (m_cancelled (closeCurrentFile w)) with (m_cancelled w).
  rewrite Hc. apply next_file_ok; [by eapply resting_eq, Hr|done..].
Qed.

(** ** Replies *)

Lemma failTransfer_ok t message w : resting w -> sender_ok (failTransfer t message w).
Proof. intros Hr. eapply concluded_ok; [exact Hr|apply concluded_failTransfer]. Qed.
Lemma onUploadFinished_ok t o w :
  resting w -> m_busy w = true -> m_cancelled w = false -> sender_ok (onUploadFinished t o w).
Proof.
  intros Hr Hb Hc. unfold onUploadFinished. rewrite Hc. destruct (_ && _); [|destruct (_ =? _)].
  - by apply startNextFile_ok; [eapply resting_eq, Hr|..].
  - by apply failTransfer_ok; eapply resting_eq, Hr.
  - by apply startNextFile_ok; [eapply resting_eq, Hr|..].
Qed.
Lemma take_tokens_control tokens t l n w : control (foldl (take_token tokens t) (n, w) l).2 = control w.
Proof.
  revert n w. induction l as [|r l IH]; intros n w; [done|]. cbn [foldl]. unfold take_token at 2.
  destruct (is_empty _); by rewrite IH.
Qed.
Lemma onPrepareFinished_ok t o w :
  resting w -> m_busy w = true -> m_cancelled w = false -> m_currentFile w = None ->
  sender_ok (onPrepareFinished t o w).
Proof.
  intros Hr Hb Hc Hf. unfold onPrepareFinished. rewrite Hc. cbv zeta.
  destruct (_ && _); [by apply failTransfer_ok|].
  destruct (_ =? 200).
  { unfold onAccepted. cbv zeta. destruct (from_json _) as [[]|]; try by apply failTransfer_ok.
    set (w1 := w <| m_sessionId := _ |>). assert (Hr1 : resting w1) by by eapply resting_eq, Hr.
    destruct (_ || _); [by apply failTransfer_ok|].
    pose proof (take_tokens_control (jobj (jvalue (lit "files") o0)) t (rows w1) 0 w1) as Ht.
    destruct (foldl _ _ _) as [accepted w2]. cbn [snd] in Ht.
    pose proof (resting_control _ _ (eq_sym Ht) Hr1) as Hr2.
    apply control_fields in Ht as (_ & _ & T3 & _ & T5 & T6 & _).
    destruct (accepted =? 0).
    - apply sender_ended_ok; [by eapply resting_eq, Hr2|done|]. by rewrite <- Hf.
    - apply startNextFile_ok; [by eapply resting_eq, Hr2|by rewrite <- Hb|by rewrite <- Hc]. }
  destruct (_ =? 204); [by apply sender_ended_ok; [eapply resting_eq, Hr|..]|].
  destruct (_ =? 401).
  { destruct Hr as [R1 R2 R3]. split; try done; cbn; rewrite ?R3, ?Hf; try done.
    - intros i s Hs Hn. by apply R2 in Hs.
    - intros _ _. by do 2 eexists.
    - intros i r Hs. by apply R2 in Hs.
    - congruence. }
  destruct (_ =? 403); [by apply sender_ended_ok; [eapply resting_eq, Hr|..]|].
  repeat case_match; by apply failTransfer_ok.
Qed.

(** The world a slot of ours is called in. *)
Definition called (id : Z) (w : World) : World := w <| replies ::= delete id |> <| m_reply := None |>.
Lemma called_resting id s w : sender_ok w -> replies w !! id = Some s -> s <> OnDiscard -> resting (called id w).
Proof.
  intros [O1 O2 _ _ _ _ _ _] Hs Hn. split; cbn; [|intros j s'|done].
  - intros j [s' Hj]. apply lookup_delete_Some in Hj as [_ Hj]. by apply O1.
  - intros [Hne Hj]%lookup_delete_Some. destruct (decide (s' = OnDiscard)) as [|Hd]; [done|].
    pose proof (O2 j s' Hj Hd). pose proof (O2 id s Hs Hn). congruence.
Qed.
Lemma reply_finished_called t id o s w :
  sender_ok w -> replies w !! id = Some s -> s <> OnDiscard ->
  reply_finished t id o w =
  match s with
  | OnPrepare => onPrepareFinished t o (called id w)
  | OnUpload _ => onUploadFinished t o (called id w)
  | OnDiscard => w <| replies ::= delete id |>
  end.
Proof.
  intros Hok Hs Hn. unfold reply_finished. rewrite Hs. cbv zeta.
  change (m_reply (w <| replies ::= delete id |>)) with (m_reply w).
  rewrite (so_reply w Hok id s Hs Hn), bool_decide_true by done. by destruct s.
Qed.
Lemma called_busy id s w :
  sender_ok w -> replies w !! id = Some s -> s <> OnDiscard ->
  m_busy w = true /\ m_cancelled w = false.
Proof.
  intros Hok Hs Hn. assert (Hb : m_busy w = true) by (apply Hok; rewrite (so_reply w Hok id s Hs Hn); by eexists).
  split; [done|]. destruct (m_cancelled w) eqn:E; [|done]. apply Hok in E. congruence.
Qed.
Lemma no_file_preparing id w : sender_ok w -> replies w !! id = Some OnPrepare -> m_currentFile w = None.
Proof.
  intros Hok Hs. destruct (m_currentFile w) eqn:E; [|done]. destruct (so_file w Hok) as (i & r & Hi); [by eexists|].
  pose proof (so_reply w Hok id _ Hs ltac:(done)). pose proof (so_reply w Hok i _ Hi ltac:(done)). congruence.
Qed.
Lemma reply_finished_ok t id o w : sender_ok w -> sender_ok (reply_finished t id o w).
Proof.
  intros Hok. destruct (replies w !! id) as [s|] eqn:Hs; [|unfold reply_finished; by rewrite Hs].
  destruct (decide (s = OnDiscard)) as [->|Hn].
  { unfold reply_finished. rewrite Hs. destruct Hok as [O1 O2 O3 O4 O5 O6 O7 O8]. split; cbn; try assumption.
    - intros i [s' Hi]. apply lookup_delete_Some in Hi as [_ Hi]. by apply O1.
    - intros i s' Hi. apply lookup_delete_Some in Hi as [_ Hi]. by apply O2.
    - intros i Hi. destruct (O3 i Hi) as (s' & Hs' & Hn). exists s'. rewrite lookup_delete_ne by congruence. done.
    - intros Hf. destruct (O6 Hf) as (i & r & Hi). exists i, r. rewrite lookup_delete_ne by congruence. done.
    - intros i r Hi. apply lookup_delete_Some in Hi as [_ Hi]. by apply (O7 i). }
  rewrite (reply_finished_called t id o s w Hok Hs Hn).
  pose proof (called_resting id s w Hok Hs Hn) as Hr. destruct (called_busy id s w Hok Hs Hn) as [Hb Hc].
  destruct s; [|by apply onUploadFinished_ok|done]. apply onPrepareFinished_ok; try done.
  exact (no_file_preparing id w Hok Hs).
Qed.

(** ** The calls of the person *)

Lemma no_reply_resting w : sender_ok w -> m_reply w = None -> resting w.
Proof.
  intros Hok Hr. split; [apply Hok| |done]. intros i s Hs. destruct (decide (s = OnDiscard)) as [|Hn]; [done|].
  pose proof (so_reply w Hok i s Hs Hn). congruence.
Qed.
(** What [abort] leaves. *)
Definition after_abort (t : Z) (w : World) : World :=
  let w := w <| m_cancelled := true |> in
  match m_reply w with Some id => reply_finished t id aborted w | None => w end.
Lemma after_abort_spec t w :
  sender_ok w ->
  resting (after_abort t w) /\ m_transfer (after_abort t w) = m_transfer w /\ m_sessionId (after_abort t w) = m_sessionId w
  /\ m_peer (after_abort t w) = m_peer w /\ sent (after_abort t w) = sent w /\ m_settings (after_abort t w) = m_settings w.
Proof.
  intros Hok. unfold after_abort. cbv zeta. change (m_reply (w <| m_cancelled := true |>)) with (m_reply w).
  destruct (m_reply w) as [id|] eqn:Hm.
  - destruct (so_real w Hok id Hm) as (s & Hs & Hn).
    assert (Heq : reply_finished t id aborted (w <| m_cancelled := true |>) = called id (w <| m_cancelled := true |>)).
    { unfold reply_finished. cbn [replies]. change (replies (w <| m_cancelled := true |>)) with (replies w). rewrite Hs.
      cbv zeta. cbn. rewrite Hm, bool_decide_true by done.
      destruct s; [..|done]; unfold onPrepareFinished, onUploadFinished; reflexivity. }
    rewrite Heq. split; [|done]. eapply resting_eq, (called_resting id s w Hok Hs Hn); done.
  - split; [|done]. eapply (resting_eq w); [done..|by apply no_reply_resting].
Qed.
Lemma notify_resting w : resting w -> resting (notifyPeerCancelled w).
Proof.
  intros [R1 R2 R3]. unfold notifyPeerCancelled. destruct (_ || _); [done|]. split; cbn.
  - intros i [s Hs]. apply lookup_insert_Some in Hs as [[<- _]|[_ Hs]]; [lia|].
    assert (i < next_id w) by (apply R1; by eexists). lia.
  - intros i s Hs. apply lookup_insert_Some in Hs as [[_ <-]|[_ Hs]]; [done|by eapply R2].
  - done.
Qed.
Lemma notify_file (w : World) : m_currentFile (notifyPeerCancelled w) = m_currentFile w.
Proof. unfold notifyPeerCancelled. by destruct (_ || _). Qed.
Lemma sender_cancel_ok t w : sender_ok w -> sender_ok (cancel t w).
Proof.
  intros Hok. unfold cancel. destruct (negb _); [done|]. cbv zeta. fold (after_abort t w).
  destruct (after_abort_spec t w Hok) as (Hr & _). set (w1 := after_abort t w) in *. clearbody w1.
  assert (Hr2 : resting (notifyPeerCancelled (closeCurrentFile w1))).
  { apply notify_resting. by eapply resting_eq, Hr. }
  pose proof (notify_file (closeCurrentFile w1)) as Hf.
  set (w2 := notifyPeerCancelled (closeCurrentFile w1)) in *. clearbody w2.
  apply (concluded_ok w2); [done|]. apply concluded_emits. rewrite control_writeHistory_if.
  rewrite (control_closed w2 Hf). exact (control_skips unfinished t _ w2).
Qed.
Lemma requestUpload_ok pin w :
  resting w -> m_busy w = true -> m_cancelled w = false -> m_currentFile w = None -> sender_ok (requestUpload pin w).
Proof.
  intros [R1 R2 R3] Hb Hc Hf. unfold requestUpload, post. cbv zeta. split; cbn; rewrite ?Hf; try done.
  - intros i [s Hs]. apply lookup_insert_Some in Hs as [[<- _]|[_ Hs]]; [lia|].
    assert (i < next_id w) by (apply R1; by eexists). lia.
  - intros i s Hs Hn. apply lookup_insert_Some in Hs as [[<- _]|[_ Hs]]; [done|]. by apply R2 in Hs.
  - intros i [= <-]. eexists. by rewrite lookup_insert_eq.
  - intros i r Hs. apply lookup_insert_Some in Hs as [[_ [=]]|[_ Hs]]. by apply R2 in Hs.
  - congruence.
Qed.
Lemma resting_no_file w : sender_ok w -> resting w -> m_currentFile w = None.
Proof.
  intros Hok Hr. destruct (m_currentFile w) eqn:E; [|done]. destruct (so_file w Hok) as (i & r & Hi); [by eexists|].
  by apply Hr in Hi.
Qed.
Lemma sendFiles_ok t device paths w : sender_ok w -> sender_ok (sendFiles t device paths w).
Proof.
  intros Hok. unfold sendFiles. destruct (m_busy w) eqn:Hb; [done|]. cbv zeta. destruct (_ || _); [done|].
  destruct (match m_known w with Some _ => _ | None => _ end); [by eapply sender_ok_eq, Hok|].
  destruct (foldl pick_entry _ _) as [[i p] entries]. destruct (is_empty entries); [by eapply sender_ok_eq, Hok|].
  assert (Hm : m_reply w = None).
  { destruct (m_reply w) eqn:E; [|done]. assert (m_busy w = true) by (apply Hok; rewrite E; by eexists). congruence. }
  pose proof (no_reply_resting w Hok Hm) as Hr. pose proof (resting_no_file w Hok Hr) as Hf.
  apply requestUpload_ok; [by eapply resting_eq, Hr|done|done|exact Hf].
Qed.
(** The page asks for a PIN when it is told one is needed, and answers once. *)
Lemma submitPin_ok t pin w : sender_ok w -> m_reply w = None -> sender_ok (submitPin t pin w).
Proof.
  intros Hok Hm. unfold submitPin. destruct (negb (m_busy w)) eqn:Hb; cbn [orb]; [done|].
  destruct (is_empty pin); [done|]. pose proof (no_reply_resting w Hok Hm) as Hr.
  pose proof (resting_no_file w Hok Hr) as Hf. apply negb_false_iff in Hb.
  apply requestUpload_ok; [by eapply resting_eq, Hr|exact Hb| |exact Hf].
  change (m_cancelled w = false). destruct (m_cancelled w) eqn:E; [|done]. apply Hok in E. congruence.
Qed.
(** A PIN is submitted only while no request is outstanding. *)
Definition orderly (w : World) (e : event) : bool :=
  match e with SubmitPin _ => bool_decide (m_reply w = None) | _ => true end.
Fixpoint orderly_run (w : World) (events : list (Z * event)) : bool :=
  match events with
  | [] => true
  | te :: events => orderly w te.2 && orderly_run (handle te.1 te.2 w) events
  end.
Lemma sender_handle_ok t e w : orderly w e = true -> sender_ok w -> sender_ok (handle t e w).
Proof.
  intros Ho Hok. destruct e; cbn [handle].
  - by apply sendFiles_ok.
  - apply submitPin_ok; [done|]. by apply bool_decide_eq_true in Ho.
  - by apply sender_cancel_ok.
  - by apply reply_finished_ok.
  - unfold onUploadProgress. destruct (replies w !! id) as [[]|]; try done. by eapply sender_ok_eq, Hok.
  - by eapply sender_ok_eq, Hok.
  - by eapply sender_ok_eq, Hok.
  - case_match; [by eapply sender_ok_eq, Hok|done].
  - by eapply sender_ok_eq, Hok.
Qed.
Lemma sender0_ok settings transfer history known : sender_ok (World0 settings transfer history known).
Proof. split; cbn; try done; intros i; rewrite lookup_empty; by try intros [? ?]. Qed.
Lemma sender_run_ok w events : orderly_run w events = true -> sender_ok w -> sender_ok (run w events).
Proof.
  revert w. induction events as [|[t e] events IH]; intros w Ho Hok; [done|]. cbn in Ho.
  apply andb_true_iff in Ho as [Ho Hrest]. apply IH; [done|]. by apply sender_handle_ok.
Qed.

(** C8: sending never stalls and never runs twice. At any moment of any history in
    which a PIN is given only when one was asked for - whatever the peers answer,
    whatever the person does, and whatever the receiving service does to the shared
    transfer - a busy sender has exactly one request of its own outstanding, or has
    just asked for a PIN; an idle one has none, and no file open. A file is open
    exactly while its upload is outstanding. *)
Theorem sender_never_stuck settings transfer history known events :
  let w0 := World0 settings transfer history known in
  orderly_run w0 events = true ->
  let w := run w0 events in
  let ours id := exists s, replies w !! id = Some s /\ s <> OnDiscard in
  (m_busy w = true ->
     (exists id, ours id /\ forall id', ours id' -> id' = id)
     \/ ((forall id, ~ ours id) /\ exists retry l, emitted w = pinRequired retry :: l))
  /\ (m_busy w = false -> (forall id, ~ ours id) /\ m_currentFile w = None)
  /\ (is_Some (m_currentFile w) <-> exists id r, replies w !! id = Some (OnUpload r)).
Proof.
  cbv zeta. intros Ho. pose proof (sender_run_ok _ events Ho (sender0_ok settings transfer history known)) as Hok.
  set (w := run _ events) in *. clearbody w. clear Ho.
  assert (Hnone : m_reply w = None -> forall id, ~ exists s, replies w !! id = Some s /\ s <> OnDiscard).
  { intros Hm id (s & Hs & Hn). pose proof (so_reply w Hok id s Hs Hn). congruence. }
  split_and!.
  - intros Hb. destruct (m_reply w) as [id|] eqn:Hm; [left|right; split; [by apply Hnone|by apply Hok]].
    exists id. split; [by apply Hok|]. intros id' (s & Hs & Hn). pose proof (so_reply w Hok id' s Hs Hn). congruence.
  - intros Hb. assert (Hm : m_reply w = None).
    { destruct (m_reply w) eqn:E; [|done]. assert (m_busy w = true) by (apply Hok; rewrite E; by eexists). congruence. }
    split; [by apply Hnone|]. apply (resting_no_file w Hok). by apply no_reply_resting.
  - split; [apply Hok|]. intros (id & r & Hr). by apply (so_upload w Hok id r).
Qed.

(** ** Progress *)

Lemma row_status_setState t s e m r : row_status r (TransferModel.setState t s e m) = row_status r m.
Proof. apply row_status_files, setState_files. Qed.
Lemma skips_row p t r st l (w : World) :
  0 <= r -> row_status r (m_transfer w) = Some st -> p st = false ->
  row_status r (m_transfer (foldl (skip_if p t) w l)) = Some st.
Proof.
  intros Hr. revert w. induction l as [|x l IH]; intros w Hst Hp; [done|]. cbn [foldl]. apply IH; [|done].
  unfold skip_if. destruct (p (TransferModel.status _)) eqn:E; [|done]. cbn -[TransferModel.setFileStatus].
  rewrite setFileStatus_row by done. destruct (_ && _) eqn:Ein; [|done]. exfalso.
  apply andb_true_iff in Ein as [_ <-%bool_decide_eq_true].
  assert (Hentry : TransferModel.status (entry (Z.of_nat x) w) = st); [|congruence].
  unfold row_status, statuses in Hst. rewrite list_lookup_fmap in Hst.
  destruct (TransferModel.m_files (m_transfer w) !! Z.to_nat (Z.of_nat x)) as [e|] eqn:He; [|done].
  cbn in Hst. injection Hst as <-. unfold entry. by rewrite (TransferModel.entry_lookup _ _ e).
Qed.
Lemma transfer_writeHistory t (w : World) : m_transfer (writeHistory t w) = m_transfer w.
Proof.
  unfold writeHistory. destruct (negb _); [done|]. cbv zeta.
  destruct (is_empty (m_sessionId w)); [destruct (Protocol.generateToken _)|]; by destruct (negb _).
Qed.
Lemma failTransfer_row t message r st (w : World) :
  0 <= r -> row_status r (m_transfer w) = Some st -> waiting st = false ->
  row_status r (m_transfer (failTransfer t message w)) = Some st.
Proof.
  intros Hr Hst Hw. unfold failTransfer. cbv zeta.
  pose proof (skips_row waiting t r st (rows (closeCurrentFile w)) (closeCurrentFile w) Hr Hst Hw) as Hs.
  set (w2 := foldl _ _ _) in *. clearbody w2.
  set (w3 := setState t TransferModel.Failed message w2). rewrite <- Hs.
  transitivity (row_status r (m_transfer w3)); [|apply row_status_setState].
  f_equal. transitivity (m_transfer (if 0 <? TransferModel.completedCount (m_transfer w3) then writeHistory t w3 else w3));
    [done|]. destruct (0 <? _); [apply transfer_writeHistory|done].
Qed.
Lemma completeTransfer_row t r (w : World) : row_status r (m_transfer (completeTransfer t w)) = row_status r (m_transfer w).
Proof.
  unfold completeTransfer. cbv zeta.
  match goal with |- context [writeHistory t ?x] =>
    transitivity (row_status r (m_transfer (writeHistory t x))); [reflexivity|] end.
  rewrite transfer_writeHistory.
  match goal with |- context [m_transfer (if ?b then _ else ?y)] =>
    transitivity (row_status r (m_transfer y)); [by destruct b|] end.
  destruct (_ =? _); [apply row_status_setState|]. destruct (0 <? _); apply row_status_setState.
Qed.

Lemma next_file_row t r l (w : World) :
  0 <= r -> Forall (fun x => r < Z.of_nat x) l ->
  row_status r (m_transfer (next_file t l w)) = row_status r (m_transfer w).
Proof.
  intros Hr Hl. revert w. induction Hl as [|x l Hx Hl IH]; intros w; cbn [next_file].
  { apply completeTransfer_row. }
  assert (Hset : forall st e m, row_status r (TransferModel.setFileStatus t (Z.of_nat x) st e m) = row_status r m).
  { intros st e m. rewrite setFileStatus_row, bool_decide_false, andb_false_r; [done|lia|done]. }
  destruct (negb _); [apply IH|]. cbv zeta. destruct (negb _).
  - rewrite IH. apply Hset.
  - unfold upload, post. apply Hset.
Qed.
(** Either everything is done, or a later row is on its way. *)
Lemma next_file_moves t l (w : World) :
  m_busy (next_file t l w) = false
  \/ exists id x, x ∈ l /\ replies (next_file t l w) !! id = Some (OnUpload (Z.of_nat x)).
Proof.
  revert w. induction l as [|x l IH]; intros w; cbn [next_file]; [by left|].
  assert (Hin : forall w', m_busy (next_file t l w') = false
    \/ exists id y, y ∈ x :: l /\ replies (next_file t l w') !! id = Some (OnUpload (Z.of_nat y))).
  { intros w'. destruct (IH w') as [|(id & y & Hy & Hr)]; [by left|right]. exists id, y. split; [by right|done]. }
  destruct (negb _); [apply Hin|]. cbv zeta. destruct (negb _); [apply Hin|].
  right. unfold upload, post. eexists _, x. split; [by left|]. cbn. by rewrite lookup_insert_eq.
Qed.
Lemma startNextFile_moves t r st (w : World) :
  0 <= r -> m_currentRow w = r -> m_cancelled w = false -> row_status r (m_transfer w) = Some st ->
  row_status r (m_transfer (startNextFile t w)) = Some st
  /\ (m_busy (startNextFile t w) = false
      \/ exists id x, r < x < Z.of_nat (fileCount w) /\ replies (startNextFile t w) !! id = Some (OnUpload x)).
Proof.
  intros Hr Hrow Hc Hst. unfold startNextFile. cbv zeta.
  change (m_cancelled (closeCurrentFile w)) with (m_cancelled w).
  change (m_currentRow (closeCurrentFile w)) with (m_currentRow w).
  change (fileCount (closeCurrentFile w)) with (fileCount w). rewrite Hc, Hrow.
  assert (Hl : forall x, x ∈ seq (Z.to_nat (r + 1)) (fileCount w - Z.to_nat (r + 1)) -> r < Z.of_nat x < Z.of_nat (fileCount w)).
  { intros x [? ?]%elem_of_seq. lia. }
  split.
  - rewrite next_file_row; [exact Hst|done|]. apply Forall_forall. intros x Hx. by apply Hl.
  - destruct (next_file_moves t (seq (Z.to_nat (r + 1)) (fileCount w - Z.to_nat (r + 1))) (closeCurrentFile w))
      as [|(id & x & Hx & Hrep)]; [by left|right]. exists id, (Z.of_nat x). split; [by apply Hl|done].
Qed.

(** The rows are as many as before. *)
Lemma fileCount_setFileStatus t r st e (w : World) : fileCount (setFileStatus t r st e w) = fileCount w.
Proof. apply setFileStatus_count. Qed.
Lemma fileCount_setState t st e (w : World) : fileCount (setState t st e w) = fileCount w.
Proof. unfold fileCount. f_equal. apply setState_files. Qed.
Lemma fileCount_transfer (w w' : World) : m_transfer w' = m_transfer w -> fileCount w' = fileCount w.
Proof. unfold fileCount. by intros ->. Qed.
Lemma fileCount_skips p t l (w : World) : fileCount (foldl (skip_if p t) w l) = fileCount w.
Proof.
  revert w. induction l as [|x l IH]; intros w; [done|]. cbn [foldl]. rewrite IH. unfold skip_if.
  destruct (p _); [apply fileCount_setFileStatus|done].
Qed.
Lemma fileCount_failTransfer t message (w : World) : fileCount (failTransfer t message w) = fileCount w.
Proof.
  unfold failTransfer. cbv zeta.
  match goal with |- context [foldl (skip_if waiting t) ?x ?l] => pose proof (fileCount_skips waiting t l x) as Hs;
    set (w2 := foldl (skip_if waiting t) x l) in * end.
  change (fileCount (closeCurrentFile w)) with (fileCount w) in Hs. clearbody w2. rewrite <- Hs.
  rewrite <- (fileCount_setState t TransferModel.Failed message w2). apply fileCount_transfer.
  match goal with |- context [writeHistory t ?x] => transitivity (m_transfer (if 0 <? TransferModel.completedCount (m_transfer x) then writeHistory t x else x)) end.
  - done.
  - destruct (0 <? _); [apply transfer_writeHistory|done].
Qed.
Lemma fileCount_completeTransfer t (w : World) : fileCount (completeTransfer t w) = fileCount w.
Proof.
  unfold completeTransfer. cbv zeta.
  match goal with |- context [writeHistory t ?x] =>
    transitivity (fileCount x); [apply fileCount_transfer; transitivity (m_transfer (writeHistory t x)); [done|apply transfer_writeHistory]|] end.
  match goal with |- context [if ?b then _ else ?y] => transitivity (fileCount y); [by destruct b|] end.
  destruct (_ =? _); [apply fileCount_setState|]. destruct (0 <? _); apply fileCount_setState.
Qed.
Lemma fileCount_next_file t l (w : World) : fileCount (next_file t l w) = fileCount w.
Proof.
  revert w. induction l as [|x l IH]; intros w; cbn [next_file]; [apply fileCount_completeTransfer|].
  destruct (negb _); [apply IH|]. cbv zeta. destruct (negb _).
  - rewrite IH. etransitivity; [apply fileCount_setFileStatus|reflexivity].
  - etransitivity; [exact (fileCount_setFileStatus t (Z.of_nat x) TransferModel.FileTransferring [] _)|reflexivity].
Qed.
Lemma fileCount_startNextFile t (w : World) : fileCount (startNextFile t w) = fileCount w.
Proof. unfold startNextFile. cbv zeta. destruct (m_cancelled _); [done|]. exact (fileCount_next_file t _ (closeCurrentFile w)). Qed.

Definition accepted (o : Outcome) : bool := bool_decide (out_error o = None) && (200 <=? out_status o) && (out_status o <? 300).
(** Row [r] is the one being sent. *)
Definition sending (r : Z) (w : World) : Prop := exists id, replies w !! id = Some (OnUpload r).
Lemma upload_settled t id r o (w : World) :
  sender_ok w -> replies w !! id = Some (OnUpload r) -> TransferModel.in_rows r (m_transfer w) = true ->
  let w' := handle t (Finished id o) w in
  row_status r (m_transfer w') = Some (if accepted o then TransferModel.FileDone else TransferModel.FileFailed)
  /\ fileCount w' = fileCount w
  /\ (m_busy w' = false \/ exists r', r < r' < Z.of_nat (fileCount w) /\ sending r' w')
  /\ (accepted o = false -> out_status o = 409 -> m_busy w' = false).
Proof.
  cbv zeta. intros Hok Hs Hin. cbn [handle].
  rewrite (reply_finished_called t id o _ w Hok Hs) by done. destruct (called_busy id _ w Hok Hs ltac:(done)) as [Hb Hc].
  destruct (so_upload w Hok id r Hs) as (Hr & Hrow & _).
  assert (Hset : forall st e m, m = m_transfer w ->
    row_status r (TransferModel.setFileStatus t (m_currentRow (called id w)) st e m) = Some st).
  { intros st e m ->. change (m_currentRow (called id w)) with (m_currentRow w).
    rewrite setFileStatus_row, Hrow, Hin, bool_decide_true; done. }
  assert (Hfiles : forall st e, fileCount (setFileStatus t (m_currentRow (called id w)) st e (called id w)) = fileCount w).
  { intros st e. exact (fileCount_setFileStatus t _ st e (called id w)). }
  assert (Hnext : forall st e, let w1 := setFileStatus t (m_currentRow (called id w)) st e (called id w) in
    row_status r (m_transfer (startNextFile t w1)) = Some st /\ fileCount (startNextFile t w1) = fileCount w
    /\ (m_busy (startNextFile t w1) = false \/ exists r', r < r' < Z.of_nat (fileCount w) /\ sending r' (startNextFile t w1))).
  { intros st e w1. destruct (startNextFile_moves t r st w1 Hr Hrow Hc) as [Hst Hmove]; [by apply Hset|].
    unfold w1 in *. rewrite Hfiles in Hmove. split_and!; [done|by rewrite fileCount_startNextFile|].
    destruct Hmove as [|(id' & r' & Hr' & Hid')]; [by left|right]. exists r'. split; [done|by exists id']. }
  unfold onUploadFinished. change (m_cancelled (called id w)) with (m_cancelled w). rewrite Hc. fold (accepted o).
  destruct (accepted o).
  - destruct (Hnext TransferModel.FileDone []) as (? & ? & ?). by split_and!.
  - destruct (Z.eqb_spec (out_status o) 409) as [H409|H409].
    + split_and!; [|by rewrite fileCount_failTransfer| |].
      * apply failTransfer_row; [done|by apply Hset|done].
      * left. apply concluded_failTransfer.
      * intros _ _. apply concluded_failTransfer.
    + destruct (Hnext TransferModel.FileFailed (default (lit "Unknown error") (out_error o))) as (? & ? & ?). by split_and!.
Qed.
(** The uploads answered one after another, as the peer pleases. *)
Definition answer_uploads (outcomes : list (Z * Outcome)) (w : World) : World :=
  foldl (fun w to => match m_reply w with Some id => handle to.1 (Finished id to.2) w | None => w end) w outcomes.
Lemma idle_stays outcomes (w : World) : m_reply w = None -> answer_uploads outcomes w = w.
Proof. intros Hm. induction outcomes as [|to outcomes IH]; [done|]. cbn. by rewrite Hm. Qed.
Lemma uploads_run_out outcomes (w : World) r :
  sender_ok w -> sending r w -> 0 <= r < Z.of_nat (fileCount w) -> Z.of_nat (fileCount w) - r <= len outcomes ->
  m_busy (answer_uploads outcomes w) = false.
Proof.
  revert w r. induction outcomes as [|[t o] outcomes IH]; intros w r Hok (id & Hs) Hr Hlen; [unfold len in Hlen; cbn in Hlen; lia|].
  cbn [answer_uploads foldl]. rewrite (so_reply w Hok id _ Hs) by done. cbn [fst snd].
  assert (Hin : TransferModel.in_rows r (m_transfer w) = true).
  { unfold TransferModel.in_rows, TransferModel.fileCount. unfold fileCount in Hr. unfold len. lia. }
  destruct (upload_settled t id r o w Hok Hs Hin) as (_ & Hcount & Hmove & _).
  assert (Hok' : sender_ok (handle t (Finished id o) w)) by by apply sender_handle_ok.
  set (w' := handle t (Finished id o) w) in *. clearbody w'. fold (answer_uploads outcomes w').
  destruct Hmove as [Hidle|(r' & Hr' & Hs')].
  - rewrite idle_stays; [done|]. destruct (m_reply w') eqn:E; [|done].
    assert (m_busy w' = true) by (apply Hok'; rewrite E; by eexists). congruence.
  - apply (IH w' r'); [done|done|rewrite Hcount; lia|]. rewrite Hcount. unfold len in *. cbn in Hlen. lia.
Qed.

(** C11: every answer settles its file and moves on, and so sending ends. When the
    request that carries row [r] ends, however it ends, that row is done if the answer
    was a success and failed otherwise; then either the transfer is over, or a later
    row of it is being sent. So whatever the peer answers, the transfer is over after
    at most as many answers as there are rows from [r] on. A session the peer has given
    up (409) ends at once. *)
Theorem upload_reply_settles settings transfer history known events t id r o :
  let w0 := World0 settings transfer history known in
  orderly_run w0 events = true ->
  let w := run w0 events in
  replies w !! id = Some (OnUpload r) -> TransferModel.in_rows r (m_transfer w) = true ->
  let w' := handle t (Finished id o) w in
  row_status r (m_transfer w') = Some (if accepted o then TransferModel.FileDone else TransferModel.FileFailed)
  /\ (m_busy w' = false \/ exists r', r < r' < Z.of_nat (fileCount w) /\ sending r' w')
  /\ (accepted o = false -> out_status o = 409 -> m_busy w' = false)
  /\ (forall outcomes, Z.of_nat (fileCount w) - r <= len outcomes -> m_busy (answer_uploads outcomes w) = false).
Proof.
  cbv zeta. intros Ho. pose proof (sender_run_ok _ events Ho (sender0_ok settings transfer history known)) as Hok.
  set (w := run _ events) in *. clearbody w. clear Ho. intros Hs Hin.
  destruct (upload_settled t id r o w Hok Hs Hin) as (Hst & _ & Hmove & H409). split_and!; [done..|].
  intros outcomes Hlen. apply (uploads_run_out outcomes w r); [done|by exists id| |done].
  unfold TransferModel.in_rows, TransferModel.fileCount in Hin. unfold fileCount. unfold len in Hin. lia.
Qed.

(** ** Where it goes *)

Definition no_query (u : Url) : Url := u <| url_query := [] |>.
(** A request to a peer, under its pin. *)
Definition pinned_to (peer : DeviceInfo) (r : Request) : Prop :=
  req_policy r = TlsClient.Pin (fingerprint peer) /\ is_Some (req_tls r)
  /\ exists path, no_query (req_url r) = no_query (parse_url (apiBase peer ++ path)).

Section Trusted.
(** The devices files were sent to. *)
Context (peers : list DeviceInfo).

Definition trusted (w : World) : Prop :=
  m_peer w ∈ peers /\ Forall (fun r => exists peer, peer ∈ peers /\ pinned_to peer r) (sent w).
Lemma trusted_eq w w' : m_peer w' = m_peer w -> sent w' = sent w -> trusted w -> trusted w'.
Proof. intros E1 E2 [T1 T2]. split; by rewrite ?E1, ?E2. Qed.
Lemma trusted_control w w' : control w' = control w -> trusted w -> trusted w'.
Proof. intros (E1 & _ & _ & _ & _ & _ & _ & _ & E2 & _)%control_fields. by apply trusted_eq. Qed.
Lemma trusted_post u ct cl body slot path w :
  no_query u = no_query (apiUrl path w) -> trusted w -> trusted (post u ct cl body slot w).2.
Proof.
  intros Hu [T1 T2]. split; [done|]. cbn. constructor; [|done]. exists (m_peer w). split; [done|].
  split_and!; [done|by eexists|by exists path].
Qed.
Lemma trusted_concluded w w' : concluded w w' -> trusted w -> trusted w'.
Proof. intros (_ & _ & _ & E1 & E2 & _). by apply trusted_eq. Qed.
Lemma trusted_upload t r w : trusted w -> trusted (upload t r w).
Proof.
  intros Ht. unfold upload. cbv zeta.
  match goal with |- context [post ?u ?ct ?cl ?body ?slot ?x] =>
    pose proof (trusted_post u ct cl body slot Protocol.PathUpload x eq_refl) as Hp; destruct (post u ct cl body slot x) end.
  eapply trusted_eq, Hp; [done|done|]. by eapply trusted_eq, Ht.
Qed.
Lemma trusted_next_file t l w : m_currentFile w = None -> trusted w -> trusted (next_file t l w).
Proof.
  revert w. induction l as [|x l IH]; intros w Hf Ht; cbn [next_file].
  { by eapply trusted_concluded, Ht; apply concluded_completeTransfer. }
  destruct (negb _); [by apply IH|]. cbv zeta. destruct (negb _).
  - apply IH; [done|]. by eapply trusted_eq, Ht.
  - apply trusted_upload. by eapply trusted_eq, Ht.
Qed.
Lemma trusted_startNextFile t w : trusted w -> trusted (startNextFile t w).
Proof.
  intros Ht. unfold startNextFile. cbv zeta. destruct (m_cancelled _); [by eapply trusted_eq, Ht|].
  apply trusted_next_file; [done|]. by eapply trusted_eq, Ht.
Qed.
Lemma trusted_failTransfer t message w : trusted w -> trusted (failTransfer t message w).
Proof. intros Ht. by eapply trusted_concluded, Ht; apply concluded_failTransfer. Qed.
Lemma trusted_onUploadFinished t o w : trusted w -> trusted (onUploadFinished t o w).
Proof.
  intros Ht. assert (Hset : forall r st e, trusted (setFileStatus t r st e w)) by (intros; by eapply trusted_eq, Ht).
  unfold onUploadFinished. destruct (m_cancelled w); [done|]. destruct (_ && _); [by apply trusted_startNextFile|].
  destruct (_ =? _); [by apply trusted_failTransfer|by apply trusted_startNextFile].
Qed.
Lemma trusted_onPrepareFinished t o w : trusted w -> trusted (onPrepareFinished t o w).
Proof.
  intros Ht. unfold onPrepareFinished. destruct (m_cancelled w); [done|]. cbv zeta.
  destruct (_ && _); [by apply trusted_failTransfer|]. destruct (_ =? 200).
  { unfold onAccepted. cbv zeta. destruct (from_json _) as [[]|]; try by apply trusted_failTransfer.
    set (w1 := w <| m_sessionId := _ |>). assert (Ht1 : trusted w1) by by eapply trusted_eq, Ht.
    destruct (_ || _); [by apply trusted_failTransfer|].
    pose proof (take_tokens_control (jobj (jvalue (lit "files") o0)) t (rows w1) 0 w1) as Hc.
    destruct (foldl _ _ _) as [n w2]. cbn [snd] in Hc. pose proof (trusted_control _ _ Hc Ht1) as Ht2.
    destruct (n =? 0); [by eapply trusted_eq, Ht2|]. apply trusted_startNextFile. by eapply trusted_eq, Ht2. }
  destruct (_ =? 204); [by eapply trusted_eq, Ht|]. destruct (_ =? 401); [by eapply trusted_eq, Ht|].
  destruct (_ =? 403); [by eapply trusted_eq, Ht|].
  repeat case_match; by apply trusted_failTransfer.
Qed.
Lemma trusted_reply t id o w : trusted w -> trusted (reply_finished t id o w).
Proof.
  intros Ht. unfold reply_finished. destruct (replies w !! id) as [s|]; [|done]. cbv zeta.
  destruct s; try (by eapply trusted_eq, Ht); case_bool_decide;
    (apply trusted_onPrepareFinished || apply trusted_onUploadFinished); by eapply trusted_eq, Ht.
Qed.
Lemma trusted_notify w : trusted w -> trusted (notifyPeerCancelled w).
Proof.
  intros Ht. unfold notifyPeerCancelled. destruct (_ || _); [done|]. by apply (trusted_post _ _ _ _ _ Protocol.PathCancel).
Qed.
Lemma trusted_cancel t w : trusted w -> trusted (cancel t w).
Proof.
  intros Ht. unfold cancel. destruct (negb _); [done|]. cbv zeta. fold (after_abort t w).
  assert (Ha : trusted (after_abort t w)).
  { unfold after_abort. cbv zeta. destruct (m_reply _); [apply trusted_reply|]; by eapply trusted_eq, Ht. }
  set (w1 := after_abort t w) in *. clearbody w1.
  assert (Hn : trusted (notifyPeerCancelled (closeCurrentFile w1))) by (apply trusted_notify; by eapply trusted_eq, Ha).
  pose proof (notify_file (closeCurrentFile w1)) as Hf.
  set (w2 := notifyPeerCancelled (closeCurrentFile w1)) in *. clearbody w2.
  eapply (trusted_concluded w2); [|done]. apply concluded_emits. rewrite control_writeHistory_if.
  rewrite (control_closed w2 Hf). exact (control_skips unfinished t _ w2).
Qed.
Lemma trusted_requestUpload pin w : trusted w -> trusted (requestUpload pin w).
Proof.
  intros Ht. unfold requestUpload. cbv zeta.
  match goal with |- context [post ?u ?ct ?cl ?body ?slot ?x] =>
    pose proof (trusted_post u ct cl body slot Protocol.PathPrepareUpload x) as Hp; destruct (post u ct cl body slot x) end.
  eapply trusted_eq, Hp; [done|done|by destruct (negb _)|done].
Qed.
(** Before the first transfer. *)
Definition unused (w : World) : Prop := m_busy w = false /\ replies w = ∅ /\ sent w = [].
Definition discreet (w : World) : Prop := trusted w \/ unused w.
Lemma discreet_sendFiles t device paths w :
  peer_of device ∈ peers -> discreet w -> discreet (sendFiles t device paths w).
Proof.
  intros Hp Hd. assert (Hs : Forall (fun r => exists peer, peer ∈ peers /\ pinned_to peer r) (sent w)).
  { destruct Hd as [[_ ?]|(_ & _ & ->)]; [done|constructor]. }
  assert (Hq : forall w', m_peer w' = m_peer w -> m_busy w' = m_busy w -> replies w' = replies w -> sent w' = sent w -> discreet w').
  { intros w' E1 E2 E3 E4. destruct Hd as [Hd|(D1 & D2 & D3)]; [left; by eapply trusted_eq, Hd|right].
    by rewrite <- E2, <- E3, <- E4 in *. }
  unfold sendFiles. destruct (m_busy w) eqn:Eb; [done|]. cbv zeta. destruct (_ || _); [done|].
  destruct (match m_known w with Some _ => _ | None => _ end); [by apply Hq|].
  destruct (foldl pick_entry _ _) as [[i p] entries]. destruct (is_empty entries); [by apply Hq|].
  left. apply trusted_requestUpload. by split.
Qed.
Lemma discreet_handle t e w :
  (forall device paths, e = SendFiles device paths -> peer_of device ∈ peers) -> discreet w -> discreet (handle t e w).
Proof.
  intros He Hd.
  assert (Hq : forall w', m_peer w' = m_peer w -> m_busy w' = m_busy w -> replies w' = replies w -> sent w' = sent w -> discreet w').
  { intros w' E1 E2 E3 E4. destruct Hd as [Hd|(D1 & D2 & D3)]; [left; by eapply trusted_eq, Hd|right].
    by rewrite <- E2, <- E3, <- E4 in *. }
  destruct e; cbn [handle]; try by apply Hq.
  - apply discreet_sendFiles; [by eapply He|done].
  - unfold submitPin. destruct Hd as [Hd|Hd]; [left|right].
    + destruct (_ || _); [done|]. apply trusted_requestUpload. by eapply trusted_eq, Hd.
    + by rewrite (proj1 Hd).
  - destruct Hd as [Hd|Hd]; [left; by apply trusted_cancel|right]. unfold cancel. by rewrite (proj1 Hd).
  - destruct Hd as [Hd|Hd]; [left; by apply trusted_reply|right]. unfold reply_finished.
    by rewrite (proj1 (proj2 Hd)), lookup_empty.
  - unfold onUploadProgress. destruct (replies w !! id) as [[]|]; by apply Hq.
  - case_match; by apply Hq.
Qed.
End Trusted.
(** The devices of the calls of [sendFiles]. *)
Definition picked (events : list (Z * event)) : list DeviceInfo :=
  omap (fun te => match te.2 with SendFiles device _ => Some (peer_of device) | _ => None end) events.
Lemma discreet_run peers w events :
  (forall peer, peer ∈ picked events -> peer ∈ peers) -> discreet peers w -> discreet peers (run w events).
Proof.
  revert w. induction events as [|[t e] events IH]; intros w Hp Hd; [done|]. apply IH.
  - intros peer Hin. apply Hp. cbn. destruct e; cbn; try done. by right.
  - apply (discreet_handle peers t e); [|done]. intros device paths ->. apply Hp. cbn. by left.
Qed.
(** C7: nothing leaves for a device that was not picked, or past the pin. Over any
    history, every request this service makes - the file list, the PIN, the files,
    the cancellation - goes to the address of a device the person sent files to, with
    our certificate configured, under a pin to the fingerprint that device had on the
    screen. A blocked device is sent nothing at all. *)
Theorem nothing_leaves_unpinned settings transfer history known events :
  Forall (fun r => exists peer, peer ∈ picked events /\ pinned_to peer r)
    (sent (run (World0 settings transfer history known) events))
  /\ forall t device paths (w : World) kd,
       m_known w = Some kd -> KnownDevices.isBlocked (fingerprint (peer_of device)) kd = true ->
       sent (sendFiles t device paths w) = sent w /\ m_busy (sendFiles t device paths w) = m_busy w.
Proof.
  split.
  - assert (Hd : discreet (picked events) (run (World0 settings transfer history known) events)).
    { apply discreet_run; [done|]. by right. }
    destruct Hd as [[_ Hd]|(_ & _ & ->)]; [done|constructor].
  - intros t device paths w kd Hk Hb. unfold sendFiles. destruct (m_busy w) eqn:E; [done|]. cbv zeta.
    destruct (_ || _); [done|]. rewrite Hk, Hb. done.
Qed.

(** ** Two surprises *)

(** A transfer whose every accepted file arrived is a failure when a row was left out. *)
Lemma partial_acceptance_fails t (w : World) :
  TransferModel.completedCount (m_transfer w) <> TransferModel.fileCount (m_transfer w) ->
  TransferModel.m_state (m_transfer (completeTransfer t w)) = TransferModel.Failed.
Proof.
  intros Hn. unfold completeTransfer. cbv zeta.
  match goal with |- context [writeHistory t ?x] =>
    transitivity (TransferModel.m_state (m_transfer (writeHistory t x))); [reflexivity|] end.
  rewrite transfer_writeHistory.
  match goal with |- context [m_transfer (if ?b then _ else ?y)] =>
    transitivity (TransferModel.m_state (m_transfer y)); [by destruct b|] end.
  rewrite (proj2 (Z.eqb_neq _ _)) by done. destruct (0 <? _); apply setState_state.
Qed.
End SendFacts.

(** The alias is filled in first, and a marker in it takes what comes next. *)
Lemma alias_takes_the_status :
  QtArg.arg (number 500) (QtArg.arg (lit "Fig %1") (lit "%1 refused the transfer (%2)"))
  = lit "Fig 500 refused the transfer (%2)".
Proof. vm_compute. reflexivity. Qed.
End SendFacts.
