(* ===== verification/ReceiveService.v ===== *)
(** * ReceiveService: src/src/receiveservice.cpp, receiveservice.h, hashingfile.cpp

    Every endpoint a sender talks to, and the incoming session. The world is
    what the service can reach: the connections and their sinks, the files,
    and the shared objects (the settings, the device list and the known
    devices through [Discovery]; the transfer; the history). A connection's
    number also names the [HashingFile] its body goes to. *)
From S2P Require Import Prelude QtArg Json Crypto Reference Protocol DeviceInfo SecureStore Certificate TlsClient.
From S2P Require Import KnownDevices AppSettings HistoryModel DeviceModel FileNames Network Discovery.
From S2P Require Import RateLimiter TransferModel HttpConnection HttpServer.
Import DeviceInfo HttpConnection.

(** What the disk answers to the [n]-th request made of it: whether a tree can
    be made, a file opened, renamed; how many bytes of a block are taken
    (-1 on error); what has reached the file once it is closed. *)
Class Disk := {
  disk_mkpath : nat -> qstring -> bool;
  disk_open : nat -> qstring -> bool;
  disk_accepts : nat -> qstring -> bytes -> Z;
  disk_keeps : nat -> qstring -> bytes -> bytes;
  disk_rename : nat -> qstring -> qstring -> bool;
  disk_accepts_range n p d : -1 <= disk_accepts n p d <= len d;
  disk_keeps_prefix n p d : disk_keeps n p d `prefix_of` d
}.

Module ReceiveService.

Definition SessionIdleMs : Z := 60 * 1000.
Definition MaxFilesPerSession : Z := 2000.

Inductive signal :=
| listeningChanged | requestArrived (peerAlias : qstring) (fileCount totalBytes : Z) | transferStarted
| transferFinished (status : qstring) (fileCount : Z) (destination : qstring).

#[local] Existing Instances AppSettings.eta_AppSettings Discovery.eta_Discovery TransferModel.eta_FileEntry
  TransferModel.eta_TransferModel.

Section ReceiveService.
Context `{OpenSSL, QtText, QHashOrder, Platform, JsonText, X509, AppPaths, SettingsHost, UrlText, HttpText, Disk}.
Context {S : Type} `{StoredFiles S}.

(** ** HashingFile *)

(** The hash is fed what the file took. *)
Record HashingFile := mkHashingFile { h_path : qstring; h_hashed : bytes; h_open : bool }.
#[export] Instance eta_HashingFile : Settable HashingFile := fun r =>
  mkHashingFile (h_path r) (h_hashed r) (h_open r).
Definition digest (f : HashingFile) : qstring := to_hex (sha256 (h_hashed f)).

Record Upload := mkUpload { row : Z; partPath : qstring; finalPath : qstring }.

Record World := mkWorld {
  w_conns : gmap Z Conn;
  w_files : gmap Z HashingFile;             (* the open files, by connection *)
  disk : gmap qstring bytes;
  disk_ops : nat;
  unexecutable : list qstring;              (* setPermissions without execute, newest first *)
  onClosed_pending : gset Z;                (* closed() wired to onPendingClosed *)
  onClosed_upload : gset Z;                 (* closed() wired to onUploadClosed *)
  onProgress : gset Z;
  m_server : HttpServer.HttpServer;
  m_discovery : Discovery.Discovery (S := S);
  m_transfer : TransferModel.TransferModel;
  m_history : HistoryModel.HistoryModel (S := S);
  m_pending : option Z;
  m_peer : DeviceInfo;
  m_sessionId : qstring;
  m_sessionAddress : qstring;
  m_sessionDirectory : qstring;
  m_tokens : gmap qstring qstring;
  m_uploads : gmap Z Upload;
  m_acceptTimer : Timer;
  m_idleTimer : Timer;
  m_listenError : qstring;
  m_pinAttempts : RateLimiter.RateLimiter;
  posts : list Request;                     (* newest first *)
  emitted : list signal                     (* newest first *)
}.
#[export] Instance eta_World : Settable World := fun r =>
  mkWorld (w_conns r) (w_files r) (disk r) (disk_ops r) (unexecutable r) (onClosed_pending r)
    (onClosed_upload r) (onProgress r) (m_server r) (m_discovery r) (m_transfer r) (m_history r)
    (m_pending r) (m_peer r) (m_sessionId r) (m_sessionAddress r) (m_sessionDirectory r) (m_tokens r)
    (m_uploads r) (m_acceptTimer r) (m_idleTimer r) (m_listenError r) (m_pinAttempts r) (posts r) (emitted r).

Definition World0 (discovery : Discovery.Discovery (S := S)) (history : HistoryModel.HistoryModel (S := S))
    (files : gmap qstring bytes) : World :=
  mkWorld ∅ ∅ files 0 [] ∅ ∅ ∅ HttpServer.HttpServer0 discovery TransferModel.TransferModel0 history
    None DeviceInfo0 [] [] [] ∅ ∅ (mkTimer Protocol.AcceptTimeoutMs None) (mkTimer SessionIdleMs None)
    [] RateLimiter.RateLimiter0 [] [].

(** ** The world's parts *)

Definition m_settings (w : World) : AppSettings.AppSettings (S := S) := Discovery.m_settings (m_discovery w).
Definition m_known (w : World) : option (KnownDevices.KnownDevices (S := S)) := Discovery.m_known (m_discovery w).
Definition the_conn (i : Z) (w : World) : Conn := default (Conn0 0 [] None) (w_conns w !! i).
Definition put_conn (i : Z) (c : Conn) (w : World) : World := w <| w_conns ::= <[i := c]> |>.
Definition on_conn (i : Z) (f : Conn -> Conn) (w : World) : World := put_conn i (f (the_conn i w)) w.
Definition answer (t i status : Z) (w : World) : World := on_conn i (respond_ t status) w.
Definition transfer (f : TransferModel.TransferModel -> TransferModel.TransferModel) (w : World) : World :=
  w <| m_transfer ::= f |>.
Definition setState (t : Z) (s : TransferModel.State) (error : qstring) : World -> World :=
  transfer (TransferModel.setState t s error).
Definition emit (s : signal) (w : World) : World := w <| emitted ::= cons s |>.
Definition draw_token (w : World) : qstring * World :=
  let '(token, p) := Protocol.generateToken (AppSettings.pool (m_settings w)) in
  (token, w <| m_discovery ::= fun d => d <| Discovery.m_settings ::= fun s => s <| AppSettings.pool := p |> |> |>).
Definition file_exists (w : World) (path : qstring) : bool := bool_decide (is_Some (disk w !! path)).
Definition remove_file (path : qstring) (w : World) : World := w <| disk ::= delete path |>.

Definition isListening (w : World) : bool := HttpServer.isListening (m_server w).
Definition listenError (w : World) : qstring := m_listenError w.
Definition port (w : World) : Z :=
  if HttpServer.isListening (m_server w) then HttpServer.boundPort (m_server w)
  else AppSettings.port (m_settings w).
Definition endpoint (path : qstring) : qstring := Protocol.ApiPrefix ++ path.

Definition closeHashingFile (i : Z) (w : World) : World :=
  match w_files w !! i with
  | None => w
  | Some f =>
      if negb (h_open f) then w
      else w <| disk ::= alter (disk_keeps (disk_ops w) (h_path f)) (h_path f) |> <| disk_ops ::= Datatypes.S |>
             <| w_files ::= <[i := f <| h_open := false |>]> |>
  end.
(** [HashingFile::writeData], and what [write] returns. *)
Definition writeData (i : Z) (data : bytes) (w : World) : Z * World :=
  match w_files w !! i with
  | None => (-1, w)
  | Some f =>
      if negb (h_open f) then (-1, w)
      else
        let written := disk_accepts (disk_ops w) (h_path f) data in
        let w := w <| disk_ops ::= Datatypes.S |> in
        if 0 <? written
        then (written, w <| disk ::= alter (fun b => b ++ qleft written data) (h_path f) |>
                         <| w_files ::= <[i := f <| h_hashed ::= fun b => b ++ qleft written data |>]> |>)
        else (written, w)
  end.

(** ** The destination *)

Definition prepareDirectory (w : World) : qstring * World :=
  let path := AppSettings.destination (m_settings w) in
  let path := if AppSettings.folderPerSender (m_settings w) && negb (is_empty (alias (m_peer w)))
              then path ++ lit "/" ++ FileNames.sanitizeFileName (alias (m_peer w)) else path in
  let made := disk_mkpath (disk_ops w) path in
  let w := w <| disk_ops ::= Datatypes.S |> in
  if negb made then ([], w)
  else
    let probe := path ++ lit "/.localsend-write-test" in
    let opened := disk_open (disk_ops w) probe in
    let w := w <| disk_ops ::= Datatypes.S |> in
    if negb opened then ([], w)
    else (path, remove_file probe w).

(** ** Letting go *)

Definition releasePending (w : World) : World :=
  match m_pending w with
  | Some i => w <| onClosed_pending ::= fun s => s ∖ {[i]} |> <| m_pending := None |>
  | None => w
  end.
(** Closes the file, forgets it, and the upload with it. *)
Definition dropUpload (i : Z) (w : World) : World :=
  w <| m_uploads ::= delete i |> <| onClosed_upload ::= fun s => s ∖ {[i]} |>.
Definition deleteFile (i : Z) (w : World) : World := w <| w_files ::= delete i |>.
Definition closeUpload (i : Z) (keepFile : bool) (w : World) : World :=
  match m_uploads w !! i with
  | None => w
  | Some upload =>
      let w := dropUpload i w |>> closeHashingFile i |>> deleteFile i in
      if negb keepFile then remove_file (partPath upload) w else w
  end.

Definition apiUrl (peer : DeviceInfo) (path : qstring) (query : list (qstring * qstring)) : Url :=
  (parse_url (apiBase peer ++ path)) <| Network.url_query := query |>.
Definition notifyPeerCancelled (w : World) : World :=
  if is_empty (address (m_peer w)) || is_empty (m_sessionId w) then w
  else w <| posts ::= cons (mkRequest (apiUrl (m_peer w) Protocol.PathCancel [(lit "sessionId", m_sessionId w)])
                              json_content None (Bytes []) None TlsClient.Unhandled) |>.

(** ** The end of a session *)

(** The loop over the open uploads. *)
Definition stop_upload (t : Z) (w : World) (i : Z) : World :=
  let row := default (-1) (row <$> m_uploads w !! i) in
  closeUpload i false w
  |>> transfer (TransferModel.setFileStatus t row TransferModel.FileFailed (lit "Transfer stopped"))
  |>> answer t i 500.
Definition stop_uploads (t : Z) (w : World) : World :=
  foldl (stop_upload t) w (hash_keys (m_uploads w)).

(** The loop over the rows never reached. *)
Definition skip_row (t : Z) (m : TransferModel.TransferModel) (r : nat) : TransferModel.TransferModel :=
  let st := TransferModel.status (TransferModel.entry (Z.of_nat r) m) in
  if TransferModel.status_is st TransferModel.FileWaiting || TransferModel.status_is st TransferModel.FileTransferring
  then TransferModel.setFileStatus t (Z.of_nat r) TransferModel.FileSkipped [] m else m.
Definition rows (m : TransferModel.TransferModel) : list nat := seq 0 (List.length (TransferModel.m_files m)).
Definition skip_rows (t : Z) (m : TransferModel.TransferModel) : TransferModel.TransferModel :=
  foldl (skip_row t) m (rows m).

(** [tr("%1 of %2 files were received").arg(done).arg(total)] *)
Definition partly_text (done total : Z) : qstring :=
  QtArg.arg (number total) (QtArg.arg (number done) (lit "%1 of %2 files were received")).
Definition final_state (t : Z) (status : qstring) (m : TransferModel.TransferModel) : TransferModel.TransferModel :=
  let done := TransferModel.completedCount m in
  let total := TransferModel.fileCount m in
  if qeq status (lit "cancelled") then TransferModel.setState t TransferModel.Cancelled [] m
  else if done =? total then TransferModel.setState t TransferModel.Finished [] m
  else if 0 <? done then TransferModel.setState t TransferModel.Failed (partly_text done total) m
  else TransferModel.setState t TransferModel.Failed (lit "Nothing was received") m.

Definition done_entries (m : TransferModel.TransferModel) : list TransferModel.FileEntry :=
  List.filter (fun e => TransferModel.status_is (TransferModel.status e) TransferModel.FileDone)
    (TransferModel.m_files m).
Definition session_record (t : Z) (w : World) : HistoryModel.HistoryRecord :=
  let entries := done_entries (m_transfer w) in
  HistoryModel.mkHistoryRecord (m_sessionId w) (lit "receive") (alias (m_peer w)) (deviceType (m_peer w))
    (Some t) (map TransferModel.fileName entries)
    (foldl (fun acc e => wrap64 (acc + TransferModel.size e)) 0 entries)
    (TransferModel.stateName (m_transfer w)) (m_sessionDirectory w).

Definition remember_peer (t : Z) (w : World) : World :=
  w <| m_discovery ::= fun d => d <| Discovery.m_known ::=
         fmap (KnownDevices.remember t (fingerprint (m_peer w)) (alias (m_peer w))) |> |>.
Definition finishSession (t : Z) (status : qstring) (w : World) : World :=
  let hadSession := negb (is_empty (m_sessionId w)) in
  if negb hadSession && bool_decide (m_pending w = None) then w
  else
    let w := w <| m_idleTimer ::= stop |> <| m_acceptTimer ::= stop |> |>> stop_uploads t in
    let w := match m_pending w with Some i => answer t i 403 w |>> releasePending | None => w end in
    if negb hadSession then setState t TransferModel.Cancelled [] w
    else
      let w := transfer (skip_rows t) w in
      let done := TransferModel.completedCount (m_transfer w) in
      let w := transfer (final_state t status) w in
      let w := if bool_decide (is_Some (m_known w)) && (0 <? done) then remember_peer t w else w in
      let w := if AppSettings.historyEnabled (m_settings w) && (0 <? done)
               then w <| m_history ::= HistoryModel.append (session_record t w) |> else w in
      let destination := m_sessionDirectory w in
      let w := w <| m_sessionId := [] |> <| m_sessionAddress := [] |> <| m_sessionDirectory := [] |>
                 <| m_tokens := ∅ |> in
      emit (transferFinished (TransferModel.stateName (m_transfer w)) done destination) w.

(** ** Answering the prompt *)

(** The loop that hands out a token per row. *)
Definition give_token (wt : World * jobject) (r : nat) : World * jobject :=
  let '(w, tokens) := wt in
  let '(token, w) := draw_token w in
  let fileId := TransferModel.id (TransferModel.entry (Z.of_nat r) (m_transfer w)) in
  (transfer (TransferModel.setFileToken (Z.of_nat r) token) w <| m_tokens ::= <[fileId := token]> |>,
   jinsert fileId (JString token) tokens).
Definition accept (t : Z) (w : World) : World :=
  match m_pending w with
  | None => w
  | Some i =>
      let '(directory, w) := prepareDirectory w in
      if is_empty directory
      then answer t i 500 w |>> releasePending |>> set_field m_acceptTimer stop
             |>> setState t TransferModel.Failed (lit "Cannot write to the destination folder")
      else
        let '(sessionId, w) := draw_token w in
        let w := w <| m_sessionId := sessionId |> <| m_sessionAddress := m_peerAddress (the_conn i w) |>
                   <| m_sessionDirectory := directory |> <| m_tokens := ∅ |> in
        let '(w, tokens) := foldl give_token (w, []) (rows (m_transfer w)) in
        let response := jinsert (lit "files") (JObject tokens)
                          (jinsert (lit "sessionId") (JString (m_sessionId w)) []) in
        on_conn i (respondJson t 200 response) w
        |>> releasePending |>> set_field m_acceptTimer stop
        |>> transfer (TransferModel.setDestination (m_sessionDirectory w))
        |>> setState t TransferModel.Active []
        |>> set_field m_idleTimer (start t)
        |>> emit transferStarted
  end.
Definition decline (t : Z) (w : World) : World :=
  match m_pending w with
  | None => w
  | Some i => answer t i 403 w |>> releasePending |>> set_field m_acceptTimer stop
                |>> setState t TransferModel.Idle []
  end.
Definition onAcceptTimeout (t : Z) (w : World) : World :=
  let w := w <| m_acceptTimer ::= stop |> in
  match m_pending w with
  | None => w
  | Some i => answer t i 403 w |>> releasePending |>> setState t TransferModel.Idle []
  end.
Definition onPendingClosed (t i : Z) (w : World) : World :=
  if negb (bool_decide (m_pending w = Some i)) then w
  else
    let w := w <| m_pending := None |> <| m_acceptTimer ::= stop |> in
    if is_empty (m_sessionId w) then setState t TransferModel.Idle [] w else w.
Definition cancel (t : Z) (w : World) : World :=
  if bool_decide (is_Some (m_pending w)) && is_empty (m_sessionId w) then decline t w
  else if is_empty (m_sessionId w) then w
  else notifyPeerCancelled w |>> finishSession t (lit "cancelled").
Definition onSessionIdle (t : Z) (w : World) : World :=
  let w := w <| m_idleTimer ::= stop |> in
  if is_empty (m_sessionId w) then w else finishSession t (lit "failed") w.

(** ** /info and /register *)

Definition handleInfo (t i : Z) (w : World) : World :=
  on_conn i (respondJson t 200 (toInfoResponse (AppSettings.self (m_settings w)))) w.
Definition handleRegister (t i : Z) (w : World) : World :=
  let c := the_conn i w in
  let '(self, d) := Discovery.registerPeer t (jsonBody c) (m_peerAddress c) (m_discovery w) in
  on_conn i (respondJson t 200 (toInfoResponse self)) (w <| m_discovery := d |>).

(** ** /prepare-upload *)

Definition file_entry (files : jobject) (key : qstring) : TransferModel.FileEntry :=
  let descriptor := jobj (jvalue key files) in
  let fileName := jstring (jvalue (lit "fileName") descriptor) in
  let size := qint64_of (jdouble (jvalue (lit "size") descriptor)) in
  TransferModel.FileEntry0
    <| TransferModel.id := jstring_or key (jvalue (lit "id") descriptor) |>
    <| TransferModel.fileName := if is_empty fileName then lit "file" else fileName |>
    <| TransferModel.size := if size <? 0 then 0 else size |>
    <| TransferModel.fileType := Protocol.sanitizeText (jstring (jvalue (lit "fileType") descriptor)) 128 |>
    <| TransferModel.sha256 := Protocol.sanitizeText (jstring (jvalue (lit "sha256") descriptor)) 128 |>.

(** The checks before anything is shown, in order: a status to answer, or the
    request to show. The limiter moves on a PIN that was checked. *)
Definition screen (t i : Z) (w : World) : World * (Z + DeviceInfo * jobject * jobject) :=
  let c := the_conn i w in
  let peerAddress := m_peerAddress c in
  if negb (AppSettings.receiveEnabled (m_settings w)) then (w, inl 403)
  else if bool_decide (is_Some (m_pending w)) || negb (is_empty (m_sessionId w)) then (w, inl 409)
  else if negb (RateLimiter.allow t peerAddress (m_pinAttempts w))
  then (on_conn i (addHeader (lit "Retry-After") (number (RateLimiter.retryAfter t peerAddress (m_pinAttempts w)))) w,
        inl 429)
  else if negb (AppSettings.checkPin (query (lit "pin") c) (m_settings w))
  then (w <| m_pinAttempts ::= RateLimiter.recordFailure t peerAddress |>, inl 401)
  else
    let w := w <| m_pinAttempts ::= RateLimiter.recordSuccess peerAddress |> in
    let body := jsonBody c in
    let info := jobj (jvalue (lit "info") body) in
    let files := jobj (jvalue (lit "files") body) in
    if is_empty info then (w, inl 400)
    else if is_empty files then (w, inl 204)
    else if MaxFilesPerSession <? len files then (w, inl 400)
    else
      let peer := (fromPayload info) <| address := peerAddress |> in
      if match m_peerCertificate c with
         | Some presented =>
             negb (Crypto.equalsFold (Certificate.fingerprintOf (Some presented)) (fingerprint peer))
         | None => false
         end
      then (w, inl 403)
      else if match m_known w with Some kd => KnownDevices.isBlocked (fingerprint peer) kd | None => false end
      then (w, inl 403)
      else (w, inr (peer, info, files)).
Definition handlePrepareUpload (t i : Z) (w : World) : World :=
  let '(w, verdict) := screen t i w in
  match verdict with
  | inl status => answer t i status w
  | inr (peer, info, files) =>
      let w := w <| m_discovery ::= fun d => (Discovery.registerPeer t info (m_peerAddress (the_conn i w)) d).2 |> in
      let entries := map (file_entry files) (jkeys files) in
      let w := w <| m_peer := peer |> in
      let w := transfer (TransferModel.begin t TransferModel.Receiving (alias peer) (address peer) (deviceType peer)
                           (fingerprint peer) entries) w |>> setState t TransferModel.Pending [] in
      let w := w <| m_pending := Some i |> <| onClosed_pending ::= union {[i]} |> in
      if AppSettings.quickSave (m_settings w) then accept t w
      else
        w <| m_acceptTimer ::= start t |>
        |>> emit (requestArrived (alias peer) (len entries) (TransferModel.m_totalBytes (m_transfer w)))
  end.

(** ** /upload *)

Definition handleUploadHeaders (t i : Z) (w : World) : World :=
  let c := the_conn i w in
  let sessionId := query (lit "sessionId") c in
  let fileId := query (lit "fileId") c in
  let token := query (lit "token") c in
  if is_empty sessionId || is_empty fileId || is_empty token then answer t i 400 w
  else if is_empty (m_sessionId w) || negb (qeq sessionId (m_sessionId w)) then answer t i 409 w
  else if negb (Crypto.equals_str (default [] (m_tokens w !! fileId)) token)
          || negb (qeq (m_peerAddress c) (m_sessionAddress w)) then answer t i 403 w
  else
    let r := TransferModel.indexOfFile fileId (m_transfer w) in
    if r <? 0 then answer t i 400 w
    else
      let entry := TransferModel.entry r (m_transfer w) in
      if TransferModel.status_is (TransferModel.status entry) TransferModel.FileDone then answer t i 200 w
      else
        let final := FileNames.reserveFilePath (file_exists w) (m_sessionDirectory w) (TransferModel.fileName entry) in
        if is_empty final
        then transfer (TransferModel.setFileStatus t r TransferModel.FileFailed (lit "No free name for this file")) w
               |>> answer t i 500
        else
          let upload := mkUpload r (final ++ FileNames.PartSuffix) final in
          let opened := disk_open (disk_ops w) (partPath upload) in
          let w := w <| disk_ops ::= Datatypes.S |> in
          if negb opened
          then transfer (TransferModel.setFileStatus t r TransferModel.FileFailed (lit "Cannot write the file")) w
                 |>> answer t i 500
          else
            let w := w <| disk ::= <[partPath upload := []]> |>
                       <| w_files ::= <[i := mkHashingFile (partPath upload) [] true]> |>
                       <| m_uploads ::= <[i := upload]> |>
                       <| onClosed_upload ::= union {[i]} |> <| onProgress ::= union {[i]} |> in
            let w := transfer (TransferModel.setFileStatus t r TransferModel.FileTransferring []) w
                       |>> set_field m_idleTimer (start t) in
            on_conn i (streamBodyTo t i (TransferModel.size (TransferModel.entry r (m_transfer w)))) w.
(** The lambda on [bodyProgress]. *)
Definition onBodyProgress (t i received : Z) (w : World) : World :=
  if negb (bool_decide (i ∈ onProgress w)) then w
  else match m_uploads w !! i with
       | None => w
       | Some upload => transfer (TransferModel.setFileTransferred (row upload) received) w
                          |>> set_field m_idleTimer (start t)
       end.

(** Whether every row has been settled: the session is over. *)
Definition all_settled (w : World) : bool :=
  TransferModel.fileCount (m_transfer w)
  <=? TransferModel.completedCount (m_transfer w) + TransferModel.failedCount (m_transfer w).
Definition handleUploadFinished (t i : Z) (w : World) : World :=
  match m_uploads w !! i with
  | None => if negb (hasResponded (the_conn i w)) then answer t i 400 w else w
  | Some upload =>
      let w := dropUpload i w |>> closeHashingFile i in
      let file := default (mkHashingFile [] [] false) (w_files w !! i) in
      let entry := TransferModel.entry (row upload) (m_transfer w) in
      let complete := TransferModel.size entry <=? len (default [] (disk w !! partPath upload)) in
      let declared := TransferModel.sha256 entry in
      let digestMatches := if complete && FileNames.looksLikeSha256 declared
                           then Crypto.equalsFold (digest file) declared else true in
      let w := deleteFile i w in
      let w :=
        if negb complete
        then remove_file (partPath upload) w
               |>> transfer (TransferModel.setFileStatus t (row upload) TransferModel.FileFailed (lit "Transfer was cut short"))
               |>> answer t i 500
        else if negb digestMatches
        then remove_file (partPath upload) w
               |>> transfer (TransferModel.setFileStatus t (row upload) TransferModel.FileFailed (lit "The file arrived damaged"))
               |>> answer t i 422
        else
          let w := w <| unexecutable ::= cons (partPath upload) |> in
          let renamed := negb (file_exists w (finalPath upload))
                         && disk_rename (disk_ops w) (partPath upload) (finalPath upload) in
          let w := w <| disk_ops ::= Datatypes.S |> in
          let w :=
            if renamed
            then w <| disk ::= fun d => <[finalPath upload := default [] (d !! partPath upload)]>
                                          (delete (partPath upload) d) |>
                   |>> transfer (TransferModel.setFileLocalPath (row upload) (finalPath upload))
                   |>> transfer (TransferModel.setFileStatus t (row upload) TransferModel.FileDone [])
            else transfer (TransferModel.setFileLocalPath (row upload) (partPath upload)) w
                   |>> transfer (TransferModel.setFileStatus t (row upload) TransferModel.FileDone []) in
          answer t i 200 w in
      let w := w <| m_idleTimer ::= start t |> in
      if all_settled w
      then finishSession t (if 0 <? TransferModel.failedCount (m_transfer w) then lit "failed" else lit "finished") w
      else w
  end.
Definition onUploadClosed (t i : Z) (w : World) : World :=
  match m_uploads w !! i with
  | None => w
  | Some upload =>
      let w := w <| m_uploads ::= delete i |> |>> closeHashingFile i |>> deleteFile i
                 |>> remove_file (partPath upload)
                 |>> transfer (TransferModel.setFileStatus t (row upload) TransferModel.FileFailed
                                 (lit "The sender disconnected")) in
      if all_settled w then finishSession t (lit "failed") w else w
  end.

(** ** /cancel, and the routing *)

Definition handleCancel (t i : Z) (w : World) : World :=
  let sessionId := query (lit "sessionId") (the_conn i w) in
  let w := answer t i 200 w in
  if bool_decide (is_Some (m_pending w)) && is_empty (m_sessionId w)
  then releasePending w |>> set_field m_acceptTimer stop |>> setState t TransferModel.Cancelled []
  else if negb (is_empty (m_sessionId w)) && (is_empty sessionId || qeq sessionId (m_sessionId w))
  then finishSession t (lit "cancelled") w
  else w.

Definition onHeadersReady (t i : Z) (w : World) : World :=
  if qeq (m_path (the_conn i w)) (endpoint Protocol.PathUpload) then handleUploadHeaders t i w else w.
Definition onRequestReady (t i : Z) (w : World) : World :=
  let path := m_path (the_conn i w) in
  if qeq path (endpoint Protocol.PathInfo) || qeq path Protocol.PathLegacyInfo then handleInfo t i w
  else if qeq path (endpoint Protocol.PathRegister) then handleRegister t i w
  else if qeq path (endpoint Protocol.PathPrepareUpload) then handlePrepareUpload t i w
  else if qeq path (endpoint Protocol.PathUpload) then handleUploadFinished t i w
  else if qeq path (endpoint Protocol.PathCancel) then handleCancel t i w
  else answer t i 404 w.
(** The slots on [closed], in the order they were connected. *)
Definition onClosed (t i : Z) (w : World) : World :=
  let w := if bool_decide (i ∈ onClosed_upload w) then onUploadClosed t i w else w in
  if bool_decide (i ∈ onClosed_pending w) then onPendingClosed t i w else w.

#[export] Instance http_world : HttpWorld World := {|
  conn := the_conn;
  set_conn := put_conn;
  sink_write := writeData;
  on_headersReady := onHeadersReady;
  on_requestReady := onRequestReady;
  on_bodyProgress := fun t i received _ => onBodyProgress t i received;
  on_closed := onClosed
|}.

(** ** Listening *)

Definition startListening (listened : option qstring) (w : World) : bool * World :=
  if HttpServer.isListening (m_server w) then (true, w)
  else
    let identity := AppSettings.identity (m_settings w) in
    let w := if AppSettings.isEncrypted (m_settings w)
             then w <| m_server ::= HttpServer.setIdentity (Certificate.certificate identity)
                                      (Certificate.privateKey identity) |>
             else w <| m_server ::= HttpServer.setIdentity None None |> in
    let '(ok, server) := HttpServer.start (AppSettings.port (m_settings w) mod 2 ^ 16) listened (m_server w) in
    let w := w <| m_server := server |> in
    if negb ok then (false, w <| m_listenError := HttpServer.lastError server |> |>> emit listeningChanged)
    else (true, w <| m_listenError := [] |> |>> emit listeningChanged).
Definition stopListening (t : Z) (w : World) : World :=
  if negb (HttpServer.isListening (m_server w)) then w
  else finishSession t (lit "cancelled") w |>> set_field m_server HttpServer.stop |>> emit listeningChanged.
Definition onSettingsChanged (t : Z) (listened : option qstring) (w : World) : World :=
  if negb (HttpServer.isListening (m_server w)) then w
  else (startListening listened (stopListening t w)).2.

(** ** Everything that can happen *)

Inductive event :=
| Connection (i : Z) (address : qstring) (certificate : option bytes)
| Http (i : Z) (e : HttpConnection.event)
| Accept | Decline | Cancel
| AcceptTimeout | SessionIdle
| Settings (o : AppSettings.op) (listened : option qstring)
| Known (o : KnownDevices.op)
| TransferFlush
| StartListening (listened : option qstring) | StopListening.
(** A number is used for one connection. *)
Definition handle (t : Z) (w : World) (e : event) : World :=
  match e with
  | Connection i address certificate =>
      match w_conns w !! i with
      | Some _ => w
      | None => put_conn i (Conn0 t address certificate) w
      end
  | Http i e => match w_conns w !! i with Some _ => HttpConnection.handle i w e | None => w end
  | Accept => accept t w
  | Decline => decline t w
  | Cancel => cancel t w
  | AcceptTimeout => if due t (m_acceptTimer w) then onAcceptTimeout t w else w
  | SessionIdle => if due t (m_idleTimer w) then onSessionIdle t w else w
  | Settings o listened =>
      let before := AppSettings.port (m_settings w) in
      let w := w <| m_discovery ::= fun d => d <| Discovery.m_settings ::= fun s => AppSettings.run_op s o |> |> in
      if AppSettings.port (m_settings w) =? before then w else onSettingsChanged t listened w
  | Known o => w <| m_discovery ::= fun d => d <| Discovery.m_known ::= fmap (fun kd => KnownDevices.run_op kd o) |> |>
  | TransferFlush => if TransferModel.m_flushActive (m_transfer w)
                     then transfer (TransferModel.flushTimeout t) w else w
  | StartListening listened => (startListening listened w).2
  | StopListening => stopListening t w
  end.
End ReceiveService.
End ReceiveService.
