(* ===== verification/ReceiveFacts.v ===== *)
(** * ReceiveFacts: what the receiving service guarantees

    The invariant of [ReceiveService] over every interleaving of connections,
    answers, timers and settings, and the theorems about consent, the files
    it touches, its capabilities and the end of a session. *)
From S2P Require Import Prelude Json Crypto Reference Protocol DeviceInfo SecureStore Certificate TlsClient.
From S2P Require Import KnownDevices AppSettings HistoryModel DeviceModel FileNames Network Discovery.
From S2P Require Import RateLimiter TransferModel TransferFacts HttpConnection HttpFrame HttpServer ReceiveService.
Import DeviceInfo TransferFacts HttpConnection ReceiveService.

Module ReceiveFacts.

#[local] Existing Instances AppSettings.eta_AppSettings Discovery.eta_Discovery TransferModel.eta_FileEntry
  TransferModel.eta_TransferModel.

Section ReceiveFacts.
Context `{OpenSSL, QtText, QHashOrder, Platform, JsonText, X509, AppPaths, SettingsHost, UrlText, HttpText, Disk}.
Context {S : Type} `{StoredFiles S}.
#[local] Abbreviation World := (World (S := S)).

(** ** The files *)

(** The writability probe of [prepareDirectory]. *)
Definition is_probe (p : qstring) : Prop := exists path, p = path ++ lit "/.localsend-write-test".

Section Keep.
(** Files that were there before, under any name but the probe's. *)
Context (keep : gmap qstring bytes) (not_probes : forall p, is_Some (keep !! p) -> ~ is_probe p).

Record upload_ok (w : World) (i : Z) (u : Upload) : Prop := {
  up_open : is_Some (w_files w !! i);
  up_there : is_Some (disk w !! partPath u);
  up_fresh : keep !! partPath u = None;
  up_part : partPath u = finalPath u ++ FileNames.PartSuffix;
  up_inside : exists name, FileNames.stays name /\ finalPath u = m_sessionDirectory w ++ lit "/" ++ name
}.
Record store_ok (w : World) : Prop := {
  so_upload i u : m_uploads w !! i = Some u -> upload_ok w i u;
  so_distinct i j u v : m_uploads w !! i = Some u -> m_uploads w !! j = Some v ->
    partPath u = partPath v -> i = j;
  so_file i f : w_files w !! i = Some f -> exists u, m_uploads w !! i = Some u /\ h_path f = partPath u;
  so_hashed i f : w_files w !! i = Some f -> h_open f = true /\ disk w !! h_path f = Some (h_hashed f);
  so_keep : keep ⊆ disk w
}.

(** What it depends on. *)
Definition store (w : World) := (m_sessionDirectory w, m_uploads w, w_files w, disk w).
Lemma store_ok_eq w w' : store w = store w' -> store_ok w -> store_ok w'.
Proof.
  intros Hs [Ho1 Ho2 Ho3 Ho5 Ho4]. unfold store in Hs. injection Hs as Hd Hu Hf Hk.
  split; rewrite <- ?Hd, <- ?Hu, <- ?Hf, <- ?Hk; [|done..].
  intros i u Hi. destruct (Ho1 i u Hi). split; by rewrite <- ?Hd, <- ?Hu, <- ?Hf, <- ?Hk.
Qed.

Lemma keep_alter (f : bytes -> bytes) (p : qstring) (d : gmap qstring bytes) : keep !! p = None -> keep ⊆ d -> keep ⊆ alter f p d.
Proof.
  intros Hp Hd. apply map_subseteq_spec. intros q b Hq. destruct (decide (p = q)) as [->|Hn]; [congruence|].
  rewrite lookup_alter_ne by done. by eapply lookup_weaken.
Qed.
Lemma keep_delete (p : qstring) (d : gmap qstring bytes) : keep !! p = None -> keep ⊆ d -> keep ⊆ delete p d.
Proof.
  intros Hp Hd. apply map_subseteq_spec. intros q b Hq. destruct (decide (p = q)) as [->|Hn]; [congruence|].
  rewrite lookup_delete_ne by done. by eapply lookup_weaken.
Qed.
Lemma keep_insert (p : qstring) (b : bytes) (d : gmap qstring bytes) : keep !! p = None -> keep ⊆ d -> keep ⊆ <[p := b]> d.
Proof. intros Hp Hd. by apply insert_subseteq_r. Qed.
Lemma keep_absent (d : gmap qstring bytes) (p : qstring) : keep ⊆ d -> d !! p = None -> keep !! p = None.
Proof. intros Hd Hp. by eapply lookup_weaken_None. Qed.

(** A file no upload writes and nobody keeps may go. *)
Definition unused (p : qstring) (w : World) : Prop :=
  keep !! p = None /\ forall i u, m_uploads w !! i = Some u -> partPath u <> p.
Lemma remove_ok p w : unused p w -> store_ok w -> store_ok (remove_file p w).
Proof.
  intros [Hk Hu] [Ho1 Ho2 Ho3 Ho5 Ho4]. split; cbn; [|done..| |by apply keep_delete].
  - intros i u Hi. destruct (Ho1 i u Hi). split; cbn; try done. by rewrite lookup_delete_ne by (symmetry; by eapply Hu).
  - intros i f Hf. destruct (Ho3 i f Hf) as (u & Hi & Hq). rewrite lookup_delete_ne; [by apply (Ho5 i f)|].
    rewrite Hq. symmetry. by eapply Hu.
Qed.
(** The end of an upload: its file is closed and forgotten. *)
Lemma forget_ok i u w w1 : store_ok w -> m_uploads w !! i = Some u ->
  store w1 = (m_sessionDirectory w, delete i (m_uploads w), w_files w, disk w) ->
  store_ok (deleteFile i (closeHashingFile i w1)) /\ unused (partPath u) (deleteFile i (closeHashingFile i w1)).
Proof.
  intros [Ho1 Ho2 Ho3 Ho5 Ho4] Hi Hw1. destruct (Ho1 i u Hi) as [[f Hf] Hthere Hfresh _ _].
  destruct (Ho3 i f Hf) as (u' & Hu' & Hp). replace u' with u in * by congruence. clear u' Hu'.
  unfold store in Hw1. injection Hw1 as Wd Wu Wf Wk.
  assert (Hun : forall j v, delete i (m_uploads w) !! j = Some v -> partPath v <> partPath u).
  { intros j v [Hne Hj]%lookup_delete_Some Heq. apply Hne. symmetry. by eapply Ho2. }
  assert (Hfiles : forall j g, i <> j -> w_files w !! j = Some g ->
    exists v, delete i (m_uploads w) !! j = Some v /\ h_path g = partPath v).
  { intros j g Hne Hj. destruct (Ho3 j g Hj) as (v & Hv & Hg). exists v. by rewrite lookup_delete_ne. }
  unfold closeHashingFile, deleteFile. rewrite Wf, Hf. destruct (h_open f); cbn; rewrite ?Wf.
  - split; [|split; [done|cbn; by rewrite Wu]]. split; cbn; rewrite ?Wu, ?Wk, ?Wf.
    + intros j v Hj. pose proof (Hun j v Hj) as Hpv. apply lookup_delete_Some in Hj as [Hne Hj].
      destruct (Ho1 j v Hj). split; cbn; rewrite ?Wd, ?Wk, ?Wf; try done.
      * by rewrite lookup_delete_ne, lookup_insert_ne by done.
      * by rewrite Hp, lookup_alter_ne by (by apply not_eq_sym).
    + intros j k v v' [_ Hj]%lookup_delete_Some [_ Hk]%lookup_delete_Some. by apply Ho2.
    + intros j g [Hne Hj]%lookup_delete_Some. rewrite lookup_insert_ne in Hj by done. by apply Hfiles.
    + intros j g [Hne Hj]%lookup_delete_Some. rewrite lookup_insert_ne in Hj by done.
      destruct (Hfiles j g Hne Hj) as (v & Hv & Hg). rewrite lookup_alter_ne; [by apply (Ho5 j g)|].
      rewrite Hg, Hp. symmetry. by eapply Hun.
    + rewrite Hp. by apply keep_alter.
  - split; [|split; [done|cbn; by rewrite Wu]]. split; cbn; rewrite ?Wu, ?Wk, ?Wf.
    + intros j v [Hne Hj]%lookup_delete_Some. destruct (Ho1 j v Hj). split; cbn; rewrite ?Wd, ?Wk, ?Wf; try done.
      by rewrite lookup_delete_ne.
    + intros j k v v' [_ Hj]%lookup_delete_Some [_ Hk]%lookup_delete_Some. by apply Ho2.
    + intros j g [Hne Hj]%lookup_delete_Some. by apply Hfiles.
    + intros j g [_ Hj]%lookup_delete_Some. exact (Ho5 j g Hj).
    + done.
Qed.

Lemma write_ok s d w : store_ok w -> store_ok (writeData s d w).2.
Proof.
  intros Hok. unfold writeData. destruct (w_files w !! s) as [f|] eqn:Hf; [|done].
  destruct (h_open f); [|done]. cbn [negb]. cbv zeta. destruct (0 <? _).
  2: { by refine (store_ok_eq w _ _ Hok). }
  destruct Hok as [Ho1 Ho2 Ho3 Ho5 Ho4]. destruct (Ho3 s f Hf) as (u & Hu & Hp). cbn [snd]. split; cbn.
  - intros i v Hi. destruct (Ho1 i v Hi). split; cbn; try done.
    + destruct (decide (s = i)) as [->|Hn]; [by rewrite lookup_insert_eq|by rewrite lookup_insert_ne].
    + by apply lookup_alter_is_Some.
  - done.
  - intros i g Hi. destruct (decide (s = i)) as [->|Hn].
    + rewrite lookup_insert_eq in Hi. injection Hi as <-. cbn. by exists u.
    + rewrite lookup_insert_ne in Hi by done. by apply Ho3.
  - intros i g Hi. destruct (decide (s = i)) as [->|Hn].
    + rewrite lookup_insert_eq in Hi. injection Hi as <-. destruct (Ho5 i f Hf) as [Ho Hc]. cbn.
      by rewrite lookup_alter_eq, Hc.
    + rewrite lookup_insert_ne in Hi by done. rewrite lookup_alter_ne; [by apply (Ho5 i g)|].
      destruct (Ho3 i g Hi) as (v & Hv & Hg). rewrite Hg, Hp. intros Heq. apply Hn. by eapply Ho2.
  - rewrite Hp. apply keep_alter; [|done]. by apply (Ho1 s u Hu).
Qed.
Lemma open_ok i u w w1 :
  store_ok w -> disk w !! partPath u = None ->
  partPath u = finalPath u ++ FileNames.PartSuffix ->
  (exists name, FileNames.stays name /\ finalPath u = m_sessionDirectory w ++ lit "/" ++ name) ->
  store w1 = (m_sessionDirectory w, <[i := u]> (m_uploads w),
              <[i := mkHashingFile (partPath u) [] true]> (w_files w), <[partPath u := []]> (disk w)) ->
  store_ok w1.
Proof.
  intros [Ho1 Ho2 Ho3 Ho5 Ho4] Hfree Hpart Hin Hw1. unfold store in Hw1. injection Hw1 as Wd Wu Wf Wk.
  assert (Hk : keep !! partPath u = None) by by eapply keep_absent.
  assert (Hne : forall j v, m_uploads w !! j = Some v -> partPath v <> partPath u).
  { intros j v Hj Heq. destruct (up_there _ _ _ (Ho1 j v Hj)) as [b Hb]. congruence. }
  split; rewrite ?Wu, ?Wf, ?Wk.
  - intros j v Hj. apply lookup_insert_Some in Hj as [[<- <-]|[Hij Hj]].
    + split; rewrite ?Wd, ?Wf, ?Wk; try done; by rewrite lookup_insert_eq.
    + pose proof (Hne j v Hj). destruct (Ho1 j v Hj). split; rewrite ?Wd, ?Wf, ?Wk; try done.
      * by rewrite lookup_insert_ne.
      * by rewrite lookup_insert_ne by congruence.
  - intros j k v v' Hj Hk'.
    apply lookup_insert_Some in Hj as [[<- <-]|[Hij Hj]]; apply lookup_insert_Some in Hk' as [[<- <-]|[Hik Hk']]; intros Heq.
    + done.
    + by apply Hne in Hk'.
    + by apply Hne in Hj.
    + by eapply Ho2.
  - intros j g Hj. apply lookup_insert_Some in Hj as [[<- <-]|[Hij Hj]].
    + exists u. by rewrite lookup_insert_eq.
    + rewrite lookup_insert_ne by done. by apply Ho3.
  - intros j g Hj. apply lookup_insert_Some in Hj as [[<- <-]|[Hij Hj]]; [by rewrite lookup_insert_eq|].
    rewrite lookup_insert_ne; [by apply (Ho5 j g)|]. destruct (Ho3 j g Hj) as (v & Hv & Hg). rewrite Hg.
    symmetry. by eapply Hne.
  - by apply keep_insert.
Qed.
Lemma rename_ok p q w w1 : unused p w -> disk w !! q = None -> store_ok w ->
  store w1 = (m_sessionDirectory w, m_uploads w, w_files w, <[q := default [] (disk w !! p)]> (delete p (disk w))) ->
  store_ok w1.
Proof.
  intros [Hk Hun] Habs [Ho1 Ho2 Ho3 Ho5 Ho4] Hw1. assert (Hq : keep !! q = None) by by eapply keep_absent. unfold store in Hw1. injection Hw1 as Wd Wu Wf Wk.
  split; rewrite ?Wu, ?Wf, ?Wk; [|done..| |by apply keep_insert, keep_delete].
  - intros i v Hi. pose proof (Hun i v Hi). destruct (Ho1 i v Hi). split; rewrite ?Wd, ?Wf, ?Wk; try done.
    destruct (decide (q = partPath v)) as [->|Hn]; [by rewrite lookup_insert_eq|].
    by rewrite lookup_insert_ne, lookup_delete_ne by congruence.
  - intros i f Hf. destruct (Ho3 i f Hf) as (v & Hv & Hg). pose proof (Hun i v Hv). destruct (Ho5 i f Hf) as [Ho Hc].
    split; [done|]. rewrite lookup_insert_ne, lookup_delete_ne by congruence. done.
Qed.

(** ** The session *)

Definition armed (tm : Timer) : Prop := is_Some (deadline tm).
Record service_ok (w : World) : Prop := {
  sv_store : store_ok w;
  sv_idle : m_sessionId w = [] -> m_uploads w = ∅;
  sv_pending : is_Some (m_pending w) -> m_sessionId w = [] /\ armed (m_acceptTimer w);
  sv_session : m_sessionId w <> [] -> armed (m_idleTimer w)
}.
Definition service (w : World) := (store w, m_sessionId w, m_pending w, m_acceptTimer w, m_idleTimer w).
Lemma service_ok_eq w w' : service w = service w' -> service_ok w -> service_ok w'.
Proof.
  intros Hs [Ho1 Ho2 Ho3 Ho4]. unfold service in Hs. injection Hs as Hd Hu Hf Hk Hi Hp Ha Ht.
  split; rewrite <- ?Hu, <- ?Hi, <- ?Hp, <- ?Ha, <- ?Ht; [|done..].
  eapply store_ok_eq; [|exact Ho1]. unfold store. by rewrite Hd, Hu, Hf, Hk.
Qed.
(** Without uploads only the files kept matter. *)
Lemma store_ok_empty w w' :
  store_ok w -> m_uploads w = ∅ -> m_uploads w' = ∅ -> w_files w' = w_files w -> keep ⊆ disk w' -> store_ok w'.
Proof.
  intros [Ho1 Ho2 Ho3 Ho5 Ho4] Hu Hu' Hf Hk. split; rewrite ?Hu', ?Hf; [..|done].
  - intros i u Hi. by rewrite lookup_empty in Hi.
  - intros i j u v Hi. by rewrite lookup_empty in Hi.
  - intros i f Hi. destruct (Ho3 i f Hi) as (u & Hiu & _). by rewrite Hu, lookup_empty in Hiu.
  - intros i f Hi. destruct (Ho3 i f Hi) as (u & Hiu & _). by rewrite Hu, lookup_empty in Hiu.
Qed.

(** What stopping the uploads leaves alone. *)
Definition rest (w : World) :=
  (m_sessionId w, m_sessionAddress w, m_sessionDirectory w, m_pending w, m_acceptTimer w, m_idleTimer w,
   m_discovery w, m_history w, m_peer w).
Lemma closeHashingFile_frame i w :
  rest (closeHashingFile i w) = rest w /\ m_uploads (closeHashingFile i w) = m_uploads w
  /\ m_transfer (closeHashingFile i w) = m_transfer w.
Proof. unfold closeHashingFile. repeat case_match; done. Qed.
Lemma closeUpload_spec i w :
  store_ok w ->
  store_ok (closeUpload i false w) /\ m_uploads (closeUpload i false w) = delete i (m_uploads w)
  /\ rest (closeUpload i false w) = rest w /\ m_transfer (closeUpload i false w) = m_transfer w.
Proof.
  intros Hok. unfold closeUpload. destruct (m_uploads w !! i) as [u|] eqn:Hi.
  - destruct (forget_ok i u w (dropUpload i w) Hok Hi eq_refl) as [Hs Hun].
    destruct (closeHashingFile_frame i (dropUpload i w)) as (Hr & Hu & Ht).
    cbn [negb]. split_and!.
    + by apply remove_ok.
    + exact Hu.
    + exact Hr.
    + exact Ht.
  - by rewrite delete_id.
Qed.
Lemma stop_upload_spec t i w :
  store_ok w ->
  store_ok (stop_upload t w i) /\ m_uploads (stop_upload t w i) = delete i (m_uploads w)
  /\ rest (stop_upload t w i) = rest w.
Proof.
  intros Hok. destruct (closeUpload_spec i w Hok) as (Hs & Hu & Hr & _).
  unfold stop_upload. cbv zeta. split_and!; [by eapply store_ok_eq, Hs|exact Hu|exact Hr].
Qed.
Lemma stop_uploads_from t l w :
  store_ok w ->
  let w' := foldl (stop_upload t) w l in
  store_ok w' /\ rest w' = rest w /\ forall i, m_uploads w' !! i = if decide (i ∈ l) then None else m_uploads w !! i.
Proof.
  revert w. induction l as [|i l IH]; intros w Hok; cbn [foldl].
  - split_and!; [done..|]. intros i. by rewrite decide_False by apply not_elem_of_nil.
  - destruct (stop_upload_spec t i w Hok) as (Hs & Hu & Hr).
    destruct (IH _ Hs) as (Hs' & Hr' & Hu'). split_and!; [done|congruence|].
    intros j. rewrite Hu', Hu. destruct (decide (j = i)) as [->|Hn].
    + rewrite lookup_delete_eq. rewrite (decide_True _ _ (list_elem_of_here i l)). by case_decide.
    + rewrite lookup_delete_ne by done. clear not_probes. repeat case_decide; try done; exfalso; set_solver.
Qed.
Lemma stop_uploads_spec t w :
  store_ok w ->
  store_ok (stop_uploads t w) /\ rest (stop_uploads t w) = rest w /\ m_uploads (stop_uploads t w) = ∅.
Proof.
  intros Hok. destruct (stop_uploads_from t (hash_keys (m_uploads w)) w Hok) as (Hs & Hr & Hu).
  split_and!; [done..|]. apply map_eq. intros i. rewrite lookup_empty. unfold stop_uploads. rewrite Hu.
  case_decide as Hi; [done|]. rewrite hash_keys_elem in Hi. by apply eq_None_not_Some.
Qed.

(** Nothing is going on. *)
Definition at_rest (w : World) : Prop := m_sessionId w = [] /\ m_pending w = None /\ m_uploads w = ∅.
Lemma rest_ok w : store_ok w -> at_rest w -> service_ok w.
Proof.
  intros Hs (Hi & Hp & Hu). split; [done|done| |].
  - rewrite Hp. by intros [? ?].
  - by rewrite Hi.
Qed.
(** The tail of [finishSession] after the uploads and the request are gone. *)
Definition wind_up (t : Z) (status : qstring) (w : World) : World :=
  let w := transfer (skip_rows t) w in
  let done := TransferModel.completedCount (m_transfer w) in
  let w := transfer (final_state t status) w in
  let w := if bool_decide (is_Some (m_known w)) && (0 <? done) then remember_peer t w else w in
  let w := if AppSettings.historyEnabled (m_settings w) && (0 <? done)
           then w <| m_history ::= HistoryModel.append (session_record t w) |> else w in
  let destination := m_sessionDirectory w in
  let w := w <| m_sessionId := [] |> <| m_sessionAddress := [] |> <| m_sessionDirectory := [] |>
             <| m_tokens := ∅ |> in
  emit (transferFinished (TransferModel.stateName (m_transfer w)) done destination) w.
Definition stopped (t : Z) (w : World) : World :=
  let w := w <| m_idleTimer ::= stop |> <| m_acceptTimer ::= stop |> |>> stop_uploads t in
  match m_pending w with Some i => answer t i 403 w |>> releasePending | None => w end.
Lemma finishSession_eq t status w :
  finishSession t status w =
  if is_empty (m_sessionId w) && bool_decide (m_pending w = None) then w
  else if is_empty (m_sessionId w) then setState t TransferModel.Cancelled [] (stopped t w)
  else wind_up t status (stopped t w).
Proof.
  unfold finishSession. rewrite negb_involutive. destruct (is_empty (m_sessionId w)) eqn:E; reflexivity.
Qed.
Lemma stopped_spec t w :
  store_ok w ->
  store_ok (stopped t w) /\ m_pending (stopped t w) = None /\ m_uploads (stopped t w) = ∅
  /\ m_sessionId (stopped t w) = m_sessionId w /\ m_discovery (stopped t w) = m_discovery w
  /\ m_sessionDirectory (stopped t w) = m_sessionDirectory w /\ m_history (stopped t w) = m_history w
  /\ m_peer (stopped t w) = m_peer w.
Proof.
  intros Hok. unfold stopped. cbv zeta. set (w0 := w <| m_idleTimer ::= stop |> <| m_acceptTimer ::= stop |>).
  destruct (stop_uploads_spec t w0) as (Hs & Hr & Hu); [by eapply store_ok_eq, Hok|].
  set (w1 := stop_uploads t w0) in *. clearbody w1. unfold rest in Hr. injection Hr as R1 R2 R3 R4 R5 R6 R7 R8 R9.
  destruct (m_pending w1) as [i|] eqn:Hp; [|split_and!; done].
  unfold releasePending. cbn. rewrite Hp. split_and!; [by eapply store_ok_eq, Hs|done..].
Qed.
Lemma wind_up_rest t st w :
  store_ok w -> m_uploads w = ∅ -> m_pending w = None ->
  store_ok (wind_up t st w) /\ at_rest (wind_up t st w) /\ m_tokens (wind_up t st w) = ∅
  /\ m_settings (wind_up t st w) = m_settings w.
Proof.
  intros Hs Hu Hp. split; [apply (store_ok_empty w); try done|split; [split_and!|split]]; unfold wind_up; cbv zeta;
    repeat case_match; try done; by apply Hs.
Qed.
Lemma finish_ends t st w :
  service_ok w ->
  service_ok (finishSession t st w) /\ at_rest (finishSession t st w)
  /\ m_settings (finishSession t st w) = m_settings w.
Proof.
  intros Hok. rewrite finishSession_eq.
  destruct (is_empty (m_sessionId w)) eqn:E; [apply is_empty_spec in E|]; cbn [andb].
  - case_bool_decide as Hp.
    + split; [done|]. split; [|done]. split_and!; [done..|]. by apply Hok.
    + destruct (stopped_spec t w (sv_store _ Hok)) as (Hs & Hp' & Hu & Hi & Hd & _).
      assert (at_rest (setState t TransferModel.Cancelled [] (stopped t w))) as Hr.
      { split_and!; [|exact Hp'|exact Hu]. rewrite <- E. exact Hi. }
      split; [|split; [done|]].
      * apply rest_ok; [by eapply store_ok_eq, Hs|done].
      * unfold m_settings. exact (f_equal Discovery.m_settings Hd).
  - destruct (stopped_spec t w (sv_store _ Hok)) as (Hs & Hp' & Hu & Hi & Hd & _).
    destruct (wind_up_rest t st _ Hs Hu Hp') as (Hs' & Hr & _ & Hset).
    split; [by apply rest_ok|]. split; [done|]. rewrite Hset. unfold m_settings. by rewrite Hd.
Qed.

(** ** Answering the prompt *)

Lemma give_token_service wt r : service (give_token wt r).1 = service wt.1.
Proof.
  destruct wt as [w tokens]. unfold give_token, draw_token. destruct (Protocol.generateToken _) as [token p].
  reflexivity.
Qed.
Lemma give_tokens_service l wt : service (foldl give_token wt l).1 = service wt.1.
Proof. revert wt. induction l as [|r l IH]; intros wt; cbn; [done|]. by rewrite IH, give_token_service. Qed.
Lemma prepareDirectory_spec w :
  store_ok w -> m_uploads w = ∅ ->
  let '(directory, w') := prepareDirectory w in
  store_ok w' /\ m_uploads w' = ∅ /\ m_sessionId w' = m_sessionId w /\ m_pending w' = m_pending w
  /\ m_acceptTimer w' = m_acceptTimer w /\ m_idleTimer w' = m_idleTimer w /\ m_discovery w' = m_discovery w.
Proof.
  intros Hok Hu. unfold prepareDirectory. cbv zeta.
  match goal with |- context [disk_mkpath _ ?p] => set (path := p) end.
  destruct (disk_mkpath _ _); cbn [negb]; [|split_and!; [by eapply store_ok_eq, Hok|done..]].
  destruct (disk_open _ _); cbn [negb]; [|split_and!; [by eapply store_ok_eq, Hok|done..]].
  split_and!; try done. apply remove_ok; [|by eapply store_ok_eq, Hok]. split.
  - apply eq_None_not_Some. intros Hk. apply not_probes in Hk. apply Hk. by exists path.
  - cbn. rewrite Hu. intros i u Hi. by rewrite lookup_empty in Hi.
Qed.
Lemma releasePending_spec w :
  store (releasePending w) = store w /\ m_sessionId (releasePending w) = m_sessionId w
  /\ m_pending (releasePending w) = None /\ m_idleTimer (releasePending w) = m_idleTimer w
  /\ m_discovery (releasePending w) = m_discovery w.
Proof. unfold releasePending. destruct (m_pending w) eqn:Hp; split_and!; done. Qed.

Lemma accept_unarmed t w :
  store_ok w -> m_sessionId w = [] -> m_uploads w = ∅ -> m_pending w <> None -> service_ok (accept t w).
Proof.
  intros Hok Hi Hu Hpend. unfold accept. destruct (m_pending w) as [i|] eqn:Hp; [|done].
  pose proof (prepareDirectory_spec w Hok Hu) as Hd.
  destruct (prepareDirectory w) as [directory w1]. destruct Hd as (Ds & Du & Di & Dp & _ & _ & _).
  destruct (is_empty directory).
  - destruct (releasePending_spec (answer t i 500 w1)) as (Rs & Ri & Rp & _).
    apply rest_ok.
    + eapply store_ok_eq; [|eapply store_ok_eq; [symmetry; exact Rs|]]; [reflexivity|]. by eapply store_ok_eq, Ds.
    + split_and!; [by rewrite <- Hi, <- Di|exact Rp|]. unfold store in Rs. injection Rs as _ Ru _ _. by rewrite <- Du.
  - destruct (draw_token w1) as [sessionId w2] eqn:Hdraw.
    assert (Hw2 : service w2 = service w1).
    { revert Hdraw. unfold draw_token. destruct (Protocol.generateToken _). by intros [= <- <-]. }
    unfold service, store in Hw2. injection Hw2 as Wd Wu Wf Wk Wi Wp Wa Wt.
    cbv zeta. set (w3 := w2 <| m_sessionId := _ |> <| m_sessionAddress := _ |> <| m_sessionDirectory := _ |> <| m_tokens := _ |>).
    destruct (foldl give_token (w3, []) (rows (m_transfer w3))) as [w4 tokens] eqn:Hfold.
    pose proof (give_tokens_service (rows (m_transfer w3)) (w3, [])) as Hs. rewrite Hfold in Hs. cbn [fst] in Hs.
    unfold service, store in Hs. injection Hs as Sd Su Sf Sk Si Sp Sa St.
    set (w5 := on_conn i _ w4).
    destruct (releasePending_spec w5) as (Rs & Ri & Rp & _). unfold store in Rs. injection Rs as Rd Ru Rf Rk.
    assert (Hempty : m_uploads (releasePending w5) = ∅).
    { rewrite Ru. change (m_uploads w4 = ∅). rewrite Su. change (m_uploads w2 = ∅). by rewrite Wu. }
    split.
    + apply (store_ok_empty w1); [exact Ds|exact Du|exact Hempty| |].
      * change (w_files (releasePending w5) = w_files w1). rewrite Rf. change (w_files w4 = w_files w1).
        rewrite Sf. exact Wf.
      * change (keep ⊆ disk (releasePending w5)). rewrite Rk. change (keep ⊆ disk w4). rewrite Sk.
        change (keep ⊆ disk w2). rewrite Wk. apply Ds.
    + intros _. exact Hempty.
    + change (is_Some (m_pending (releasePending w5)) -> m_sessionId (releasePending w5) = [] /\ armed (stop (m_acceptTimer (releasePending w5)))).
      rewrite Rp. by intros [? ?].
    + intros _. by eexists.
Qed.
Lemma accept_ok t w : service_ok w -> service_ok (accept t w).
Proof.
  intros Hok. destruct (decide (m_pending w = None)) as [Hp|Hp]; [unfold accept; by rewrite Hp|].
  destruct (sv_pending w Hok) as [Hi _]; [by apply not_eq_None_Some|].
  apply accept_unarmed; [by apply Hok|done|by apply Hok|done].
Qed.
Lemma released_ok t st w :
  service_ok w -> m_pending w <> None ->
  service_ok (setState t st [] (set_field m_acceptTimer stop (releasePending w))).
Proof.
  intros Hok Hp. destruct (sv_pending w Hok) as [Hi _]; [by apply not_eq_None_Some|].
  destruct (releasePending_spec w) as (Rs & Ri & Rp & _). apply rest_ok.
  - eapply (store_ok_eq w); [|by apply Hok]. symmetry. exact Rs.
  - split_and!; [by rewrite <- Hi, <- Ri|exact Rp|].
    unfold store in Rs. injection Rs as _ Ru _ _. rewrite <- (sv_idle w Hok Hi), <- Ru. reflexivity.
Qed.
Lemma decline_ok t w : service_ok w -> service_ok (decline t w).
Proof.
  intros Hok. unfold decline. destruct (m_pending w) as [i|] eqn:Hp; [|done].
  apply released_ok; [by eapply service_ok_eq, Hok|]. change (m_pending w <> None). congruence.
Qed.
Lemma at_rest_stop w f : at_rest w -> at_rest (w <| m_acceptTimer ::= f |>).
Proof. done. Qed.
Lemma onAcceptTimeout_ok t w : service_ok w -> service_ok (onAcceptTimeout t w).
Proof.
  intros Hok. unfold onAcceptTimeout. cbv zeta. change (m_pending (w <| m_acceptTimer ::= stop |>)) with (m_pending w).
  destruct (m_pending w) as [i|] eqn:Hp.
  - destruct (sv_pending w Hok) as [Hi _]; [by rewrite Hp|].
    destruct (releasePending_spec (answer t i 403 (w <| m_acceptTimer ::= stop |>))) as (Rs & Ri & Rp & _).
    apply rest_ok.
    + eapply (store_ok_eq w); [|by apply Hok]. symmetry. exact Rs.
    + split_and!; [by rewrite <- Hi|exact Rp|].
      unfold store in Rs. injection Rs as _ Ru _ _. rewrite <- (sv_idle w Hok Hi). exact Ru.
  - destruct Hok as [Ho1 Ho2 Ho3 Ho4]. split; [by eapply store_ok_eq, Ho1|done| |done].
    cbn. rewrite Hp. by intros [? ?].
Qed.
Lemma onPendingClosed_ok t i w : service_ok w -> service_ok (onPendingClosed t i w).
Proof.
  intros Hok. unfold onPendingClosed. case_bool_decide as Hp; [|done]. cbn [negb]. cbv zeta.
  destruct (sv_pending w Hok) as [Hi _]; [by rewrite Hp|]. change (m_sessionId (w <| m_pending := None |> <| m_acceptTimer ::= stop |>)) with (m_sessionId w).
  rewrite Hi. cbn [is_empty]. apply rest_ok; [by eapply store_ok_eq, Hok|]. split_and!; [done..|]. by apply Hok.
Qed.
Lemma cancel_ok t w : service_ok w -> service_ok (cancel t w).
Proof.
  intros Hok. unfold cancel. destruct (_ && _); [by apply decline_ok|]. destruct (is_empty _); [done|].
  apply finish_ends. unfold notifyPeerCancelled. destruct (_ || _); [done|]. by eapply service_ok_eq, Hok.
Qed.
Lemma onSessionIdle_ok t w : service_ok w -> service_ok (onSessionIdle t w).
Proof.
  intros Hok. unfold onSessionIdle. cbv zeta. change (m_sessionId (w <| m_idleTimer ::= stop |>)) with (m_sessionId w).
  destruct (is_empty (m_sessionId w)) eqn:E.
  - apply is_empty_spec in E. destruct Hok as [Ho1 Ho2 Ho3 Ho4]. split; [by eapply store_ok_eq, Ho1|done|done|].
    by intros Hn%(fun f => f E).
  - set (w' := w <| m_idleTimer ::= stop |>). rewrite finishSession_eq.
    change (m_sessionId w') with (m_sessionId w). rewrite E. cbn [andb].
    destruct (stopped_spec t w') as (Hs & Hp' & Hu & _); [by eapply store_ok_eq, Hok|].
    destruct (wind_up_rest t (lit "failed") _ Hs Hu Hp') as (Hs' & Hr & _). by apply rest_ok.
Qed.

(** ** The endpoints *)

Lemma answer_ok t i st w : service_ok w -> service_ok (answer t i st w).
Proof. by apply service_ok_eq. Qed.
Lemma transfer_ok f w : service_ok w -> service_ok (transfer f w).
Proof. by apply service_ok_eq. Qed.

Lemma screen_frame t i w :
  service (screen t i w).1 = service w
  /\ match (screen t i w).2 with
     | inr _ => m_pending w = None /\ m_sessionId w = []
     | inl _ => True
     end.
Proof.
  unfold screen. cbv zeta. destruct (negb (AppSettings.receiveEnabled _)); [done|].
  case_bool_decide as Hp; [done|]. cbn [orb]. destruct (is_empty (m_sessionId w)) eqn:Hi; [|done]. cbn [negb].
  apply is_empty_spec in Hi. apply eq_None_not_Some in Hp.
  repeat case_match; done.
Qed.
Lemma handlePrepareUpload_ok t i w : service_ok w -> service_ok (handlePrepareUpload t i w).
Proof.
  intros Hok. unfold handlePrepareUpload. destruct (screen_frame t i w) as [Hs Hv].
  destruct (screen t i w) as [w1 [st|[[peer info] files]]]; cbn [fst snd] in Hs, Hv.
  { apply answer_ok. by eapply service_ok_eq, Hok. }
  destruct Hv as [Hp Hi]. cbv zeta.
  (* what is shown, and the device list, are of no concern here *)
  match goal with |- context [transfer (TransferModel.begin ?a ?b ?c ?d ?e ?f ?g)] =>
    generalize (TransferModel.begin a b c d e f g); intros begin end.
  match goal with |- context [set_field m_discovery ?f] => generalize f; intros register end.
  unfold setState. generalize (TransferModel.setState t TransferModel.Pending []). intros pending.
  match goal with |- service_ok (if _ then accept t ?w else _) => set (w2 := w) in * end.
  assert (Hst : store w2 = store w1) by reflexivity.
  assert (Hid : m_sessionId w2 = m_sessionId w1) by reflexivity.
  unfold service, store in Hs. injection Hs as Wd Wu Wf Wk Wi Wp Wa Wt.
  assert (Hs2 : store_ok w2).
  { eapply (store_ok_eq w); [|by apply Hok]. rewrite Hst. unfold store. by rewrite Wd, Wu, Wf, Wk. }
  assert (Hu2 : m_uploads w2 = ∅).
  { change (m_uploads w1 = ∅). rewrite Wu. by apply Hok. }
  assert (Hi2 : m_sessionId w2 = []) by (rewrite Hid; congruence).
  assert (Hp2 : m_pending w2 <> None) by discriminate. clearbody w2.
  destruct (AppSettings.quickSave _).
  - (* the prompt's timer plays no part in accepting *)
    by apply accept_unarmed.
  - eapply (service_ok_eq (w2 <| m_acceptTimer ::= start t |>)); [reflexivity|].
    split; [by eapply store_ok_eq, Hs2|done| |].
    + intros _. split; [exact Hi2|by eexists].
    + intros Hn. by destruct Hn.
Qed.

Lemma file_absent (w : World) p : file_exists w p = false -> disk w !! p = None.
Proof. unfold file_exists. rewrite bool_decide_eq_false. apply eq_None_not_Some. Qed.

Lemma handleUploadHeaders_ok t i w : service_ok w -> service_ok (handleUploadHeaders t i w).
Proof.
  intros Hok. unfold handleUploadHeaders. cbv zeta.
  destruct (_ || _); [by apply answer_ok|].
  destruct (is_empty (m_sessionId w) || _) eqn:Hsess; [by apply answer_ok|].
  apply orb_false_iff in Hsess as [Hsess%is_empty_false _].
  destruct (_ || _); [by apply answer_ok|]. destruct (_ <? 0); [by apply answer_ok|].
  destruct (TransferModel.status_is _ _); [by apply answer_ok|].
  match goal with |- context [FileNames.reserveFilePath ?e ?d ?n] =>
    pose proof (FileNames.reserved_fresh e d n) as Hfresh; set (final := FileNames.reserveFilePath e d n) in * end.
  cbv zeta in Hfresh. destruct (is_empty final) eqn:Ef; [by apply answer_ok, transfer_ok|].
  apply is_empty_false in Ef. destruct (Hfresh Ef) as (name & Hn & Hst & _ & Hpart).
  apply file_absent in Hpart. cbn [partPath].
  destruct (disk_open _ _); cbn [negb].
  2: { apply answer_ok, transfer_ok. by eapply service_ok_eq, Hok. }
  match goal with |- service_ok ?w' => set (w1 := w') end.
  split.
  - eapply (open_ok i (mkUpload _ (final ++ FileNames.PartSuffix) final) w); [by apply Hok|done|done| |reflexivity].
    by exists name.
  - intros Hi. by destruct Hsess.
  - intros Hp. by apply Hok in Hp as [? _].
  - intros _. by eexists.
Qed.
Lemma onBodyProgress_ok t i r w : service_ok w -> service_ok (onBodyProgress t i r w).
Proof.
  intros Hok. unfold onBodyProgress. destruct (negb _); [done|]. destruct (m_uploads w !! i); [|done].
  destruct Hok as [Ho1 Ho2 Ho3 Ho4]. split; [by eapply store_ok_eq, Ho1|done|done|]. intros _. by eexists.
Qed.

(** An upload that ends while its session goes on. *)
Lemma ended_ok w w1 :
  service_ok w -> m_sessionId w <> [] -> store_ok w1 ->
  m_sessionId w1 = m_sessionId w -> m_pending w1 = m_pending w -> armed (m_idleTimer w1) -> service_ok w1.
Proof.
  intros Hok Hi Hs Hi1 Hp1 Ht. split; [done| | |done].
  - intros Hn. congruence.
  - rewrite Hp1. intros Hp. by apply Hok in Hp as [? _].
Qed.
Lemma upload_session i u w : service_ok w -> m_uploads w !! i = Some u -> m_sessionId w <> [].
Proof. intros Hok Hi Hn. rewrite (sv_idle w Hok Hn) in Hi. by rewrite lookup_empty in Hi. Qed.

(** The file of an upload once its body is in: kept under its name, kept under
    the part's name, or removed. *)
Definition settle_file (t i : Z) (upload : Upload) (w : World) : World :=
  let file := default (mkHashingFile [] [] false) (w_files w !! i) in
  let entry := TransferModel.entry (row upload) (m_transfer w) in
  let complete := TransferModel.size entry <=? len (default [] (disk w !! partPath upload)) in
  let declared := TransferModel.sha256 entry in
  let digestMatches := if complete && FileNames.looksLikeSha256 declared
                       then Crypto.equalsFold (digest file) declared else true in
  let w := deleteFile i w in
  if negb complete
  then remove_file (partPath upload) w
         |>> transfer (TransferModel.setFileStatus t (row upload) TransferModel.FileFailed (lit "Transfer was cut short"))
         |>> answer t i 500
  else if negb digestMatches
  then remove_file (partPath upload) w
         |>> transfer (TransferModel.setFileStatus t (row upload) TransferModel.FileFailed (lit "The file arrived damaged"))
         |>> answer t i 422
  else
    let w := w <| unexecutable ::= cons (partPath upload) |> in
    let renamed := negb (file_exists w (finalPath upload))
                   && disk_rename (disk_ops w) (partPath upload) (finalPath upload) in
    let w := w <| disk_ops ::= Datatypes.S |> in
    let w :=
      if renamed
      then w <| disk ::= fun d => <[finalPath upload := default [] (d !! partPath upload)]>
                                    (delete (partPath upload) d) |>
             |>> transfer (TransferModel.setFileLocalPath (row upload) (finalPath upload))
             |>> transfer (TransferModel.setFileStatus t (row upload) TransferModel.FileDone [])
      else transfer (TransferModel.setFileLocalPath (row upload) (partPath upload)) w
             |>> transfer (TransferModel.setFileStatus t (row upload) TransferModel.FileDone []) in
    answer t i 200 w.
Lemma handleUploadFinished_eq t i w :
  handleUploadFinished t i w =
  match m_uploads w !! i with
  | None => if negb (hasResponded (the_conn i w)) then answer t i 400 w else w
  | Some upload =>
      let w := (settle_file t i upload (closeHashingFile i (dropUpload i w))) <| m_idleTimer ::= start t |> in
      if all_settled w
      then finishSession t (if 0 <? TransferModel.failedCount (m_transfer w) then lit "failed" else lit "finished") w
      else w
  end.
Proof. reflexivity. Qed.
Lemma settle_file_ok t i u w :
  store_ok (deleteFile i w) -> unused (partPath u) (deleteFile i w) ->
  store_ok (settle_file t i u w) /\ rest (settle_file t i u w) = rest w
  /\ m_uploads (settle_file t i u w) = m_uploads w.
Proof.
  intros Hs Hun. unfold settle_file. cbv zeta.
  destruct (_ <=? _); cbn [negb andb].
  2: { split_and!; [|done..]. eapply store_ok_eq; [|by apply remove_ok]. reflexivity. }
  match goal with |- context [negb (if ?b then ?x else ?y)] => destruct (if b then x else y) end; cbn [negb].
  2: { split_and!; [|done..]. eapply store_ok_eq; [|by apply remove_ok]. reflexivity. }
  destruct (file_exists _ (finalPath u)) eqn:Ef; cbn [negb andb].
  { split_and!; [by eapply store_ok_eq, Hs|done..]. }
  destruct (disk_rename _ _ _); [|split_and!; [by eapply store_ok_eq, Hs|done..]].
  split_and!; [|done..]. apply file_absent in Ef.
  eapply (rename_ok (partPath u) (finalPath u) (deleteFile i w)); [done| |done|reflexivity].
  exact Ef.
Qed.
Lemma rest_fields w w' : rest w = rest w' ->
  m_sessionId w = m_sessionId w' /\ m_pending w = m_pending w' /\ m_discovery w = m_discovery w'.
Proof. unfold rest. intros Hr. by injection Hr. Qed.
Lemma handleUploadFinished_ok t i w : service_ok w -> service_ok (handleUploadFinished t i w).
Proof.
  intros Hok. rewrite handleUploadFinished_eq. destruct (m_uploads w !! i) as [u|] eqn:Hi.
  2: { destruct (negb _); [by apply answer_ok|done]. }
  pose proof (upload_session i u w Hok Hi) as Hsess.
  destruct (forget_ok i u w (dropUpload i w) (sv_store w Hok) Hi eq_refl) as [Hs Hun].
  destruct (settle_file_ok t i u (closeHashingFile i (dropUpload i w)) Hs Hun) as (Hs' & Hr & _).
  destruct (closeHashingFile_frame i (dropUpload i w)) as (Hr' & _).
  destruct (rest_fields _ _ (eq_trans Hr Hr')) as (Ei & Ep & _).
  cbv zeta. set (w1 := (settle_file t i u _) <| m_idleTimer ::= start t |>).
  assert (Hok1 : service_ok w1).
  { apply (ended_ok w); [done|done|by eapply store_ok_eq, Hs'|exact Ei|exact Ep|by eexists]. }
  clearbody w1. destruct (all_settled w1); [by apply finish_ends|done].
Qed.
Lemma onUploadClosed_ok t i w : service_ok w -> service_ok (onUploadClosed t i w).
Proof.
  intros Hok. unfold onUploadClosed. destruct (m_uploads w !! i) as [u|] eqn:Hi; [|done].
  pose proof (upload_session i u w Hok Hi) as Hsess.
  assert (Hst : store (w <| m_uploads ::= delete i |>)
                = (m_sessionDirectory w, delete i (m_uploads w), w_files w, disk w)) by reflexivity.
  destruct (forget_ok i u w _ (sv_store w Hok) Hi Hst) as [Hs Hun].
  destruct (closeHashingFile_frame i (w <| m_uploads ::= delete i |>)) as (Hr & _).
  cbv zeta. match goal with |- context [all_settled ?w'] => set (w1 := w') end.
  unfold rest in Hr. injection Hr as R1 R2 R3 R4 R5 R6 R7 R8 R9.
  assert (Hok1 : service_ok w1).
  { apply (ended_ok w); [done|done| |exact R1|exact R4|].
    - eapply store_ok_eq; [|by apply (remove_ok (partPath u))]. reflexivity.
    - assert (Ht : m_idleTimer w1 = m_idleTimer w) by exact R6. rewrite Ht. by apply Hok. }
  clearbody w1. destruct (all_settled w1); [by apply finish_ends|done].
Qed.
Lemma handleCancel_ok t i w : service_ok w -> service_ok (handleCancel t i w).
Proof.
  intros Hok. unfold handleCancel. cbv zeta. set (w1 := answer t i 200 w).
  assert (Hok1 : service_ok w1) by by apply answer_ok. clearbody w1.
  destruct (bool_decide _ && _) eqn:E.
  - apply andb_true_iff in E as [Hp%bool_decide_eq_true _]. by apply released_ok; [|apply not_eq_None_Some].
  - clear E. destruct (_ && _); [by apply finish_ends|done].
Qed.

#[export] Instance service_framed : HttpFrame.Framed service_ok.
Proof.
  split; cbn.
  - intros i c w. by apply service_ok_eq.
  - intros s d w Hok. pose proof (write_ok s d w (sv_store w Hok)) as Hs.
    assert (Hr : service (writeData s d w).2 = (store (writeData s d w).2, m_sessionId w, m_pending w, m_acceptTimer w, m_idleTimer w)
                 /\ m_uploads (writeData s d w).2 = m_uploads w).
    { unfold writeData. repeat case_match; done. }
    destruct Hr as [Hr Hu]. injection Hr as Ei Ep Ea Et. destruct Hok as [Ho1 Ho2 Ho3 Ho4].
    split; [done|..]; by rewrite ?Ei, ?Ep, ?Ea, ?Et, ?Hu.
  - intros t i w Hok. unfold onHeadersReady. destruct (qeq _ _); [by apply handleUploadHeaders_ok|done].
  - intros t i w Hok. unfold onRequestReady. cbv zeta.
    destruct (_ || _); [by eapply service_ok_eq, Hok|].
    destruct (qeq _ _).
    { unfold handleRegister. destruct (Discovery.registerPeer _ _ _ _). by eapply service_ok_eq, Hok. }
    destruct (qeq _ _); [by apply handlePrepareUpload_ok|].
    destruct (qeq _ _); [by apply handleUploadFinished_ok|].
    destruct (qeq _ _); [by apply handleCancel_ok|by apply answer_ok].
  - intros t i r _ w. apply onBodyProgress_ok.
  - intros t i w Hok. unfold onClosed. cbv zeta.
    assert (Hok1 : service_ok (if bool_decide (i ∈ onClosed_upload w) then onUploadClosed t i w else w)).
    { case_bool_decide; [by apply onUploadClosed_ok|done]. }
    revert Hok1. generalize (if bool_decide (i ∈ onClosed_upload w) then onUploadClosed t i w else w).
    intros w1 Hok1. case_bool_decide; [by apply onPendingClosed_ok|done].
Qed.

(** ** Every event *)

Lemma startListening_ok l w : service_ok w -> service_ok (startListening l w).2.
Proof.
  intros Hok. unfold startListening. destruct (HttpServer.isListening _); [done|]. cbv zeta.
  destruct (AppSettings.isEncrypted _);
    destruct (HttpServer.start _ _ _) as [[] server]; by eapply service_ok_eq, Hok.
Qed.
Lemma stopListening_ok t w : service_ok w -> service_ok (stopListening t w).
Proof.
  intros Hok. unfold stopListening. destruct (negb _); [done|].
  eapply service_ok_eq; [|exact (proj1 (finish_ends t (lit "cancelled") w Hok))]. reflexivity.
Qed.
Lemma handle_ok t w e : service_ok w -> service_ok (ReceiveService.handle t w e).
Proof.
  intros Hok. destruct e; cbn [ReceiveService.handle].
  - destruct (w_conns w !! i); [done|]. by eapply service_ok_eq, Hok.
  - destruct (w_conns w !! i); [|done]. by apply HttpFrame.frame_handle; [apply service_framed|].
  - by apply accept_ok.
  - by apply decline_ok.
  - by apply cancel_ok.
  - case_match; [by apply onAcceptTimeout_ok|done].
  - case_match; [by apply onSessionIdle_ok|done].
  - cbv zeta. match goal with |- context [onSettingsChanged t listened ?w'] => set (w1 := w') end.
    assert (Hok1 : service_ok w1) by by eapply service_ok_eq, Hok. clearbody w1.
    case_match; [done|]. unfold onSettingsChanged. destruct (negb _); [done|]. by apply startListening_ok, stopListening_ok.
  - by eapply service_ok_eq, Hok.
  - case_match; [by apply transfer_ok|done].
  - by apply startListening_ok.
  - by apply stopListening_ok.
Qed.
End Keep.

(** ** Over any history *)

Definition run (w : World) (events : list (Z * ReceiveService.event)) : World :=
  foldl (fun w te => ReceiveService.handle te.1 w te.2) w events.
Lemma run_ok keep w events :
  (forall p, is_Some (keep !! p) -> ~ is_probe p) -> service_ok keep w -> service_ok keep (run w events).
Proof.
  intros Hk. revert w. induction events as [|[t e] events IH]; intros w Hok; [done|].
  apply IH. by apply handle_ok.
Qed.
Lemma World0_ok keep discovery history files : keep ⊆ files -> service_ok keep (World0 discovery history files).
Proof.
  intros Hk. apply rest_ok; [|done]. split; cbn; [..|done].
  - intros i u Hi. by rewrite lookup_empty in Hi.
  - intros i j u v Hi. by rewrite lookup_empty in Hi.
  - intros i f Hi. by rewrite lookup_empty in Hi.
  - intros i f Hi. by rewrite lookup_empty in Hi.
Qed.
Lemma no_probes p : is_Some ((∅ : gmap qstring bytes) !! p) -> ~ is_probe p.
Proof. rewrite lookup_empty. by intros [? ?]. Qed.

#[local] Instance none_framed : HttpFrame.Framed (service_ok ∅) := service_framed ∅ no_probes.

(** C20: the state of the service is always one it can be left in. Whatever
    arrives, is answered, times out or is set, from a fresh start: no upload is
    open without a session; each open upload has its own part file, which exists,
    and goes to a name inside the session's directory; every file being written
    belongs to an upload, and what has been hashed is exactly what it holds; a parked request and a session exclude each other, and
    each has its timer running. *)
Theorem service_invariant discovery history files events :
  service_ok ∅ (run (World0 discovery history files) events).
Proof. apply run_ok; [apply no_probes|]. apply World0_ok. apply map_empty_subseteq. Qed.

(** A file of a service at work that is nobody's part file. *)
Lemma settled_file_kept p b w :
  service_ok ∅ w -> disk w !! p = Some b -> (forall i u, m_uploads w !! i = Some u -> partPath u <> p) ->
  service_ok {[p := b]} w.
Proof.
  intros [[Ho1 Ho2 Ho3 Ho5 Ho4] Hb Hc Hd] Hp Hun. split; [|done..]. split; [|done..|by apply map_singleton_subseteq_l].
  intros i u Hi. destruct (Ho1 i u Hi). split; [done..| |done|done].
  rewrite lookup_singleton_ne; [done|]. apply not_eq_sym. by eapply Hun.
Qed.
(** C2: what is on the device stays as it is. At any moment of any history, a file
    that is not the part file of an open upload - one that was there before, or one
    that was received - keeps its contents through everything that follows, whatever
    peers send. The one exception is the name of the writability probe. *)
Theorem files_survive discovery history files before after p b :
  let w := run (World0 discovery history files) before in
  disk w !! p = Some b -> (forall i u, m_uploads w !! i = Some u -> partPath u <> p) -> ~ is_probe p ->
  disk (run w after) !! p = Some b.
Proof.
  intros w Hp Hun Hprobe.
  assert (Hok : service_ok {[p := b]} (run w after)).
  { apply run_ok.
    - intros q. rewrite lookup_singleton_is_Some. by intros <-.
    - apply settled_file_kept; [|done|done].
      apply run_ok; [apply no_probes|]. apply World0_ok, map_empty_subseteq. }
  apply (map_singleton_subseteq_l p b), Hok.
Qed.
(** A received file under the probe's name is lost at the next transfer accepted. *)

(** ** Consent *)

Lemma registerPeer_settings t payload from (d : Discovery.Discovery (S := S)) :
  Discovery.m_settings (Discovery.registerPeer t payload from d).2 = Discovery.m_settings d.
Proof.
  unfold Discovery.registerPeer, Discovery.upsert. cbv zeta. destruct (_ && _); [|done]. cbn [snd].
  destruct (DeviceModel.upsert _ _ _ _) as [[] devices]; done.
Qed.
Section Consent.
(** Without quick save, nothing a peer does starts a session. *)
Context (settings : AppSettings.AppSettings (S := S)) (asks : AppSettings.quickSave settings = false).

Definition unconsented (w : World) : Prop :=
  service_ok ∅ w /\ m_sessionId w = [] /\ m_settings w = settings.
Lemma unconsented_eq w w' :
  service_ok ∅ w' -> m_sessionId w' = m_sessionId w -> m_settings w' = m_settings w -> unconsented w -> unconsented w'.
Proof. intros Hok Hi Hs (_ & Hi' & Hs'). split_and!; [done|congruence..]. Qed.
Lemma unconsented_prepare t i w : unconsented w -> unconsented (handlePrepareUpload t i w).
Proof.
  intros (Hok & Hi & Hset).
  pose proof (handlePrepareUpload_ok ∅ no_probes t i w Hok) as Hok'. revert Hok'.
  unfold handlePrepareUpload.
  assert (Hs : m_sessionId (screen t i w).1 = [] /\ m_settings (screen t i w).1 = settings).
  { unfold screen. cbv zeta. repeat case_match; done. }
  destruct (screen t i w) as [w1 [st|[[peer info] files]]]; cbn [fst] in Hs; destruct Hs as [Hi1 Hs1]; [done|].
  cbv zeta.
  match goal with |- context [transfer (TransferModel.begin ?a ?b ?c ?d ?e ?f ?g)] =>
    generalize (TransferModel.begin a b c d e f g); intros begin end.
  unfold setState. generalize (TransferModel.setState t TransferModel.Pending []). intros pending.
  match goal with |- context [set_field m_discovery ?f] =>
    assert (Hreg : forall d, Discovery.m_settings (f d) = Discovery.m_settings d) by (intros d; apply registerPeer_settings);
    generalize dependent f; intros register Hreg end.
  match goal with |- context [AppSettings.quickSave ?x] => assert (Hx : x = settings) end.
  { rewrite <- Hs1. apply Hreg. }
  rewrite Hx, asks. intros Hok'. split_and!; [done|exact Hi1|exact Hx].
Qed.
Lemma finish_unconsented t st w : unconsented w -> unconsented (finishSession t st w).
Proof.
  intros (Hok & Hi & Hs). destruct (finish_ends ∅ t st w Hok) as (Hok' & (Hi' & _) & Hs').
  split_and!; [done|done|congruence].
Qed.
#[export] Instance unconsented_framed : HttpFrame.Framed unconsented.
Proof.
  split; cbn.
  - intros i c w Hu. eapply unconsented_eq, Hu; [|done|done]. by eapply service_ok_eq, Hu.
  - intros s d w Hu. eapply unconsented_eq, Hu.
    + exact (HttpFrame.framed_sink s d w (proj1 Hu)).
    + unfold writeData. repeat case_match; done.
    + unfold writeData. repeat case_match; done.
  - intros t i w (Hok & Hi & Hs). pose proof (HttpFrame.framed_headers t i w Hok) as Hok'.
    cbn in Hok'. revert Hok'. unfold onHeadersReady, handleUploadHeaders. cbv zeta. rewrite Hi. cbn [is_empty orb].
    repeat case_match; done.
  - intros t i w Hu. pose proof (HttpFrame.framed_request t i w (proj1 Hu)) as Hok'.
    cbn in Hok'. revert Hok'. unfold onRequestReady. cbv zeta.
    destruct (_ || _); [intros Hok'; by eapply unconsented_eq, Hu|].
    destruct (qeq _ _).
    { intros Hok'. eapply unconsented_eq, Hu; [exact Hok'|..]; unfold handleRegister;
        pose proof (registerPeer_settings t (jsonBody (the_conn i w)) (m_peerAddress (the_conn i w)) (m_discovery w)) as Hr;
        destruct (Discovery.registerPeer _ _ _ _); [done|exact Hr]. }
    destruct (qeq _ _); [intros _; by apply unconsented_prepare|].
    destruct (qeq _ _).
    { intros Hok'. destruct Hu as (Hok & Hi & Hs). rewrite handleUploadFinished_eq in *.
      rewrite (sv_idle _ _ Hok Hi), lookup_empty in *. destruct (negb _); done. }
    destruct (qeq _ _).
    { intros Hok'. destruct Hu as (Hok & Hi & Hs). revert Hok'. unfold handleCancel. cbv zeta.
      change (m_sessionId (answer t i 200 w)) with (m_sessionId w). rewrite Hi. cbn [is_empty negb andb].
      unfold releasePending. repeat case_match; done. }
    intros Hok'. by eapply unconsented_eq, Hu.
  - intros t i r _ w Hu. eapply unconsented_eq, Hu; [by apply onBodyProgress_ok, Hu|..];
      unfold onBodyProgress; repeat case_match; done.
  - intros t i w Hu. pose proof (HttpFrame.framed_closed t i w (proj1 Hu)) as Hok'.
    cbn in Hok'. revert Hok'. destruct Hu as (Hok & Hi & Hs). unfold onClosed, onUploadClosed. cbv zeta.
    rewrite (sv_idle _ _ Hok Hi), lookup_empty.
    unfold onPendingClosed. repeat case_match; done.
Qed.
End Consent.

Lemma releasePending_session (w : World) : m_sessionId (releasePending w) = m_sessionId w.
Proof. unfold releasePending. by destruct (m_pending w). Qed.
Lemma decline_session t (w : World) : m_sessionId (decline t w) = m_sessionId w.
Proof. unfold decline. destruct (m_pending w); [|done]. exact (releasePending_session _). Qed.
Lemma startListening_session l (w : World) : m_sessionId (startListening l w).2 = m_sessionId w.
Proof.
  unfold startListening. cbv zeta. repeat case_match; done.
Qed.
Lemma stopListening_session t w : service_ok ∅ w -> m_sessionId w = [] -> m_sessionId (stopListening t w) = [].
Proof.
  intros Hok Hi. unfold stopListening. destruct (negb _); [done|].
  by destruct (finish_ends ∅ t (lit "cancelled") w Hok) as (_ & (? & _) & _).
Qed.
Lemma session_needs_consent w t e :
  service_ok ∅ w -> m_sessionId w = [] -> m_sessionId (ReceiveService.handle t w e) <> [] ->
  (e = Accept /\ m_pending w <> None) \/ exists i h, e = Http i h /\ AppSettings.quickSave (m_settings w) = true.
Proof.
  intros Hok Hi Hn. destruct e; cbn [ReceiveService.handle] in Hn.
  - by destruct (w_conns w !! i).
  - right. exists i, e. split; [done|]. destruct (AppSettings.quickSave (m_settings w)) eqn:Hq; [done|].
    destruct (w_conns w !! i); [|done]. exfalso. apply Hn.
    assert (unconsented (m_settings w) (HttpConnection.handle i w e)) as (_ & Hi' & _); [|done].
    apply HttpFrame.frame_handle; [by apply unconsented_framed|done].
  - left. split; [done|]. intros Hp. apply Hn. unfold accept. by rewrite Hp.
  - by rewrite decline_session in Hn.
  - unfold cancel in Hn. rewrite Hi in Hn. destruct (_ && _); [by rewrite decline_session in Hn|done].
  - case_match; [|done]. exfalso. apply Hn. unfold onAcceptTimeout. cbv zeta.
    case_match; [|done]. rewrite <- Hi. exact (releasePending_session _).
  - case_match; [|done]. unfold onSessionIdle in Hn. cbv zeta in Hn.
    change (m_sessionId (w <| m_idleTimer ::= stop |>)) with (m_sessionId w) in Hn. by rewrite Hi in Hn.
  - cbv zeta in Hn. exfalso. apply Hn. case_match; [done|]. unfold onSettingsChanged.
    destruct (negb _); [done|]. rewrite startListening_session. apply stopListening_session; [|done].
    by eapply service_ok_eq, Hok.
  - done.
  - by case_match.
  - by rewrite startListening_session in Hn.
  - by rewrite stopListening_session in Hn.
Qed.
(** C4: nothing is received without consent. A session begins in one of two ways:
    the person accepts the request on screen, or the sender's request arrives while
    quick save is switched on. No other event, and nothing else a peer sends, can
    begin one. *)
Theorem consent_needed discovery history files events t e :
  let w := run (World0 discovery history files) events in
  m_sessionId w = [] -> m_sessionId (ReceiveService.handle t w e) <> [] ->
  (e = Accept /\ m_pending w <> None) \/ exists i h, e = Http i h /\ AppSettings.quickSave (m_settings w) = true.
Proof.
  intros w. apply session_needs_consent, run_ok; [apply no_probes|apply World0_ok, map_empty_subseteq].
Qed.

(** ** Time *)

(** C6: nothing waits for ever. At any moment of any history an open session has its
    idle timer running, and when that fires the session, its uploads and any request
    are gone; a request on screen has its timer running, and when that fires the
    request is gone and still no session has begun. *)
Theorem nothing_waits_forever discovery history files events :
  let w := run (World0 discovery history files) events in
  (m_sessionId w <> [] -> exists d, deadline (m_idleTimer w) = Some d /\
     forall t, d <= t -> at_rest (ReceiveService.handle t w SessionIdle)) /\
  (m_pending w <> None -> exists d, deadline (m_acceptTimer w) = Some d /\
     forall t, d <= t -> at_rest (ReceiveService.handle t w AcceptTimeout)).
Proof.
  intros w.
  assert (Hok : service_ok ∅ w) by (apply run_ok; [apply no_probes|apply World0_ok, map_empty_subseteq]).
  clearbody w. split; intros Hw.
  - destruct (sv_session ∅ w Hok Hw) as [d Hd]. exists d. split; [done|]. intros t Ht. cbn [ReceiveService.handle].
    unfold due. rewrite Hd, (proj2 (Z.leb_le _ _)) by done. unfold onSessionIdle. cbv zeta.
    change (m_sessionId (w <| m_idleTimer ::= stop |>)) with (m_sessionId w).
    rewrite (proj2 (is_empty_false _) Hw), finishSession_eq.
    change (m_sessionId (w <| m_idleTimer ::= stop |>)) with (m_sessionId w).
    rewrite (proj2 (is_empty_false _) Hw). cbn [andb].
    destruct (stopped_spec ∅ t (w <| m_idleTimer ::= stop |>)) as (Hs & Hp' & Hu & _); [by eapply store_ok_eq, Hok|].
    by destruct (wind_up_rest ∅ t (lit "failed") _ Hs Hu Hp') as (_ & Hr & _).
  - destruct (sv_pending ∅ w Hok (proj1 (not_eq_None_Some _) Hw)) as [Hi [d Hd]]. exists d. split; [done|].
    intros t Ht. cbn [ReceiveService.handle]. unfold due. rewrite Hd, (proj2 (Z.leb_le _ _)) by done.
    unfold onAcceptTimeout. cbv zeta. change (m_pending (w <| m_acceptTimer ::= stop |>)) with (m_pending w).
    destruct (m_pending w) as [i|]; [|done].
    destruct (releasePending_spec (answer t i 403 (w <| m_acceptTimer ::= stop |>))) as (Rs & Ri & Rp & _).
    unfold store in Rs. injection Rs as _ Ru _ _.
    split_and!; [by rewrite <- Hi|exact Rp|]. rewrite <- (sv_idle ∅ w Hok Hi). exact Ru.
Qed.

(** ** The capability of an upload *)

(** The request names the session, comes from its address and gives the token of
    the file it names. *)
Definition holds_capability (c : Conn) (w : World) : Prop :=
  m_sessionId w <> [] /\ query (lit "sessionId") c = m_sessionId w
  /\ (exists token, m_tokens w !! query (lit "fileId") c = Some token /\ q_utf8 token = q_utf8 (query (lit "token") c))
  /\ m_peerAddress c = m_sessionAddress w.
(** C5: an upload is opened only for the holder of the session's capability. When the
    headers of a request make the service open a file for it, a session is on, the
    request names it, the token is the one handed out for that very file, it comes
    from the address the session was granted to, and the file is a row of the
    transfer that is not already done. The file is written under a part name nothing
    occupied, and the body is bounded by the size that was agreed to. *)
Theorem upload_needs_capability t i (w : World) u :
  m_uploads w !! i = None -> m_uploads (handleUploadHeaders t i w) !! i = Some u ->
  let c := the_conn i w in
  let fileId := query (lit "fileId") c in
  let entry := TransferModel.entry (row u) (m_transfer w) in
  holds_capability c w
  /\ 0 <= row u /\ row u = TransferModel.indexOfFile fileId (m_transfer w)
  /\ TransferModel.status entry <> TransferModel.FileDone
  /\ disk w !! partPath u = None /\ disk w !! finalPath u = None
  /\ m_maxBodyBytes (the_conn i (handleUploadHeaders t i w))
     = TransferModel.size (TransferModel.entry (row u)
         (TransferModel.setFileStatus t (row u) TransferModel.FileTransferring [] (m_transfer w))).
Proof.
  intros Hnone. cbv zeta. unfold handleUploadHeaders. cbv zeta.
  set (fileId := query (lit "fileId") (the_conn i w)) in *.
  destruct (is_empty _ || _ || _) eqn:E1; [intros Hu; cbn in Hu; congruence|].
  apply orb_false_iff in E1 as [E1 Etok%is_empty_false]. apply orb_false_iff in E1 as [Esid%is_empty_false _].
  destruct (is_empty (m_sessionId w) || _) eqn:E2; [intros Hu; cbn in Hu; congruence|].
  apply orb_false_iff in E2 as [Es%is_empty_false Eq%negb_false_iff]. apply qeq_spec in Eq.
  destruct (negb _ || _) eqn:E3; [intros Hu; cbn in Hu; congruence|].
  apply orb_false_iff in E3 as [Et%negb_false_iff Ea%negb_false_iff]. apply qeq_spec in Ea.
  apply Crypto.equals_spec in Et.
  destruct (Z.ltb_spec (TransferModel.indexOfFile fileId (m_transfer w)) 0) as [?|Hr];
    [intros Hu; cbn in Hu; congruence|].
  destruct (TransferModel.status_is _ _) eqn:E4; [intros Hu; cbn in Hu; congruence|].
  match goal with |- context [FileNames.reserveFilePath ?e ?d ?n] =>
    pose proof (FileNames.reserved_fresh e d n) as Hfresh; set (final := FileNames.reserveFilePath e d n) in * end.
  cbv zeta in Hfresh. destruct (is_empty final) eqn:Ef; [intros Hu; cbn in Hu; congruence|].
  apply is_empty_false in Ef. destruct (Hfresh Ef) as (name & Hn & Hst & Hfin%file_absent & Hpart%file_absent).
  cbn [partPath]. destruct (disk_open _ _); cbn [negb]; [|intros Hu; cbn in Hu; congruence].
  intros Hu. cbn in Hu. rewrite lookup_insert_eq in Hu. injection Hu as <-. cbn [row partPath finalPath].
  split; [split_and!; try done|split_and!; try done].
  - destruct (m_tokens w !! fileId) as [token|] eqn:Ht;
      cbn [from_option id] in Et; [by exists token|].
    exfalso. apply Etok. rewrite (q_utf8_ascii []) in Et by (left; constructor).
    rewrite <- (q_utf8_ascii (query (lit "token") (the_conn i w))); [done|]. right. rewrite <- Et. constructor.
  - intros Hd. unfold TransferModel.status_is in E4. by rewrite Hd in E4.
  - unfold the_conn, on_conn, put_conn. cbn. rewrite lookup_insert_eq. cbn. unfold streamBodyTo. cbv zeta.
    destruct (_ && _); [|done]. unfold fail, respond_, respond. repeat case_match; done.
Qed.

(** ** The end of a session *)

Definition settle (st : TransferModel.FileStatus) : TransferModel.FileStatus :=
  if TransferModel.status_is st TransferModel.FileWaiting || TransferModel.status_is st TransferModel.FileTransferring
  then TransferModel.FileSkipped else st.

Lemma skip_row_statuses t m i :
  (i < List.length (TransferModel.m_files m))%nat -> statuses (skip_row t m i) = alter settle i (statuses m).
Proof.
  intros Hi. apply lookup_lt_is_Some in Hi as [e He]. unfold skip_row. cbv zeta.
  rewrite (TransferModel.entry_lookup (Z.of_nat i) m e) by (rewrite ?Nat2Z.id; lia || done).
  assert (Hs : statuses m !! i = Some (TransferModel.status e)) by (unfold statuses; by rewrite list_lookup_fmap, He).
  assert (Hset : alter settle i (statuses m) = <[i := settle (TransferModel.status e)]> (statuses m)).
  { apply list_eq. intros j. destruct (decide (i = j)) as [->|Hn].
    - rewrite list_lookup_alter_eq, list_lookup_insert_eq, Hs; [done|]. by eapply lookup_lt_Some.
    - by rewrite list_lookup_alter_ne, list_lookup_insert_ne. }
  rewrite Hset. unfold settle. destruct (_ || _).
  - apply setFileStatus_statuses; [done|]. by eapply lookup_lt_Some.
  - by rewrite list_insert_id.
Qed.
Lemma skip_rows_statuses t m : statuses (skip_rows t m) = map settle (statuses m).
Proof.
  unfold skip_rows, rows.
  assert (Hlen : forall m, List.length (TransferModel.m_files m) = List.length (statuses m)).
  { intros m'. unfold statuses. by rewrite length_map. }
  assert (Hk : forall k, (k <= List.length (statuses m))%nat ->
    statuses (foldl (skip_row t) m (seq 0 k)) = map settle (take k (statuses m)) ++ drop k (statuses m)).
  { induction k as [|k IH]; intros Hk; [done|]. rewrite seq_S, foldl_app. cbn [foldl].
    assert (is_Some (statuses m !! k)) as [x Hx] by (apply lookup_lt_is_Some; lia).
    rewrite skip_row_statuses; rewrite ?Hlen, IH by lia.
    - rewrite (take_S_r _ _ _ Hx), map_app, <- app_assoc, (drop_S _ _ _ Hx). cbn [map app].
      replace (0 + k)%nat with (List.length (map settle (take k (statuses m))) + 0)%nat
        by (rewrite length_map, length_take; lia).
      by rewrite alter_app_r.
    - rewrite length_app, length_map, length_take, length_drop. lia. }
  rewrite Hlen, Hk by done. by rewrite take_ge, drop_ge, app_nil_r by done.
Qed.

Lemma final_state_files t st m : TransferModel.m_files (final_state t st m) = TransferModel.m_files m.
Proof. unfold final_state. cbv zeta. repeat case_match; apply setState_files. Qed.
Lemma settled_all (l : list TransferModel.FileStatus) :
  Forall (fun st => st = TransferModel.FileDone \/ st = TransferModel.FileFailed \/ st = TransferModel.FileSkipped)
    (map settle l).
Proof. apply Forall_map, Forall_true. intros st. unfold settle. destruct st; cbn; auto. Qed.

(** C21: the end of a session. When an open session is finished, every file of it has
    settled as done, failed or skipped; the transfer shows cancelled, finished when
    every file arrived, or failed; the capability is void - no session, no address,
    no directory, no token, no upload; and exactly when something arrived and the
    log is on, the log gains one record, which names the files that are done and the
    state shown, and the sender's key is remembered. *)
Theorem finish_settles t status w :
  service_ok ∅ w -> m_sessionId w <> [] ->
  let w' := finishSession t status w in
  let m := m_transfer w' in
  let done := TransferModel.completedCount m in
  at_rest w' /\ m_sessionAddress w' = [] /\ m_sessionDirectory w' = [] /\ m_tokens w' = ∅
  /\ Forall (fun st => st = TransferModel.FileDone \/ st = TransferModel.FileFailed \/ st = TransferModel.FileSkipped)
       (statuses m)
  /\ TransferModel.m_state m = (if qeq status (lit "cancelled") then TransferModel.Cancelled
                                else if done =? TransferModel.fileCount m then TransferModel.Finished
                                else TransferModel.Failed)
  /\ (if 0 <? done
      then m_known w' = KnownDevices.remember t (fingerprint (m_peer w)) (alias (m_peer w)) <$> m_known w
      else m_known w' = m_known w)
  /\ m_history w' =
       if AppSettings.historyEnabled (m_settings w) && (0 <? done)
       then HistoryModel.append
              (HistoryModel.mkHistoryRecord (m_sessionId w) (lit "receive") (alias (m_peer w)) (deviceType (m_peer w))
                 (Some t) (map TransferModel.fileName (done_entries m))
                 (foldl (fun acc e => wrap64 (acc + TransferModel.size e)) 0 (done_entries m))
                 (TransferModel.stateName m) (m_sessionDirectory w))
              (m_history w)
       else m_history w.
Proof.
  intros Hok Hi. cbv zeta. rewrite finishSession_eq, (proj2 (is_empty_false _) Hi). cbn [andb].
  destruct (stopped_spec ∅ t w (sv_store _ _ Hok)) as (Hs & Hp & Hu & Hid & Hdisc & Hdir & Hhist & Hpeer).
  destruct (wind_up_rest ∅ t status _ Hs Hu Hp) as (_ & Hr & Htok & _).
  revert Hr Htok. set (w1 := stopped t w) in *. clearbody w1.
  assert (Hm : m_transfer (wind_up t status w1) = final_state t status (skip_rows t (m_transfer w1))).
  { unfold wind_up. cbv zeta. repeat case_match; done. }
  intros Hr Htok. split; [done|].
  assert (Hfiles : TransferModel.m_files (m_transfer (wind_up t status w1))
                   = TransferModel.m_files (skip_rows t (m_transfer w1))).
  { rewrite Hm. apply final_state_files. }
  assert (Hdone : TransferModel.completedCount (m_transfer (wind_up t status w1))
                  = TransferModel.completedCount (skip_rows t (m_transfer w1))).
  { unfold TransferModel.completedCount. by rewrite Hfiles. }
  split_and!.
  - unfold wind_up. cbv zeta. repeat case_match; done.
  - unfold wind_up. cbv zeta. repeat case_match; done.
  - done.
  - assert (statuses (m_transfer (wind_up t status w1)) = map settle (statuses (m_transfer w1))) as ->.
    { rewrite <- (skip_rows_statuses t). unfold statuses. by rewrite Hfiles. }
    apply settled_all.
  - rewrite Hdone. unfold TransferModel.fileCount. rewrite Hfiles, Hm. unfold final_state. cbv zeta.
    fold (TransferModel.fileCount (skip_rows t (m_transfer w1))). repeat case_match; apply setState_state.
  - rewrite Hdone. rewrite <- Hpeer. unfold m_known. rewrite <- Hdisc. unfold wind_up. cbv zeta.
    unfold m_known. change (m_discovery (transfer _ (transfer _ w1))) with (m_discovery w1).
    destruct (0 <? _); rewrite ?andb_true_r, ?andb_false_r.
    + case_bool_decide as Hk; repeat case_match; try done; cbn;
        apply eq_None_not_Some in Hk; by rewrite Hk.
    + done.
  - rewrite Hdone, Hm. rewrite <- Hid, <- Hpeer, <- Hdir, <- Hhist. unfold m_settings. rewrite <- Hdisc.
    unfold wind_up. cbv zeta.
    change (m_transfer (transfer (skip_rows t) w1)) with (skip_rows t (m_transfer w1)).
    destruct (bool_decide _ && _); destruct (_ && (0 <? _)) eqn:E2; cbn -[skip_rows final_state]; done.
Qed.
End ReceiveFacts.
End ReceiveFacts.
