(* ===== verification/ReceiveHttp.v ===== *)
(** * ReceiveHttp: the receiving service as a client of the HTTP server

    [ReceiveService] meets the contract [HttpWorldLaws]: its handlers use only
    the public methods of a connection. What [HttpFacts] proves of one
    connection then holds of every connection of the whole service, the
    answers given by the person, the timers and the end of a session included. *)
From S2P Require Import Prelude Json Crypto Reference Protocol DeviceInfo SecureStore Certificate TlsClient.
From S2P Require Import KnownDevices AppSettings HistoryModel DeviceModel FileNames Network Discovery.
From S2P Require Import RateLimiter TransferModel HttpConnection HttpFacts HttpServer ReceiveService ReceiveFacts.
Import DeviceInfo HttpConnection ReceiveService.

Module ReceiveHttp.

#[local] Existing Instances AppSettings.eta_AppSettings Discovery.eta_Discovery TransferModel.eta_FileEntry
  TransferModel.eta_TransferModel.

Section ReceiveHttp.
Context `{OpenSSL, QtText, QHashOrder, Platform, JsonText, X509, AppPaths, SettingsHost, UrlText, HttpText, Disk}.
Context {S : Type} `{StoredFiles S}.
#[local] Abbreviation World := (World (S := S)).

(** ** What a handler does to the connections *)

Lemma answers_trans t a b c : answers t a b -> answers t b c -> answers t a c.
Proof. intros Hab Hbc. induction Hbc; [done|by constructor|by constructor]. Qed.

Definition touched (t : Z) (w w' : World) : Prop := forall j, answers t (the_conn j w) (the_conn j w').
#[local] Instance touched_preorder t : PreOrder (touched t).
Proof.
  split; [intros w j; constructor|]. intros w1 w2 w3 Ha Hb j. eapply answers_trans; [apply Ha|apply Hb].
Qed.
Lemma touched_eq t w w' : w_conns w' = w_conns w -> touched t w w'.
Proof. intros Hw j. unfold the_conn. rewrite Hw. constructor. Qed.
Lemma the_conn_put i j c (w : World) : the_conn j (put_conn i c w) = if decide (i = j) then c else the_conn j w.
Proof.
  unfold the_conn, put_conn. cbn. case_decide as Hij; [subst; by rewrite lookup_insert_eq|].
  by rewrite lookup_insert_ne.
Qed.
Lemma touched_on t i f w : (forall c, answers t c (f c)) -> touched t w (on_conn i f w).
Proof.
  intros Hf j. unfold on_conn. rewrite the_conn_put. case_decide as Hij; [subst; apply Hf|constructor].
Qed.
Lemma touched_answer t i st w : touched t w (answer t i st w).
Proof. apply touched_on. intros c. exact (fail_answers t st c). Qed.
Lemma touched_json t i st o w : touched t w (on_conn i (respondJson t st o) w).
Proof. apply touched_on. intros c. apply ans_respond; [apply json_type_one_line|constructor]. Qed.
(** An answer followed by changes elsewhere. *)
Lemma touched_then t w w1 w2 : touched t w w1 -> w_conns w2 = w_conns w1 -> touched t w w2.
Proof. intros Ht He. etransitivity; [exact Ht|by apply touched_eq]. Qed.

Lemma releasePending_conns (w : World) : w_conns (releasePending w) = w_conns w.
Proof. unfold releasePending. by destruct (m_pending w). Qed.
Lemma closeHashingFile_conns i (w : World) : w_conns (closeHashingFile i w) = w_conns w.
Proof. unfold closeHashingFile. by repeat case_match. Qed.
Lemma closeUpload_conns i keep (w : World) : w_conns (closeUpload i keep w) = w_conns w.
Proof.
  unfold closeUpload. destruct (m_uploads w !! i); [|done]. cbv zeta.
  destruct (negb keep); exact (closeHashingFile_conns i (dropUpload i w)).
Qed.
Lemma touched_stop_uploads t l w : touched t w (foldl (stop_upload t) w l).
Proof.
  revert w. induction l as [|i l IH]; intros w; cbn [foldl]; [reflexivity|].
  etransitivity; [|apply IH]. unfold stop_upload. cbv zeta. etransitivity; [|apply touched_answer].
  apply touched_eq. exact (closeUpload_conns i false w).
Qed.
Lemma touched_stopped t w : touched t w (ReceiveFacts.stopped t w).
Proof.
  unfold ReceiveFacts.stopped. cbv zeta. set (w0 := w <| m_idleTimer ::= stop |> <| m_acceptTimer ::= stop |>).
  assert (H1' : touched t w (stop_uploads t w0)).
  { etransitivity; [|apply touched_stop_uploads]. by apply touched_eq. }
  destruct (m_pending (stop_uploads t w0)); [|done].
  eapply touched_then; [|apply releasePending_conns]. etransitivity; [exact H1'|apply touched_answer].
Qed.
Lemma touched_finish t st w : touched t w (finishSession t st w).
Proof.
  rewrite ReceiveFacts.finishSession_eq. destruct (_ && _); [reflexivity|].
  destruct (is_empty _); (eapply touched_then; [apply touched_stopped|]); [done|].
  unfold ReceiveFacts.wind_up. cbv zeta. by repeat case_match.
Qed.

Lemma give_tokens_conns l (wt : World * jobject) : w_conns (foldl give_token wt l).1 = w_conns wt.1.
Proof.
  revert wt. induction l as [|r l IH]; intros [w o]; cbn [foldl]; [done|]. rewrite IH.
  unfold give_token, draw_token. by destruct (Protocol.generateToken _).
Qed.
Lemma touched_accept t w : touched t w (accept t w).
Proof.
  unfold accept. destruct (m_pending w) as [i|]; [|reflexivity].
  destruct (prepareDirectory w) as [directory w1] eqn:Hd.
  assert (Hw1 : w_conns w1 = w_conns w).
  { revert Hd. unfold prepareDirectory. cbv zeta. repeat case_match; by intros [= <- <-]. }
  etransitivity; [by apply (touched_eq t w w1)|]. destruct (is_empty directory).
  - eapply touched_then; [apply (touched_answer t i 500)|]. exact (releasePending_conns _).
  - destruct (draw_token w1) as [sessionId w2] eqn:Hdr.
    assert (Hw2 : w_conns w2 = w_conns w1).
    { revert Hdr. unfold draw_token. destruct (Protocol.generateToken _). by intros [= <- <-]. }
    cbv zeta. set (w3 := w2 <| m_sessionId := _ |> <| m_sessionAddress := _ |> <| m_sessionDirectory := _ |> <| m_tokens := _ |>).
    pose proof (give_tokens_conns (rows (m_transfer w3)) (w3, [])) as Hg.
    destruct (foldl give_token (w3, []) (rows (m_transfer w3))) as [w4 tokens]. cbn [fst] in Hg.
    etransitivity; [by apply (touched_eq t w1 w4); rewrite Hg|].
    eapply touched_then; [apply touched_json|]. exact (releasePending_conns _).
Qed.
Lemma touched_released t i st w w' :
  w_conns w' = w_conns (releasePending (answer t i st w)) -> touched t w w'.
Proof.
  intros Hw. eapply touched_then; [apply (touched_answer t i st)|]. by rewrite Hw, releasePending_conns.
Qed.
Lemma touched_decline t w : touched t w (decline t w).
Proof.
  unfold decline. destruct (m_pending w) as [i|]; [|reflexivity]. by apply (touched_released t i 403).
Qed.
Lemma touched_acceptTimeout t w : touched t w (onAcceptTimeout t w).
Proof.
  unfold onAcceptTimeout. cbv zeta. destruct (m_pending _) as [i|]; [|by apply touched_eq].
  etransitivity; [by apply (touched_eq t w (w <| m_acceptTimer ::= stop |>))|]. by apply (touched_released t i 403).
Qed.
Lemma touched_cancel t w : touched t w (cancel t w).
Proof.
  unfold cancel. destruct (_ && _); [apply touched_decline|]. destruct (is_empty _); [reflexivity|].
  etransitivity; [|apply touched_finish]. apply touched_eq. unfold notifyPeerCancelled. by destruct (_ || _).
Qed.
Lemma touched_idle t w : touched t w (onSessionIdle t w).
Proof.
  unfold onSessionIdle. cbv zeta. destruct (is_empty _); [by apply touched_eq|].
  etransitivity; [|apply touched_finish]. by apply touched_eq.
Qed.

(** ** The endpoints *)

Lemma touched_screen t i w : touched t w (screen t i w).1.
Proof.
  unfold screen. cbv zeta. destruct (negb (AppSettings.receiveEnabled _)); [reflexivity|].
  destruct (_ || _); [reflexivity|]. destruct (negb (RateLimiter.allow _ _ _)).
  { cbn [fst]. apply touched_on. intros c. constructor. constructor. }
  repeat case_match; by apply touched_eq.
Qed.
Lemma touched_prepare t i w : touched t w (handlePrepareUpload t i w).
Proof.
  unfold handlePrepareUpload. pose proof (touched_screen t i w) as Hs.
  destruct (screen t i w) as [w1 [st|[[peer info] files]]]; cbn [fst] in Hs; (etransitivity; [exact Hs|]).
  { apply touched_answer. }
  cbv zeta.
  match goal with |- context [transfer (TransferModel.begin ?a ?b ?c ?d ?e ?f ?g)] =>
    generalize (TransferModel.begin a b c d e f g); intros begin end.
  unfold setState. generalize (TransferModel.setState t TransferModel.Pending []). intros pending.
  match goal with |- context [set_field m_discovery ?f] => generalize f; intros register end.
  match goal with |- touched _ _ (if ?q then accept t ?w2 else _) =>
    destruct q; [etransitivity; [apply (touched_eq t w1 w2); reflexivity|apply touched_accept]|] end.
  by apply touched_eq.
Qed.
Lemma touched_settle t i u w : touched t w (ReceiveFacts.settle_file t i u w).
Proof.
  unfold ReceiveFacts.settle_file. cbv zeta.
  repeat (case_match; try (etransitivity; [|apply touched_answer]; by apply touched_eq)).
Qed.
Lemma touched_finished t i w : touched t w (handleUploadFinished t i w).
Proof.
  rewrite ReceiveFacts.handleUploadFinished_eq. destruct (m_uploads w !! i) as [u|].
  - cbv zeta. match goal with |- context [all_settled ?w'] => set (w1 := w') end.
    assert (Hw1 : touched t w w1).
    { unfold w1. eapply touched_then; [|reflexivity]. etransitivity; [|apply touched_settle].
      apply touched_eq. exact (closeHashingFile_conns i (dropUpload i w)). }
    clearbody w1. destruct (all_settled w1); [|done]. etransitivity; [exact Hw1|apply touched_finish].
  - destruct (negb _); [apply touched_answer|reflexivity].
Qed.
Lemma touched_handleCancel t i w : touched t w (handleCancel t i w).
Proof.
  unfold handleCancel. cbv zeta. etransitivity; [apply (touched_answer t i 200)|].
  generalize (answer t i 200 w). intros w1.
  match goal with |- touched t _ (if ?b then _ else if ?c then _ else _) => destruct b; [|destruct c] end.
  - apply touched_eq. exact (releasePending_conns w1).
  - apply touched_finish.
  - reflexivity.
Qed.
Lemma touched_closed t i w : touched t w (onClosed t i w).
Proof.
  unfold onClosed. cbv zeta.
  assert (Hw1 : touched t w (if bool_decide (i ∈ onClosed_upload w) then onUploadClosed t i w else w)).
  { destruct (bool_decide _); [|reflexivity]. unfold onUploadClosed. destruct (m_uploads w !! i); [|reflexivity].
    cbv zeta. match goal with |- context [all_settled ?w'] => set (w1 := w') end.
    assert (touched t w w1).
    { apply touched_eq. exact (closeHashingFile_conns i (w <| m_uploads ::= delete i |>)). }
    clearbody w1. destruct (all_settled w1); [|done]. etransitivity; [eassumption|apply touched_finish]. }
  revert Hw1. generalize (if bool_decide (i ∈ onClosed_upload w) then onUploadClosed t i w else w).
  intros w1 Hw1. destruct (bool_decide _); [|done]. etransitivity; [exact Hw1|]. apply touched_eq.
  unfold onPendingClosed. by repeat case_match.
Qed.
Lemma upload_headers t i j (w : World) :
  if decide (i = j) then prepares t (the_conn j w) (the_conn j (handleUploadHeaders t i w))
  else the_conn j (handleUploadHeaders t i w) = the_conn j w.
Proof.
  assert (Hans : forall st (w1 : World), w_conns w1 = w_conns w ->
    if decide (i = j) then prepares t (the_conn j w) (the_conn j (answer t i st w1))
    else the_conn j (answer t i st w1) = the_conn j w).
  { intros st w1 Hw1. unfold answer, on_conn. rewrite the_conn_put.
    assert (He : forall k, the_conn k w1 = the_conn k w) by (intros k; unfold the_conn; by rewrite Hw1).
    rewrite !He. case_decide as Hij; [|done]. rewrite Hij. apply prep_answers.
    exact (fail_answers t st _). }
  unfold handleUploadHeaders. cbv zeta.
  destruct (_ || _); [by apply Hans|]. destruct (is_empty (m_sessionId w) || _); [by apply Hans|].
  destruct (negb _ || _); [by apply Hans|]. destruct (_ <? 0); [by apply Hans|].
  destruct (TransferModel.status_is _ _); [by apply Hans|]. destruct (is_empty _); [by apply Hans|].
  cbn [partPath]. destruct (disk_open _ _); cbn [negb]; [|by apply Hans].
  unfold on_conn. rewrite the_conn_put. case_decide as Hij; [subst|done].
  eapply prep_stream; [apply prep_answers; constructor|constructor].
Qed.

(** The contract of the HTTP server's client. *)
#[export] Instance service_http_laws : HttpWorldLaws World.
Proof.
  split; cbn.
  - intros i c w. rewrite the_conn_put. by rewrite decide_True.
  - intros i j c w Hij. rewrite the_conn_put. by rewrite decide_False.
  - intros s d j w. unfold writeData, the_conn. by repeat case_match.
  - intros t i r _ j w. unfold onBodyProgress, the_conn. by repeat case_match.
  - intros t i w. unfold onHeadersReady. destruct (qeq _ _); [|apply prep_answers; constructor].
    pose proof (upload_headers t i i w) as Hu. by rewrite decide_True in Hu.
  - intros t i j w Hij. unfold onHeadersReady. destruct (qeq _ _); [|constructor].
    pose proof (upload_headers t i j w) as Hu. rewrite decide_False in Hu by done. rewrite Hu. constructor.
  - intros t i j w. revert j. change (touched t w (onRequestReady t i w)).
    unfold onRequestReady. cbv zeta. destruct (_ || _); [apply touched_json|].
    destruct (qeq _ _).
    { unfold handleRegister. destruct (Discovery.registerPeer _ _ _ _).
      etransitivity; [|apply touched_json]. by apply touched_eq. }
    destruct (qeq _ _); [apply touched_prepare|]. destruct (qeq _ _); [apply touched_finished|].
    destruct (qeq _ _); [apply touched_handleCancel|apply touched_answer].
  - intros t i j w. apply touched_closed.
Qed.

(** ** Every connection of the service *)

Lemma touched_all_ok t w w' : touched t w w' -> all_ok w -> all_ok w'.
Proof. intros Ht Hok j. eapply answers_ok; [apply Ht|apply Hok]. Qed.
Lemma touched_start t l w : touched t w (startListening l w).2.
Proof. apply touched_eq. unfold startListening. cbv zeta. by repeat case_match. Qed.
Lemma touched_stopListening t w : touched t w (stopListening t w).
Proof.
  unfold stopListening. destruct (negb _); [reflexivity|].
  eapply touched_then; [apply (touched_finish t (lit "cancelled"))|reflexivity].
Qed.
Lemma service_all_ok t w e : all_ok w -> all_ok (ReceiveService.handle t w e).
Proof.
  intros Hok. destruct e; cbn [ReceiveService.handle].
  - destruct (w_conns w !! i); [done|]. intros j. cbn. rewrite the_conn_put. case_decide; [apply Conn0_ok|apply Hok].
  - destruct (w_conns w !! i); [|done]. by apply all_ok_handle.
  - eapply touched_all_ok, Hok. apply touched_accept.
  - eapply touched_all_ok, Hok. apply touched_decline.
  - eapply touched_all_ok, Hok. apply touched_cancel.
  - case_match; [|done]. eapply touched_all_ok, Hok. apply touched_acceptTimeout.
  - case_match; [|done]. eapply touched_all_ok, Hok. apply touched_idle.
  - cbv zeta. match goal with |- context [onSettingsChanged t listened ?w'] => set (w1 := w') end.
    assert (touched t w w1) by by apply touched_eq. clearbody w1.
    eapply (touched_all_ok t w); [|done]. case_match; [done|]. unfold onSettingsChanged. destruct (negb _); [done|].
    etransitivity; [eassumption|]. etransitivity; [apply touched_stopListening|apply touched_start].
  - eapply (touched_all_ok t), Hok. by apply touched_eq.
  - case_match; [|done]. eapply (touched_all_ok t), Hok. by apply touched_eq.
  - eapply (touched_all_ok t), Hok. apply touched_start.
  - eapply touched_all_ok, Hok. apply touched_stopListening.
Qed.
Lemma service_run_ok w events : all_ok w -> all_ok (ReceiveFacts.run w events).
Proof.
  revert w. induction events as [|[t e] events IH]; intros w Hok; [done|]. by apply IH, service_all_ok.
Qed.

(** At most the interim line, then at most one response. *)
Definition answered_once (written : list bytes) : Prop :=
  written = [] \/ written = [continue_line]
  \/ exists r, is_response r /\ (written = [r] \/ written = [continue_line; r]).
Lemma service_conns_ok discovery history files events i :
  conn_ok (the_conn i (ReceiveFacts.run (World0 discovery history files) events)).
Proof. apply (service_run_ok (World0 discovery history files) events). intros j. apply Conn0_ok. Qed.
Lemma conn_announces c :
  conn_ok c ->
  (emissions headersReady c <= 1 /\ emissions requestReady c <= 1 /\ emissions closed c <= 1)%nat.
Proof.
  intros [_ J2 [J3 _] J4 _ _ _]. split_and!; [done|..].
  - rewrite J2. destruct (m_bodyComplete _); lia.
  - rewrite J4. destruct (m_closedEmitted _); lia.
Qed.
Lemma conn_answered c : conn_ok c -> answered_once (s_written c).
Proof.
  intros [(x & y & Ho & Hi & Hr & _ & _) _ _ _ _ _ _]. unfold answered_once. rewrite Ho.
  destruct Hi as [->| ->], Hr as [->|(r & -> & Hr)]; cbn; eauto 8.
Qed.
End ReceiveHttp.
End ReceiveHttp.
