(* ===== verification/ReceiveSizes.v ===== *)
(** * ReceiveSizes: what an upload may write

    The ceiling under which the body of an upload is read is the size that was
    agreed to, and the file holds no more than that: an invariant over the
    account of each connection ([HttpFrame.Metered]), its upload, the file and
    the rows of the transfer. *)
From S2P Require Import Prelude Json Crypto Reference Protocol DeviceInfo SecureStore Certificate TlsClient.
From S2P Require Import KnownDevices AppSettings HistoryModel DeviceModel FileNames Network Discovery.
From S2P Require Import RateLimiter TransferModel TransferFacts HttpConnection HttpFacts HttpFrame HttpServer.
From S2P Require Import ReceiveService ReceiveFacts ReceiveHttp.
Import DeviceInfo TransferFacts HttpConnection HttpFrame ReceiveService ReceiveHttp.

Module ReceiveSizes.

#[local] Existing Instances AppSettings.eta_AppSettings Discovery.eta_Discovery TransferModel.eta_FileEntry
  TransferModel.eta_TransferModel ReceiveService.http_world.

Section ReceiveSizes.
Context `{OpenSSL, QtText, QHashOrder, Platform, JsonText, X509, AppPaths, SettingsHost, UrlText, HttpText, Disk}.
Context {S : Type} `{StoredFiles S}.
#[local] Abbreviation World := (World (S := S)).

(** ** Uploads that go on as they were *)

Definition kept (w : World) := (m_uploads w, w_files w, sizes (m_transfer w)).
(** Uploads may end; those still open write the same file, and no declared size
    changes. *)
Record steady (w w' : World) : Prop := {
  st_sizes : sizes (m_transfer w') = sizes (m_transfer w);
  st_open i u : m_uploads w' !! i = Some u -> m_uploads w !! i = Some u /\ w_files w' !! i = w_files w !! i
}.
#[local] Instance steady_preorder : PreOrder steady.
Proof.
  split; [by intros w; split|]. intros a b c [Hs1 Ho1] [Hs2 Ho2]. split; [congruence|].
  intros i u Hi. destruct (Ho2 i u Hi) as [Hb Hf]. destruct (Ho1 i u Hb) as [Ha Hg]. split; congruence.
Qed.
Lemma steady_eq w w' : kept w' = kept w -> steady w w'.
Proof. unfold kept. intros [= Hu Hf Hs]. split; [done|]. intros i u. by rewrite Hu, Hf. Qed.
Lemma steady_then w w1 w2 : steady w w1 -> kept w2 = kept w1 -> steady w w2.
Proof. intros Hw Hk. etransitivity; [exact Hw|by apply steady_eq]. Qed.
Lemma kept_eq (w w' : World) :
  m_uploads w' = m_uploads w -> w_files w' = w_files w -> sizes (m_transfer w') = sizes (m_transfer w) ->
  kept w' = kept w.
Proof. unfold kept. congruence. Qed.
(** Changing a row, not its size. *)
Lemma kept_transfer f (w : World) :
  sizes (f (m_transfer w)) = sizes (m_transfer w) -> kept (transfer f w) = kept w.
Proof. intros Hf. unfold kept, transfer. cbn. by rewrite Hf. Qed.
Lemma kept_setState t st e (w : World) : kept (setState t st e w) = kept w.
Proof. apply kept_transfer, sizes_setState. Qed.
Lemma kept_releasePending (w : World) : kept (releasePending w) = kept w.
Proof. unfold releasePending. by case_match. Qed.
Lemma kept_answer t i st (w : World) : kept (answer t i st w) = kept w.
Proof. done. Qed.

(** The file of an upload that ends is closed and forgotten. *)
Lemma forget_file i j (w : World) : i <> j -> w_files (deleteFile i (closeHashingFile i w)) !! j = w_files w !! j.
Proof.
  intros Hn. unfold deleteFile, closeHashingFile. cbn. rewrite lookup_delete_ne by done.
  repeat case_match; [done| |done]. cbn. by rewrite lookup_insert_ne.
Qed.
Lemma forget_rest i (w : World) :
  m_uploads (deleteFile i (closeHashingFile i w)) = m_uploads w
  /\ m_transfer (deleteFile i (closeHashingFile i w)) = m_transfer w.
Proof. unfold closeHashingFile. by repeat case_match. Qed.
Lemma steady_drop i (w w1 w2 : World) :
  m_uploads w1 = delete i (m_uploads w) -> w_files w1 = w_files w -> m_transfer w1 = m_transfer w ->
  m_uploads w2 = m_uploads w1 -> (forall j, i <> j -> w_files w2 !! j = w_files w1 !! j) ->
  sizes (m_transfer w2) = sizes (m_transfer w1) -> steady w w2.
Proof.
  intros Hu Hf Ht Hu2 Hf2 Ht2. split; [congruence|]. intros j u Hj. rewrite Hu2, Hu in Hj.
  apply lookup_delete_Some in Hj as [Hn Hj]. split; [done|]. by rewrite Hf2, Hf by done.
Qed.
Lemma steady_forget i (w w1 : World) :
  m_uploads w1 = delete i (m_uploads w) -> w_files w1 = w_files w -> m_transfer w1 = m_transfer w ->
  steady w (deleteFile i (closeHashingFile i w1)).
Proof.
  intros Hu Hf Ht. destruct (forget_rest i w1) as [Hu1 Ht1].
  apply (steady_drop i w w1); [done..| |by rewrite Ht1]. intros j. apply forget_file.
Qed.

(** ** The end of a session *)

Lemma steady_closeUpload i keep (w : World) : steady w (closeUpload i keep w).
Proof.
  unfold closeUpload. destruct (m_uploads w !! i); [|done]. cbv zeta.
  assert (Hs : steady w (deleteFile i (closeHashingFile i (dropUpload i w)))) by by apply steady_forget.
  destruct (negb keep); [|exact Hs]. by eapply steady_then.
Qed.
Lemma steady_stop_uploads t l (w : World) : steady w (foldl (stop_upload t) w l).
Proof.
  revert w. induction l as [|i l IH]; intros w; cbn [foldl]; [done|]. etransitivity; [|apply IH].
  unfold stop_upload. cbv zeta. eapply steady_then; [apply (steady_closeUpload i false)|].
  apply kept_transfer, sizes_setFileStatus.
Qed.
Lemma steady_stopped t (w : World) : steady w (ReceiveFacts.stopped t w).
Proof.
  unfold ReceiveFacts.stopped. cbv zeta. set (w0 := w <| m_idleTimer ::= stop |> <| m_acceptTimer ::= stop |>).
  assert (Hs : steady w (stop_uploads t w0)).
  { etransitivity; [|apply steady_stop_uploads]. by apply steady_eq. }
  destruct (m_pending _); [|done]. eapply steady_then; [exact Hs|]. by rewrite kept_releasePending.
Qed.
Lemma sizes_skip_rows t m : sizes (skip_rows t m) = sizes m.
Proof.
  unfold skip_rows. generalize (rows m). intros l. revert m. induction l as [|r l IH]; intros m; [done|].
  cbn [foldl]. rewrite IH. unfold skip_row. cbv zeta. destruct (_ || _); [apply sizes_setFileStatus|done].
Qed.
Lemma kept_wind_up t st (w : World) : kept (ReceiveFacts.wind_up t st w) = kept w.
Proof.
  unfold ReceiveFacts.wind_up. cbv zeta.
  set (w1 := transfer (final_state t st) (transfer (skip_rows t) w)).
  assert (Hk : kept w1 = kept w).
  { unfold w1. rewrite kept_transfer; [|exact (sizes_files _ _ (ReceiveFacts.final_state_files t st _))].
    apply kept_transfer, sizes_skip_rows. }
  rewrite <- Hk. clearbody w1. by repeat case_match.
Qed.
Lemma steady_finish t st (w : World) : steady w (finishSession t st w).
Proof.
  rewrite ReceiveFacts.finishSession_eq. destruct (_ && _); [done|].
  destruct (is_empty _); (eapply steady_then; [apply steady_stopped|]); [apply kept_setState|apply kept_wind_up].
Qed.

(** ** The other handlers *)

Lemma kept_draw_token (w : World) : kept (draw_token w).2 = kept w.
Proof. unfold draw_token. by destruct (Protocol.generateToken _). Qed.
Lemma kept_give_tokens l (wt : World * jobject) : kept (foldl give_token wt l).1 = kept wt.1.
Proof.
  revert wt. induction l as [|r l IH]; intros [w o]; cbn [foldl]; [done|]. rewrite IH. unfold give_token.
  pose proof (kept_draw_token w) as Hd. destruct (draw_token w) as [token w1]. cbn [fst snd] in *.
  rewrite <- Hd. exact (kept_transfer _ w1 (sizes_setFileToken _ _ _)).
Qed.
Lemma kept_accept t (w : World) : kept (accept t w) = kept w.
Proof.
  unfold accept. destruct (m_pending w) as [i|]; [|done].
  destruct (prepareDirectory w) as [directory w1] eqn:Hd.
  assert (Hw1 : kept w1 = kept w).
  { revert Hd. unfold prepareDirectory. cbv zeta. repeat case_match; by intros [= <- <-]. }
  rewrite <- Hw1. destruct (is_empty directory).
  { rewrite kept_setState. exact (kept_releasePending (answer t i 500 w1)). }
  pose proof (kept_draw_token w1) as Hw2. destruct (draw_token w1) as [sessionId w2]. cbn [snd] in Hw2.
  rewrite <- Hw2. cbv zeta.
  set (w3 := w2 <| m_sessionId := _ |> <| m_sessionAddress := _ |> <| m_sessionDirectory := _ |> <| m_tokens := _ |>).
  pose proof (kept_give_tokens (rows (m_transfer w3)) (w3, [])) as Hg.
  destruct (foldl give_token (w3, []) (rows (m_transfer w3))) as [w4 tokens]. cbn [fst] in Hg.
  transitivity (kept w4); [|exact Hg]. set (w5 := on_conn i _ w4).
  transitivity (kept (releasePending w5)); [|by rewrite kept_releasePending]. apply kept_eq; [done|done|].
  etransitivity; [apply sizes_setState|apply sizes_setDestination].
Qed.
Lemma kept_decline t (w : World) : kept (decline t w) = kept w.
Proof.
  unfold decline. destruct (m_pending w) as [i|]; [|done]. rewrite kept_setState.
  exact (kept_releasePending (answer t i 403 w)).
Qed.
Lemma kept_onAcceptTimeout t (w : World) : kept (onAcceptTimeout t w) = kept w.
Proof.
  unfold onAcceptTimeout. cbv zeta. destruct (m_pending _) as [i|]; [|done]. rewrite kept_setState.
  exact (kept_releasePending (answer t i 403 (w <| m_acceptTimer ::= stop |>))).
Qed.
Lemma kept_onPendingClosed t i (w : World) : kept (onPendingClosed t i w) = kept w.
Proof.
  unfold onPendingClosed. cbv zeta. destruct (negb _); [done|]. destruct (is_empty _); [|done].
  by rewrite kept_setState.
Qed.
Lemma steady_cancel t (w : World) : steady w (cancel t w).
Proof.
  unfold cancel. destruct (_ && _); [apply steady_eq, kept_decline|]. destruct (is_empty _); [done|].
  etransitivity; [|apply steady_finish]. apply steady_eq. unfold notifyPeerCancelled. by destruct (_ || _).
Qed.
Lemma steady_onSessionIdle t (w : World) : steady w (onSessionIdle t w).
Proof.
  unfold onSessionIdle. cbv zeta. destruct (is_empty _); [by apply steady_eq|].
  etransitivity; [|apply steady_finish]. by apply steady_eq.
Qed.
Lemma kept_onBodyProgress t i r (w : World) : kept (onBodyProgress t i r w) = kept w.
Proof.
  unfold onBodyProgress. destruct (negb _); [done|]. destruct (m_uploads w !! i) as [u|]; [|done].
  exact (kept_transfer _ w (sizes_setFileTransferred _ _ _)).
Qed.
Lemma kept_screen t i (w : World) : kept (screen t i w).1 = kept w.
Proof. unfold screen. cbv zeta. by repeat case_match. Qed.
Lemma steady_settle t i u (w : World) :
  m_uploads w !! i = Some u -> steady w (ReceiveFacts.settle_file t i u (closeHashingFile i (dropUpload i w))).
Proof.
  intros Hi. eapply steady_then; [by apply (steady_forget i w (dropUpload i w))|].
  set (w1 := closeHashingFile i (dropUpload i w)). unfold ReceiveFacts.settle_file. cbv zeta.
  assert (Ht : forall (w2 : World) r st e, kept (transfer (TransferModel.setFileStatus t r st e) w2) = kept w2)
    by (intros; apply kept_transfer, sizes_setFileStatus).
  assert (Hp : forall (w2 : World) r p, kept (transfer (TransferModel.setFileLocalPath r p) w2) = kept w2)
    by (intros; apply kept_transfer, sizes_setFileLocalPath).
  destruct (negb (_ <=? _)); [rewrite kept_answer, Ht; done|].
  match goal with |- context [negb (if ?b then ?x else ?y)] => destruct (negb (if b then x else y)) end;
    [rewrite kept_answer, Ht; done|].
  match goal with |- context [if ?b then _ else _] => destruct b end; rewrite kept_answer, Ht, Hp; done.
Qed.
Lemma steady_finished t i (w : World) : steady w (handleUploadFinished t i w).
Proof.
  rewrite ReceiveFacts.handleUploadFinished_eq. destruct (m_uploads w !! i) as [u|] eqn:Hi.
  - cbv zeta. match goal with |- context [all_settled ?w'] => set (w1 := w') end.
    assert (Hw1 : steady w w1) by exact (steady_then w _ w1 (steady_settle t i u w Hi) eq_refl).
    clearbody w1. destruct (all_settled w1); [|done]. etransitivity; [exact Hw1|apply steady_finish].
  - destruct (negb _); [by apply steady_eq|done].
Qed.
Lemma steady_handleCancel t i (w : World) : steady w (handleCancel t i w).
Proof.
  unfold handleCancel. cbv zeta. destruct (_ && _).
  { apply steady_eq. rewrite kept_setState. exact (kept_releasePending (answer t i 200 w)). }
  destruct (_ && _); [|by apply steady_eq]. etransitivity; [|apply steady_finish]. by apply steady_eq.
Qed.
Lemma steady_closed t i (w : World) : steady w (onClosed t i w).
Proof.
  unfold onClosed. cbv zeta.
  assert (Hw1 : steady w (if bool_decide (i ∈ onClosed_upload w) then onUploadClosed t i w else w)).
  { destruct (bool_decide _); [|done]. unfold onUploadClosed. destruct (m_uploads w !! i) as [u|]; [|done].
    cbv zeta. match goal with |- context [all_settled ?w'] => set (w1 := w') end.
    assert (Hw1 : steady w w1).
    { pose proof (steady_forget i w (w <| m_uploads ::= delete i |>) eq_refl eq_refl eq_refl) as Hs.
      set (w2 := deleteFile i _) in Hs. eapply (steady_then w (remove_file (partPath u) w2)).
      - exact (steady_then w w2 (remove_file (partPath u) w2) Hs eq_refl).
      - apply kept_transfer, sizes_setFileStatus. }
    clearbody w1. destruct (all_settled w1); [|done]. etransitivity; [exact Hw1|apply steady_finish]. }
  revert Hw1. generalize (if bool_decide (i ∈ onClosed_upload w) then onUploadClosed t i w else w).
  intros w1 Hw1. destruct (bool_decide _); [|done]. eapply steady_then; [exact Hw1|]. apply kept_onPendingClosed.
Qed.

(** ** The account of an upload *)

(** The size the row of an upload was announced, and shown, with. *)
Definition agreed (u : Upload) (w : World) : Z := TransferModel.size (TransferModel.entry (row u) (m_transfer w)).
(** The connection of an open upload writes to the file of that upload, under
    the agreed ceiling; the file is within it, and while the request is being
    read it holds no more than the connection has counted. *)
Record metered_upload (i : Z) (u : Upload) (f : HashingFile) (w : World) : Prop := {
  mu_sink : m_sink (the_conn i w) = Some i;
  mu_max : m_maxBodyBytes (the_conn i w) = agreed u w;
  mu_file : len (h_hashed f) <= agreed u w;
  mu_open : m_state (the_conn i w) <> Responded -> len (h_hashed f) <= m_bodyReceived (the_conn i w)
}.
Record metered (w : World) : Prop := {
  me_sizes : Forall (fun n => 0 <= n) (sizes (m_transfer w));
  me_sink j s : m_sink (the_conn j w) = Some s -> s = j;
  me_received j : 0 <= m_bodyReceived (the_conn j w);
  me_upload i u : m_uploads w !! i = Some u -> exists f, w_files w !! i = Some f /\ metered_upload i u f w
}.
Lemma agreed_sizes u (w w' : World) : sizes (m_transfer w') = sizes (m_transfer w) -> agreed u w' = agreed u w.
Proof. intros Hs. unfold agreed. by rewrite !size_entry, Hs. Qed.
Lemma agreed_nonneg u (w : World) : metered w -> 0 <= agreed u w.
Proof. intros Hw. by apply size_entry_nonneg, Hw. Qed.

Definition all_tame (w w' : World) : Prop := forall j, tame (the_conn j w) (the_conn j w').
Lemma tame_touched t w w' : touched t w w' -> all_tame w w'.
Proof. intros Ht j. by eapply tame_answers. Qed.
Lemma tame_put i c (w : World) : tame (the_conn i w) c -> all_tame w (put_conn i c w).
Proof. intros Hc j. rewrite the_conn_put. case_decide as Hij; [by subst|done]. Qed.
Lemma tame_same (w w' : World) : w_conns w' = w_conns w -> all_tame w w'.
Proof. intros Hw j. unfold the_conn. by rewrite Hw. Qed.

(** Whatever leaves the accounts and the uploads alone. *)
Lemma metered_step w w' : all_tame w w' -> steady w w' -> metered w -> metered w'.
Proof.
  intros Ht [Hs Ho] [M1 M2 M3 M4]. split.
  - by rewrite Hs.
  - intros j s. rewrite (ta_sink _ _ (Ht j)). apply M2.
  - intros j. specialize (M3 j). pose proof (ta_received _ _ (Ht j)). lia.
  - intros i u Hi. destruct (Ho i u Hi) as [Hu Hf]. destruct (M4 i u Hu) as (f & Hfi & [K1 K2 K3 K4]).
    exists f. split; [congruence|]. destruct (Ht i) as [T1 T2 T3 T4].
    split; rewrite ?T1, ?T2, ?(agreed_sizes u w w' Hs); [done..|]. intros Hr. specialize (K4 (T4 Hr)). lia.
Qed.
Lemma metered_eq w w' : w_conns w' = w_conns w -> kept w' = kept w -> metered w -> metered w'.
Proof. intros Hc Hk. apply metered_step; [by apply tame_same|by apply steady_eq]. Qed.
(** New rows, while nothing is open. *)
Lemma metered_begin w w' :
  all_tame w w' -> m_uploads w' = ∅ -> Forall (fun n => 0 <= n) (sizes (m_transfer w')) -> metered w -> metered w'.
Proof.
  intros Ht Hu Hs [_ M2 M3 _]. split; [done|..].
  - intros j s. rewrite (ta_sink _ _ (Ht j)). apply M2.
  - intros j. specialize (M3 j). pose proof (ta_received _ _ (Ht j)). lia.
  - intros i u Hi. by rewrite Hu, lookup_empty in Hi.
Qed.

(** ** A block of the body *)

Lemma len_qleft n (d : bytes) : len (qleft n d) <= len d.
Proof.
  unfold qleft. destruct (_ || _); [lia|]. unfold len. rewrite length_take. lia.
Qed.
(** What the file of the connection holds after a write. *)
Lemma writeData_spec i d (w : World) :
  let w' := (writeData i d w).2 in
  w_conns w' = w_conns w /\ m_uploads w' = m_uploads w /\ m_transfer w' = m_transfer w
  /\ (forall j, j <> i -> w_files w' !! j = w_files w !! j)
  /\ (forall f, w_files w !! i = Some f -> exists f', w_files w' !! i = Some f'
        /\ len (h_hashed f') <= len (h_hashed f) + len d).
Proof.
  cbv zeta. pose proof (len_nonneg d) as Hd.
  assert (Hsame : forall f, w_files w !! i = Some f ->
    exists f', w_files w !! i = Some f' /\ len (h_hashed f') <= len (h_hashed f) + len d).
  { intros f Hf. exists f. split; [done|lia]. }
  unfold writeData. destruct (w_files w !! i) as [f|] eqn:Hf; [|split_and!; by auto].
  destruct (negb (h_open f)); [cbn [snd]; rewrite Hf; split_and!; by auto|]. cbv zeta.
  destruct (0 <? _); cbn [snd]; [|split_and!; try done; cbn; by rewrite Hf].
  split_and!; try done.
  - intros j Hj. cbn. by rewrite lookup_insert_ne.
  - intros g [= <-]. cbn. rewrite lookup_insert_eq. eexists. split; [reflexivity|]. cbn. rewrite len_app.
    pose proof (len_qleft (disk_accepts (disk_ops w) (h_path f) d) d). lia.
Qed.
(** A block that fits, written: the connection counts it or is answered. *)
Lemma metered_write i d c' (w : World) :
  m_state (the_conn i w) = ReadingBody -> m_sink (the_conn i w) = Some i ->
  fits d (the_conn i w) = true ->
  m_sink c' = Some i -> m_maxBodyBytes c' = m_maxBodyBytes (the_conn i w) ->
  m_bodyReceived (the_conn i w) <= m_bodyReceived c' ->
  (m_state c' <> Responded -> m_bodyReceived c' = m_bodyReceived (the_conn i w) + len d) ->
  metered w -> metered (put_conn i c' (writeData i d w).2).
Proof.
  intros Hst Hsk Hfit Hs' Hm' Hr' Ho' Hw. pose proof (fun u => agreed_nonneg u w Hw) as Hnn.
  destruct Hw as [M1 M2 M3 M4]. destruct (writeData_spec i d w) as (Wc & Wu & Wt & Wf & Wi).
  set (w1 := (writeData i d w).2) in *. clearbody w1.
  assert (Hc : forall j, the_conn j (put_conn i c' w1) = if decide (i = j) then c' else the_conn j w).
  { intros j. rewrite the_conn_put. case_decide; [done|]. unfold the_conn. by rewrite Wc. }
  assert (Hag : forall u, agreed u (put_conn i c' w1) = agreed u w).
  { intros u. apply agreed_sizes. cbn. by rewrite Wt. }
  split.
  - cbn. by rewrite Wt.
  - intros j s. rewrite Hc. case_decide as Hij; [|apply M2]. rewrite Hs'. intros [= <-]. done.
  - intros j. rewrite Hc. case_decide; [specialize (M3 i); lia|apply M3].
  - intros j u Hj. cbn in Hj. rewrite Wu in Hj. destruct (M4 j u Hj) as (f & Hf & [K1 K2 K3 K4]).
    destruct (decide (i = j)) as [<-|Hij].
    + destruct (Wi f Hf) as (f' & Hf' & Hlen). exists f'. split; [done|].
      unfold fits in Hfit. rewrite Hsk in Hfit. specialize (K4 ltac:(congruence)). specialize (Hnn u).
      rewrite K2 in Hfit.
      split; rewrite ?Hc, ?(decide_True _ _ (eq_refl i)), ?Hag; [done|congruence| |].
      * lia.
      * intros Hr. rewrite (Ho' Hr). lia.
    + exists f. split; [cbn; by rewrite Wf by done|].
      split; rewrite ?Hc, ?(decide_False _ _ Hij), ?Hag; done.
Qed.
Lemma metered_progress t i r (w : World) : metered w -> metered (onBodyProgress t i r w).
Proof.
  apply metered_eq; [|apply kept_onBodyProgress]. unfold onBodyProgress. by repeat case_match.
Qed.
Lemma metered_put i c (w : World) : tame (the_conn i w) c -> metered w -> metered (put_conn i c w).
Proof. intros Hc. apply metered_step; [by apply tame_put|by apply steady_eq]. Qed.
Lemma metered_counted t i d (w : World) :
  metered w ->
  metered (onBodyProgress t i (m_bodyReceived (the_conn i w))
             (upd i (HttpConnection.emit d) w)).
Proof. intros Hw. apply metered_progress. apply metered_put; [|done]. by split; [..|apply Z.le_refl|]. Qed.
Lemma metered_deliver t i d (w : World) :
  m_state (the_conn i w) = ReadingBody -> metered w -> metered (deliver t i d w).2.
Proof.
  intros Hst Hw. unfold deliver. cbv zeta. destruct (is_empty d); [done|].
  change (conn i w) with (the_conn i w). pose proof (len_nonneg d) as Hd.
  destruct (m_sink (the_conn i w)) as [s|] eqn:Es.
  - assert (s = i) as -> by exact (me_sink w Hw i s Es). destruct ((0 <=? _) && _) eqn:Ef; cbn [negb snd].
    { apply metered_put; [apply tame_fail|done]. }
    assert (Hfit : fits d (the_conn i w) = true) by (unfold fits; by rewrite Es, Ef).
    cbn [sink_write http_world]. destruct (writeData_spec i d w) as (Wc & _).
    pose proof (metered_write i d) as Hwrite.
    assert (Hi : the_conn i (writeData i d w).2 = the_conn i w) by (unfold the_conn; by rewrite Wc).
    destruct (writeData i d w) as [n w1] eqn:E.
    assert (Hw1 : forall c', m_sink c' = Some i -> m_maxBodyBytes c' = m_maxBodyBytes (the_conn i w) ->
      m_bodyReceived (the_conn i w) <= m_bodyReceived c' ->
      (m_state c' <> Responded -> m_bodyReceived c' = m_bodyReceived (the_conn i w) + len d) ->
      metered (put_conn i c' w1)).
    { intros c' ? ? ? ?. specialize (Hwrite c' w). rewrite E in Hwrite. by apply Hwrite. }
    cbn [snd] in Hi. clear Hwrite E Wc. destruct (n =? len d); cbn [negb snd].
    + apply (metered_counted t i _ (upd i (fun c => c <| m_bodyReceived ::= fun n => n + len d |>) w1)).
      apply Hw1; cbn [conn http_world]; rewrite Hi; cbn; [done|done|lia|done].
    + apply Hw1; cbn [conn http_world]; rewrite Hi; pose proof (tame_fail t 500 (the_conn i w)) as [T1 T2 T3 T4];
        [congruence|done|done|]. by rewrite fail_responded.
  - destruct (_ <? _); cbn [negb snd].
    { apply metered_put; [apply tame_fail|done]. }
    set (w1 := upd i (fun c => c <| m_body ::= _ |>) w).
    assert (Hw1 : metered w1) by (apply metered_put; [by split; [..|apply Z.le_refl|]|done]). clearbody w1.
    apply (metered_counted t i _ (upd i (fun c => c <| m_bodyReceived ::= fun n => n + len d |>) w1)).
    apply metered_put; [|done]. split; [done|done|cbn; lia|done].
Qed.

(** ** The request handlers *)

Lemma metered_answer t i st (w : World) : metered w -> metered (answer t i st w).
Proof. apply metered_put, tame_fail. Qed.
Lemma metered_transfer f (w : World) :
  sizes (f (m_transfer w)) = sizes (m_transfer w) -> metered w -> metered (transfer f w).
Proof. intros Hf. apply metered_eq; [done|by apply kept_transfer]. Qed.

(** An upload is opened: its connection is told the agreed size. *)
Lemma metered_open t i u (w w1 : World) :
  w_conns w1 = w_conns w -> m_uploads w1 = <[i := u]> (m_uploads w) ->
  w_files w1 = <[i := mkHashingFile (partPath u) [] true]> (w_files w) ->
  sizes (m_transfer w1) = sizes (m_transfer w) ->
  metered w -> metered (on_conn i (streamBodyTo t i (agreed u w1)) w1).
Proof.
  intros Wc Wu Wf Wt Hw. pose proof (agreed_nonneg u w Hw) as Hnn. rewrite <- (agreed_sizes u w w1 Wt) in Hnn.
  destruct Hw as [M1 M2 M3 M4].
  assert (Hsame : forall j, the_conn j w1 = the_conn j w) by (intros j; unfold the_conn; by rewrite Wc).
  assert (Hc : forall j, the_conn j (on_conn i (streamBodyTo t i (agreed u w1)) w1)
    = if decide (i = j) then streamBodyTo t i (agreed u w1) (the_conn i w) else the_conn j w).
  { intros j. unfold on_conn. rewrite the_conn_put. case_decide; by rewrite Hsame. }
  assert (Hs : m_sink (streamBodyTo t i (agreed u w1) (the_conn i w)) = Some i
    /\ m_maxBodyBytes (streamBodyTo t i (agreed u w1) (the_conn i w)) = agreed u w1
    /\ m_bodyReceived (the_conn i w) <= m_bodyReceived (streamBodyTo t i (agreed u w1) (the_conn i w))).
  { destruct (streamBodyTo_cases t i (agreed u w1) (the_conn i w)) as (c1 & Hc1 & ->).
    assert (Hc1' : m_sink c1 = Some i /\ m_maxBodyBytes c1 = agreed u w1
      /\ m_bodyReceived c1 = m_bodyReceived (the_conn i w)) by by rewrite Hc1.
    clear Hc1. destruct Hc1' as (E1 & E2 & E3). destruct (_ && _); [|split_and!; [done..|lia]].
    destruct (tame_fail t 413 c1) as [T1 T2 T3 _]. split_and!; [congruence..|lia]. }
  destruct Hs as (S1 & S2 & S3).
  assert (Hag : forall v, agreed v (on_conn i (streamBodyTo t i (agreed u w1)) w1) = agreed v w1)
    by (intros v; by apply agreed_sizes).
  split.
  - change (Forall (fun n => 0 <= n) (sizes (m_transfer w1))). by rewrite Wt.
  - intros j s. rewrite Hc. case_decide as Hij; [|apply M2]. rewrite S1. intros [= <-]. done.
  - intros j. rewrite Hc. case_decide as Hij; [specialize (M3 i); lia|apply M3].
  - intros j v Hj. change (m_uploads w1 !! j = Some v) in Hj. rewrite Wu in Hj.
    change (exists f, w_files w1 !! j = Some f
      /\ metered_upload j v f (on_conn i (streamBodyTo t i (agreed u w1)) w1)). rewrite Wf.
    apply lookup_insert_Some in Hj as [[<- <-]|[Hij Hj]].
    + rewrite lookup_insert_eq. eexists. split; [reflexivity|].
      split; rewrite ?Hc, ?(decide_True _ _ (eq_refl i)), ?Hag; [done|done|exact Hnn|].
      intros _. exact (Z.le_trans _ _ _ (M3 i) S3).
    + rewrite lookup_insert_ne by done. destruct (M4 j v Hj) as (f & Hf & [K1 K2 K3 K4]). exists f.
      split; [done|]. split; rewrite ?Hc, ?(decide_False _ _ Hij), ?Hag, ?(agreed_sizes v w w1 Wt); done.
Qed.
Lemma metered_uploadHeaders t i (w : World) : metered w -> metered (handleUploadHeaders t i w).
Proof.
  intros Hw. unfold handleUploadHeaders. cbv zeta.
  destruct (_ || _); [by apply metered_answer|].
  destruct (is_empty (m_sessionId w) || _); [by apply metered_answer|].
  destruct (_ || _); [by apply metered_answer|]. destruct (_ <? 0); [by apply metered_answer|].
  destruct (TransferModel.status_is _ _); [by apply metered_answer|].
  match goal with |- context [FileNames.reserveFilePath ?e ?d ?n] => set (final := FileNames.reserveFilePath e d n) end.
  destruct (is_empty final).
  { apply metered_answer, metered_transfer; [apply sizes_setFileStatus|done]. }
  cbn [partPath]. destruct (disk_open _ _); cbn [negb].
  2: { apply metered_answer, metered_transfer; [apply sizes_setFileStatus|]. by eapply metered_eq, Hw. }
  set (r := TransferModel.indexOfFile _ _).
  match goal with |- metered (on_conn i _ ?x) => set (w1 := x) end.
  apply (metered_open t i (mkUpload r (final ++ FileNames.PartSuffix) final) w w1); [done..| |done].
  apply sizes_setFileStatus.
Qed.
Lemma file_entry_size files key : 0 <= TransferModel.size (file_entry files key).
Proof. unfold file_entry. cbn. destruct (_ <? 0) eqn:E; lia. Qed.
Lemma sizes_begin t d a b c f files m : sizes (TransferModel.begin t d a b c f files m) = map TransferModel.size files.
Proof. reflexivity. Qed.
Lemma metered_prepare t i (w : World) :
  ReceiveFacts.service_ok ∅ w -> metered w -> metered (handlePrepareUpload t i w).
Proof.
  intros Hok Hw. pose proof (tame_touched t w _ (touched_prepare t i w)) as Ht. revert Ht.
  unfold handlePrepareUpload. destruct (ReceiveFacts.screen_frame t i w) as [_ Hv].
  pose proof (kept_screen t i w) as Hk.
  assert (Hw1 : metered (screen t i w).1).
  { eapply metered_step, Hw; [eapply tame_touched, touched_screen|by apply steady_eq]. }
  destruct (screen t i w) as [w1 [st|[[peer info] files]]]; cbn [fst snd] in *.
  { intros _. by apply metered_answer. }
  destruct Hv as [_ Hi]. assert (Hu : m_uploads w1 = ∅).
  { unfold kept in Hk. injection Hk as Hk _ _. rewrite Hk. by apply Hok. }
  cbv zeta. set (entries := map (file_entry files) (jkeys files)).
  match goal with |- context [set_field m_discovery ?f] => generalize f; intros register end.
  match goal with |- context [transfer (TransferModel.begin ?a ?b ?c ?d ?e ?f ?g)] =>
    pose proof (sizes_begin a b c d e f g) as Hsz; revert Hsz; generalize (TransferModel.begin a b c d e f g);
    intros begin Hsz end.
  match goal with |- all_tame w (if ?q then accept t ?x else ?y) -> _ => set (w2 := x) end.
  assert (Hk2 : m_uploads w2 = ∅ /\ Forall (fun n => 0 <= n) (sizes (m_transfer w2))).
  { split; [exact Hu|]. unfold w2. change (Forall (fun n => 0 <= n) (sizes (TransferModel.setState t TransferModel.Pending []
      (begin (m_transfer w1))))). rewrite sizes_setState, Hsz. apply Forall_map, Forall_map.
    apply Forall_true. intros key. apply file_entry_size. }
  destruct Hk2 as [Hu2 Hs2]. clearbody w2. destruct (AppSettings.quickSave _); intros Ht.
  - pose proof (kept_accept t w2) as Hka. unfold kept in Hka. injection Hka as Hka _ Hks.
    apply (metered_begin w); [done|by rewrite Hka|by rewrite Hks|done].
  - apply (metered_begin w); [done|exact Hu2|exact Hs2|done].
Qed.

(** ** Every event *)

(** A handler that answers at most, and leaves the uploads alone or ends them. *)
Lemma metered_touched t (w w' : World) : touched t w w' -> steady w w' -> metered w -> metered w'.
Proof. intros Ht. apply metered_step. by eapply tame_touched. Qed.
Lemma metered_finished t i (w : World) : metered w -> metered (handleUploadFinished t i w).
Proof. apply (metered_touched t); [apply touched_finished|apply steady_finished]. Qed.
Lemma metered_request_ready t i (w : World) :
  ReceiveFacts.service_ok ∅ w -> metered w -> metered (onRequestReady t i w).
Proof.
  intros Hok Hw. unfold onRequestReady. cbv zeta. destruct (_ || _).
  { eapply (metered_touched t), Hw; [apply touched_json|by apply steady_eq]. }
  destruct (qeq _ _).
  { unfold handleRegister. destruct (Discovery.registerPeer _ _ _ _) as [self d].
    assert (Hw1 : metered (w <| m_discovery := d |>)) by by eapply metered_eq, Hw.
    eapply (metered_touched t), Hw1; [apply touched_json|by apply steady_eq]. }
  destruct (qeq _ _); [by apply metered_prepare|]. destruct (qeq _ _); [by apply metered_finished|].
  destruct (qeq _ _); [|by apply metered_answer].
  eapply (metered_touched t), Hw; [apply touched_handleCancel|apply steady_handleCancel].
Qed.

Definition metered_service (w : World) : Prop := ReceiveFacts.service_ok ∅ w /\ metered w.
#[local] Instance service_framed : Framed (ReceiveFacts.service_ok ∅ (S := S)) :=
  ReceiveFacts.service_framed ∅ ReceiveFacts.no_probes.
#[export] Instance service_metered : Metered metered_service.
Proof.
  pose proof service_framed as [F1 F2 F3 F4 F5 F6]. split; cbn.
  - intros i c w Hc [Hok Hw]. split; [exact (F1 i c w Hok)|by apply metered_put].
  - intros t i d w Hs [Hok Hw]. split; [by apply (frame_deliver (ReceiveFacts.service_ok ∅))|by apply metered_deliver].
  - intros t i w [Hok Hw]. split; [exact (F3 t i w Hok)|].
    unfold onHeadersReady. destruct (qeq _ _); [by apply metered_uploadHeaders|done].
  - intros t i w [Hok Hw]. split; [exact (F4 t i w Hok)|by apply metered_request_ready].
  - intros t i w [Hok Hw]. split; [exact (F6 t i w Hok)|].
    eapply (metered_touched t), Hw; [apply touched_closed|apply steady_closed].
Qed.

Lemma metered_start l (w : World) : metered w -> metered (startListening l w).2.
Proof.
  apply metered_eq; unfold startListening; cbv zeta; by repeat case_match.
Qed.
Lemma metered_stopListening t (w : World) : metered w -> metered (stopListening t w).
Proof.
  intros Hw. unfold stopListening. destruct (negb _); [done|].
  assert (Hf : metered (finishSession t (lit "cancelled") w)).
  { eapply (metered_touched t), Hw; [apply touched_finish|apply steady_finish]. }
  by eapply metered_eq, Hf.
Qed.
Lemma metered_handle t (w : World) e : metered_service w -> metered (ReceiveService.handle t w e).
Proof.
  intros [Hok Hw].
  assert (Heq : forall w', touched t w w' -> steady w w' -> metered w').
  { intros w' Ht Hs. by eapply (metered_touched t), Hw. }
  destruct e; cbn [ReceiveService.handle].
  - destruct (w_conns w !! i) eqn:Hi; [done|]. apply metered_put; [|done]. unfold the_conn. rewrite Hi. by split.
  - destruct (w_conns w !! i); [|done]. by apply (meter_handle metered_service i w e).
  - apply Heq; [apply touched_accept|apply steady_eq, kept_accept].
  - apply Heq; [apply touched_decline|apply steady_eq, kept_decline].
  - apply Heq; [apply touched_cancel|apply steady_cancel].
  - case_match; [|done]. apply Heq; [apply touched_acceptTimeout|apply steady_eq, kept_onAcceptTimeout].
  - case_match; [|done]. apply Heq; [apply touched_idle|apply steady_onSessionIdle].
  - cbv zeta. match goal with |- context [onSettingsChanged t listened ?w'] => set (w1 := w') end.
    assert (Hw1 : metered w1) by by eapply metered_eq, Hw. clearbody w1.
    case_match; [done|]. unfold onSettingsChanged. destruct (negb _); [done|].
    by apply metered_start, metered_stopListening.
  - by eapply metered_eq, Hw.
  - case_match; [|done]. apply metered_transfer; [apply sizes_flushTimeout|done].
  - by apply metered_start.
  - by apply metered_stopListening.
Qed.
Lemma metered_run events : forall w : World, metered_service w -> metered_service (ReceiveFacts.run w events).
Proof.
  induction events as [|[t e] events IH]; intros w Hw; [done|]. apply IH. split.
  - apply ReceiveFacts.handle_ok; [apply ReceiveFacts.no_probes|apply Hw].
  - by apply metered_handle.
Qed.
Lemma metered_start_up discovery history files : metered_service (World0 discovery history files).
Proof.
  split; [apply ReceiveFacts.World0_ok, map_empty_subseteq|]. split; [constructor|done| |].
  - intros j. unfold the_conn. cbn. rewrite lookup_empty. cbn. lia.
  - intros i u Hi. cbn in Hi. by rewrite lookup_empty in Hi.
Qed.

(** C22: the whole service answers every request at most once, and takes no more
    of a file than was agreed to. Over any history - any interleaving of
    connections with the person's answers, the timers, the settings and the ends
    of sessions - each connection announces its headers, its request and its end
    at most once and writes at most the interim line and one response; and while
    an upload is open on it, it counts no more than the size announced for that
    row, and the part file on the disk holds no more bytes than that either,
    whatever part of a block a failing disk has taken. A body that is not a
    file's stays within [MaxBufferedBody]. *)
Theorem service_answers_once discovery history files events i :
  let w := ReceiveFacts.run (World0 discovery history files) events in
  let c := the_conn i w in
  (emissions headersReady c <= 1 /\ emissions requestReady c <= 1 /\ emissions closed c <= 1)%nat
  /\ answered_once (s_written c)
  /\ (forall u, m_uploads w !! i = Some u ->
        let size := TransferModel.size (TransferModel.entry (row u) (m_transfer w)) in
        m_bodyReceived c <= size
        /\ exists b, disk w !! partPath u = Some b /\ len b <= size)
  /\ (m_sink c = None -> len (m_body c) <= MaxBufferedBody).
Proof.
  cbv zeta. pose proof (service_conns_ok discovery history files events i) as Hok.
  pose proof (metered_run events _ (metered_start_up discovery history files)) as [Hs Hm].
  set (w := ReceiveFacts.run _ events) in *. clearbody w.
  split; [by apply conn_announces|]. split; [by apply conn_answered|]. split.
  - intros u Hu. destruct (me_upload w Hm i u Hu) as (f & Hf & [K1 K2 K3 _]). fold (agreed u w).
    split.
    + pose proof (co_account _ Hok) as [Ha _]. rewrite K1, K2 in Ha. apply Ha. by apply agreed_nonneg.
    + destruct (ReceiveFacts.so_file _ w (ReceiveFacts.sv_store _ w Hs) i f Hf) as (u' & Hu' & Hp).
      destruct (ReceiveFacts.so_hashed _ w (ReceiveFacts.sv_store _ w Hs) i f Hf) as [_ Hd].
      rewrite Hu in Hu'. injection Hu' as <-. exists (h_hashed f). split; [by rewrite <- Hp|exact K3].
  - intros Hn. pose proof (co_account _ Hok) as [Ha _]. rewrite Hn in Ha. apply Ha.
Qed.
End ReceiveSizes.
End ReceiveSizes.
