(* ===== verification/ReceiveChecks.v ===== *)
(** * ReceiveChecks: what a request and a file must pass

    The screening before a request is shown, and the verification before a
    received file is given its name. *)
From S2P Require Import Prelude Json Crypto Reference Protocol DeviceInfo SecureStore Certificate TlsClient.
From S2P Require Import KnownDevices AppSettings HistoryModel DeviceModel FileNames Network Discovery.
From S2P Require Import RateLimiter TransferModel TransferFacts HttpConnection HttpFrame HttpServer ReceiveService ReceiveFacts.
Import DeviceInfo TransferFacts HttpConnection ReceiveService.

Module ReceiveChecks.

#[local] Existing Instances AppSettings.eta_AppSettings Discovery.eta_Discovery TransferModel.eta_FileEntry
  TransferModel.eta_TransferModel.

Section ReceiveChecks.
Context `{OpenSSL, QtText, QHashOrder, Platform, JsonText, X509, AppPaths, SettingsHost, UrlText, HttpText, Disk}.
Context {S : Type} `{StoredFiles S}.
#[local] Abbreviation World := (World (S := S)).

(** ** Screening *)

(** What the request on connection [i] claims. *)
Definition claimed_info (i : Z) (w : World) : jobject := jobj (jvalue (lit "info") (jsonBody (the_conn i w))).
Definition claimed_files (i : Z) (w : World) : jobject := jobj (jvalue (lit "files") (jsonBody (the_conn i w))).
Definition claimed_key (i : Z) (w : World) : qstring := fingerprint (fromPayload (claimed_info i w)).
(** A request fit to be shown. *)
Record presentable (t i : Z) (w : World) : Prop := {
  pr_receiving : AppSettings.receiveEnabled (m_settings w) = true;
  pr_free : m_pending w = None /\ m_sessionId w = [];
  pr_pace : RateLimiter.allow t (m_peerAddress (the_conn i w)) (m_pinAttempts w) = true;
  pr_pin : AppSettings.checkPin (query (lit "pin") (the_conn i w)) (m_settings w) = true;
  pr_content : claimed_info i w <> [] /\ 0 < len (claimed_files i w) <= MaxFilesPerSession;
  pr_key der : m_peerCertificate (the_conn i w) = Some der ->
    Crypto.equalsFold (Crypto.sha256Hex der) (claimed_key i w) = true;
  pr_unblocked kd : m_known w = Some kd -> KnownDevices.isBlocked (claimed_key i w) kd = false
}.

(** Only the limiter moves, or a header is added to the refusal. *)
Definition untouched (i : Z) (w w' : World) : Prop :=
  emitted w' = emitted w /\ m_pending w' = m_pending w /\ m_sessionId w' = m_sessionId w
  /\ m_transfer w' = m_transfer w /\ m_discovery w' = m_discovery w /\ disk w' = disk w.
Lemma screen_untouched t i w : untouched i w (screen t i w).1.
Proof. unfold screen. cbv zeta. repeat case_match; by split_and!. Qed.

(** While a PIN can be tried, screening a request is one attempt at it, made by
    the address of the connection: [RateLimiter.guess_rate_bounded] is about
    these. *)
Lemma screen_is_attempt t i (w : World) :
  AppSettings.receiveEnabled (m_settings w) = true -> m_pending w = None -> m_sessionId w = [] ->
  m_pinAttempts (screen t i w).1
  = RateLimiter.attempt_step (m_pinAttempts w)
      (RateLimiter.mkAttempt t (m_peerAddress (the_conn i w))
         (AppSettings.checkPin (query (lit "pin") (the_conn i w)) (m_settings w))).
Proof.
  intros Hr Hp Hs. unfold screen, RateLimiter.attempt_step, RateLimiter.let_through. cbv zeta. cbn.
  rewrite Hr, Hp, Hs. cbn [negb is_empty orb]. rewrite bool_decide_eq_false_2 by by intros [? ?].
  destruct (RateLimiter.allow _ _ _); [|done]. cbn [negb]. destruct (AppSettings.checkPin _ _); [|done].
  cbn [negb]. by repeat case_match.
Qed.

Lemma len_pos_ne {A} (l : list A) : l <> [] -> 0 < len l.
Proof. destruct l; [done|]. intros _. rewrite len_cons. pose proof (len_nonneg l). lia. Qed.
#[local] Ltac refused :=
  split; [done|]; intros ? [= <-]; split; [intros [? [? ?] ? ? [? Hlen] Hkey Hblock]|set_solver].
Lemma screen_passes t i w :
  (forall x, (screen t i w).2 = inr x ->
     presentable t i w
     /\ x = ((fromPayload (claimed_info i w)) <| address := m_peerAddress (the_conn i w) |>,
             claimed_info i w, claimed_files i w))
  /\ (forall st, (screen t i w).2 = inl st -> ~ presentable t i w /\ st ∈ [403; 409; 429; 401; 400; 204]).
Proof.
  unfold screen. cbv zeta. fold (claimed_info i w) (claimed_files i w).
  destruct (AppSettings.receiveEnabled _) eqn:E1; cbn [negb snd]; [|refused; congruence].
  destruct (bool_decide _ || _) eqn:E2; cbn [snd].
  { refused. apply orb_true_iff in E2 as [E2|E2].
    - apply bool_decide_eq_true in E2 as [? ?]. congruence.
    - apply negb_true_iff, is_empty_false in E2. congruence. }
  apply orb_false_iff in E2 as [E2 E2']. apply bool_decide_eq_false, eq_None_not_Some in E2.
  apply negb_false_iff, is_empty_spec in E2'.
  destruct (RateLimiter.allow _ _ _) eqn:E3; cbn [negb snd]; [|refused; congruence].
  destruct (AppSettings.checkPin _ _) eqn:E4; cbn [negb snd]; [|refused; congruence].
  destruct (is_empty (claimed_info i w)) eqn:E5; cbn [snd].
  { refused. apply is_empty_spec in E5. congruence. }
  destruct (is_empty (claimed_files i w)) eqn:E6; cbn [snd].
  { refused. apply is_empty_spec in E6. rewrite E6 in Hlen. by destruct Hlen. }
  destruct (Z.ltb_spec MaxFilesPerSession (len (claimed_files i w))); cbn [snd]; [refused; lia|].
  match goal with |- context [fingerprint (?p <| address := ?a |>)] =>
    change (fingerprint (p <| address := a |>)) with (claimed_key i w) end.
  set (impostor := match m_peerCertificate (the_conn i w) with Some _ => _ | None => false end).
  destruct impostor eqn:E7; subst impostor; cbn [snd].
  { refused. destruct (m_peerCertificate _) as [der|]; [|done].
    apply negb_true_iff in E7. cbn [Certificate.fingerprintOf] in E7. rewrite Hkey in E7; done. }
  match goal with |- context [match m_known ?w' with Some _ => _ | None => _ end] =>
    change (m_known w') with (m_known w) end.
  destruct (match m_known w with Some kd => KnownDevices.isBlocked (claimed_key i w) kd | None => false end) eqn:E8;
    cbn [snd].
  { refused. destruct (m_known w) as [kd|]; [|done]. by rewrite Hblock in E8. }
  split; [|done]. intros x [= <-]. split; [|done]. apply is_empty_false in E5, E6.
  split; try done; [split; [done|split; [by apply len_pos_ne|done]]|..].
  - intros der Hd. rewrite Hd in E7. by apply negb_false_iff in E7.
  - intros kd Hk. by rewrite Hk in E8.
Qed.

(** C3: what reaches the person has been screened. A request is put on screen - or
    accepted, under quick save - exactly when receiving is on, nothing else is
    pending or running, the address is not being slowed down, the PIN is right,
    there is a sender and between 1 and [MaxFilesPerSession] files, the fingerprint
    claimed is that of the certificate presented, if one was, and that key is not
    blocked. Any other request is answered with one of six refusals, and moves
    neither the transfer, the device list nor the disk, and raises no prompt. *)
Theorem request_is_screened t i w :
  let w' := handlePrepareUpload t i w in
  (~ presentable t i w -> untouched i w w'
     /\ exists status c, status ∈ [403; 409; 429; 401; 400; 204] /\ the_conn i w' = respond_ t status c)
  /\ (presentable t i w -> AppSettings.quickSave (m_settings w) = false ->
       m_pending w' = Some i /\ m_sessionId w' = []
       /\ TransferModel.m_state (m_transfer w') = TransferModel.Pending
       /\ exists total, emitted w' = requestArrived (alias (fromPayload (claimed_info i w)))
                                       (len (jkeys (claimed_files i w))) total :: emitted w).
Proof.
  cbv zeta. unfold handlePrepareUpload.
  pose proof (screen_untouched t i w) as Hun. pose proof (screen_passes t i w) as [Hpass Hrefuse].
  destruct (screen t i w) as [w1 [st|[[peer info] files]]]; cbn [fst snd] in *.
  { destruct (Hrefuse st eq_refl) as [Hno Hst]. split; [|done]. intros _. split; [exact Hun|].
    exists st, (the_conn i w1). split; [done|]. unfold answer, on_conn, the_conn at 1, put_conn. cbn.
    by rewrite lookup_insert_eq. }
  destruct (Hpass _ eq_refl) as [Hyes [= -> -> ->]]. split; [done|]. intros _ Hq. cbv zeta.
  destruct Hun as (He & Hp & Hs & _ & Hd & _).
  match goal with |- context [transfer (TransferModel.begin ?a ?b ?c ?d ?e ?f ?g)] =>
    generalize (TransferModel.begin a b c d e f g); intros begin end.
  match goal with |- context [set_field m_discovery ?f] =>
    assert (Hreg : forall d, Discovery.m_settings (f d) = Discovery.m_settings d)
      by (intros d; apply ReceiveFacts.registerPeer_settings);
    generalize dependent f; intros register Hreg end.
  match goal with |- context [AppSettings.quickSave ?x] => assert (Hx : x = m_settings w) end.
  { unfold m_settings at 2. rewrite <- Hd. apply Hreg. }
  rewrite Hx, Hq. split; [done|]. split; [by rewrite <- (proj2 (pr_free _ _ _ Hyes)), <- Hs|]. split.
  - apply setState_state.
  - eexists. rewrite <- He. unfold len. by rewrite <- (length_map (file_entry (claimed_files i w))).
Qed.

(** ** Verification *)


(** The end of a session leaves a settled row that no upload writes. *)
Definition unwritten (r : Z) (w : World) : Prop := forall j v, m_uploads w !! j = Some v -> row v <> r.
Lemma stop_uploads_row t r l (w : World) :
  0 <= r -> ReceiveFacts.store_ok ∅ w -> unwritten r w ->
  row_status r (m_transfer (foldl (stop_upload t) w l)) = row_status r (m_transfer w).
Proof.
  intros Hr. revert w. induction l as [|j l IH]; intros w Hok Hun; [done|]. cbn [foldl].
  destruct (ReceiveFacts.stop_upload_spec ∅ t j w Hok) as (Hok' & Hu & _). rewrite IH; [|done|].
  - destruct (ReceiveFacts.closeUpload_spec ∅ j w Hok) as (_ & _ & _ & Ht). unfold stop_upload. cbv zeta.
    transitivity (row_status r (TransferModel.setFileStatus t (default (-1) (row <$> m_uploads w !! j))
      TransferModel.FileFailed (lit "Transfer stopped") (m_transfer (closeUpload j false w)))); [done|].
    rewrite setFileStatus_row, Ht by done. rewrite bool_decide_false, andb_false_r; [done|].
    destruct (m_uploads w !! j) as [v|] eqn:Hv; cbn; [by eapply Hun|lia].
  - intros k v. rewrite Hu. intros [_ Hk]%lookup_delete_Some. by eapply Hun.
Qed.
Lemma finish_row t status r st (w : World) :
  0 <= r -> ReceiveFacts.service_ok ∅ w -> m_sessionId w <> [] -> unwritten r w ->
  row_status r (m_transfer w) = Some st -> ReceiveFacts.settle st = st ->
  row_status r (m_transfer (finishSession t status w)) = Some st.
Proof.
  intros Hr Hok Hi Hun Hst Hset. rewrite ReceiveFacts.finishSession_eq, (proj2 (is_empty_false _) Hi). cbn [andb].
  assert (Hs : row_status r (m_transfer (ReceiveFacts.stopped t w)) = Some st).
  { rewrite <- Hst. unfold ReceiveFacts.stopped. cbv zeta.
    set (w0 := w <| m_idleTimer ::= stop |> <| m_acceptTimer ::= stop |>).
    transitivity (row_status r (m_transfer (stop_uploads t w0))).
    - destruct (m_pending _) as [p|]; [|done]. unfold releasePending. by destruct (m_pending _).
    - apply (stop_uploads_row t r _ w0 Hr); [|exact Hun]. eapply ReceiveFacts.store_ok_eq, Hok. reflexivity. }
  set (w1 := ReceiveFacts.stopped t w) in *. clearbody w1.
  assert (Hm : m_transfer (ReceiveFacts.wind_up t status w1) = final_state t status (skip_rows t (m_transfer w1))).
  { unfold ReceiveFacts.wind_up. cbv zeta. repeat case_match; done. }
  rewrite Hm, (row_status_files r _ _ (ReceiveFacts.final_state_files _ _ _)).
  unfold row_status in *. rewrite ReceiveFacts.skip_rows_statuses, list_lookup_fmap, Hs. cbn. by rewrite Hset.
Qed.
Lemma finish_keeps t status p b (w : World) :
  ReceiveFacts.service_ok ∅ w -> disk w !! p = Some b ->
  (forall j v, m_uploads w !! j = Some v -> partPath v <> p) ->
  disk (finishSession t status w) !! p = Some b.
Proof.
  intros Hok Hp Hun.
  destruct (ReceiveFacts.finish_ends {[p := b]} t status w (ReceiveFacts.settled_file_kept p b w Hok Hp Hun)) as [Hok' _].
  apply (map_singleton_subseteq_l p b), Hok'.
Qed.
Lemma closeHashingFile_lookup i p (w : World) :
  disk (closeHashingFile i w) !! p = None <-> disk w !! p = None.
Proof.
  unfold closeHashingFile. destruct (w_files w !! i) as [f|]; [|done]. destruct (negb (h_open f)); [done|].
  cbn -[alter]. destruct (decide (h_path f = p)) as [<-|Hn].
  - rewrite lookup_alter_eq. by destruct (disk w !! h_path f).
  - by rewrite lookup_alter_ne.
Qed.
Lemma stop_uploads_absent t p l (w : World) :
  disk w !! p = None -> disk (foldl (stop_upload t) w l) !! p = None.
Proof.
  revert w. induction l as [|j l IH]; intros w Hp; [done|]. cbn [foldl]. apply IH.
  change (disk (closeUpload j false w) !! p = None). unfold closeUpload. destruct (m_uploads w !! j) as [v|]; [|done].
  cbn -[delete]. apply lookup_delete_None. right. by apply closeHashingFile_lookup.
Qed.
Lemma finish_absent t status p (w : World) : disk w !! p = None -> disk (finishSession t status w) !! p = None.
Proof.
  intros Hp. rewrite ReceiveFacts.finishSession_eq.
  assert (Hs : disk (ReceiveFacts.stopped t w) !! p = None).
  { unfold ReceiveFacts.stopped. cbv zeta. set (w0 := w <| m_idleTimer ::= stop |> <| m_acceptTimer ::= stop |>).
    transitivity (disk (stop_uploads t w0) !! p); [|by apply stop_uploads_absent].
    destruct (m_pending _) as [q|]; [|done]. unfold releasePending. by destruct (m_pending _). }
  destruct (_ && _); [done|]. destruct (is_empty _); [exact Hs|].
  rewrite <- Hs. unfold ReceiveFacts.wind_up. cbv zeta. repeat case_match; done.
Qed.

(** What is in the file of upload [i] once it is closed, and what its digest is. *)
Definition arrived (i : Z) (u : Upload) (w : World) : bytes := default [] (disk (closeHashingFile i w) !! partPath u).
Definition observed_digest (i : Z) (w : World) : qstring :=
  digest (default (mkHashingFile [] [] false) (w_files w !! i)).
(** The file is all there, and is the file that was announced. *)
Definition intact (i : Z) (u : Upload) (w : World) : Prop :=
  let entry := TransferModel.entry (row u) (m_transfer w) in
  TransferModel.size entry <= len (arrived i u w)
  /\ (FileNames.looksLikeSha256 (TransferModel.sha256 entry) = true ->
      Crypto.equalsFold (observed_digest i w) (TransferModel.sha256 entry) = true).

(** The world in which an upload's file is judged. *)
Definition judged (i : Z) (w : World) : World := closeHashingFile i (dropUpload i w).
Lemma judged_spec i u (w : World) :
  ReceiveFacts.service_ok ∅ w -> m_uploads w !! i = Some u ->
  disk (judged i w) !! partPath u = Some (arrived i u w)
  /\ digest (default (mkHashingFile [] [] false) (w_files (judged i w) !! i)) = observed_digest i w
  /\ m_transfer (judged i w) = m_transfer w /\ m_uploads (judged i w) = delete i (m_uploads w).
Proof.
  intros Hok Hi. destruct (ReceiveFacts.so_upload ∅ w (ReceiveFacts.sv_store ∅ w Hok) i u Hi) as [[f Hf] Hthere _ _ _].
  assert (Hd : disk (judged i w) = disk (closeHashingFile i w)).
  { unfold judged, closeHashingFile. cbn. rewrite Hf. by destruct (negb (h_open f)). }
  split_and!.
  - rewrite Hd. unfold arrived. destruct (disk (closeHashingFile i w) !! partPath u) eqn:E; [done|].
    apply closeHashingFile_lookup in E. rewrite E in Hthere. by destruct Hthere.
  - unfold judged, closeHashingFile, observed_digest, digest. cbn. rewrite Hf.
    destruct (negb (h_open f)); cbn; rewrite ?Hf, ?lookup_insert_eq; done.
  - exact (proj2 (proj2 (ReceiveFacts.closeHashingFile_frame i (dropUpload i w)))).
  - unfold judged. by rewrite (proj1 (proj2 (ReceiveFacts.closeHashingFile_frame i (dropUpload i w)))).
Qed.
(** What an open upload writes is under nobody else's part name. *)
Lemma others_elsewhere i u (w : World) p :
  ReceiveFacts.service_ok ∅ w -> m_uploads w !! i = Some u ->
  p = partPath u \/ disk w !! p = None ->
  forall j v, delete i (m_uploads w) !! j = Some v -> partPath v <> p.
Proof.
  intros Hok Hi Hp j v [Hn Hj]%lookup_delete_Some Hv. subst. destruct (ReceiveFacts.sv_store _ _ Hok) as [Ho Hd _ _].
  destruct Hp as [Hp|Hp].
  - apply Hn. symmetry. by eapply Hd.
  - destruct (Ho j v Hj) as [_ Hthere _ _ _]. rewrite Hp in Hthere. by destruct Hthere.
Qed.
Lemma settle_file_spec t i u (w : World) :
  ReceiveFacts.service_ok ∅ w -> m_uploads w !! i = Some u -> 0 <= row u ->
  TransferModel.in_rows (row u) (m_transfer w) = true ->
  let w1 := ReceiveFacts.settle_file t i u (judged i w) in
  (intact i u w -> row_status (row u) (m_transfer w1) = Some TransferModel.FileDone
     /\ exists p, (p = finalPath u \/ p = partPath u) /\ disk w1 !! p = Some (arrived i u w)
        /\ forall j v, m_uploads w1 !! j = Some v -> partPath v <> p)
  /\ (~ intact i u w -> row_status (row u) (m_transfer w1) = Some TransferModel.FileFailed
        /\ disk w1 !! partPath u = None).
Proof.
  intros Hok Hi Hrow Hin. cbv zeta. destruct (judged_spec i u w Hok Hi) as (Jd & Jh & Jt & Ju).
  unfold ReceiveFacts.settle_file, intact. cbv zeta. rewrite Jd, Jh, Jt. cbn [default from_option].
  unfold id. set (entry := TransferModel.entry (row u) (m_transfer w)).
  assert (Hfail : forall why, row_status (row u) (TransferModel.setFileStatus t (row u) TransferModel.FileFailed why (m_transfer w))
                              = Some TransferModel.FileFailed).
  { intros why. rewrite setFileStatus_row by done. by rewrite Hin, bool_decide_true. }
  assert (Hgone : disk (remove_file (partPath u) (judged i w)) !! partPath u = None) by (cbn; apply lookup_delete_eq).
  destruct (Z.leb_spec (TransferModel.size entry) (len (arrived i u w))) as [Hc|Hc]; cbn [negb andb].
  2: { split; [lia|]. intros _. split; [rewrite <- (Hfail (lit "Transfer was cut short")), <- Jt|]; [reflexivity|exact Hgone]. }
  match goal with |- context [negb (if ?b then ?x else ?y)] => destruct (if b then x else y) eqn:Em end; cbn [negb].
  2: { split.
    - intros [_ Hm]. destruct (FileNames.looksLikeSha256 _); [|done]. rewrite Hm in Em; done.
    - intros _. split; [rewrite <- (Hfail (lit "The file arrived damaged")), <- Jt; reflexivity|exact Hgone]. }
  split.
  2: { intros Hno. exfalso. apply Hno. split; [done|]. intros Hl. by rewrite Hl in Em. }
  intros _. clear Em Hgone Hfail.
  assert (Hdone : forall p m, TransferModel.in_rows (row u) m = true ->
    row_status (row u) (TransferModel.setFileStatus t (row u) TransferModel.FileDone [] (TransferModel.setFileLocalPath (row u) p m))
    = Some TransferModel.FileDone).
  { intros p m Hm. rewrite setFileStatus_row by done. rewrite bool_decide_true by done.
    unfold TransferModel.setFileLocalPath. rewrite Hm. cbn [negb].
    assert (TransferModel.in_rows (row u) (TransferModel.touch (row u)
      (TransferModel.update_row (row u) (fun e => e <| TransferModel.localPath := p |>) m)) = true) as ->; [|done].
    unfold TransferModel.in_rows, TransferModel.fileCount, len. rewrite touch_files. cbn.
    rewrite length_alter. exact Hm. }
  rewrite <- Jt in Hin. destruct (file_exists _ (finalPath u)) eqn:Ef; cbn [negb andb].
  { split; [apply (Hdone (partPath u)), Hin|]. exists (partPath u). split; [by right|]. split; [exact Jd|].
    cbn. rewrite Ju. apply (others_elsewhere i u w (partPath u) Hok Hi). by left. }
  destruct (disk_rename _ _ _).
  - split; [apply (Hdone (finalPath u)), Hin|]. exists (finalPath u). split; [by left|]. split.
    + cbn -[delete]. rewrite lookup_insert_eq. rewrite Jd. done.
    + cbn. rewrite Ju. apply (others_elsewhere i u w (finalPath u) Hok Hi). right.
      apply ReceiveFacts.file_absent in Ef. exact (proj1 (closeHashingFile_lookup i _ (dropUpload i w)) Ef).
  - split; [apply (Hdone (partPath u)), Hin|]. exists (partPath u). split; [by right|]. split; [exact Jd|].
    cbn. rewrite Ju. apply (others_elsewhere i u w (partPath u) Hok Hi). by left.
Qed.

(** On a disk that keeps what it takes, the digest is that of the file. *)
Lemma digest_of_arrived i u (w : World) :
  ReceiveFacts.service_ok ∅ w -> m_uploads w !! i = Some u -> (forall n p d, disk_keeps n p d = d) ->
  observed_digest i w = to_hex (sha256 (arrived i u w)).
Proof.
  intros Hok Hi Hkeeps. destruct (ReceiveFacts.sv_store ∅ w Hok) as [Ho _ Hf Hh _].
  destruct (Ho i u Hi) as [[f Hfile] _ _ _ _]. destruct (Hf i f Hfile) as (v & Hv & Hpath).
  replace v with u in * by congruence. destruct (Hh i f Hfile) as [Hopen Hc].
  unfold observed_digest, arrived, closeHashingFile. rewrite Hfile, Hopen. cbn -[alter].
  rewrite Hpath, lookup_alter_eq, <- Hpath, Hc. cbn. by rewrite Hkeeps.
Qed.
(** C1: done means delivered. When the body of an upload is in, its row becomes done
    exactly if the file on the disk has at least the size that was announced and,
    where a SHA-256 was announced, the digest taken while writing equals it; the file
    then stands under the name reserved for it, or under its part name, with exactly
    the contents that arrived. Otherwise the row has failed and the part file is
    gone. On a disk that keeps what it takes, that digest is the one of the contents
    on the disk. This holds through the end of the session too, unless another connection
    is writing the same row. *)
Theorem done_means_delivered t i u (w : World) :
  ReceiveFacts.service_ok ∅ w -> m_uploads w !! i = Some u ->
  TransferModel.in_rows (row u) (m_transfer w) = true ->
  (forall j v, m_uploads w !! j = Some v -> j <> i -> row v <> row u) ->
  let w' := handleUploadFinished t i w in
  (intact i u w -> row_status (row u) (m_transfer w') = Some TransferModel.FileDone
     /\ exists p, (p = finalPath u \/ p = partPath u) /\ disk w' !! p = Some (arrived i u w))
  /\ (~ intact i u w -> row_status (row u) (m_transfer w') = Some TransferModel.FileFailed
        /\ disk w' !! partPath u = None)
  /\ ((forall n p d, disk_keeps n p d = d) -> observed_digest i w = to_hex (sha256 (arrived i u w))).
Proof.
  intros Hok Hi Hin Hrows. cbv zeta. apply Logic.and_assoc. split; [|by apply digest_of_arrived].
  assert (Hrow : 0 <= row u) by by apply TransferModel.in_rows_spec in Hin as [? _].
  pose proof (settle_file_spec t i u w Hok Hi Hrow Hin) as Hsettle. cbv zeta in Hsettle.
  rewrite ReceiveFacts.handleUploadFinished_eq, Hi. fold (judged i w). cbv zeta.
  pose proof (ReceiveFacts.upload_session ∅ i u w Hok Hi) as Hsess.
  destruct (ReceiveFacts.forget_ok ∅ i u w (dropUpload i w) (ReceiveFacts.sv_store ∅ w Hok) Hi eq_refl) as [Hs Hun].
  fold (judged i w) in Hs, Hun.
  destruct (ReceiveFacts.settle_file_ok ∅ t i u (judged i w) Hs Hun) as (Hs' & Hr & Hu).
  destruct (ReceiveFacts.closeHashingFile_frame i (dropUpload i w)) as (Hr' & _).
  destruct (ReceiveFacts.rest_fields _ _ (eq_trans Hr Hr')) as (Ei & Ep & _).
  destruct (judged_spec i u w Hok Hi) as (_ & _ & _ & Ju).
  set (w0 := ReceiveFacts.settle_file t i u (judged i w)) in *. set (w1 := w0 <| m_idleTimer ::= start t |>).
  assert (Hok1 : ReceiveFacts.service_ok ∅ w1).
  { apply (ReceiveFacts.ended_ok ∅ w); [done|done|by eapply ReceiveFacts.store_ok_eq, Hs'|exact Ei|exact Ep|by eexists]. }
  assert (Hsess1 : m_sessionId w1 <> []) by (intros Hn; apply Hsess; rewrite <- Hn; symmetry; exact Ei).
  assert (Hun1 : unwritten (row u) w1).
  { intros j v Hj. change (m_uploads w0 !! j = Some v) in Hj. rewrite Hu, Ju in Hj.
    apply lookup_delete_Some in Hj as [Hn Hj]. apply (Hrows j v Hj). congruence. }
  change (m_transfer w0) with (m_transfer w1) in Hsettle. change (disk w0) with (disk w1) in Hsettle.
  change (m_uploads w0) with (m_uploads w1) in Hsettle. clearbody w1. clear -Hrow Hsettle Hok1 Hsess1 Hun1.
  destruct (all_settled w1).
  2: { split; intros Hg; [|by apply Hsettle]. destruct (proj1 Hsettle Hg) as (? & p & ? & ? & _). eauto. }
  split; intros Hg.
  - destruct (proj1 Hsettle Hg) as (Hd & p & Hp & Hf & Hother). split; [by apply finish_row|].
    exists p. split; [done|]. by apply finish_keeps.
  - destruct (proj2 Hsettle Hg) as (Hd & Hf). split; [by apply finish_row|by apply finish_absent].
Qed.
End ReceiveChecks.
End ReceiveChecks.
