(* ===== verification/Handover.v ===== *)
(** * Handover: one device's SendService facing another's ReceiveService

    The request the sender posts is the one the receiver lists: the two ends of
    the protocol composed over the body of /prepare-upload. *)
From S2P Require Import Prelude Json Crypto Reference Protocol DeviceInfo SecureStore Certificate TlsClient.
From S2P Require Import KnownDevices AppSettings HistoryModel SelectionModel DeviceModel FileNames Network Discovery.
From S2P Require Import RateLimiter TransferModel TransferFacts HttpConnection HttpServer.
From S2P Require Import SendService ReceiveService ReceiveChecks.
Import DeviceInfo TransferFacts.

Module Handover.

#[local] Existing Instances AppSettings.eta_AppSettings TransferModel.eta_FileEntry TransferModel.eta_TransferModel.

(** ** The ids *)

Lemma number_inj i j : 0 <= i -> 0 <= j -> number i = number j -> i = j.
Proof. intros _ _ Hn%lit_inj. by apply (inj pretty) in Hn. Qed.
Lemma number_digits i : 0 <= i -> Forall (fun c => 48 <= c <= 57) (number i).
Proof. intros Hi. rewrite <- (Z2Nat.id i) by done. apply number_nat_digits. Qed.
Lemma delimited_inj (a b x y : qstring) :
  Forall (fun c => 48 <= c <= 57) a -> Forall (fun c => 48 <= c <= 57) b ->
  a ++ 45 :: x = b ++ 45 :: y -> a = b.
Proof.
  revert b. induction a as [|c a IH]; intros [|d b] Ha Hb; cbn; try done.
  - intros [= <- _]. apply Forall_cons in Hb as [? _]. lia.
  - intros [= -> _]. apply Forall_cons in Ha as [? _]. lia.
  - intros [= <- Heq]. apply Forall_cons in Ha as [_ Ha], Hb as [_ Hb]. f_equal. by apply IH.
Qed.
Lemma valid_low s : Forall (fun c => 0 <= c < 128) s -> valid_utf16 s = true.
Proof.
  induction 1 as [|c s Hc _ IH]; [done|]. cbn. rewrite (proj2 (Z.leb_gt 55296 c)) by lia. cbn [andb].
  rewrite (proj2 (Z.leb_gt 56320 c)) by lia. done.
Qed.

Section Handover.
Context `{OpenSSL, QtText, QHashOrder, Platform, JsonText, X509, AppPaths, SettingsHost, UrlText, HttpText}.
Context `{LocalFiles, OpenFiles, Disk}.
Context {S : Type} `{StoredFiles S}.

Lemma token_hex p : Forall (fun c => 48 <= c <= 102) (Protocol.generateToken p).1.
Proof.
  destruct (proj1 (Protocol.generators_spec [] p)) as [->|[_ Ht]]; [constructor|].
  eapply Forall_impl; [exact Ht|]. unfold Crypto.is_lower_hex. cbn. lia.
Qed.

(** A local file another device can be told about. *)
Record tellable (path : qstring) : Prop := {
  te_name : info_fileName path <> [] /\ valid_utf16 (info_fileName path) = true;
  te_size : 0 <= info_size path <= 2 ^ 53;
  te_type : clean 128 (mime_type path) /\ valid_utf16 (mime_type path) = true
}.
(** A row as [sendFiles] makes it of the [i]-th path. *)
Record picked_row (i : Z) (e : TransferModel.FileEntry) : Prop := {
  pk_id : exists token, TransferModel.id e = number i ++ 45 :: token /\ Forall (fun c => 48 <= c <= 102) token;
  pk_name : TransferModel.fileName e <> [] /\ valid_utf16 (TransferModel.fileName e) = true;
  pk_size : 0 <= TransferModel.size e <= 2 ^ 53;
  pk_type : clean 128 (TransferModel.fileType e) /\ valid_utf16 (TransferModel.fileType e) = true
}.
Definition rows_below (n : Z) (l : list TransferModel.FileEntry) : Prop :=
  Forall (fun e => exists i, 0 <= i < n /\ picked_row i e) l /\ NoDup (map TransferModel.id l).

Lemma picked_row_id i j e f : 0 <= i -> 0 <= j -> picked_row i e -> picked_row j f -> TransferModel.id e = TransferModel.id f -> i = j.
Proof.
  intros Hi Hj [(x & Hx & _) _ _ _] [(y & Hy & _) _ _ _] Heq. rewrite Hx, Hy in Heq.
  apply delimited_inj in Heq; [|by apply number_digits..]. by apply number_inj.
Qed.
Lemma pick_entry_rows i p l pathOrUrl :
  0 <= i -> (is_readable_file (SendService.localPathOf pathOrUrl) = true -> tellable (SendService.localPathOf pathOrUrl)) ->
  rows_below i l ->
  let '(i', _, l') := SendService.pick_entry (i, p, l) pathOrUrl in i' = i + 1 /\ rows_below i' l'.
Proof.
  intros Hi Ht [Hl Hd]. unfold SendService.pick_entry.
  assert (Hweak : Forall (fun e => exists j, 0 <= j < i + 1 /\ picked_row j e) l).
  { eapply Forall_impl; [exact Hl|]. intros e (j & ? & ?). exists j. split; [lia|done]. }
  destruct (is_readable_file _) eqn:Er; cbn [negb]; [|by split].
  specialize (Ht eq_refl). pose proof (token_hex p) as Htok.
  destruct (Protocol.generateToken p) as [token p']. cbn [fst] in Htok. split; [done|].
  match goal with |- rows_below _ (l ++ [?e]) => assert (He : picked_row i e) end.
  { destruct Ht. split; [|done..]. eexists. split; [reflexivity|].
    unfold qleft. destruct (_ || _); [done|]. by apply Forall_take. }
  split.
  - apply Forall_app. split; [done|]. constructor; [|constructor]. exists i. split; [lia|done].
  - rewrite map_app. apply NoDup_app. split_and!; [done| |apply NoDup_singleton].
    intros x (e & -> & Hin)%list_elem_of_fmap Heq%list_elem_of_singleton.
    rewrite Forall_forall in Hl. destruct (Hl e Hin) as (j & Hj & Hrow).
    pose proof (picked_row_id j i _ _ ltac:(lia) Hi Hrow He Heq). lia.
Qed.
Lemma picks_rows paths p :
  (forall x, x ∈ paths -> is_readable_file (SendService.localPathOf x) = true -> tellable (SendService.localPathOf x)) ->
  exists n p' l, foldl SendService.pick_entry (0, p, []) paths = (n, p', l) /\ rows_below n l.
Proof.
  intros Ht. assert (Hgen : forall i p l, 0 <= i -> rows_below i l ->
    exists n p' l', foldl SendService.pick_entry (i, p, l) paths = (n, p', l') /\ rows_below n l').
  { induction paths as [|x paths IH]; intros i q l Hi Hl; [by do 3 eexists|]. cbn [foldl].
    pose proof (pick_entry_rows i q l x Hi (Ht x ltac:(by left)) Hl) as Hp.
    destruct (SendService.pick_entry (i, q, l) x) as [[i' q'] l']. destruct Hp as [-> Hp].
    apply IH; [|lia|done]. intros y Hy. apply Ht. by right. }
  apply Hgen; [done|]. split; constructor.
Qed.

(** ** The body *)

Lemma offered_pairs l :
  SendService.offered l
  = foldl (fun o ka => jinsert ka.1 (JObject (SendService.descriptor ka.2)) o) [] (map (fun e => (TransferModel.id e, e)) l).
Proof.
  unfold SendService.offered. generalize ([] : jobject). induction l as [|e l IH]; intros o; [done|]. cbn. apply IH.
Qed.
Lemma offered_lookup l k :
  NoDup (map TransferModel.id l) ->
  jlookup k (SendService.offered l)
  = (fun e => JObject (SendService.descriptor e)) <$> list_to_map (M := gmap qstring _) (map (fun e => (TransferModel.id e, e)) l) !! k.
Proof.
  intros Hd. rewrite offered_pairs.
  rewrite (jlookup_foldl_jinsert (fun e => JObject (SendService.descriptor e))).
  - by destruct (_ !! k).
  - by rewrite <- list_fmap_compose.
Qed.
Lemma offered_row l e :
  NoDup (map TransferModel.id l) -> e ∈ l ->
  jlookup (TransferModel.id e) (SendService.offered l) = Some (JObject (SendService.descriptor e)).
Proof.
  intros Hd He. rewrite offered_lookup by done.
  rewrite (elem_of_list_to_map_1 _ (TransferModel.id e) e); [done| |].
  - by rewrite <- list_fmap_compose.
  - by apply list_elem_of_fmap; exists e.
Qed.
Lemma offered_keys l k :
  NoDup (map TransferModel.id l) -> k ∈ jkeys (SendService.offered l) <-> exists e, e ∈ l /\ TransferModel.id e = k.
Proof.
  intros Hd. rewrite jkeys_elem. split.
  - rewrite offered_lookup by done. intros [x Hx]. apply fmap_Some in Hx as (e & He & _).
    apply elem_of_list_to_map_2 in He. apply list_elem_of_fmap in He as (e' & [= -> ->] & Hin). by exists e'.
  - intros (e & He & <-). rewrite offered_row by done. by eexists.
Qed.
(** The row a receiver makes of a row. *)
Definition listed (e : TransferModel.FileEntry) : TransferModel.FileEntry :=
  TransferModel.FileEntry0
    <| TransferModel.id := TransferModel.id e |> <| TransferModel.fileName := TransferModel.fileName e |>
    <| TransferModel.size := TransferModel.size e |> <| TransferModel.fileType := TransferModel.fileType e |>.
Lemma file_entry_offered l e i :
  NoDup (map TransferModel.id l) -> e ∈ l -> picked_row i e ->
  ReceiveService.file_entry (SendService.offered l) (TransferModel.id e) = listed e.
Proof.
  intros Hd He [_ [Hn _] Hs [Ht _]]. unfold ReceiveService.file_entry.
  assert (jvalue (TransferModel.id e) (SendService.offered l) = JObject (SendService.descriptor e)) as ->
    by (unfold jvalue; by rewrite offered_row).
  cbn [jobj]. cbv zeta. unfold SendService.descriptor. rewrite !jvalue_jinsert. lit_simpl.
  cbn [jstring jstring_or jdouble jvalue jlookup default from_option].
  rewrite qint64_of_exact by lia. rewrite (proj2 (Z.ltb_ge _ 0)) by lia.
  rewrite (proj2 (is_empty_false _) Hn), (clean_sanitize 128 (TransferModel.fileType e) Ht).
  rewrite (clean_sanitize 128 []); [done|]. by apply clean_lit.
Qed.
Lemma descriptor_storable i e : 0 <= i -> picked_row i e -> valid_utf16 (TransferModel.id e) = true /\ storable (JObject (SendService.descriptor e)).
Proof.
  intros Hi [(token & Hid & Htok) [_ Hn] Hs [_ Ht]].
  assert (Hv : valid_utf16 (TransferModel.id e) = true).
  { apply valid_low. rewrite Hid. apply Forall_app. split.
    - eapply Forall_impl; [by apply number_digits|]. cbn. lia.
    - constructor; [lia|]. eapply Forall_impl; [exact Htok|]. cbn. lia. }
  split; [done|]. unfold SendService.descriptor.
  repeat apply storable_jinsert; try done. apply storable_num. lia.
Qed.
Lemma offered_storable n l : rows_below n l -> storable (JObject (SendService.offered l)).
Proof.
  intros [Hl _]. rewrite offered_pairs. apply (storable_foldl_jinsert (fun e => JObject (SendService.descriptor e))); [|done].
  apply Forall_map. eapply Forall_impl; [exact Hl|]. intros e (i & Hi & Hrow).
  apply (descriptor_storable i); [lia|done].
Qed.
(** A device whose texts can be written as UTF-8. *)
Definition sayable (d : DeviceInfo) : Prop :=
  valid_utf16 (alias d) = true /\ valid_utf16 (version d) = true /\ valid_utf16 (deviceModel d) = true
  /\ valid_utf16 (deviceType d) = true /\ valid_utf16 (fingerprint d) = true /\ valid_utf16 (protocol d) = true.
Lemma register_storable d : announceable d -> sayable d -> storable (JObject (toRegisterBody d)).
Proof.
  intros Ha (V1 & V2 & V3 & V4 & V5 & V6). unfold toRegisterBody, basePayload. cbv zeta.
  repeat apply storable_jinsert; try done. apply storable_num. destruct Ha. lia.
Qed.

(** ** The two ends *)

#[local] Abbreviation Sender := (SendService.World (S := S)).
#[local] Abbreviation Receiver := (ReceiveService.World (S := S)).
Lemma requestUpload_posts pin (w : Sender) :
  let w' := SendService.requestUpload pin w in
  (exists r, SendService.sent w' = r :: SendService.sent w /\ req_body r = Bytes (to_json (JObject (SendService.payload w'))))
  /\ SendService.m_transfer w' = SendService.m_transfer w /\ SendService.m_settings w' = SendService.m_settings w.
Proof. cbv zeta. unfold SendService.requestUpload, SendService.post. split; [|done]. eexists. by split. Qed.
(** When sending begins: the rows are the picked files, and the list is posted. *)
Lemma sendFiles_begins t device paths (w : Sender) :
  (forall x, x ∈ paths -> is_readable_file (SendService.localPathOf x) = true -> tellable (SendService.localPathOf x)) ->
  SendService.m_busy w = false -> SendService.m_busy (SendService.sendFiles t device paths w) = true ->
  let w' := SendService.sendFiles t device paths w in
  exists n, rows_below n (TransferModel.m_files (SendService.m_transfer w'))
    /\ (exists r rest, SendService.sent w' = r :: rest
         /\ req_body r = Bytes (to_json (JObject (SendService.payload w'))))
    /\ AppSettings.self (SendService.m_settings w') = AppSettings.self (SendService.m_settings w).
Proof.
  intros Ht Hb. unfold SendService.sendFiles. rewrite Hb. cbv zeta.
  destruct (_ || _); [cbn; congruence|].
  destruct (match SendService.m_known w with Some _ => _ | None => _ end); [cbn; congruence|].
  destruct (picks_rows paths (AppSettings.pool (SendService.m_settings w)) Ht) as (n & p & l & -> & Hl).
  destruct (is_empty l); [cbn; congruence|]. intros _. exists n.
  match goal with |- context [SendService.requestUpload [] ?x] =>
    destruct (requestUpload_posts [] x) as ((r & Hs & Hb') & Hm & Hset); set (w' := SendService.requestUpload [] x) in * end.
  clearbody w'. split_and!.
  - rewrite Hm. unfold SendService.setState, SendService.transfer. cbn -[TransferModel.setState TransferModel.begin].
    rewrite setState_files. exact Hl.
  - exists r. eexists. split; [exact Hs|exact Hb'].
  - by rewrite Hset.
Qed.

(** C10: what is offered is what is shown. When [sendFiles] starts a transfer and the
    list it posts arrives as the body of a request, the receiver reads back the very
    device the sender announces, and its rows are the files picked, one each: same id,
    name, size and type, nothing else filled in. *)
Theorem offer_arrives t device paths (w : Sender) (i : Z) (r : Receiver) body :
  (forall x, x ∈ paths -> is_readable_file (SendService.localPathOf x) = true -> tellable (SendService.localPathOf x)) ->
  announceable (AppSettings.self (SendService.m_settings w)) -> sayable (AppSettings.self (SendService.m_settings w)) ->
  let w' := SendService.sendFiles t device paths w in
  SendService.m_busy w = false -> SendService.m_busy w' = true ->
  (exists req rest, SendService.sent w' = req :: rest /\ req_body req = Bytes body) ->
  HttpConnection.m_body (ReceiveService.the_conn i r) = body ->
  let entries := TransferModel.m_files (SendService.m_transfer w') in
  let files := ReceiveChecks.claimed_files i r in
  fromPayload (ReceiveChecks.claimed_info i r)
    = (AppSettings.self (SendService.m_settings w)) <| address := [] |> <| lastSeen := None |>
  /\ NoDup (map TransferModel.id entries)
  /\ (forall k, k ∈ jkeys files <-> exists e, e ∈ entries /\ TransferModel.id e = k)
  /\ (forall e, e ∈ entries -> ReceiveService.file_entry files (TransferModel.id e) = listed e).
Proof.
  intros Ht Ha Hs. cbv zeta. intros Hb Hb' (req & rest & Hsent & Hbody) Hconn.
  destruct (sendFiles_begins t device paths w Ht Hb Hb') as (n & Hrows & (req' & rest' & Hsent' & Hbody') & Hself).
  set (w' := SendService.sendFiles t device paths w) in *. clearbody w'.
  assert (body = to_json (JObject (SendService.payload w'))) as -> by congruence.
  pose proof (offered_storable n _ Hrows) as Hoff. destruct Hrows as [Hl Hd].
  assert (Hstore : storable (JObject (SendService.payload w'))).
  { unfold SendService.payload. apply storable_jinsert; [done|exact Hoff|]. apply storable_jinsert; [done| |done].
    rewrite Hself. by apply register_storable. }
  assert (Hjson : HttpConnection.jsonBody (ReceiveService.the_conn i r) = SendService.payload w').
  { unfold HttpConnection.jsonBody, json_object. by rewrite Hconn, from_to_json. }
  assert (Hinfo : ReceiveChecks.claimed_info i r = toRegisterBody (AppSettings.self (SendService.m_settings w))).
  { unfold ReceiveChecks.claimed_info. rewrite Hjson. unfold SendService.payload. rewrite jvalue_jinsert, jvalue_jinsert.
    lit_simpl. cbn [jobj]. by rewrite Hself. }
  assert (Hfiles : ReceiveChecks.claimed_files i r = SendService.offered (TransferModel.m_files (SendService.m_transfer w'))).
  { unfold ReceiveChecks.claimed_files. rewrite Hjson. unfold SendService.payload. rewrite jvalue_jinsert, jvalue_jinsert.
    by lit_simpl. }
  rewrite Hinfo, Hfiles. split_and!.
  - by apply fromPayload_toRegisterBody.
  - done.
  - intros k. by apply offered_keys.
  - intros e He. rewrite Forall_forall in Hl. destruct (Hl e He) as (j & _ & Hrow). by eapply file_entry_offered.
Qed.
End Handover.
End Handover.
