(* ===== verification/Permission.v ===== *)
(** * Permission: the receiver's answer in the sender's hands

    What [accept] hands out, what the sender makes of it, and the upload that
    comes back: the two ends composed over the answer to /prepare-upload. *)
From S2P Require Import Prelude Json Crypto Reference Protocol DeviceInfo SecureStore Certificate TlsClient.
From S2P Require Import KnownDevices AppSettings HistoryModel SelectionModel DeviceModel FileNames Network Discovery.
From S2P Require Import RateLimiter TransferModel TransferFacts HttpConnection HttpServer.
From S2P Require Import SendService SendFacts ReceiveService ReceiveFacts ReceiveHttp Handover.
Import DeviceInfo TransferFacts.

Module Permission.

#[local] Existing Instances AppSettings.eta_AppSettings TransferModel.eta_FileEntry TransferModel.eta_TransferModel.
#[local] Existing Instances Discovery.eta_Discovery HttpConnection.eta_Conn.

(** ** Rows *)

Definition ids (m : TransferModel.TransferModel) : list qstring := map TransferModel.id (TransferModel.m_files m).
Lemma first_index_found p i l :
  Exists (fun e => p e = true) l ->
  exists k e, TransferModel.first_index p i l = i + Z.of_nat k /\ l !! k = Some e /\ p e = true.
Proof.
  revert i. induction l as [|e l IH]; intros i Hl; [by apply Exists_nil in Hl|]. cbn.
  destruct (p e) eqn:Hp; [exists 0%nat, e; split_and!; [lia|done..]|].
  apply Exists_cons in Hl as [|Hl]; [congruence|]. destruct (IH (i + 1) Hl) as (k & e' & Hk & He & Hp').
  exists (Datatypes.S k), e'. split_and!; [lia|done..].
Qed.
Lemma indexOfFile_found m k :
  k ∈ ids m -> exists e, 0 <= TransferModel.indexOfFile k m
    /\ TransferModel.m_files m !! Z.to_nat (TransferModel.indexOfFile k m) = Some e /\ TransferModel.id e = k.
Proof.
  intros (e & -> & He)%list_elem_of_fmap. unfold TransferModel.indexOfFile.
  destruct (first_index_found (fun x => qeq (TransferModel.id x) (TransferModel.id e)) 0 (TransferModel.m_files m))
    as (n & x & Hn & Hx & Hq); [apply Exists_exists; exists e; split; [done|apply qeq_refl]|].
  exists x. rewrite Hn. split_and!; [lia| |by apply qeq_spec]. by replace (Z.to_nat (0 + Z.of_nat n)) with n by lia.
Qed.

(** A row without its token. *)
Definition bare (e : TransferModel.FileEntry) : TransferModel.FileEntry := e <| TransferModel.token := [] |>.
Lemma setFileToken_alter r tok m :
  TransferModel.m_files (TransferModel.setFileToken (Z.of_nat r) tok m)
  = alter (fun e => e <| TransferModel.token := tok |>) r (TransferModel.m_files m).
Proof.
  unfold TransferModel.setFileToken. destruct (TransferModel.in_rows (Z.of_nat r) m) eqn:Hin; cbn [negb].
  - unfold TransferModel.update_row. cbn -[alter]. by rewrite Nat2Z.id.
  - apply list_eq. intros j. destruct (decide (r = j)) as [->|Hn]; [|by rewrite list_lookup_alter_ne].
    rewrite list_lookup_alter_eq. destruct (TransferModel.m_files m !! j) as [e|] eqn:He; [|done].
    enough (TransferModel.in_rows (Z.of_nat j) m = true) by congruence.
    apply TransferModel.in_rows_spec. split; [lia|]. exists e. by rewrite Nat2Z.id.
Qed.
Lemma setFileToken_bare r tok m :
  map bare (TransferModel.m_files (TransferModel.setFileToken (Z.of_nat r) tok m)) = map bare (TransferModel.m_files m).
Proof. rewrite setFileToken_alter, (map_alter _ _ (fun e => e)) by done. apply list_alter_id. done. Qed.
Lemma bare_ids m m' : map bare (TransferModel.m_files m') = map bare (TransferModel.m_files m) -> ids m' = ids m.
Proof.
  intros Hb. apply (f_equal (map TransferModel.id)) in Hb. rewrite !map_map in Hb. exact Hb.
Qed.
Lemma bare_lookup m m' j e :
  map bare (TransferModel.m_files m') = map bare (TransferModel.m_files m) ->
  TransferModel.m_files m' !! j = Some e ->
  exists e', TransferModel.m_files m !! j = Some e' /\ bare e = bare e'.
Proof.
  intros Hb He. apply (f_equal (fun l => l !! j)) in Hb. rewrite !list_lookup_fmap, He in Hb.
  destruct (TransferModel.m_files m !! j) as [e'|]; [|done]. exists e'. split; [done|]. by apply (inj Some).
Qed.
Lemma alter_alter {A} (f g : A -> A) i (l : list A) : alter f i (alter g i l) = alter (fun x => f (g x)) i l.
Proof. revert i. induction l as [|x l IH]; intros [|i]; cbn; [done..|]. f_equal. apply IH. Qed.
(** A status is set on its row alone, and leaves what names the file. *)
Lemma setFileStatus_alter t i st err m :
  exists g, (forall e, TransferModel.id (g e) = TransferModel.id e /\ TransferModel.token (g e) = TransferModel.token e
                       /\ TransferModel.status (g e) = st)
    /\ TransferModel.m_files (TransferModel.setFileStatus t (Z.of_nat i) st err m) = alter g i (TransferModel.m_files m).
Proof.
  unfold TransferModel.setFileStatus. destruct (TransferModel.in_rows (Z.of_nat i) m) eqn:Hin; cbn [negb]; cycle 1.
  { exists (fun e => e <| TransferModel.status := st |>). split; [done|].
    apply list_eq. intros j. destruct (decide (i = j)) as [->|Hn]; [|by rewrite list_lookup_alter_ne].
    rewrite list_lookup_alter_eq. destruct (TransferModel.m_files m !! j) as [e|] eqn:He; [|done].
    enough (TransferModel.in_rows (Z.of_nat j) m = true) by congruence.
    apply TransferModel.in_rows_spec. split; [lia|]. exists e. by rewrite Nat2Z.id. }
  cbv zeta. rewrite flush_files.
  match goal with |- context [TransferModel.touch ?r ?x] =>
    change (TransferModel.m_files (TransferModel.stop_flush_timer (TransferModel.touch r x)))
      with (TransferModel.m_files (TransferModel.touch r x)); rewrite (touch_files r x) end.
  destruct (_ && _).
  - match goal with |- context [TransferModel.update_row _ (fun e => e <| TransferModel.transferred := ?n |>)] =>
      exists (fun e => e <| TransferModel.status := st |> <| TransferModel.error := err |> <| TransferModel.transferred := n |>) end.
    split; [done|]. unfold TransferModel.update_row. cbn -[alter]. rewrite Nat2Z.id. by rewrite alter_alter.
  - exists (fun e => e <| TransferModel.status := st |> <| TransferModel.error := err |>). split; [done|].
    unfold TransferModel.update_row. cbn -[alter]. by rewrite Nat2Z.id.
Qed.


Section Permission.
Context `{OpenSSL, QtText, QHashOrder, Platform, JsonText, X509, AppPaths, SettingsHost, UrlText, HttpText}.
Context `{LocalFiles, OpenFiles, Disk}.
Context {S : Type} `{StoredFiles S}.
#[local] Abbreviation Sender := (SendService.World (S := S)).
#[local] Abbreviation Receiver := (ReceiveService.World (S := S)).

(** ** What [accept] hands out *)

(** The tokens of the answer are those the receiver keeps. *)
Record handed_out (w : Receiver) (o : jobject) : Prop := {
  ho_map k : jlookup k o = JString <$> ReceiveService.m_tokens w !! k;
  ho_rows k : is_Some (ReceiveService.m_tokens w !! k) -> k ∈ ids (ReceiveService.m_transfer w);
  ho_text : storable (JObject o)
}.
Lemma token_valid p : valid_utf16 (Protocol.generateToken p).1 = true.
Proof.
  apply Handover.valid_low. destruct (proj1 (Protocol.generators_spec [] p)) as [->|[_ Ht]]; [constructor|].
  eapply Forall_impl; [exact Ht|]. unfold Crypto.is_lower_hex. cbn. lia.
Qed.
Lemma entry_id_in r m : (r < List.length (TransferModel.m_files m))%nat -> TransferModel.id (TransferModel.entry (Z.of_nat r) m) ∈ ids m.
Proof.
  intros [e He]%lookup_lt_is_Some. rewrite (TransferModel.entry_lookup _ _ e) by (rewrite ?Nat2Z.id; done || lia).
  apply list_elem_of_fmap. exists e. split; [done|]. by eapply list_elem_of_lookup_2.
Qed.
Lemma give_token_hands r (w : Receiver) o :
  (r < List.length (TransferModel.m_files (ReceiveService.m_transfer w)))%nat ->
  Forall (fun k => valid_utf16 k = true) (ids (ReceiveService.m_transfer w)) ->
  handed_out w o ->
  let '(w', o') := ReceiveService.give_token (w, o) r in
  handed_out w' o' /\ map bare (TransferModel.m_files (ReceiveService.m_transfer w')) = map bare (TransferModel.m_files (ReceiveService.m_transfer w))
  /\ ReceiveService.m_sessionAddress w' = ReceiveService.m_sessionAddress w.
Proof.
  intros Hr Hv [T1 T2 T3]. unfold ReceiveService.give_token, ReceiveService.draw_token.
  pose proof (token_valid (AppSettings.pool (ReceiveService.m_settings w))) as Htok.
  destruct (Protocol.generateToken _) as [token p]. cbn [fst] in Htok.
  set (k0 := TransferModel.id _). assert (Hk0 : k0 ∈ ids (ReceiveService.m_transfer w)) by by apply entry_id_in.
  assert (Hb : map bare (TransferModel.m_files (TransferModel.setFileToken (Z.of_nat r) token (ReceiveService.m_transfer w)))
    = map bare (TransferModel.m_files (ReceiveService.m_transfer w))) by apply setFileToken_bare.
  split; [split|split; [exact Hb|done]].
  - intros k. rewrite jlookup_jinsert. cbn. destruct (decide (k = k0)) as [->|Hn].
    + by rewrite qeq_refl, lookup_insert_eq.
    + rewrite (proj2 (qeq_false _ _) Hn), lookup_insert_ne by done. apply T1.
  - intros k Hk. cbn in Hk. apply bare_ids in Hb.
    change (k ∈ ids (TransferModel.setFileToken (Z.of_nat r) token (ReceiveService.m_transfer w))). rewrite Hb.
    destruct (decide (k = k0)) as [->|Hn]; [done|]. rewrite lookup_insert_ne in Hk by done. by apply T2.
  - apply storable_jinsert; [|done|done]. rewrite Forall_forall in Hv. by apply Hv.
Qed.
Lemma give_tokens_hand l (w : Receiver) o :
  Forall (fun r => (r < List.length (TransferModel.m_files (ReceiveService.m_transfer w)))%nat) l ->
  Forall (fun k => valid_utf16 k = true) (ids (ReceiveService.m_transfer w)) ->
  handed_out w o ->
  let '(w', o') := foldl ReceiveService.give_token (w, o) l in
  handed_out w' o' /\ map bare (TransferModel.m_files (ReceiveService.m_transfer w')) = map bare (TransferModel.m_files (ReceiveService.m_transfer w))
  /\ ReceiveService.m_sessionAddress w' = ReceiveService.m_sessionAddress w.
Proof.
  revert w o. induction l as [|r l IH]; intros w o Hl Hv Ht; [done|]. cbn [foldl].
  apply Forall_cons in Hl as [Hr Hl]. pose proof (give_token_hands r w o Hr Hv Ht) as Hg.
  destruct (ReceiveService.give_token (w, o) r) as [w1 o1]. destruct Hg as (Ht1 & Hb & Ha).
  assert (Hlen : List.length (TransferModel.m_files (ReceiveService.m_transfer w1)) = List.length (TransferModel.m_files (ReceiveService.m_transfer w))).
  { apply (f_equal (@List.length _)) in Hb. by rewrite !length_map in Hb. }
  specialize (IH w1 o1). rewrite Hlen, (bare_ids _ _ Hb) in IH. specialize (IH Hl Hv Ht1).
  destruct (foldl _ (w1, o1) l) as [w' o']. destruct IH as (Ht' & Hb' & Ha'). split_and!; [done|congruence|congruence].
Qed.
Lemma prepareDirectory_frame (w : Receiver) :
  let w' := (ReceiveService.prepareDirectory w).2 in
  ReceiveService.w_conns w' = ReceiveService.w_conns w /\ ReceiveService.m_transfer w' = ReceiveService.m_transfer w
  /\ ReceiveService.m_sessionId w' = ReceiveService.m_sessionId w.
Proof. unfold ReceiveService.prepareDirectory. cbv zeta. destruct (negb _); [done|]. by destruct (negb _). Qed.
Lemma draw_token_frame (w : Receiver) :
  let '(token, w') := ReceiveService.draw_token w in
  ReceiveService.w_conns w' = ReceiveService.w_conns w /\ ReceiveService.m_transfer w' = ReceiveService.m_transfer w
  /\ valid_utf16 token = true.
Proof.
  unfold ReceiveService.draw_token. pose proof (token_valid (AppSettings.pool (ReceiveService.m_settings w))) as Ht.
  by destruct (Protocol.generateToken _).
Qed.
Lemma releasePending_keeps (w : Receiver) :
  let w' := ReceiveService.releasePending w in
  ReceiveService.w_conns w' = ReceiveService.w_conns w /\ ReceiveService.m_transfer w' = ReceiveService.m_transfer w
  /\ ReceiveService.m_tokens w' = ReceiveService.m_tokens w /\ ReceiveService.m_sessionId w' = ReceiveService.m_sessionId w
  /\ ReceiveService.m_sessionAddress w' = ReceiveService.m_sessionAddress w.
Proof. unfold ReceiveService.releasePending. cbv zeta. by destruct (ReceiveService.m_pending w). Qed.
(** The answer [accept] gives. *)
Definition permission (o : jobject) (w : Receiver) : jobject :=
  jinsert (lit "files") (JObject o) (jinsert (lit "sessionId") (JString (ReceiveService.m_sessionId w)) []).
Lemma accept_hands_out t i (r : Receiver) :
  ReceiveService.m_pending r = Some i -> ReceiveService.m_sessionId r = [] ->
  Forall (fun k => valid_utf16 k = true) (ids (ReceiveService.m_transfer r)) ->
  let r' := ReceiveService.accept t r in
  ReceiveService.m_sessionId r' <> [] ->
  exists o, handed_out r' o
    /\ ReceiveService.the_conn i r' = HttpConnection.respondJson t 200 (permission o r') (ReceiveService.the_conn i r)
    /\ map bare (TransferModel.m_files (ReceiveService.m_transfer r')) = map bare (TransferModel.m_files (ReceiveService.m_transfer r))
    /\ valid_utf16 (ReceiveService.m_sessionId r') = true
    /\ ReceiveService.m_sessionAddress r' = HttpConnection.m_peerAddress (ReceiveService.the_conn i r).
Proof.
  intros Hp Hs Hv. unfold ReceiveService.accept. rewrite Hp.
  destruct (prepareDirectory_frame r) as (Dc & Dt & Ds). destruct (ReceiveService.prepareDirectory r) as [directory w1].
  cbn [snd] in *. destruct (is_empty directory).
  { cbv zeta. intros []. rewrite <- Hs, <- Ds. unfold ReceiveService.releasePending. by case_match. }
  pose proof (draw_token_frame w1) as Hd2. destruct (ReceiveService.draw_token w1) as [sessionId w2].
  destruct Hd2 as (Dc2 & Dt2 & Htok). cbv zeta. set (w3 := w2 <| ReceiveService.m_sessionId := _ |> <| ReceiveService.m_sessionAddress := _ |>
    <| ReceiveService.m_sessionDirectory := _ |> <| ReceiveService.m_tokens := _ |>).
  assert (Ht3 : ReceiveService.m_transfer w3 = ReceiveService.m_transfer r) by (rewrite <- Dt, <- Dt2; done).
  assert (Hc3 : ReceiveService.w_conns w3 = ReceiveService.w_conns r) by (rewrite <- Dc, <- Dc2; done).
  assert (Hempty : handed_out w3 []).
  { assert (Hm : ReceiveService.m_tokens w3 = ∅) by done.
    split; [intros k; by rewrite Hm, lookup_empty|intros k; rewrite Hm, lookup_empty; by intros [? ?]|done]. }
  assert (Hin : Forall (fun n => (n < List.length (TransferModel.m_files (ReceiveService.m_transfer w3)))%nat)
                  (ReceiveService.rows (ReceiveService.m_transfer w3))).
  { apply Forall_forall. intros n [_ Hn]%elem_of_seq. lia. }
  rewrite <- Ht3 in Hv. pose proof (give_tokens_hand _ w3 [] Hin Hv Hempty) as Hg.
  pose proof (ReceiveHttp.give_tokens_conns (ReceiveService.rows (ReceiveService.m_transfer w3)) (w3, [])) as Hc4.
  pose proof (ReceiveFacts.give_tokens_service (ReceiveService.rows (ReceiveService.m_transfer w3)) (w3, [])) as Hs4.
  destruct (foldl _ (w3, []) _) as [w4 o]. cbn [fst] in *. destruct Hg as (Ht4 & Hb4 & Ha4).
  assert (Hsid : ReceiveService.m_sessionId w4 = sessionId) by (unfold ReceiveFacts.service in Hs4; by injection Hs4).
  intros _. exists o. change (jinsert _ _ (jinsert _ _ [])) with (permission o w4).
  set (w5 := ReceiveService.on_conn i _ w4). pose proof (releasePending_keeps w5) as (R1 & R2 & R3 & R4 & R5).
  set (w6 := ReceiveService.releasePending w5) in *. clearbody w6.
  match goal with |- context [ReceiveService.emit _ ?x] => set (w7 := x) end.
  assert (Hfiles : TransferModel.m_files (ReceiveService.m_transfer w7) = TransferModel.m_files (ReceiveService.m_transfer w4)).
  { transitivity (TransferModel.m_files (ReceiveService.m_transfer w6)); [|by rewrite R2].
    transitivity (TransferModel.m_files (TransferModel.setState t TransferModel.Active []
      (TransferModel.setDestination (ReceiveService.m_sessionDirectory w4) (ReceiveService.m_transfer w6)))); [done|].
    rewrite setState_files. unfold TransferModel.setDestination. by repeat case_match. }
  assert (Hconns : ReceiveService.w_conns w7 = ReceiveService.w_conns w5) by exact R1.
  assert (Hrest : ReceiveService.m_tokens w7 = ReceiveService.m_tokens w4 /\ ReceiveService.m_sessionId w7 = ReceiveService.m_sessionId w4
                  /\ ReceiveService.m_sessionAddress w7 = ReceiveService.m_sessionAddress w4) by done.
  change (ReceiveService.m_transfer (ReceiveService.emit ReceiveService.transferStarted w7)) with (ReceiveService.m_transfer w7).
  clearbody w7. destruct Hrest as (E1 & E2 & E3). split_and!.
  - destruct Ht4 as [T1 T2 T3]. split; [intros k; cbn; rewrite E1; apply T1| |exact T3]. intros k. cbn. rewrite E1. intros Hk.
    unfold ids. change (ReceiveService.m_transfer (ReceiveService.emit ReceiveService.transferStarted w7)) with (ReceiveService.m_transfer w7).
    rewrite Hfiles. by apply T2.
  - assert (Hthe : ReceiveService.the_conn i w4 = ReceiveService.the_conn i r).
    { unfold ReceiveService.the_conn. by rewrite Hc4, Hc3. }
    unfold ReceiveService.the_conn at 1. cbn -[HttpConnection.respondJson]. rewrite Hconns.
    unfold w5, ReceiveService.on_conn, ReceiveService.put_conn. cbn -[HttpConnection.respondJson].
    rewrite lookup_insert_eq, Hthe. cbn [default from_option id]. unfold permission. cbn. by rewrite E2.
  - by rewrite Hfiles, Hb4, Ht3.
  - cbn. by rewrite E2, Hsid.
  - cbn. rewrite E3, Ha4. cbn. unfold ReceiveService.the_conn. by rewrite Dc2, Dc.
Qed.

(** ** What the sender makes of it *)

(** A row that waits holds the token the answer has for it. *)
Definition held (tokens : jobject) (r : nat) (w : Sender) : Prop :=
  forall e, TransferModel.m_files (SendService.m_transfer w) !! r = Some e ->
    TransferModel.status e = TransferModel.FileWaiting ->
    TransferModel.token e = jstring (jvalue (TransferModel.id e) tokens) /\ TransferModel.token e <> [].
Lemma setFileStatus_lookup t i st err m j e :
  TransferModel.m_files (TransferModel.setFileStatus t (Z.of_nat i) st err m) !! j = Some e ->
  (i <> j /\ TransferModel.m_files m !! j = Some e) \/ (i = j /\ TransferModel.status e = st).
Proof.
  destruct (setFileStatus_alter t i st err m) as (g & Hg & ->). destruct (decide (i = j)) as [->|Hn].
  - rewrite list_lookup_alter_eq. intros (e' & _ & ->)%fmap_Some. right. split; [done|]. apply Hg.
  - rewrite list_lookup_alter_ne by done. by left.
Qed.
Lemma setFileToken_lookup r tok m j e :
  TransferModel.m_files (TransferModel.setFileToken (Z.of_nat r) tok m) !! j = Some e ->
  (r <> j /\ TransferModel.m_files m !! j = Some e)
  \/ (r = j /\ exists e', TransferModel.m_files m !! j = Some e' /\ e = e' <| TransferModel.token := tok |>).
Proof.
  rewrite setFileToken_alter. destruct (decide (r = j)) as [->|Hn].
  - rewrite list_lookup_alter_eq. intros (e' & He & ->)%fmap_Some. right. split; [done|]. by exists e'.
  - rewrite list_lookup_alter_ne by done. by left.
Qed.
Lemma take_token_held tokens t n (w : Sender) r j :
  j = r \/ held tokens j w -> held tokens j (SendService.take_token tokens t (n, w) r).2.
Proof.
  intros Hj. unfold SendService.take_token. destruct (is_empty _) eqn:Hemp.
  - cbn [snd]. intros e He Hst. apply setFileStatus_lookup in He as [[Hn He]|[_ Hs]]; [|congruence].
    destruct Hj as [->|Hj]; [done|]. by apply Hj.
  - apply is_empty_false in Hemp. cbn [snd]. intros e He Hst.
    apply setFileToken_lookup in He as [[Hn He]|[<- (e' & He & ->)]].
    + destruct Hj as [->|Hj]; [done|]. by apply Hj.
    + unfold SendService.entry in *. rewrite (TransferModel.entry_lookup (Z.of_nat r) _ e') in * by (rewrite ?Nat2Z.id; done || lia).
      by split.
Qed.
Lemma take_tokens_held tokens t l n (w : Sender) j :
  j ∈ l \/ held tokens j w -> held tokens j (foldl (SendService.take_token tokens t) (n, w) l).2.
Proof.
  revert n w. induction l as [|r l IH]; intros n w Hj.
  { destruct Hj as [Hj|Hj]; [by apply elem_of_nil in Hj|done]. }
  cbn [foldl]. destruct (SendService.take_token tokens t (n, w) r) as [n' w'] eqn:Ht. apply IH.
  pose proof (take_token_held tokens t n w r j) as Hh. rewrite Ht in Hh. cbn [snd] in Hh.
  destruct Hj as [[->|Hj]%elem_of_cons|Hj]; [right; apply Hh; by left|by left|right; apply Hh; by right].
Qed.
Lemma take_tokens_keep tokens t l n (w : Sender) :
  let w' := (foldl (SendService.take_token tokens t) (n, w) l).2 in
  SendService.m_sessionId w' = SendService.m_sessionId w /\ SendService.fileCount w' = SendService.fileCount w.
Proof.
  cbv zeta. revert n w. induction l as [|r l IH]; intros n w; [done|]. cbn [foldl].
  destruct (SendService.take_token tokens t (n, w) r) as [n' w'] eqn:Ht. destruct (IH n' w') as [-> ->].
  revert Ht. unfold SendService.take_token. destruct (is_empty _); intros [= <- <-]; (split; [done|]).
  - apply setFileStatus_count.
  - unfold SendService.fileCount. cbn -[TransferModel.setFileToken]. by rewrite setFileToken_alter, length_alter.
Qed.
(** The upload of a row: its capability is the session, the row's id and its token. *)
Definition presented (session file token : qstring) : list (qstring * qstring) :=
  [(lit "sessionId", session); (lit "fileId", file); (lit "token", token)].
Definition capability (session : qstring) (e : TransferModel.FileEntry) : list (qstring * qstring) :=
  presented session (TransferModel.id e) (TransferModel.token e).
Lemma next_file_sends t l (w : Sender) :
  Forall (fun r => (r < SendService.fileCount w)%nat) l -> SendService.m_currentFile w = None ->
  SendService.sent (SendService.next_file t l w) = SendService.sent w
  \/ exists r e req, TransferModel.m_files (SendService.m_transfer w) !! r = Some e
       /\ TransferModel.status e = TransferModel.FileWaiting
       /\ SendService.sent (SendService.next_file t l w) = req :: SendService.sent w
       /\ Network.url_query (req_url req) = capability (SendService.m_sessionId w) e.
Proof.
  revert w. induction l as [|r l IH]; intros w Hl Hf; cbn [SendService.next_file].
  { left. by apply SendFacts.concluded_completeTransfer. }
  apply Forall_cons in Hl as [Hr Hl]. destruct (negb _) eqn:Hw; [by apply IH|].
  apply negb_false_iff in Hw. unfold SendService.fileCount in Hr. apply lookup_lt_is_Some in Hr as [e He].
  unfold SendService.entry in Hw. rewrite (TransferModel.entry_lookup (Z.of_nat r) _ e) in Hw by (rewrite ?Nat2Z.id; done || lia).
  assert (Hst : TransferModel.status e = TransferModel.FileWaiting).
  { unfold SendService.waiting, TransferModel.status_is in Hw. by destruct (TransferModel.status e). }
  cbv zeta. destruct (negb _).
  - set (w' := SendService.setFileStatus t (Z.of_nat r) _ _ _). destruct (IH w') as [Hs|(r' & e' & req & He' & Hst' & Hs & Hq)].
    + replace (SendService.fileCount w') with (SendService.fileCount w); [done|]. symmetry. apply setFileStatus_count.
    + exact Hf.
    + by left.
    + right. exists r', e', req. apply setFileStatus_lookup in He' as [[_ He']|[_ ?]]; [done|congruence].
  - right. exists r, e. eexists. split; [exact He|]. split; [exact Hst|]. unfold SendService.upload, SendService.post. split; [reflexivity|].
    cbn -[TransferModel.entry]. unfold SendService.entry. cbn -[TransferModel.entry].
    by rewrite (TransferModel.entry_lookup (Z.of_nat r) _ e) by (rewrite ?Nat2Z.id; done || lia).
Qed.
Lemma startNextFile_sends t (w : Sender) :
  SendService.sent (SendService.startNextFile t w) = SendService.sent w
  \/ exists r e req, TransferModel.m_files (SendService.m_transfer w) !! r = Some e
       /\ TransferModel.status e = TransferModel.FileWaiting
       /\ SendService.sent (SendService.startNextFile t w) = req :: SendService.sent w
       /\ Network.url_query (req_url req) = capability (SendService.m_sessionId w) e.
Proof.
  unfold SendService.startNextFile. cbv zeta. destruct (SendService.m_cancelled _); [by left|].
  apply (next_file_sends t _ (SendService.closeCurrentFile w)); [|done].
  apply Forall_forall. intros r [? Hr]%elem_of_seq. lia.
Qed.

Lemma concluded_sent (w w' : Sender) : SendFacts.concluded w w' -> SendService.sent w' = SendService.sent w.
Proof. by intros (_ & _ & _ & _ & Hs & _). Qed.
(** The one upload that [onPrepareFinished] may start on a permission. *)
Lemma permitted_upload t o tokens session (w : Sender) :
  SendService.m_cancelled w = false -> out_error o = None -> out_status o = 200 ->
  from_json (out_body o) = Some (JObject (jinsert (lit "files") (JObject tokens) (jinsert (lit "sessionId") (JString session) []))) ->
  let w' := SendService.onPrepareFinished t o w in
  SendService.sent w' = SendService.sent w
  \/ exists e req, TransferModel.token e = jstring (jvalue (TransferModel.id e) tokens) /\ TransferModel.token e <> []
       /\ SendService.sent w' = req :: SendService.sent w /\ Network.url_query (req_url req) = capability session e.
Proof.
  intros Hc He Hst Hj. unfold SendService.onPrepareFinished. rewrite Hc, He, Hst. cbv zeta.
  rewrite bool_decide_false by (by intros [? ?]). cbn [andb]. change (200 =? 200) with true.
  unfold SendService.onAccepted. rewrite Hj. cbv zeta. rewrite !jvalue_jinsert. lit_simpl. cbn [jobj jstring jstring_or].
  set (w1 := w <| SendService.m_sessionId := _ |>). change (SendService.m_sessionId w1) with session.
  destruct (_ || _); [left; exact (concluded_sent _ _ (SendFacts.concluded_failTransfer t _ w1))|].
  pose proof (SendFacts.take_tokens_control tokens t (SendService.rows w1) 0 w1) as Hctl.
  assert (Hh : forall r, (r < SendService.fileCount w1)%nat -> held tokens r (foldl (SendService.take_token tokens t) (0, w1) (SendService.rows w1)).2).
  { intros r Hr. apply take_tokens_held. left. unfold SendService.rows. apply elem_of_seq. lia. }
  pose proof (take_tokens_keep tokens t (SendService.rows w1) 0 w1) as [Hsid Hcnt].
  destruct (foldl _ _ _) as [n w2]. cbn [snd] in *. apply SendFacts.control_fields in Hctl as (_ & _ & _ & _ & _ & _ & _ & _ & Hsent & _).
  destruct (n =? 0); [left; exact Hsent|].
  set (w3 := set_field SendService.m_currentRow _ _). destruct (startNextFile_sends t w3) as [Hs|(r & e & req & Hr & Hw & Hs & Hq)].
  - left. rewrite Hs. exact Hsent.
  - right. assert (Hfiles : TransferModel.m_files (SendService.m_transfer w3) = TransferModel.m_files (SendService.m_transfer w2)) by apply setState_files.
    rewrite Hfiles in Hr. exists e, req. rewrite Hs.
    change (SendService.m_sessionId w3) with (SendService.m_sessionId w2) in Hq. rewrite Hsid in Hq.
    change (SendService.sent w3) with (SendService.sent w2). rewrite Hsent.
    destruct (Hh r) with (e := e) as [? ?]; [|done|done|done]. rewrite <- Hcnt. unfold SendService.fileCount. by apply lookup_lt_Some in Hr.
Qed.
(** What the receiver does with a capability it gave. *)
Lemma capability_admitted t j file token (r : Receiver) :
  ReceiveService.m_sessionId r <> [] -> ReceiveService.m_tokens r !! file = Some token -> token <> [] -> file <> [] ->
  file ∈ ids (ReceiveService.m_transfer r) ->
  Forall (fun e => TransferModel.status e <> TransferModel.FileDone) (TransferModel.m_files (ReceiveService.m_transfer r)) ->
  let c := ReceiveService.the_conn j r in
  HttpConnection.query (lit "sessionId") c = ReceiveService.m_sessionId r ->
  HttpConnection.query (lit "fileId") c = file -> HttpConnection.query (lit "token") c = token ->
  HttpConnection.m_peerAddress c = ReceiveService.m_sessionAddress r ->
  let r' := ReceiveService.handleUploadHeaders t j r in
  is_Some (ReceiveService.m_uploads r' !! j) \/ ReceiveService.the_conn j r' = HttpConnection.respond_ t 500 c.
Proof.
  cbv zeta. intros Hs Ht Htok Hfile Hin Hnd Qs Qf Qt Hpeer. unfold ReceiveService.handleUploadHeaders. cbv zeta.
  rewrite Qs, Qf, Qt, Hpeer, Ht, !(proj2 (is_empty_false _)), !qeq_refl by done. cbn [orb negb default from_option id].
  assert (Crypto.equals_str token token = true) as -> by by apply Crypto.equals_spec. cbn [negb orb].
  destruct (indexOfFile_found _ _ Hin) as (e & Hpos & He & _). rewrite (proj2 (Z.ltb_ge _ _)) by done.
  rewrite (TransferModel.entry_lookup _ _ e) by done.
  assert (TransferModel.status_is (TransferModel.status e) TransferModel.FileDone = false) as ->.
  { rewrite Forall_forall in Hnd. pose proof (Hnd e ltac:(by eapply list_elem_of_lookup_2)). by destruct (TransferModel.status e). }
  assert (H500 : forall w : Receiver, ReceiveService.w_conns w = ReceiveService.w_conns r ->
    ReceiveService.the_conn j (ReceiveService.answer t j 500 w) = HttpConnection.respond_ t 500 (ReceiveService.the_conn j r)).
  { intros w Hw. unfold ReceiveService.answer, ReceiveService.on_conn, ReceiveService.put_conn, ReceiveService.the_conn.
    cbn -[HttpConnection.respond_]. by rewrite lookup_insert_eq, Hw. }
  destruct (is_empty _); [right; by apply H500|]. destruct (negb _); [right; by apply H500|].
  left. eexists. cbn. by rewrite lookup_insert_eq.
Qed.

(** C9: permission given is permission that works. When the receiver accepts, what it
    writes to the peer is the session and a token per file; and when that answer
    reaches a sender, the upload it starts, if it starts one, names that session and a
    file and token of it - so that, coming from the address that asked, the receiver
    opens a file for it, or answers 500 for want of a place to write one: never 400,
    403 or 409. *)
Theorem permission_arrives t i (r : Receiver) :
  ReceiveService.m_pending r = Some i -> ReceiveService.m_sessionId r = [] ->
  Forall (fun e => TransferModel.id e <> [] /\ valid_utf16 (TransferModel.id e) = true
                   /\ TransferModel.status e <> TransferModel.FileDone) (TransferModel.m_files (ReceiveService.m_transfer r)) ->
  let r' := ReceiveService.accept t r in
  ReceiveService.m_sessionId r' <> [] ->
  exists response,
    ReceiveService.the_conn i r' = HttpConnection.respondJson t 200 response (ReceiveService.the_conn i r)
    /\ forall t' certificate (w : Sender) req,
         let o := mkOutcome None 200 (to_json (JObject response)) certificate in
         SendService.m_cancelled w = false ->
         SendService.sent (SendService.onPrepareFinished t' o w) = req :: SendService.sent w ->
         exists file token,
           Network.url_query (req_url req) = presented (ReceiveService.m_sessionId r') file token
           /\ ReceiveService.m_tokens r' !! file = Some token
           /\ forall t'' j,
             let c := ReceiveService.the_conn j r' in
             HttpConnection.query (lit "sessionId") c = ReceiveService.m_sessionId r' ->
             HttpConnection.query (lit "fileId") c = file -> HttpConnection.query (lit "token") c = token ->
             HttpConnection.m_peerAddress c = HttpConnection.m_peerAddress (ReceiveService.the_conn i r) ->
             let r'' := ReceiveService.handleUploadHeaders t'' j r' in
             is_Some (ReceiveService.m_uploads r'' !! j) \/ ReceiveService.the_conn j r'' = HttpConnection.respond_ t'' 500 c.
Proof.
  cbv zeta. intros Hp Hs Hrows Hsid.
  assert (Hv : Forall (fun k => valid_utf16 k = true) (ids (ReceiveService.m_transfer r))).
  { apply Forall_map. eapply Forall_impl; [exact Hrows|]. by intros e (_ & ? & _). }
  destruct (accept_hands_out t i r Hp Hs Hv Hsid) as (tokens & [T1 T2 T3] & Hconn & Hbare & Hval & Haddr).
  set (r' := ReceiveService.accept t r) in *. clearbody r'. exists (permission tokens r'). split; [done|].
  intros t' certificate w req Hc Hreq.
  destruct (permitted_upload t' (mkOutcome None 200 (to_json (JObject (permission tokens r'))) certificate) tokens (ReceiveService.m_sessionId r') w Hc eq_refl eq_refl) as [Hsame|(e & req' & Htok & Hne & Hsent & Hq)].
  { apply from_to_json. apply storable_jinsert; [done|done|]. apply storable_jinsert; done. }
  { rewrite Hsame in Hreq. apply (f_equal (@List.length _)) in Hreq. cbn in Hreq. lia. }
  rewrite Hsent in Hreq. injection Hreq as <-. exists (TransferModel.id e), (TransferModel.token e). split; [exact Hq|].
  assert (Hmap : ReceiveService.m_tokens r' !! TransferModel.id e = Some (TransferModel.token e)).
  { unfold jvalue in Htok. rewrite T1 in Htok. destruct (ReceiveService.m_tokens r' !! TransferModel.id e) as [x|]; cbn in Htok; [by rewrite Htok|].
    by rewrite Htok in Hne. }
  split; [done|]. intros t'' j Qs Qf Qt Hpeer. pose proof (T2 (TransferModel.id e) ltac:(by rewrite Hmap; eexists)) as Hin.
  assert (Hrows' : Forall (fun x => TransferModel.id x <> [] /\ TransferModel.status x <> TransferModel.FileDone)
                     (TransferModel.m_files (ReceiveService.m_transfer r'))).
  { apply Forall_forall. intros x (n & Hx)%list_elem_of_lookup_1. destruct (bare_lookup _ _ n x Hbare Hx) as (x' & Hx' & Hb).
    rewrite Forall_forall in Hrows. destruct (Hrows x' ltac:(by eapply list_elem_of_lookup_2)) as (? & _ & ?).
    assert (TransferModel.id x = TransferModel.id x' /\ TransferModel.status x = TransferModel.status x') as [-> ->]; [|done].
    apply (f_equal (fun y => (TransferModel.id y, TransferModel.status y))) in Hb. by injection Hb. }
  apply (capability_admitted t'' j (TransferModel.id e) (TransferModel.token e)); try done.
  - apply list_elem_of_fmap in Hin as (x & -> & Hx). rewrite Forall_forall in Hrows'. by apply Hrows'.
  - eapply Forall_impl; [exact Hrows'|]. by intros x [_ ?].
  - by rewrite Hpeer, Haddr.
Qed.
End Permission.
End Permission.
