(* ===== verification/App.v ===== *)
(** * App: src/src/harbour-localsend.cpp

    The program as [main] wires it: the two services over one settings object,
    one transfer, one history and one catalogue of known devices, and the switch
    that ties listening and discovery to the receive setting. *)
From S2P Require Import Prelude QtArg Json Crypto Reference Protocol DeviceInfo SecureStore Certificate TlsClient.
From S2P Require Import KnownDevices AppSettings HistoryModel SelectionModel DeviceModel FileNames Network Discovery.
From S2P Require Import RateLimiter TransferModel HttpConnection HttpServer SendService ReceiveService.

Module App.

#[local] Existing Instances Discovery.eta_Discovery ReceiveService.eta_World SendService.eta_World.

Section App.
Context `{OpenSSL, QtText, QHashOrder, Platform, JsonText, X509, AppPaths, SettingsHost, UrlText, HttpText}.
Context `{NetworkState, LocalFiles, OpenFiles, Disk}.
Context {S : Type} `{StoredFiles S}.
#[local] Abbreviation Sender := (SendService.World (S := S)).
#[local] Abbreviation Receiver := (ReceiveService.World (S := S)).

(** The discovery is the one the receiver holds. *)
Record App := mkApp { receiver : Receiver; sender : Sender }.

(** ** The shared objects *)

(** Each service holds its own view of what they point to together; after a step
    of one, the other's view is brought up to date. *)
Definition seen_by_sender (r : Receiver) (s : Sender) : Sender :=
  s <| SendService.m_settings := ReceiveService.m_settings r |>
    <| SendService.m_transfer := ReceiveService.m_transfer r |>
    <| SendService.m_history := ReceiveService.m_history r |>
    <| SendService.m_known := ReceiveService.m_known r |>.
Definition seen_by_receiver (s : Sender) (r : Receiver) : Receiver :=
  r <| ReceiveService.m_discovery ::= fun d => d <| Discovery.m_settings := SendService.m_settings s |>
                                                <| Discovery.m_known := SendService.m_known s |> |>
    <| ReceiveService.m_transfer := SendService.m_transfer s |>
    <| ReceiveService.m_history := SendService.m_history s |>.
Definition receiver_did (r : Receiver) (a : App) : App := mkApp r (seen_by_sender r (sender a)).
Definition sender_did (s : Sender) (a : App) : App := mkApp (seen_by_receiver s (receiver a)) s.

(** ** Start-up *)

Definition discovery (f : Discovery.Discovery (S := S) -> Discovery.Discovery (S := S)) (r : Receiver) : Receiver :=
  r <| ReceiveService.m_discovery ::= f |>.
(** [main], up to the event loop: the objects, then the listener if receiving is
    on, then discovery. *)
Definition main (t : Z) (listened : option qstring) (settings : AppSettings.AppSettings (S := S))
    (known : KnownDevices.KnownDevices (S := S)) (history : HistoryModel.HistoryModel (S := S))
    (files : gmap qstring bytes) : App :=
  let r := ReceiveService.World0 (Discovery.Discovery0 settings DeviceModel.DeviceModel0 (Some known)) history files in
  let s := SendService.World0 settings TransferModel.TransferModel0 history (Some known) in
  let r := if AppSettings.receiveEnabled settings then (ReceiveService.startListening listened r).2 else r in
  let r := discovery (Discovery.start t) r in
  receiver_did r (mkApp r s).
(** The slot on [receiveEnabledChanged]. *)
Definition onReceiveEnabledChanged (t : Z) (listened : option qstring) (r : Receiver) : Receiver :=
  if AppSettings.receiveEnabled (ReceiveService.m_settings r)
  then (ReceiveService.startListening listened r).2 |>> discovery (Discovery.start t)
  else ReceiveService.stopListening t r |>> discovery Discovery.stop.

(** ** Everything that can happen *)

Inductive event :=
| Receiving (e : ReceiveService.event)
| Discovering (e : Discovery.event)
| EditHistory (o : HistoryModel.op)      (* from its page *)
| SendFiles (device : list (qstring * variant)) (paths : list qstring)
| SubmitPin (pin : qstring) | CancelSending
| SendReply (id : Z) (o : Outcome) | SendProgress (id bytes : Z).
Definition sending (e : event) : option (SendService.event (S := S)) :=
  match e with
  | SendFiles device paths => Some (SendService.SendFiles device paths)
  | SubmitPin pin => Some (SendService.SubmitPin pin)
  | CancelSending => Some SendService.Cancel
  | SendReply id o => Some (SendService.Finished id o)
  | SendProgress id bytes => Some (SendService.Progress id bytes)
  | Receiving _ | Discovering _ | EditHistory _ => None
  end.
(** What happens to the receiving half; a change of the receive setting reaches
    the slot of [main] after it is stored. *)
Definition receive (t : Z) (e : ReceiveService.event) (r : Receiver) : Receiver :=
  match e with
  | ReceiveService.Settings (AppSettings.OpReceive enabled) listened =>
      let changed := negb (Bool.eqb enabled (AppSettings.receiveEnabled (ReceiveService.m_settings r))) in
      let r := ReceiveService.handle t r e in
      if changed then onReceiveEnabledChanged t listened r else r
  | _ => ReceiveService.handle t r e
  end.
Definition handle (t : Z) (e : event) (a : App) : App :=
  match e with
  | Receiving e => receiver_did (receive t e (receiver a)) a
  | Discovering e => receiver_did (discovery (Discovery.handle t e) (receiver a)) a
  | EditHistory o =>
      receiver_did ((receiver a) <| ReceiveService.m_history ::= fun h => HistoryModel.run_op h o |>) a
  | _ => match sending e with
         | Some e => sender_did (SendService.handle t e (sender a)) a
         | None => a
         end
  end.
Definition run (a : App) (events : list (Z * event)) : App := foldl (fun a te => handle te.1 te.2 a) a events.
End App.
End App.
