(* ===== verification/AppFacts.v ===== *)
(** * AppFacts: what the whole program guarantees

    The lemmas that carry the invariants of the two services over every event of
    the program, for the theorems about its pages; and the receive switch, which
    takes the device off the air. *)
From S2P Require Import Prelude QtArg Json Crypto Reference Protocol DeviceInfo SecureStore Certificate TlsClient.
From S2P Require Import KnownDevices AppSettings HistoryModel SelectionModel DeviceModel FileNames Network Discovery.
From S2P Require Import RateLimiter TransferModel HttpConnection HttpFrame HttpServer SendService SendFacts.
From S2P Require Import ReceiveService ReceiveFacts App.

Module AppFacts.
Import App.

#[local] Existing Instances Discovery.eta_Discovery ReceiveService.eta_World SendService.eta_World ReceiveService.http_world.

Section Radio.
Context `{OpenSSL, QtText, QHashOrder, Platform, JsonText, X509, AppPaths, SettingsHost, UrlText, HttpText}.
Context `{NetworkState, Disk}.
Context {S : Type} `{StoredFiles S}.
#[local] Abbreviation Receiver := (ReceiveService.World (S := S)).
#[local] Abbreviation Discovery := (Discovery.Discovery (S := S)).

(** ** On the air *)

(** What is sent to nobody in particular, or to a stranger who asked. *)
Definition on_air (s : Discovery.Sent) : bool :=
  match s with Discovery.Datagram _ _ _ | Discovery.Multicast _ _ => true | Discovery.Posted _ _ => false end.
Definition broadcasts (d : Discovery) : list Discovery.Sent := List.filter on_air (Discovery.sent d).
Definition dial (d : Discovery) := (Discovery.m_running d, Discovery.m_socket d, broadcasts d).
(** The visible side of the receiving half. *)
Definition radio (r : Receiver) := (HttpServer.isListening (ReceiveService.m_server r), dial (ReceiveService.m_discovery r)).

Lemma dial_upsert t peer d : dial (Discovery.upsert t peer d) = dial d.
Proof. unfold Discovery.upsert. destruct (DeviceModel.upsert _ _ _ _) as [[] ?]; done. Qed.
Lemma dial_registerPeer t payload from d : dial (Discovery.registerPeer t payload from d).2 = dial d.
Proof. unfold Discovery.registerPeer. cbn. destruct (_ && _); [apply dial_upsert|done]. Qed.

(** ** Serving requests does not touch the radio *)

Lemma radio_draw_token (w : Receiver) : radio (ReceiveService.draw_token w).2 = radio w.
Proof. unfold ReceiveService.draw_token. by destruct (Protocol.generateToken _). Qed.
Lemma radio_closeHashingFile i (w : Receiver) : radio (ReceiveService.closeHashingFile i w) = radio w.
Proof. unfold ReceiveService.closeHashingFile. by repeat case_match. Qed.
Lemma radio_writeData i d (w : Receiver) : radio (ReceiveService.writeData i d w).2 = radio w.
Proof. unfold ReceiveService.writeData. by repeat case_match. Qed.
Lemma radio_releasePending (w : Receiver) : radio (ReceiveService.releasePending w) = radio w.
Proof. unfold ReceiveService.releasePending. by case_match. Qed.
Lemma radio_closeUpload i keep (w : Receiver) : radio (ReceiveService.closeUpload i keep w) = radio w.
Proof.
  unfold ReceiveService.closeUpload. destruct (ReceiveService.m_uploads w !! i); [|done]. cbv zeta.
  destruct (negb keep); exact (radio_closeHashingFile i (ReceiveService.dropUpload i w)).
Qed.
Lemma radio_stop_uploads t l (w : Receiver) : radio (foldl (ReceiveService.stop_upload t) w l) = radio w.
Proof.
  revert w. induction l as [|i l IH]; intros w; [done|]. cbn [foldl]. rewrite IH. unfold ReceiveService.stop_upload. cbv zeta.
  exact (radio_closeUpload i false w).
Qed.
Lemma radio_finish t st (w : Receiver) : radio (ReceiveService.finishSession t st w) = radio w.
Proof.
  rewrite ReceiveFacts.finishSession_eq. destruct (_ && _); [done|].
  assert (Hs : radio (ReceiveFacts.stopped t w) = radio w).
  { unfold ReceiveFacts.stopped. cbv zeta. match goal with |- context [ReceiveService.stop_uploads t ?x] => set (w0 := x) end.
    transitivity (radio (ReceiveService.stop_uploads t w0)); [|exact (radio_stop_uploads t _ w0)].
    destruct (ReceiveService.m_pending _); [|done]. by rewrite radio_releasePending. }
  destruct (is_empty _); [exact Hs|]. rewrite <- Hs. unfold ReceiveFacts.wind_up. cbv zeta. by repeat case_match.
Qed.
Lemma radio_prepareDirectory (w : Receiver) : radio (ReceiveService.prepareDirectory w).2 = radio w.
Proof. unfold ReceiveService.prepareDirectory. cbv zeta. destruct (negb _); [done|]. by destruct (negb _). Qed.
Lemma radio_give_tokens l (wt : Receiver * jobject) : radio (foldl ReceiveService.give_token wt l).1 = radio wt.1.
Proof.
  revert wt. induction l as [|r l IH]; intros [w o]; cbn [foldl]; [done|]. rewrite IH.
  unfold ReceiveService.give_token. pose proof (radio_draw_token w). by destruct (ReceiveService.draw_token w).
Qed.
Lemma radio_accept t (w : Receiver) : radio (ReceiveService.accept t w) = radio w.
Proof.
  unfold ReceiveService.accept. destruct (ReceiveService.m_pending w) as [i|]; [|done].
  pose proof (radio_prepareDirectory w) as Hd. destruct (ReceiveService.prepareDirectory w) as [directory w1]. cbn [snd] in Hd.
  rewrite <- Hd. destruct (is_empty directory).
  { exact (radio_releasePending (ReceiveService.answer t i 500 w1)). }
  pose proof (radio_draw_token w1) as Hd2. destruct (ReceiveService.draw_token w1) as [sessionId w2]. cbn [snd] in Hd2.
  rewrite <- Hd2. cbv zeta. set (w3 := w2 <| ReceiveService.m_sessionId := _ |> <| ReceiveService.m_sessionAddress := _ |>
    <| ReceiveService.m_sessionDirectory := _ |> <| ReceiveService.m_tokens := _ |>).
  pose proof (radio_give_tokens (ReceiveService.rows (ReceiveService.m_transfer w3)) (w3, [])) as Hg.
  destruct (foldl ReceiveService.give_token (w3, []) _) as [w4 tokens]. cbn [fst] in Hg.
  transitivity (radio w4); [|exact Hg]. set (w5 := ReceiveService.on_conn i _ w4).
  transitivity (radio (ReceiveService.releasePending w5)); [done|]. by rewrite radio_releasePending.
Qed.
Lemma radio_screen t i (w : Receiver) : radio (ReceiveService.screen t i w).1 = radio w.
Proof. unfold ReceiveService.screen. cbv zeta. by repeat case_match. Qed.
Lemma radio_handlePrepareUpload t i (w : Receiver) : radio (ReceiveService.handlePrepareUpload t i w) = radio w.
Proof.
  unfold ReceiveService.handlePrepareUpload. pose proof (radio_screen t i w) as Hs.
  destruct (ReceiveService.screen t i w) as [w1 [status|[[peer info] files]]]; cbn [fst] in Hs; [exact Hs|].
  rewrite <- Hs. cbv zeta.
  match goal with |- context [w1 <| ReceiveService.m_discovery ::= ?f |>] => set (w2 := w1 <| ReceiveService.m_discovery ::= f |>) end.
  assert (H2' : radio w2 = radio w1).
  { unfold radio. f_equal. apply dial_registerPeer. }
  rewrite <- H2'. clearbody w2. generalize TransferModel.begin, TransferModel.setState. intros begin setState.
  match goal with |- context [AppSettings.quickSave (ReceiveService.m_settings ?x)] => set (w3 := x) end.
  transitivity (radio w3); [|done]. clearbody w3. destruct (AppSettings.quickSave _); [apply radio_accept|done].
Qed.
Lemma radio_handleUploadHeaders t i (w : Receiver) : radio (ReceiveService.handleUploadHeaders t i w) = radio w.
Proof. unfold ReceiveService.handleUploadHeaders. cbv zeta. by repeat case_match. Qed.
Lemma radio_handleUploadFinished t i (w : Receiver) : radio (ReceiveService.handleUploadFinished t i w) = radio w.
Proof.
  unfold ReceiveService.handleUploadFinished. destruct (ReceiveService.m_uploads w !! i) as [upload|]; [|by case_match].
  cbv zeta. match goal with |- context [ReceiveService.closeHashingFile i ?x] =>
    pose proof (radio_closeHashingFile i x) as Hc; set (w1 := ReceiveService.closeHashingFile i x) in * end.
  transitivity (radio w1); [|exact Hc]. clearbody w1. clear Hc.
  match goal with |- radio (if ReceiveService.all_settled ?x then _ else _) = _ => set (w2 := x) end.
  assert (Hw : radio w2 = radio w1) by (unfold w2; by repeat case_match).
  rewrite <- Hw. clearbody w2. destruct (ReceiveService.all_settled w2); [apply radio_finish|done].
Qed.
Lemma radio_onUploadClosed t i (w : Receiver) : radio (ReceiveService.onUploadClosed t i w) = radio w.
Proof.
  unfold ReceiveService.onUploadClosed. destruct (ReceiveService.m_uploads w !! i) as [upload|]; [|done]. cbv zeta.
  match goal with |- context [ReceiveService.closeHashingFile i ?x] =>
    pose proof (radio_closeHashingFile i x) as Hc; set (w1 := ReceiveService.closeHashingFile i x) in * end.
  transitivity (radio w1); [|exact Hc]. clearbody w1.
  match goal with |- radio (if ReceiveService.all_settled ?x then _ else _) = _ => set (w2 := x) end.
  transitivity (radio w2); [|done]. destruct (ReceiveService.all_settled w2); [apply radio_finish|done].
Qed.
Lemma radio_handleCancel t i (w : Receiver) : radio (ReceiveService.handleCancel t i w) = radio w.
Proof.
  unfold ReceiveService.handleCancel. cbv zeta. destruct (_ && _); [exact (radio_releasePending (ReceiveService.answer t i 200 w))|].
  destruct (_ && _); [|done]. exact (radio_finish t _ (ReceiveService.answer t i 200 w)).
Qed.
Lemma radio_decline t (w : Receiver) : radio (ReceiveService.decline t w) = radio w.
Proof. unfold ReceiveService.decline. destruct (ReceiveService.m_pending w) as [i|]; [|done]. exact (radio_releasePending (ReceiveService.answer t i 403 w)). Qed.
Lemma radio_onPendingClosed t i (w : Receiver) : radio (ReceiveService.onPendingClosed t i w) = radio w.
Proof. unfold ReceiveService.onPendingClosed. cbv zeta. by repeat case_match. Qed.
#[export] Instance radio_framed x : HttpFrame.Framed (fun w : Receiver => radio w = x).
Proof.
  split; cbn.
  - done.
  - intros s d w <-. apply radio_writeData.
  - intros t i w <-. unfold ReceiveService.onHeadersReady. case_match; [apply radio_handleUploadHeaders|done].
  - intros t i w <-. unfold ReceiveService.onRequestReady. cbv zeta. destruct (_ || _); [done|]. destruct (qeq _ _).
    { unfold ReceiveService.handleRegister.
      match goal with |- context [Discovery.registerPeer ?a ?b ?c ?d] => pose proof (dial_registerPeer a b c d) as Hd;
        destruct (Discovery.registerPeer a b c d) end.
      unfold radio. f_equal. exact Hd. }
    destruct (qeq _ _); [apply radio_handlePrepareUpload|]. destruct (qeq _ _); [apply radio_handleUploadFinished|].
    destruct (qeq _ _); [apply radio_handleCancel|done].
  - intros t i r _ w <-. unfold ReceiveService.onBodyProgress. by repeat case_match.
  - intros t i w <-. unfold ReceiveService.onClosed. cbv zeta.
    match goal with |- context [ReceiveService.onPendingClosed t i ?x] => transitivity (radio x) end.
    + case_bool_decide; [apply radio_onPendingClosed|done].
    + case_bool_decide; [apply radio_onUploadClosed|done].
Qed.

(** Every event of the receiving half but the calls that open the listener. *)
Lemma radio_cancel t (w : Receiver) : radio (ReceiveService.cancel t w) = radio w.
Proof.
  unfold ReceiveService.cancel. destruct (_ && _); [apply radio_decline|].
  destruct (is_empty _); [done|]. rewrite radio_finish. unfold ReceiveService.notifyPeerCancelled. by destruct (_ || _).
Qed.
Lemma stop_deaf s : HttpServer.isListening (HttpServer.stop s) = false.
Proof. unfold HttpServer.stop. by destruct (HttpServer.isListening s) eqn:E. Qed.
Lemma radio_stopListening t (w : Receiver) :
  radio (ReceiveService.stopListening t w) = (false, dial (ReceiveService.m_discovery w)).
Proof.
  unfold ReceiveService.stopListening. destruct (HttpServer.isListening (ReceiveService.m_server w)) eqn:E; cbn [negb].
  - pose proof (radio_finish t (lit "cancelled") w) as Hf. set (w1 := ReceiveService.finishSession _ _ _) in *. clearbody w1.
    assert (Ed : dial (ReceiveService.m_discovery w1) = dial (ReceiveService.m_discovery w)) by exact (f_equal snd Hf).
    transitivity (HttpServer.isListening (HttpServer.stop (ReceiveService.m_server w1)), dial (ReceiveService.m_discovery w1)); [done|].
    by rewrite stop_deaf, Ed.
  - unfold radio. by rewrite E.
Qed.
Lemma dial_startListening l (w : Receiver) :
  dial (ReceiveService.m_discovery (ReceiveService.startListening l w).2) = dial (ReceiveService.m_discovery w).
Proof.
  unfold ReceiveService.startListening. destruct (HttpServer.isListening _); [done|]. cbv zeta.
  destruct (AppSettings.isEncrypted _); destruct (HttpServer.start _ _ _) as [[] server]; done.
Qed.
Lemma radio_handle t e (w : Receiver) :
  dial (ReceiveService.m_discovery (ReceiveService.handle t w e)) = dial (ReceiveService.m_discovery w)
  /\ (HttpServer.isListening (ReceiveService.m_server w) = false -> (forall l, e <> ReceiveService.StartListening l) ->
      radio (ReceiveService.handle t w e) = radio w).
Proof.
  assert (Hsame : forall w', radio w' = radio w ->
    dial (ReceiveService.m_discovery w') = dial (ReceiveService.m_discovery w)
    /\ (HttpServer.isListening (ReceiveService.m_server w) = false -> (forall l, e <> ReceiveService.StartListening l) -> radio w' = radio w)).
  { intros w' Hw. split; [exact (f_equal snd Hw)|done]. }
  destruct e; cbn [ReceiveService.handle].
  - destruct (ReceiveService.w_conns w !! i); by apply Hsame.
  - destruct (ReceiveService.w_conns w !! i); [|by apply Hsame]. apply Hsame.
    by apply (HttpFrame.frame_handle (fun w' : Receiver => radio w' = radio w)).
  - apply Hsame, radio_accept.
  - apply Hsame, radio_decline.
  - apply Hsame, radio_cancel.
  - apply Hsame. case_match; [|done]. unfold ReceiveService.onAcceptTimeout. cbv zeta.
    match goal with |- context [ReceiveService.m_pending ?x] => destruct (ReceiveService.m_pending x) as [i|]; [|done];
      exact (radio_releasePending (ReceiveService.answer t i 403 x)) end.
  - apply Hsame. case_match; [|done]. unfold ReceiveService.onSessionIdle. cbv zeta. case_match; [done|].
    match goal with |- context [ReceiveService.finishSession ?a ?b ?x] => exact (radio_finish a b x) end.
  - cbv zeta. match goal with |- context [ReceiveService.onSettingsChanged t listened ?x] => set (w1 := x) end.
    assert (Hw : radio w1 = radio w) by done. clearbody w1. rewrite <- Hw in Hsame |- *.
    assert (Hd : dial (ReceiveService.m_discovery w1) = dial (ReceiveService.m_discovery w)) by exact (f_equal snd Hw).
    destruct (_ =? _); [by apply Hsame|]. unfold ReceiveService.onSettingsChanged.
    destruct (HttpServer.isListening (ReceiveService.m_server w1)) eqn:El; cbn [negb]; [|by apply Hsame].
    split; [|apply (f_equal fst) in Hw; cbn in Hw; congruence]. rewrite dial_startListening, <- Hd.
    exact (f_equal snd (radio_stopListening t w1)).
  - by apply Hsame.
  - apply Hsame. by case_match.
  - split; [apply dial_startListening|]. intros _ Hn. by destruct (Hn listened).
  - pose proof (radio_stopListening t w) as Hs. split; [exact (f_equal snd Hs)|].
    intros Hl _. rewrite Hs. unfold radio. by rewrite Hl.
Qed.

(** ** Discovery, with its socket closed *)

Definition switch (d : Discovery) := (Discovery.m_running d, Discovery.m_socket d).
(** Neither on nor off, and nothing on the air without a socket. *)
Definition calm (d d' : Discovery) : Prop :=
  switch d' = switch d /\ (Discovery.m_socket d = false -> broadcasts d' = broadcasts d).
#[local] Instance calm_preorder : PreOrder calm.
Proof.
  split; [done|]. intros a b c [A1 A2] [B1 B2]. split; [congruence|]. intros Ha. rewrite <- A2 by done. apply B2.
  pose proof (f_equal snd A1) as E. cbn in E. congruence.
Qed.
Lemma calm_dial d d' : dial d' = dial d -> calm d d'.
Proof. intros Hd. split; [exact (f_equal fst Hd)|]. intros _. exact (f_equal snd Hd). Qed.
Lemma calm_fold {A} (f : Discovery -> A -> Discovery) l d : (forall d a, calm d (f d a)) -> calm d (foldl f d l).
Proof. intros Hf. revert d. induction l as [|a l IH]; intros d; [reflexivity|]. etransitivity; [apply Hf|apply IH]. Qed.
Lemma calm_upsert t peer d : calm d (Discovery.upsert t peer d).
Proof. apply calm_dial, dial_upsert. Qed.
Lemma calm_probe t ms slot h p scheme d : calm d (Discovery.probe t ms slot h p scheme d).
Proof. by apply calm_dial. Qed.
Lemma calm_accept t u o d : calm d (Discovery.acceptRegisterReply t u o d).2.
Proof.
  unfold Discovery.acceptRegisterReply. destruct (out_error o); [reflexivity|]. destruct (from_json _) as [[]|]; try reflexivity.
  cbv zeta. destruct (_ || _); [reflexivity|]. destruct (_ && _); [reflexivity|]. apply calm_upsert.
Qed.
Lemma calm_refresh t d : calm d (Discovery.refreshManualDevices t d).
Proof.
  apply calm_fold. intros d' e. unfold Discovery.refresh_endpoint. destruct (last_index_of 58 e) as [[|n]|]; try reflexivity.
  cbv zeta. destruct (_ || _); [reflexivity|]. etransitivity; apply calm_probe.
Qed.
Lemma calm_joinGroups t d : calm d (Discovery.joinGroups t d).
Proof.
  unfold Discovery.joinGroups. destruct (negb _); [reflexivity|]. apply calm_fold. intros d' i.
  destruct (negb _); [reflexivity|]. case_bool_decide; [reflexivity|]. case_match; [by apply calm_dial|reflexivity].
Qed.
Lemma calm_sendAnnouncement t b d : calm d (Discovery.sendAnnouncement t b d).
Proof.
  unfold Discovery.sendAnnouncement. destruct (Discovery.m_socket d) eqn:E; cbn [negb]; [|reflexivity].
  split; [|congruence]. cbv zeta. generalize (Discovery.announcement b d). intros payload.
  match goal with |- context [foldl ?f (false, d) ?l] => set (g := f); assert (Hf : forall any d', switch (foldl g (any, d') l).2 = switch d') end.
  { induction (allInterfaces t) as [|i l IH]; intros any d'; [done|]. cbn [foldl]. unfold g at 2. destruct (negb _); by rewrite IH. }
  specialize (Hf false d). destruct (foldl g (false, d) _) as [any d']. cbn [snd] in Hf. rewrite <- Hf. by destruct any.
Qed.
Lemma calm_announce t d : calm d (Discovery.announce t d).
Proof.
  unfold Discovery.announce. cbv zeta. etransitivity; [apply (calm_joinGroups t)|]. etransitivity; [apply (calm_sendAnnouncement t true)|].
  etransitivity; [apply (calm_refresh t)|]. by apply calm_dial.
Qed.
Lemma calm_handlePayload t payload from d : calm d (Discovery.handlePayload t payload from d).
Proof.
  unfold Discovery.handlePayload. cbv zeta. destruct (negb _); [reflexivity|]. destruct (qeq _ _); [reflexivity|].
  etransitivity; [apply calm_upsert|]. destruct (jbool_or _ _); [|reflexivity].
  match goal with |- calm ?x _ => generalize x; intros d1 end. unfold Discovery.respondTo.
  destruct (match Discovery.m_lastResponse d1 !! _ with Some _ => _ | None => _ end); [reflexivity|]. cbv zeta.
  match goal with |- context [if Discovery.m_socket ?x then _ else _] => assert (H2' : calm d1 x); [|set (d2 := x) in *; clearbody d2] end.
  { etransitivity; [|by apply calm_dial]. destruct (_ <=? _); by apply calm_dial. }
  etransitivity; [exact H2'|]. match goal with |- calm _ (Discovery.postRegister _ _ ?x) => assert (H3' : calm d2 x) end.
  { destruct (Discovery.m_socket d2) eqn:E; [|reflexivity]. split; [done|congruence]. }
  etransitivity; [exact H3'|]. unfold Discovery.postRegister. destruct (is_empty _); [reflexivity|by apply calm_dial].
Qed.
Lemma calm_read_loop n t l d : calm d (Discovery.read_loop n t l d).2.
Proof.
  revert n d. induction l as [|x l IH]; intros [|n] d; try reflexivity. cbn [Discovery.read_loop]. cbv zeta.
  etransitivity; [|apply IH]. destruct x as [[from text]|]; [|reflexivity]. destruct (from_json text) as [[]|]; try reflexivity.
  apply calm_handlePayload.
Qed.
Lemma calm_pump t d : calm d (Discovery.pumpScanQueue t d).
Proof.
  unfold Discovery.pumpScanQueue. cbv zeta. transitivity (Discovery.pump_loop (List.length (Discovery.m_scanQueue d)) t d); [|case_match; by apply calm_dial].
  generalize (List.length (Discovery.m_scanQueue d)). intros n. revert d. induction n as [|n IH]; intros d; [reflexivity|].
  cbn [Discovery.pump_loop]. destruct (_ && _); [|reflexivity]. destruct (Discovery.m_scanQueue d) as [|target queue]; [reflexivity|].
  cbv zeta. etransitivity; [|apply IH]. by apply calm_dial.
Qed.
Lemma calm_scan t u o d : calm d (Discovery.onScanReplyFinished t u o d).
Proof.
  unfold Discovery.onScanReplyFinished. cbv zeta.
  match goal with |- context [Discovery.acceptRegisterReply t u o ?x] => pose proof (calm_accept t u o x) as Ha;
    destruct (Discovery.acceptRegisterReply t u o x) as [? d'] end.
  etransitivity; [|apply calm_pump]. etransitivity; [|by apply calm_dial]. etransitivity; [|exact Ha]. by apply calm_dial.
Qed.
Lemma calm_manual t u o d : calm d (Discovery.onManualReplyFinished t u o d).
Proof.
  unfold Discovery.onManualReplyFinished. cbv zeta. set (d1 := d <| Discovery.m_manualPending ::= Z.pred |>).
  match goal with |- context [0 <? Discovery.m_manualPending ?x] => assert (Hx : calm d x); [|set (d2 := x) in *; clearbody d2] end.
  - transitivity d1; [by apply calm_dial|]. destruct (negb _); [|reflexivity].
    pose proof (calm_accept t u o d1) as Ha. destruct (Discovery.acceptRegisterReply t u o d1) as [[name|] d']; [|exact Ha].
    etransitivity; [exact Ha|]. by apply calm_dial.
  - etransitivity; [exact Hx|]. destruct (0 <? _); by apply calm_dial.
Qed.
Lemma calm_reply t id o d : calm d (Discovery.reply_finished t id o d).
Proof.
  unfold Discovery.reply_finished. destruct (Discovery.replies d !! id) as [r|]; [|reflexivity]. cbv zeta.
  etransitivity; [by apply (calm_dial d (d <| Discovery.replies ::= delete id |>))|].
  destruct (Discovery.r_slot r).
  - unfold Discovery.onRegisterFinished. destruct (out_error o); [reflexivity|]. destruct (from_json _) as [[]|]; try reflexivity.
    cbv zeta. destruct (_ || _); [reflexivity|apply calm_upsert].
  - apply calm_accept.
  - apply calm_manual.
  - apply calm_scan.
Qed.
(** Only [start], [stop] and a refresh that starts turn discovery on or off. *)
Lemma discovery_calm t e d :
  e <> Discovery.Start -> e <> Discovery.Stop -> e <> Discovery.Refresh -> calm d (Discovery.handle t e d).
Proof.
  intros N1 N2 N3. destruct e; try done; cbn [Discovery.handle].
  - case_match; [apply calm_announce|reflexivity].
  - destruct (Discovery.take_due t (Discovery.m_shots d)) as [shots|]; [|reflexivity].
    etransitivity; [|apply calm_announce]. by apply calm_dial.
  - unfold Discovery.readDatagrams. destruct (negb _); [reflexivity|apply calm_read_loop].
  - apply calm_dial, dial_registerPeer.
  - unfold Discovery.addDeviceAt. destruct (0 <? _); [reflexivity|]. destruct (Discovery.split_port _ _) as [host targetPort].
    cbv zeta. destruct (is_empty _); [reflexivity|]. by apply calm_dial.
  - unfold Discovery.scanSubnet. destruct (Discovery.m_scanning d); [reflexivity|]. cbv zeta. destruct (is_empty _); [by apply calm_dial|].
    etransitivity; [|apply calm_pump]. by apply calm_dial.
  - unfold Discovery.cancelScan. destruct (negb _); [reflexivity|]. cbv zeta. destruct (_ =? _); by apply calm_dial.
  - apply calm_reply.
Qed.
(** A socket is only ever open while discovery runs. *)
Definition wired (d : Discovery) : Prop := Discovery.m_socket d = true -> Discovery.m_running d = true.
Lemma calm_wired d d' : calm d d' -> wired d -> wired d'.
Proof. unfold wired. by intros [[= -> ->] _]. Qed.
Lemma calm_running d d' : calm d d' -> Discovery.m_running d' = Discovery.m_running d.
Proof. intros [Hs _]. exact (f_equal fst Hs). Qed.
Lemma shots_running f (d : Discovery) : Discovery.m_running (set_field Discovery.m_shots f d) = Discovery.m_running d.
Proof. reflexivity. Qed.
Lemma timer_running f s (d : Discovery) :
  Discovery.m_running (Discovery.emit s (set_field Discovery.m_announceTimer f d)) = Discovery.m_running d.
Proof. reflexivity. Qed.
Lemma start_wired t d : wired d -> wired (Discovery.start t d).
Proof.
  intros Hd. unfold Discovery.start. destruct (Discovery.m_running d); [done|]. cbn [Discovery.bindSocket]. unfold Discovery.bindSocket.
  destruct (negb _); [done|]. cbv zeta. intros _.
  rewrite shots_running, (calm_running _ _ (calm_announce t _)), timer_running, (calm_running _ _ (calm_joinGroups t _)).
  reflexivity.
Qed.
Lemma discovery_wired t e d : wired d -> wired (Discovery.handle t e d).
Proof.
  intros Hd. destruct e; try (by eapply calm_wired, Hd; apply discovery_calm).
  - change (wired (Discovery.start t d)). by apply start_wired.
  - change (wired (Discovery.stop d)). unfold Discovery.stop. by destruct (Discovery.m_running d).
  - change (wired (Discovery.refresh t d)). unfold Discovery.refresh.
    destruct (Discovery.m_running d); [|by apply start_wired]. eapply calm_wired, Hd. apply calm_announce.
Qed.
End Radio.

(** ** The program *)

Section AppFacts.
Context `{OpenSSL, QtText, QHashOrder, Platform, JsonText, X509, AppPaths, SettingsHost, UrlText, HttpText}.
Context `{NetworkState, LocalFiles, OpenFiles, Disk}.
Context {S : Type} `{StoredFiles S}.
#[local] Abbreviation App := (App (S := S)).
#[local] Abbreviation Sender := (SendService.World (S := S)).
#[local] Abbreviation Receiver := (ReceiveService.World (S := S)).

(** What both point to is one. *)
Definition shared (a : App) : Prop :=
  SendService.m_settings (sender a) = ReceiveService.m_settings (receiver a)
  /\ SendService.m_transfer (sender a) = ReceiveService.m_transfer (receiver a)
  /\ SendService.m_history (sender a) = ReceiveService.m_history (receiver a)
  /\ SendService.m_known (sender a) = ReceiveService.m_known (receiver a).
(** What is the receiving half's own. *)
Definition own (r : Receiver) :=
  (ReceiveFacts.service r, ReceiveService.w_conns r, ReceiveService.m_tokens r, ReceiveService.m_sessionAddress r,
   ReceiveService.m_server r, radio r, ReceiveService.posts r).
Lemma shared_receiver r (a : App) : shared (receiver_did r a).
Proof. by split_and!. Qed.
Lemma shared_sender s (a : App) : shared (sender_did s a).
Proof. by split_and!. Qed.
Lemma own_sender s (a : App) : own (receiver (sender_did s a)) = own (receiver a).
Proof. reflexivity. Qed.
Lemma control_receiver r (a : App) : SendFacts.control (sender (receiver_did r a)) = SendFacts.control (sender a).
Proof. reflexivity. Qed.
Lemma own_ok r r' : own r' = own r -> ReceiveFacts.service_ok ∅ r -> ReceiveFacts.service_ok ∅ r'.
Proof. intros Ho. apply ReceiveFacts.service_ok_eq. exact (eq_sym (f_equal (fun x => x.1.1.1.1.1.1) Ho)). Qed.

(** A PIN is submitted only while no request is outstanding. *)
Definition orderly (a : App) (e : event) : bool :=
  match sending e with Some e => SendFacts.orderly (sender a) e | None => true end.
Fixpoint orderly_run (a : App) (events : list (Z * event)) : bool :=
  match events with
  | [] => true
  | te :: events => orderly a te.2 && orderly_run (handle te.1 te.2 a) events
  end.
Definition app_ok (a : App) : Prop :=
  ReceiveFacts.service_ok ∅ (receiver a) /\ SendFacts.sender_ok (sender a) /\ shared a.

Lemma start_then_discovery l f (r : Receiver) :
  ReceiveFacts.service_ok ∅ r -> ReceiveFacts.service_ok ∅ (discovery f (ReceiveService.startListening l r).2).
Proof.
  intros Hr. apply (ReceiveFacts.service_ok_eq ∅ (ReceiveService.startListening l r).2); [reflexivity|].
  by apply ReceiveFacts.startListening_ok.
Qed.
Lemma receive_ok t e (r : Receiver) : ReceiveFacts.service_ok ∅ r -> ReceiveFacts.service_ok ∅ (receive t e r).
Proof.
  intros Hr. assert (Hh : ReceiveFacts.service_ok ∅ (ReceiveService.handle t r e)).
  { apply ReceiveFacts.handle_ok; [apply ReceiveFacts.no_probes|exact Hr]. }
  destruct e; try exact Hh. destruct o; try exact Hh. unfold receive. cbv zeta.
  destruct (negb _); [|exact Hh]. unfold onReceiveEnabledChanged. destruct (AppSettings.receiveEnabled _).
  - by apply start_then_discovery.
  - match goal with |- ReceiveFacts.service_ok ∅ (_ (ReceiveService.stopListening t ?x)) =>
      apply (ReceiveFacts.service_ok_eq ∅ (ReceiveService.stopListening t x)); [reflexivity|] end.
    apply ReceiveFacts.stopListening_ok. exact Hh.
Qed.
Lemma app_handle_ok t e (a : App) : orderly a e = true -> app_ok a -> app_ok (handle t e a).
Proof.
  intros Ho (Hr & Hs & Hsh).
  assert (Hsend : forall e', sending e = Some e' -> app_ok (sender_did (SendService.handle t e' (sender a)) a)).
  { intros e' He. split_and!; [exact (own_ok _ _ (own_sender _ a) Hr)| |apply shared_sender].
    apply SendFacts.sender_handle_ok; [|exact Hs]. unfold orderly in Ho. by rewrite He in Ho. }
  assert (Hrecv : forall r, ReceiveFacts.service_ok ∅ r -> app_ok (receiver_did r a)).
  { intros r Hr'. split_and!; [exact Hr'| |apply shared_receiver].
    exact (SendFacts.sender_ok_eq _ _ (eq_sym (control_receiver r a)) Hs). }
  destruct e; try (by apply Hsend); apply Hrecv.
  - by apply receive_ok.
  - eapply ReceiveFacts.service_ok_eq, Hr. reflexivity.
  - eapply ReceiveFacts.service_ok_eq, Hr. reflexivity.
Qed.
Lemma main_ok t l settings known history files : app_ok (main t l settings known history files).
Proof.
  unfold main. cbv zeta. split_and!; [| |apply shared_receiver].
  - set (r0 := ReceiveService.World0 _ _ _). assert (Hr : ReceiveFacts.service_ok ∅ r0) by apply ReceiveFacts.World0_ok, map_empty_subseteq.
    change (ReceiveFacts.service_ok ∅ (discovery (Discovery.start t)
      (if AppSettings.receiveEnabled settings then (ReceiveService.startListening l r0).2 else r0))).
    destruct (AppSettings.receiveEnabled settings); [by apply start_then_discovery|].
    eapply ReceiveFacts.service_ok_eq, Hr. reflexivity.
  - eapply SendFacts.sender_ok_eq; [exact (eq_sym (control_receiver _ _))|]. apply SendFacts.sender0_ok.
Qed.
Lemma app_run_ok (a : App) events : orderly_run a events = true -> app_ok a -> app_ok (run a events).
Proof.
  revert a. induction events as [|[t e] events IH]; intros a Ho Hok; [done|]. cbn in Ho.
  apply andb_true_iff in Ho as [Ho Hrest]. apply IH; [done|]. by apply app_handle_ok.
Qed.

(** ** The receive switch *)

(** Off the air, with [said] broadcast so far. *)
Definition silent (said : list Discovery.Sent) (r : Receiver) : Prop := radio r = (false, (false, false, said)).
(** What turns the device on again. *)
Definition invites (e : event) : bool :=
  match e with
  | Receiving (ReceiveService.StartListening _) | Receiving (ReceiveService.Settings (AppSettings.OpReceive true) _)
  | Discovering Discovery.Start | Discovering Discovery.Refresh => true
  | _ => false
  end.
Lemma radio_discovery f (r : Receiver) :
  radio (discovery f r) = (HttpServer.isListening (ReceiveService.m_server r), dial (f (ReceiveService.m_discovery r))).
Proof. reflexivity. Qed.
Lemma silent_discovery t e said (r : Receiver) :
  invites (Discovering e) = false -> silent said r -> silent said (discovery (Discovery.handle t e) r).
Proof.
  intros Hi Hs. unfold silent in *. rewrite radio_discovery. pose proof (f_equal fst Hs) as Hl. pose proof (f_equal snd Hs) as Hd.
  cbn [radio fst snd] in Hl, Hd. rewrite Hl. f_equal. assert (Hc : e = Discovery.Stop \/ e <> Discovery.Stop) by (destruct e; (by left) || (by right)). destruct Hc as [->|Hn].
  - cbn [Discovery.handle]. unfold Discovery.stop. pose proof (f_equal (fun x => x.1.1) Hd) as Hr. cbn in Hr. by rewrite Hr.
  - destruct (discovery_calm t e (ReceiveService.m_discovery r)) as [Hsw Hb]; [by intros ->..|].
    pose proof (f_equal (fun x => x.1.2) Hd) as Hso. cbn in Hso. rewrite <- Hd. unfold dial. rewrite (Hb Hso). f_equal. exact Hsw.
Qed.
Lemma setReceiveEnabled_spec b (s : AppSettings.AppSettings (S := S)) :
  AppSettings.receiveEnabled (AppSettings.setReceiveEnabled b s) = b
  /\ AppSettings.port (AppSettings.setReceiveEnabled b s) = AppSettings.port s.
Proof.
  unfold AppSettings.setReceiveEnabled, AppSettings.set_flag. destruct (Bool.eqb b _) eqn:E.
  - apply Bool.eqb_prop in E. by split.
  - unfold AppSettings.receiveEnabled, AppSettings.flag, AppSettings.port, AppSettings.svalue_or. cbn.
    rewrite lookup_insert_eq, lookup_insert_ne by (apply qeq_false; lit_simpl; done). done.
Qed.
Lemma settings_switched t b l (r : Receiver) :
  ReceiveService.m_settings (ReceiveService.handle t r (ReceiveService.Settings (AppSettings.OpReceive b) l))
  = AppSettings.setReceiveEnabled b (ReceiveService.m_settings r).
Proof.
  cbn [ReceiveService.handle]. cbv zeta. rewrite (proj2 (Z.eqb_eq _ _)); [done|].
  exact (proj2 (setReceiveEnabled_spec b (ReceiveService.m_settings r))).
Qed.
(** Both listener and discovery stopped. *)
Lemma turned_off t (r : Receiver) :
  wired (ReceiveService.m_discovery r) ->
  silent (broadcasts (ReceiveService.m_discovery r)) (discovery Discovery.stop (ReceiveService.stopListening t r)).
Proof.
  intros Hw. unfold silent. rewrite radio_discovery. pose proof (radio_stopListening t r) as Hs.
  pose proof (f_equal fst Hs) as Hl. pose proof (f_equal snd Hs) as Hd. cbn [radio fst snd] in Hl, Hd. rewrite Hl. f_equal.
  set (d := ReceiveService.m_discovery (ReceiveService.stopListening t r)) in *. clearbody d.
  unfold dial in Hd. injection Hd as Hr Hso Hb. rewrite <- Hb. unfold Discovery.stop.
  destruct (Discovery.m_running d) eqn:E; cbn [negb]; [done|]. unfold dial. rewrite E.
  destruct (Discovery.m_socket d) eqn:Es; [|done]. unfold wired in Hw. rewrite <- Hr, <- Hso in Hw. by specialize (Hw eq_refl).
Qed.
Lemma silent_wired said (r : Receiver) : silent said r -> wired (ReceiveService.m_discovery r).
Proof.
  intros Hs. pose proof (f_equal (fun x => x.2.1.2) Hs) as Hso. cbn in Hso. unfold wired. by rewrite Hso.
Qed.
Lemma silent_receive t e said (r : Receiver) :
  invites (Receiving e) = false -> silent said r -> silent said (receive t e r).
Proof.
  intros Hi Hs. assert (Hl : HttpServer.isListening (ReceiveService.m_server r) = false) by exact (f_equal fst Hs).
  assert (Hh : silent said (ReceiveService.handle t r e)).
  { unfold silent. rewrite <- Hs. apply radio_handle; [exact Hl|]. by intros listened ->. }
  destruct e; try exact Hh. destruct o; try exact Hh. destruct b; [done|]. unfold receive. cbv zeta.
  destruct (negb _); [|exact Hh]. unfold onReceiveEnabledChanged.
  rewrite settings_switched, (proj1 (setReceiveEnabled_spec false _)).
  pose proof (turned_off t _ (silent_wired said _ Hh)) as Hoff.
  replace (broadcasts (ReceiveService.m_discovery (ReceiveService.handle t r _))) with said in Hoff; [exact Hoff|].
  symmetry. exact (f_equal (fun x => x.2.2) Hh).
Qed.
Lemma silent_run (a : App) said later :
  Forall (fun te => invites te.2 = false) later -> silent said (receiver a) -> silent said (receiver (run a later)).
Proof.
  revert a. induction later as [|[t e] later IH]; intros a Hl Ha; [done|]. apply Forall_cons in Hl as [He Hl]. apply IH; [done|].
  cbn [fst snd] in *. destruct e; cbn [handle]; try exact Ha.
  - by apply silent_receive.
  - by apply silent_discovery.
Qed.
Lemma wired_receive t e (r : Receiver) :
  wired (ReceiveService.m_discovery r) -> wired (ReceiveService.m_discovery (receive t e r)).
Proof.
  intros Hw. assert (Hh : wired (ReceiveService.m_discovery (ReceiveService.handle t r e))).
  { eapply calm_wired, Hw. apply calm_dial. apply radio_handle. }
  destruct e; try exact Hh. destruct o; try exact Hh. unfold receive. cbv zeta. destruct (negb _); [|exact Hh].
  unfold onReceiveEnabledChanged. destruct (AppSettings.receiveEnabled _).
  - apply start_wired. eapply calm_wired, Hh. apply calm_dial, dial_startListening.
  - eapply silent_wired, turned_off, Hh.
Qed.
Lemma wired_run (a : App) events :
  wired (ReceiveService.m_discovery (receiver a)) -> wired (ReceiveService.m_discovery (receiver (run a events))).
Proof.
  revert a. induction events as [|[t e] events IH]; intros a Ha; [done|]. apply IH. cbn [fst snd].
  destruct e; cbn [handle]; try exact Ha.
  - by apply wired_receive.
  - apply (discovery_wired t e _ Ha).
Qed.
Lemma wired_main t l (settings : AppSettings.AppSettings (S := S)) known history files :
  wired (ReceiveService.m_discovery (receiver (main t l settings known history files))).
Proof.
  unfold main. cbv zeta. set (r0 := ReceiveService.World0 _ _ _).
  match goal with |- context [discovery _ ?x] => set (r1 := x) end. apply (start_wired t (ReceiveService.m_discovery r1)).
  assert (Hd : dial (ReceiveService.m_discovery r1) = dial (ReceiveService.m_discovery r0)).
  { unfold r1. destruct (AppSettings.receiveEnabled settings); [apply dial_startListening|done]. }
  eapply calm_wired; [by apply calm_dial, Hd|done].
Qed.

(** C12: turning receiving off takes the device off the air. From start-up, after any
    history in which receiving is on, storing the setting off closes the listener and
    stops discovery; and whatever follows - replies still coming in, timers, searches,
    transfers of our own - short of a call that starts them again, nothing listens, no
    socket is open for announcements, and not one more datagram goes out. *)
Theorem switched_off_is_silent t0 l (settings : AppSettings.AppSettings (S := S)) known history files before t listened later :
  let a0 := main t0 l settings known history files in
  let a := run a0 before in
  AppSettings.receiveEnabled (ReceiveService.m_settings (receiver a)) = true ->
  Forall (fun te => invites te.2 = false) later ->
  let off := handle t (Receiving (ReceiveService.Settings (AppSettings.OpReceive false) listened)) a in
  let a' := run off later in
  ReceiveService.isListening (receiver a') = false
  /\ Discovery.isRunning (ReceiveService.m_discovery (receiver a')) = false
  /\ Discovery.m_socket (ReceiveService.m_discovery (receiver a')) = false
  /\ broadcasts (ReceiveService.m_discovery (receiver a')) = broadcasts (ReceiveService.m_discovery (receiver a)).
Proof.
  cbv zeta. set (a := run _ before). pose proof (wired_run _ before (wired_main t0 l settings known history files)) as Hw.
  fold a in Hw. clearbody a. intros Hon Hlater. set (off := handle t _ a).
  assert (Hoff : receiver off = onReceiveEnabledChanged t listened
    (ReceiveService.handle t (receiver a) (ReceiveService.Settings (AppSettings.OpReceive false) listened))).
  { unfold off. cbn [handle receiver receiver_did]. unfold receive. cbv zeta. by rewrite Hon. }
  unfold onReceiveEnabledChanged in Hoff. rewrite settings_switched, (proj1 (setReceiveEnabled_spec false _)) in Hoff.
  set (r1 := ReceiveService.handle t (receiver a) _) in *.
  assert (Hd : dial (ReceiveService.m_discovery r1) = dial (ReceiveService.m_discovery (receiver a))) by apply radio_handle.
  assert (Hs : silent (broadcasts (ReceiveService.m_discovery (receiver a))) (receiver off)).
  { assert (Hb : broadcasts (ReceiveService.m_discovery r1) = broadcasts (ReceiveService.m_discovery (receiver a))) by exact (f_equal snd Hd).
    rewrite Hoff, <- Hb. apply turned_off. eapply calm_wired, Hw. by apply calm_dial. }
  pose proof (silent_run off _ later Hlater Hs) as Hsil. unfold silent, radio, dial in Hsil. by injection Hsil.
Qed.
End AppFacts.
End AppFacts.
