(* ===== verification/Pages.v ===== *)
(** * Pages: src/qml/harbour-localsend.qml and the pages it puts on screen

    The window over the program of [App]: which page is on top, what a tap, a
    dialog or a swipe calls, and what the signals of the two services put on
    screen. A page is an object with a number; the pages of the stack are the
    numbers Silica's PageStack holds, topmost first. A page taken off the stack
    lives on until it is destroyed. *)
From S2P Require Import Prelude QtArg Json Crypto Reference Protocol DeviceInfo SecureStore Certificate TlsClient.
From S2P Require Import KnownDevices AppSettings HistoryModel SelectionModel DeviceModel FileNames Network Discovery.
From S2P Require Import RateLimiter TransferModel HttpConnection HttpServer SendService ReceiveService App JsNumber JsText.

(** Silica's PageStack. While a transition runs it may refuse an operation; then
    nothing changes. The first page is never popped. *)
Class PageStack := {
  Stack : Type;
  pages : Stack -> list Z;
  initial : Z -> Stack;                 (* initialPage *)
  push : Z -> Stack -> Stack;
  replace : Z -> Stack -> Stack;
  pop : Stack -> Stack;                 (* pop(), and the swipe back *)
  unwind : Stack -> Stack;              (* pop(null, Immediate) *)
  close : Z -> Stack -> Stack;          (* a dialog that was answered leaves *)
  settle : Stack -> Stack;              (* the transition is over *)
  pages_initial i : pages (initial i) = [i];
  pages_push i s : pages (push i s) = i :: pages s \/ pages (push i s) = pages s;
  pages_replace i s : pages (replace i s) = i :: tail (pages s) \/ pages (replace i s) = pages s;
  pages_pop s : pages (pop s) = tail (pages s) \/ pages (pop s) = pages s;
  pages_unwind s : pages (unwind s) = from_option (fun i => [i]) [] (last (pages s)) \/ pages (unwind s) = pages s;
  pages_close i s : pages (close i s) = List.filter (fun j => negb (j =? i)) (pages s);
  pages_settle s : pages (settle s) = pages s
}.
(** Which files of the translations directory [QTranslator::load] can load. *)
Class Translations := { loads : qstring -> bool }.

Module Pages.
Import App.

(** ** The pages *)

(** The settings, history, about, address and blocked-devices pages are told by
    their name; a dialog that changes one setting by the setting. *)
Inductive Setting := AliasSetting | PinSetting | PortSetting | FolderSetting.
Inductive Page :=
| MainPage | SelectionPage | TransferPage | ReceiveRequestPage
| FilePicker (opened_by_main : bool)
| ConflictDialog (device : list (qstring * variant)) | DeviceDetail (device : list (qstring * variant))
| PinDialog (retry : bool) (peerAlias : qstring)
| SettingDialog (k : Setting) | NamedPage (name : qstring).
Definition objectName (p : Page) : qstring :=
  match p with
  | MainPage => lit "mainPage"
  | SelectionPage => lit "selectionPage"
  | TransferPage => lit "transferPage"
  | ReceiveRequestPage => lit "receiveRequestPage"
  | PinDialog _ _ => lit "pinDialog"
  | NamedPage name => name
  | FilePicker _ | ConflictDialog _ | DeviceDetail _ | SettingDialog _ => []
  end.
Definition is_dialog (p : Page) : bool :=
  match p with FilePicker _ | ConflictDialog _ | PinDialog _ _ | SettingDialog _ => true | _ => false end.

Record Notification := mkNotification { summary : qstring; body : qstring }.
(** An entry of the share sheet, or of a picker: a text, or an object whose
    missing properties are empty. *)
Inductive Resource :=
| Text (path : qstring)
| Object (filePath url path data : qstring)
| Nothing.

(** [qsTr(text, "", n)] in the source language. *)
Definition files_text (n : Z) (rest : string) : qstring := number n ++ lit " file(s)" ++ lit rest.
(** [a || b] on texts. *)
Definition js_or (a b : qstring) : qstring := if is_empty a then b else a.

(** ** What is picked, and what is shared *)

(** The loop of the pickers: the path, or else the URL. *)
Definition picked_paths (content : list (qstring * qstring)) : list qstring :=
  foldl (fun paths item =>
    let path := if is_empty item.1 then item.2 else item.1 in
    if negb (is_empty path) then paths ++ [path] else paths) [] content.
(** The loop of [ShareTarget]'s [onTriggered]. *)
Definition shared_path (r : Resource) : qstring :=
  let path := match r with
              | Text path => path
              | Object filePath url path data => js_or filePath (js_or url (js_or path data))
              | Nothing => []
              end in
  if starts_with (lit "file://") path then qmid 7 path else path.
Definition shared_paths (resources : list Resource) : list qstring :=
  foldl (fun paths r => let path := shared_path r in
    if negb (is_empty path) then paths ++ [path] else paths) [] resources.

(** ** What is typed *)

(** [parseInt(text, 10)]: leading white space, a sign, and the digits up to the
    first character that is none; [None] for NaN. *)
Definition is_digit (c : Z) : bool := (48 <=? c) && (c <=? 57).
Fixpoint digits (s : qstring) : qstring :=
  match s with c :: s => if is_digit c then c :: digits s else [] | [] => [] end.
Definition digits_value (s : qstring) : option Z :=
  match digits s with
  | [] => None
  | l => Some (foldl (fun v c => v * 10 + (c - 48)) 0 l)
  end.
Definition parseInt (s : qstring) : option Z :=
  match drop_while JsText.is_ws s with
  | c :: rest => if c =? 45 then Z.opp <$> digits_value rest
                 else if c =? 43 then digits_value rest else digits_value (c :: rest)
  | [] => None
  end.
(** A number passed for an [int], NaN for 0. *)
Definition int_argument (v : option Z) : Z :=
  from_option (fun v => wrap32 (JsNumber.trunc (JsNumber.of_int v))) 0 v.
(** What a dialog that accepts the text does; [None] if it does not accept it. *)
Definition setting_op (k : Setting) (text : qstring) : option AppSettings.op :=
  match k with
  | AliasSetting => let name := JsText.trim text in
                    if is_empty name then None else Some (AppSettings.OpAlias name)
  | PinSetting => if (4 <=? len text) && (len text <=? 8) then Some (AppSettings.OpPin text) else None
  | PortSetting => match parseInt text with
                   | Some value => if (1024 <=? value) && (value <=? 65535) then Some (AppSettings.OpPort value) else None
                   | None => None
                   end
  | FolderSetting => Some (AppSettings.OpDestination text)
  end.

(** [if (device.conflict)] *)
Definition conflicts (device : list (qstring * variant)) : bool :=
  match SendService.device_value "conflict" VInvalid device with VBool b => b | _ => false end.

#[local] Existing Instances SelectionModel.eta_SelectionModel.

Section Pages.
Context `{OpenSSL, QtText, QHashOrder, Platform, JsonText, X509, AppPaths, SettingsHost, UrlText, HttpText}.
Context `{NetworkState, LocalFiles, OpenFiles, Disk, PageStack, Translations}.
Context {S : Type} `{StoredFiles S}.
#[local] Abbreviation App := (App (S := S)).

Record Window := mkWindow {
  app : App;
  stack : Stack;
  objects : gmap Z Page;                (* the pages that exist *)
  next_object : Z;
  decided : gset Z;                     (* the request pages whose [decided] is set *)
  answered : gset Z;                    (* the dialogs that were accepted or rejected *)
  pendingDevice : option (list (qstring * variant));
  selection : SelectionModel.SelectionModel;
  active : bool;                        (* Qt.application.active *)
  published : list Notification;        (* newest first *)
  translator : option qstring;          (* the file installed *)
  calls : list (Z * event)              (* everything the program was told, newest first *)
}.
#[export] Instance eta_Window : Settable Window := fun r =>
  mkWindow (app r) (stack r) (objects r) (next_object r) (decided r) (answered r) (pendingDevice r) (selection r)
    (active r) (published r) (translator r) (calls r).

Definition appSettings (w : Window) : AppSettings.AppSettings (S := S) := ReceiveService.m_settings (receiver (app w)).
Definition transfer (w : Window) : TransferModel.TransferModel := ReceiveService.m_transfer (receiver (app w)).
Definition on_stack (i : Z) (w : Window) : bool := bool_decide (i ∈ pages (stack w)).
Definition current (w : Window) : option (Z * Page) :=
  match pages (stack w) with
  | i :: _ => (fun p => (i, p)) <$> objects w !! i
  | [] => None
  end.
Definition currentObjectName (w : Window) : qstring := from_option (fun ip => objectName ip.2) [] (current w).

(** ** The page stack's calls *)

(** The page is made if the stack takes it. *)
Definition enter (p : Page) (f : Z -> Stack -> Stack) (w : Window) : Window :=
  let i := next_object w in
  let s := f i (stack w) in
  w <| stack := s |> <| next_object ::= Z.succ |>
    <| objects ::= fun m => if bool_decide (i ∈ pages s) then <[i := p]> m else m |>.
Definition push_page (p : Page) : Window -> Window := enter p push.
Definition replace_page (p : Page) : Window -> Window := enter p replace.
Definition pop_page (w : Window) : Window := w <| stack ::= pop |>.

(** ** The window's slots *)

Definition showTransferPage (w : Window) : Window :=
  let current := currentObjectName w in
  if qeq current (lit "transferPage") then w
  else if qeq current (lit "receiveRequestPage") then replace_page TransferPage w
  else push_page TransferPage w.
Definition publish (n : Notification) (w : Window) : Window := w <| published ::= cons n |>.
Definition onRequestArrived (peerAlias : qstring) (fileCount : Z) (w : Window) : Window :=
  let w := if negb (qeq (currentObjectName w) (lit "receiveRequestPage")) then push_page ReceiveRequestPage w else w in
  if AppSettings.notificationsEnabled (appSettings w) && negb (active w)
  then publish (mkNotification (QtArg.arg peerAlias (lit "%1 wants to send you files")) (files_text fileCount "")) w
  else w.
Definition onTransferFinished (status : qstring) (fileCount : Z) (destination : qstring) (w : Window) : Window :=
  if negb (AppSettings.notificationsEnabled (appSettings w)) || active w then w
  else if qeq status (lit "finished")
  then publish (mkNotification (files_text fileCount " received") destination) w
  else publish (mkNotification (lit "Transfer incomplete") (TransferModel.m_peerAlias (transfer w))) w.
Definition onPinRequired (retry : bool) (w : Window) : Window :=
  let p := PinDialog retry (TransferModel.m_peerAlias (transfer w)) in
  if qeq (currentObjectName w) (lit "pinDialog") then replace_page p w else push_page p w.
Definition onFinished (status : qstring) (fileCount : Z) (w : Window) : Window :=
  if negb (AppSettings.notificationsEnabled (appSettings w)) || active w then w
  else if negb (qeq status (lit "finished")) then w
  else publish (mkNotification (files_text fileCount " sent") (TransferModel.m_peerAlias (transfer w))) w.

Definition of_receiver (w : Window) (s : ReceiveService.signal) : Window :=
  match s with
  | ReceiveService.requestArrived peerAlias fileCount _ => onRequestArrived peerAlias fileCount w
  | ReceiveService.transferStarted => showTransferPage w
  | ReceiveService.transferFinished status fileCount destination => onTransferFinished status fileCount destination w
  | ReceiveService.listeningChanged => w
  end.
Definition of_sender (w : Window) (s : SendService.signal) : Window :=
  match s with
  | SendService.pinRequired retry => onPinRequired retry w
  | SendService.finished status fileCount => onFinished status fileCount w
  | SendService.busyChanged | SendService.declined => w
  end.
(** What was emitted since, oldest first. *)
Definition news {A} (before after : list A) : list A := rev (take (List.length after - List.length before) after).
(** The program is told of an event, and its signals reach the window's slots. *)
Definition call (t : Z) (e : event) (w : Window) : Window :=
  let a := app w in
  let a' := handle t e a in
  let w := w <| app := a' |> <| calls ::= cons (t, e) |> in
  let w := foldl of_receiver w (news (ReceiveService.emitted (receiver a)) (ReceiveService.emitted (receiver a'))) in
  foldl of_sender w (news (SendService.emitted (sender a)) (SendService.emitted (sender a'))).

(** ** MainPage *)

Definition chooseFilesFor (device : option (list (qstring * variant))) (w : Window) : Window :=
  w <| pendingDevice := device |> |>> push_page (FilePicker true).
Definition dispatchSend (t : Z) (device : list (qstring * variant)) (w : Window) : Window :=
  call t (SendFiles device (SelectionModel.paths (selection w))) w |>> push_page TransferPage.
Definition startSend (t : Z) (device : list (qstring * variant)) (w : Window) : Window :=
  if SelectionModel.isEmpty (selection w) then chooseFilesFor (Some device) w
  else if TransferModel.active (transfer w) then w
  else if conflicts device then push_page (ConflictDialog device) w
  else dispatchSend t device w.
Definition filesPicked (t : Z) (paths : list qstring) (w : Window) : Window :=
  let w := w <| selection ::= fun m => (SelectionModel.addAll paths m).2 |> in
  let target := pendingDevice w in
  let w := w <| pendingDevice := None |> in
  match target with
  | Some device => if 0 <? SelectionModel.count (selection w) then startSend t device w else w
  | None => w
  end.
(** [deviceModel.get(index)] *)
Definition device_get (row : Z) (w : Window) : list (qstring * variant) :=
  let d := ReceiveService.m_discovery (receiver (app w)) in
  DeviceModel.get (Discovery.m_known d) row (Discovery.m_devices d).

(** ** ReceiveRequestPage, TransferPage, the cover *)

Definition answer (t i : Z) (accepted : bool) (w : Window) : Window :=
  if bool_decide (i ∈ decided w) then w
  else
    let w := w <| decided ::= union {[i]} |> in
    if accepted then call t (Receiving ReceiveService.Accept) w else call t (Receiving ReceiveService.Decline) w.
Definition block_peer (t : Z) (w : Window) : Window :=
  call t (Receiving (ReceiveService.Known
    (KnownDevices.OpSetBlocked t (TransferModel.m_peerFingerprint (transfer w))
       (TransferModel.m_peerAlias (transfer w)) true))) w.
Definition onDestruction (t i : Z) (w : Window) : Window :=
  if negb (bool_decide (i ∈ decided w)) && qeq (TransferModel.stateName (transfer w)) (lit "pending")
  then call t (Receiving ReceiveService.Decline) w else w.
Definition is_sending (w : Window) : bool := qeq (TransferModel.directionName (transfer w)) (lit "send").
Definition is_over (w : Window) : bool :=
  let state := TransferModel.stateName (transfer w) in
  qeq state (lit "finished") || qeq state (lit "failed") || qeq state (lit "cancelled").
(** [stop()] of TransferPage, and the cover's action. *)
Definition stop (t : Z) (w : Window) : Window :=
  if is_sending w then call t CancelSending w else call t (Receiving ReceiveService.Cancel) w.
Definition cover_busy (w : Window) : bool :=
  let state := TransferModel.stateName (transfer w) in
  qeq state (lit "active") || qeq state (lit "requesting").
(** The [Binding] on the keep-alive plugin. *)
Definition keeps_awake (w : Window) : bool :=
  let state := TransferModel.stateName (transfer w) in
  AppSettings.keepAwake (appSettings w) && (qeq state (lit "active") || qeq state (lit "requesting")).

(** ** SettingsPage, AddDevicePage *)

(** The settings are one object; [listened] is what listening again on a new port
    comes to. *)
Definition change (t : Z) (o : AppSettings.op) (listened : option qstring) (w : Window) : Window :=
  call t (Receiving (ReceiveService.Settings o listened)) w.
Definition togglePin (t : Z) (on : bool) (w : Window) : Window :=
  if negb (AppSettings.receiveEnabled (appSettings w)) then w
  else
    let w := change t (AppSettings.OpPinEnabled on) None w in
    if on && negb (AppSettings.pinIsSet (appSettings w)) then push_page (SettingDialog PinSetting) w else w.
Definition removePin (t : Z) (w : Window) : Window :=
  if negb (AppSettings.pinIsSet (appSettings w)) then w
  else change t (AppSettings.OpPin []) None w |>> change t (AppSettings.OpPinEnabled false) None |>> pop_page.
(** The name field, when it loses the focus. *)
Definition rename (t : Z) (text : qstring) (w : Window) : Window :=
  match setting_op AliasSetting text with Some o => change t o None w | None => w end.
Definition lookUp (t : Z) (address port : qstring) (w : Window) : Window :=
  let address := JsText.trim address in
  if is_empty address then w
  else call t (Discovering (Discovery.AddDevice address (int_argument (parseInt port)))) w.

(** ** Sharing, and the language *)

Definition receiveSharedFiles (paths : list qstring) (w : Window) : Window :=
  if is_empty paths then w
  else
    let w := w <| active := true |>   (* activate() *)
               <| selection ::= fun m => (SelectionModel.addAll paths m).2 |> in
    if negb (qeq (currentObjectName w) (lit "transferPage")) && (1 <? len (pages (stack w)))
    then w <| stack ::= unwind |> else w.
Definition translation_file (w : Window) : qstring :=
  QtArg.arg (AppSettings.language (appSettings w)) (lit "harbour-localsend-%1").
Definition loadTranslation (w : Window) : Window :=
  let file := translation_file w in
  if loads file then w <| translator := Some file |> else w.
(** The slot on [languageChanged] reloads the view, with every page of it. *)
Definition onLanguageChanged (w : Window) : Window :=
  let w := w <| translator := None |> |>> loadTranslation in
  let i := next_object w in
  w <| stack := initial i |> <| objects ::= <[i := MainPage]> |> <| next_object ::= Z.succ |>
    <| pendingDevice := None |>.
(** [main], with the view. *)
Definition open_window (a : App) : Window :=
  loadTranslation (mkWindow a (initial 0) {[0 := MainPage]} 1 ∅ ∅ None SelectionModel.SelectionModel0 true [] None []).

(** ** What the person does *)

(** The calls only pages make. *)
Definition pages_only (e : event) : bool :=
  match e with
  | SendFiles _ _ | SubmitPin _ | CancelSending => true
  | Receiving (ReceiveService.Accept | ReceiveService.Decline | ReceiveService.Cancel) => true
  | _ => false
  end.
Inductive gesture :=
| Happens (e : event)                   (* anything else the program is told *)
| Staging (o : SelectionModel.op)       (* the tray, and the rows of the selection *)
| Activated (on : bool) | Settled | SwipeBack
| OpenPage (p : Page)                   (* a menu, the tray *)
| AddFiles | ClearAll
| TapDevice (row : Z) | ShowDetails (row : Z) | SendFromDetails
| Picked (content : list (qstring * qstring)) | SendAnyway | GivePin (pin : qstring)
| Accepted (text : qstring) (listened : option qstring) | Rejected (i : Z)
| TogglePin (on : bool) | RemovePin | Rename (text : qstring) | LookUp (address port : qstring)
| TapAccept | TapDecline | TapBlock
| TapTransferButton | TapCover
| Shared (resources : list Resource)
| Closed (i : Z) | Destroyed (i : Z).

Definition happens (t : Z) (e : event) (w : Window) : Window :=
  let language := AppSettings.language (appSettings w) in
  let w := call t e w in
  if qeq (AppSettings.language (appSettings w)) language then w else onLanguageChanged w.
(** What a page's menus, buttons and rows open. *)
Definition opens (w : Window) (from p : Page) : bool :=
  match from, p with
  | MainPage, SettingDialog AliasSetting => true
  | MainPage, SelectionPage => negb (SelectionModel.isEmpty (selection w))
  | MainPage, NamedPage name =>
      bool_decide (name ∈ [lit "aboutPage"; lit "settingsPage"; lit "historyPage"; lit "addDevicePage"])
  | SelectionPage, FilePicker false => true
  | NamedPage name, SettingDialog PinSetting => qeq name (lit "settingsPage") && AppSettings.pinEnabled (appSettings w)
  | NamedPage name, SettingDialog (PortSetting | FolderSetting) => qeq name (lit "settingsPage")
  | NamedPage name, NamedPage next => qeq name (lit "settingsPage") && qeq next (lit "blockedDevicesPage")
  | _, _ => false
  end.
(** A dialog on top that has not been answered, and is now. *)
Definition answer_dialog (i : Z) (w : Window) : Window := w <| answered ::= union {[i]} |>.
Definition accept_dialog (f : Page -> option (Window -> Window)) (w : Window) : Window :=
  match current w with
  | Some (i, p) => if is_dialog p && negb (bool_decide (i ∈ answered w))
                   then match f p with Some f => f (answer_dialog i w) | None => w end
                   else w
  | None => w
  end.
Definition on_rejected (t : Z) (p : Page) (w : Window) : Window :=
  match p with
  | FilePicker true => w <| pendingDevice := None |>
  | PinDialog _ _ => call t CancelSending w
  | _ => w
  end.
Definition on_request (f : Z -> Window -> Window) (w : Window) : Window :=
  match current w with Some (i, ReceiveRequestPage) => f i w | _ => w end.
Definition on_named (name : string) (f : Window -> Window) (w : Window) : Window :=
  match current w with Some (_, NamedPage n) => if qeq n (lit name) then f w else w | _ => w end.

Definition step (t : Z) (g : gesture) (w : Window) : Window :=
  match g with
  | Happens e => if pages_only e then w else happens t e w
  | Staging o => w <| selection ::= fun m => SelectionModel.run_op m o |>
  | Activated on => w <| active := on |>
  | Settled => w <| stack ::= settle |>
  | SwipeBack => match current w with Some (_, p) => if is_dialog p then w else pop_page w | None => w end
  | OpenPage p => match current w with
                  | Some (_, from) => if opens w from p then push_page p w else w
                  | None => w
                  end
  | AddFiles => match current w with Some (_, MainPage) => chooseFilesFor None w | _ => w end
  | ClearAll => match current w with
                | Some (_, SelectionPage) => pop_page (w <| selection ::= SelectionModel.clear |>)
                | _ => w
                end
  | TapDevice row => match current w with Some (_, MainPage) => startSend t (device_get row w) w | _ => w end
  | ShowDetails row => match current w with
                       | Some (_, MainPage) => push_page (DeviceDetail (device_get row w)) w
                       | _ => w
                       end
  | SendFromDetails => match current w with
                       | Some (_, DeviceDetail device) =>
                           if TransferModel.active (transfer w) then w else startSend t device (pop_page w)
                       | _ => w
                       end
  | Picked content => accept_dialog (fun p => match p with
                        | FilePicker true => Some (filesPicked t (picked_paths content))
                        | FilePicker false => Some (fun w => w <| selection ::= fun m =>
                                                (SelectionModel.addAll (picked_paths content) m).2 |>)
                        | _ => None
                        end) w
  | SendAnyway => accept_dialog (fun p => match p with
                    | ConflictDialog device => Some (dispatchSend t device)
                    | _ => None
                    end) w
  | GivePin pin => accept_dialog (fun p => match p with
                     | PinDialog _ _ => if is_empty pin then None else Some (call t (SubmitPin pin))
                     | _ => None
                     end) w
  | Accepted text listened => accept_dialog (fun p => match p with
                                | SettingDialog k => (fun o => change t o listened) <$> setting_op k text
                                | _ => None
                                end) w
  | TogglePin on => on_named "settingsPage" (togglePin t on) w
  | RemovePin => match current w with Some (_, SettingDialog PinSetting) => removePin t w | _ => w end
  | Rename text => on_named "settingsPage" (rename t text) w
  | LookUp address port => on_named "addDevicePage" (lookUp t address port) w
  | Rejected i => match objects w !! i with
                  | Some p => if is_dialog p && negb (bool_decide (i ∈ answered w))
                                 && (bool_decide (fst <$> current w = Some i) || negb (on_stack i w))
                              then on_rejected t p (answer_dialog i w) else w
                  | None => w
                  end
  | TapAccept => on_request (fun i => answer t i true) w
  | TapDecline => on_request (fun i w => pop_page (answer t i false w)) w
  | TapBlock => on_request (fun i w => pop_page (answer t i false (block_peer t w))) w
  | TapTransferButton => match current w with
                         | Some (_, TransferPage) => if is_over w then pop_page w else stop t w
                         | _ => w
                         end
  | TapCover => if cover_busy w then stop t w else w
  | Shared resources => receiveSharedFiles (shared_paths resources) w
  | Closed i => if bool_decide (i ∈ answered w) then w <| stack ::= close i |> else w
  | Destroyed i => match objects w !! i with
                   | Some p => if on_stack i w then w
                               else let w := w <| objects ::= delete i |> in
                                    match p with ReceiveRequestPage => onDestruction t i w | _ => w end
                   | None => w
                   end
  end.
Definition run (w : Window) (history : list (Z * gesture)) : Window := foldl (fun w tg => step tg.1 tg.2 w) w history.
End Pages.
End Pages.
