(* ===== verification/PagesFacts.v ===== *)
(** * PagesFacts: what the pages guarantee

    The pages make the calls the services take for granted: a PIN is given only
    to a sender that waits for one, and files are accepted only by a tap on the
    page that shows the request. *)
From S2P Require Import Prelude QtArg Json Crypto Reference Protocol DeviceInfo SecureStore Certificate TlsClient.
From S2P Require Import KnownDevices AppSettings HistoryModel SelectionModel DeviceModel FileNames Network Discovery.
From S2P Require Import RateLimiter TransferModel HttpConnection HttpServer SendService SendFacts ReceiveService ReceiveFacts.
From S2P Require Import App AppFacts Pages.

Module PagesFacts.
Import App Pages.

#[local] Existing Instances Discovery.eta_Discovery ReceiveService.eta_World SendService.eta_World Pages.eta_Window.

Section Sender.
Context `{OpenSSL, QtText, QHashOrder, Platform, JsonText, X509, AppPaths, SettingsHost, UrlText, LocalFiles, OpenFiles}.
Context {S : Type} `{StoredFiles S}.
#[local] Abbreviation Sender := (SendService.World (S := S)).
Import SendService.

(** ** What the sender says *)

Definition is_pin (s : signal) : bool := match s with pinRequired _ => true | _ => false end.
(** Signals, but none that asks for a PIN. *)
Definition hushed (w w' : Sender) : Prop :=
  exists new, emitted w' = new ++ emitted w /\ Forall (fun s => is_pin s = false) new.
#[local] Instance hushed_preorder : PreOrder hushed.
Proof.
  split; [by exists []|]. intros a b c (n1 & E1 & F1) (n2 & E2 & F2). exists (n2 ++ n1).
  rewrite E2, E1, app_assoc. split; [done|]. by apply Forall_app.
Qed.
Lemma hushed_same (w w' : Sender) : emitted w' = emitted w -> hushed w w'.
Proof. intros E. by exists []. Qed.
Lemma hushed_emit s (w w' : Sender) : is_pin s = false -> hushed w w' -> hushed w (emit s w').
Proof. intros Hs Hw. etransitivity; [exact Hw|]. exists [s]. by repeat constructor. Qed.
Lemma control_emitted (w w' : Sender) : SendFacts.control w' = SendFacts.control w -> emitted w' = emitted w.
Proof. intros Hc. by apply SendFacts.control_fields in Hc as (_ & _ & _ & _ & _ & _ & _ & _ & _ & ?). Qed.
Lemma emitted_history_if (b : bool) t (w : Sender) : emitted (if b then writeHistory t w else w) = emitted w.
Proof. apply control_emitted, SendFacts.control_writeHistory_if. Qed.
(** Every end says [busyChanged] and then [finished]. *)
Lemma hushed_end status n (w w' : Sender) :
  emitted w' = emitted w ->
  hushed w (emit (finished status n) (emit busyChanged (w' <| m_busy := false |> <| m_sessionId := [] |>))).
Proof. intros E. do 2 (apply hushed_emit; [done|]). by apply hushed_same. Qed.

Lemma hushed_failTransfer t message (w : Sender) : hushed w (failTransfer t message w).
Proof.
  unfold failTransfer. cbv zeta. apply hushed_end. rewrite emitted_history_if.
  exact (control_emitted _ _ (SendFacts.control_skips waiting t _ (closeCurrentFile w))).
Qed.
Lemma hushed_completeTransfer t (w : Sender) : hushed w (completeTransfer t w).
Proof.
  unfold completeTransfer. cbv zeta. apply hushed_end. rewrite (control_emitted _ _ (SendFacts.control_writeHistory t _)).
  destruct (bool_decide _ && _), (_ =? _); try done; by destruct (0 <? _).
Qed.
Lemma hushed_next_file t l (w : Sender) : hushed w (next_file t l w).
Proof.
  revert w. induction l as [|r l IH]; intros w; [apply hushed_completeTransfer|]. cbn [next_file]. cbv zeta.
  destruct (negb (waiting _)); [apply IH|]. destruct (negb (file_opens _ _)); [|by apply hushed_same].
  etransitivity; [|apply IH]. by apply hushed_same.
Qed.
Lemma hushed_startNextFile t (w : Sender) : hushed w (startNextFile t w).
Proof.
  unfold startNextFile. cbv zeta. destruct (m_cancelled _); [by apply hushed_same|].
  etransitivity; [|apply hushed_next_file]. by apply hushed_same.
Qed.
Lemma hushed_onUploadFinished t o (w : Sender) : hushed w (onUploadFinished t o w).
Proof.
  unfold onUploadFinished. destruct (m_cancelled w); [done|].
  destruct (_ && _); [etransitivity; [|apply hushed_startNextFile]; by apply hushed_same|].
  destruct (_ =? 409); [etransitivity; [|apply hushed_failTransfer]; by apply hushed_same|].
  etransitivity; [|apply hushed_startNextFile]. by apply hushed_same.
Qed.
Lemma hushed_onAccepted t o (w : Sender) : hushed w (onAccepted t o w).
Proof.
  unfold onAccepted. cbv zeta. destruct (from_json _) as [[]|]; try apply hushed_failTransfer.
  set (w1 := w <| m_sessionId := _ |>). transitivity w1; [by apply hushed_same|]. clearbody w1.
  destruct (_ || _); [apply hushed_failTransfer|].
  pose proof (control_emitted _ _ (SendFacts.take_tokens_control (jobj (jvalue (lit "files") o0)) t (rows w1) 0 w1)) as Ht.
  destruct (foldl _ _ _) as [accepted w2]. cbn [snd] in Ht. destruct (accepted =? 0).
  - unfold idle. do 2 (apply hushed_emit; [done|]). by apply hushed_same.
  - etransitivity; [|apply hushed_startNextFile]. by apply hushed_same.
Qed.
(** The only thing that asks for a PIN is the answer 401 to our request. *)
Lemma prepare_speaks t o (w : Sender) :
  hushed w (onPrepareFinished t o w)
  \/ (exists retry, emitted (onPrepareFinished t o w) = pinRequired retry :: emitted w)
     /\ m_reply (onPrepareFinished t o w) = m_reply w.
Proof.
  unfold onPrepareFinished. destruct (m_cancelled w); [by left|]. cbv zeta.
  destruct (_ && _); [left; apply hushed_failTransfer|].
  destruct (_ =? 200); [left; apply hushed_onAccepted|].
  destruct (_ =? 204).
  { left. unfold idle. do 2 (apply hushed_emit; [done|]). by apply hushed_same. }
  destruct (_ =? 401); [right; split; [by eexists|done]|]. left.
  destruct (_ =? 403); [do 3 (apply hushed_emit; [done|]); by apply hushed_same|].
  repeat case_match; apply hushed_failTransfer.
Qed.
Lemma reply_speaks t id o (w : Sender) :
  SendFacts.sender_ok w ->
  hushed w (reply_finished t id o w)
  \/ (exists retry, emitted (reply_finished t id o w) = pinRequired retry :: emitted w)
     /\ m_reply (reply_finished t id o w) = None /\ m_reply w <> None.
Proof.
  intros Hok. destruct (replies w !! id) as [s|] eqn:Hs; [|left; unfold reply_finished; by rewrite Hs].
  destruct (decide (s = OnDiscard)) as [->|Hn]; [left; unfold reply_finished; rewrite Hs; by apply hushed_same|].
  rewrite (SendFacts.reply_finished_called t id o s w Hok Hs Hn).
  pose proof (SendFacts.so_reply w Hok id s Hs Hn) as Hr. destruct s; [| |done].
  - destruct (prepare_speaks t o (SendFacts.called id w)) as [Hh|[He Hm]]; [left|right].
    + etransitivity; [|exact Hh]. by apply hushed_same.
    + split_and!; [exact He|exact Hm|by rewrite Hr].
  - left. etransitivity; [|apply hushed_onUploadFinished]. by apply hushed_same.
Qed.
Lemma abort_hushed t (w : Sender) : emitted (SendFacts.after_abort t w) = emitted w.
Proof.
  unfold SendFacts.after_abort. cbv zeta. destruct (m_reply _) as [id|]; [|done]. unfold reply_finished.
  destruct (replies _ !! id) as [s|]; [|done]. cbv zeta. unfold onPrepareFinished, onUploadFinished.
  destruct s; [..|done]; by destruct (bool_decide _).
Qed.
Lemma cancel_quiet t (w : Sender) :
  SendFacts.sender_ok w -> hushed w (cancel t w) /\ (m_reply w = None -> m_reply (cancel t w) = None).
Proof.
  intros Hok. unfold cancel. destruct (negb _); [done|]. cbv zeta. fold (SendFacts.after_abort t w).
  destruct (SendFacts.after_abort_spec t w Hok) as ([_ _ Hr] & _). pose proof (abort_hushed t w) as He.
  set (w1 := SendFacts.after_abort t w) in *. clearbody w1.
  set (w2 := notifyPeerCancelled (closeCurrentFile w1)).
  assert (Hw2 : emitted w2 = emitted w1 /\ m_reply w2 = m_reply w1).
  { unfold w2, notifyPeerCancelled. by destruct (_ || _). }
  destruct Hw2 as [E2 R2]. clearbody w2.
  match goal with |- context [if ?b then writeHistory t ?x else ?x] => set (done_any := b); set (w3 := x) end.
  assert (Hc : SendFacts.control w3 = SendFacts.control w2) by exact (SendFacts.control_skips unfinished t _ w2).
  split.
  - apply hushed_end. rewrite emitted_history_if, (control_emitted _ _ Hc). congruence.
  - intros _. pose proof (SendFacts.control_writeHistory_if done_any t w3) as Hd.
    apply SendFacts.control_fields in Hc as (_ & Hc & _), Hd as (_ & Hd & _).
    change (m_reply (if done_any then writeHistory t w3 else w3) = None). congruence.
Qed.
Lemma sendFiles_hushed t device paths (w : Sender) : hushed w (sendFiles t device paths w).
Proof.
  unfold sendFiles. destruct (m_busy w); [done|]. cbv zeta. destruct (_ || _); [done|].
  destruct (match m_known w with Some _ => _ | None => _ end); [by apply hushed_same|].
  destruct (foldl pick_entry _ _) as [[i p] entries]. destruct (is_empty entries); [by apply hushed_same|].
  exists [busyChanged]. by repeat constructor.
Qed.

(** Whatever the sender is told. *)
Definition sends (e : event (S := S)) : bool := match e with SendFiles _ _ | SubmitPin _ => true | _ => false end.
Lemma sender_speaks t e (w : Sender) :
  SendFacts.sender_ok w ->
  hushed w (handle t e w)
  \/ (exists retry, emitted (handle t e w) = pinRequired retry :: emitted w)
     /\ m_reply (handle t e w) = None /\ m_reply w <> None.
Proof.
  intros Hok. destruct e; cbn [handle]; try (by left; apply hushed_same).
  - left. apply sendFiles_hushed.
  - left. unfold submitPin. destruct (_ || _); [done|]. by apply hushed_same.
  - left. by apply cancel_quiet.
  - by apply reply_speaks.
  - left. unfold onUploadProgress. destruct (replies w !! id) as [[]|]; by apply hushed_same.
  - left. case_match; by apply hushed_same.
Qed.
Lemma stays_at_rest t e (w : Sender) :
  SendFacts.sender_ok w -> sends e = false -> m_reply w = None -> m_reply (handle t e w) = None.
Proof.
  intros Hok He Hr. destruct e; try done; cbn [handle]; try done.
  - by apply cancel_quiet.
  - pose proof (SendFacts.no_reply_resting w Hok Hr) as Hrest. unfold reply_finished.
    destruct (replies w !! id) as [s|] eqn:Hs; [|done]. by rewrite (SendFacts.rs_none w Hrest id s Hs).
  - unfold onUploadProgress. by destruct (replies w !! id) as [[]|].
  - by case_match.
Qed.
End Sender.
(** ** The layers of the stack *)

(** An open PIN dialog; the pages that may come to lie on it; all others. *)
Inductive layer := Asking | Above | Other.
#[export] Instance layer_eq_dec : EqDecision layer.
Proof. solve_decision. Defined.
(** Nothing but request and transfer pages lies on an open PIN dialog. *)
Fixpoint ordered (l : list layer) : Prop :=
  match l with
  | [] => True
  | x :: l => (Asking ∈ l -> x = Above) /\ ordered l
  end.
Lemma ordered_free x l : ordered (x :: l) -> x <> Above -> Asking ∉ l.
Proof. intros [Hx _] Hn Hl. by apply Hn, Hx. Qed.
Lemma ordered_tail l : ordered l -> ordered (tail l).
Proof. destruct l; [done|]. by intros [_ ?]. Qed.
(** A dialog that is answered asks no more. *)
Definition quieter (x y : layer) : Prop := x = y \/ (x = Asking /\ y = Other).
Lemma quieter_asking l l' : Forall2 quieter l l' -> Asking ∈ l' -> Asking ∈ l.
Proof.
  induction 1 as [|x y l l' Hxy _ IH]; [done|]. intros [Hy|Hl]%elem_of_cons; apply elem_of_cons; [left|right; by apply IH].
  by destruct Hxy as [->|[-> _]].
Qed.
Lemma quieter_ordered l l' : Forall2 quieter l l' -> ordered l -> ordered l'.
Proof.
  induction 1 as [|x y l l' Hxy Hl IH]; [done|]. intros [Hx Ho]. split; [|by apply IH].
  intros Ha%(quieter_asking _ _ Hl)%Hx. by destruct Hxy as [->|[-> _]].
Qed.
Lemma ordered_filter {A} (f : A -> layer) (p : A -> bool) l :
  ordered (map f l) -> ordered (map f (List.filter p l)) /\ (Asking ∈ map f (List.filter p l) -> Asking ∈ map f l).
Proof.
  induction l as [|x l IH]; [done|]. cbn [map List.filter]. intros [Hx Ho]. destruct (IH Ho) as [IHo IHa].
  destruct (p x); cbn [map].
  - split; [split; [by intros ?%IHa%Hx|done]|]. intros [->|Ha]%elem_of_cons; apply elem_of_cons; [by left|right; by apply IHa].
  - split; [done|]. intros Ha. apply elem_of_cons. right. by apply IHa.
Qed.

Section PagesFacts.
Context `{OpenSSL, QtText, QHashOrder, Platform, JsonText, X509, AppPaths, SettingsHost, UrlText, HttpText}.
Context `{NetworkState, LocalFiles, OpenFiles, Disk, PageStack, Translations}.
Context {S : Type} `{StoredFiles S}.
#[local] Abbreviation App := (App (S := S)).
#[local] Abbreviation Window := (Window (S := S)).

Definition page_layer (p : Page) (is_answered : bool) : layer :=
  match p with
  | PinDialog _ _ => if is_answered then Other else Asking
  | ReceiveRequestPage | TransferPage => Above
  | _ => Other
  end.
Definition layer_of (w : Window) (i : Z) : layer :=
  match objects w !! i with Some p => page_layer p (bool_decide (i ∈ answered w)) | None => Other end.
Definition layers (w : Window) : list layer := map (layer_of w) (pages (stack w)).
(** The sender has nothing outstanding. *)
Definition waiting (a : App) : Prop := SendService.m_reply (sender a) = None.

(** A history of calls that begins with [a0]; while a PIN dialog is open, the
    sender has nothing outstanding. *)
Record window_ok (a0 : App) (w : Window) : Prop := {
  wo_log : app w = App.run a0 (rev (calls w));
  wo_orderly : AppFacts.orderly_run a0 (rev (calls w)) = true;
  wo_app : AppFacts.app_ok (app w);
  wo_ids : Forall (fun i => i < next_object w) (pages (stack w));
  wo_layers : ordered (layers w);
  wo_asking : Asking ∈ layers w -> waiting (app w)
}.
(** What it depends on. *)
Definition screen (w : Window) := (app w, calls w, stack w, objects w, next_object w, answered w).
Lemma screen_fields (w w' : Window) : screen w' = screen w ->
  app w' = app w /\ calls w' = calls w /\ stack w' = stack w /\ objects w' = objects w /\ next_object w' = next_object w
  /\ answered w' = answered w.
Proof. unfold screen. intros E. by injection E. Qed.
Lemma layers_eq (w w' : Window) : screen w' = screen w -> layers w' = layers w.
Proof. intros (_ & _ & E1 & E2 & _ & E3)%screen_fields. unfold layers, layer_of. by rewrite E1, E2, E3. Qed.
Lemma window_ok_eq a0 (w w' : Window) : screen w' = screen w -> window_ok a0 w -> window_ok a0 w'.
Proof.
  intros E [O1 O2 O3 O4 O5 O6]. pose proof (layers_eq _ _ E) as El.
  apply screen_fields in E as (E1 & E2 & E3 & _ & E5 & _). split; rewrite ?El, ?E1, ?E2, ?E3, ?E5; assumption.
Qed.

(** ** The page stack's calls *)

(** Pages that leave. *)
Lemma window_ok_pages a0 s (w : Window) :
  window_ok a0 w -> Forall (fun i => i < next_object w) (pages s) ->
  ordered (map (layer_of w) (pages s)) -> (Asking ∈ map (layer_of w) (pages s) -> Asking ∈ layers w) ->
  window_ok a0 (w <| stack := s |>).
Proof. intros [O1 O2 O3 O4 O5 O6] Hi Ho Ha. split; try done. intros Hs. by apply O6, Ha. Qed.
Lemma pop_ok a0 (w : Window) : window_ok a0 w -> window_ok a0 (pop_page w).
Proof.
  intros Hw. pose proof Hw as [_ _ _ Hi Ho _]. apply window_ok_pages; [done|..];
    destruct (pages_pop (stack w)) as [E|E]; rewrite E; try done; unfold layers in *; destruct (pages (stack w)); try done.
  - by apply Forall_cons in Hi as [_ Hi].
  - by destruct Ho.
  - intros Ha. apply elem_of_cons. by right.
Qed.
Lemma last_in {A} (l : list A) x : last l = Some x -> x ∈ l.
Proof. intros Hl. apply last_Some in Hl as [l' ->]. apply elem_of_app. right. by apply list_elem_of_singleton. Qed.
Lemma unwind_ok a0 (w : Window) : window_ok a0 w -> window_ok a0 (w <| stack ::= unwind |>).
Proof.
  intros Hw. pose proof Hw as [_ _ _ Hi Ho _]. apply (window_ok_pages a0 (unwind (stack w))); [done|..];
    destruct (pages_unwind (stack w)) as [E|E]; rewrite E; try done; unfold layers in *;
    destruct (last (pages (stack w))) as [i|] eqn:El; cbn [from_option map]; try apply last_in in El; try done.
  - constructor; [|done]. rewrite Forall_forall in Hi. by apply Hi.
  - split; [|done]. by intros ?%elem_of_nil.
  - intros ->%list_elem_of_singleton. apply list_elem_of_fmap. by exists i.
  - by intros ?%elem_of_nil.
Qed.
Lemma close_ok a0 i (w : Window) : window_ok a0 w -> window_ok a0 (w <| stack ::= close i |>).
Proof.
  intros Hw. pose proof Hw as [_ _ _ Hi Ho _]. apply (window_ok_pages a0 (close i (stack w))); [done|..]; rewrite pages_close.
  - rewrite Forall_forall in Hi |- *. intros j [Hj _]%list_elem_of_In%filter_In. apply Hi. by apply list_elem_of_In.
  - by apply ordered_filter.
  - by apply ordered_filter.
Qed.
(** A page that enters: on the stack as it is, or in place of the page on top. *)
Lemma enter_layers f p (w : Window) :
  (forall i s, pages (f i s) = i :: pages s \/ pages (f i s) = i :: tail (pages s) \/ pages (f i s) = pages s) ->
  Forall (fun i => i < next_object w) (pages (stack w)) ->
  let w' := enter p f w in
  Forall (fun i => i < next_object w') (pages (stack w'))
  /\ (layers w' = layers w
      \/ exists a, layers w' = page_layer p a :: layers w \/ layers w' = page_layer p a :: tail (layers w)).
Proof.
  intros Hf Hi. cbv zeta. set (w' := enter p f w). set (i := next_object w).
  assert (Hout : i ∉ pages (stack w)).
  { intros Hin. rewrite Forall_forall in Hi. specialize (Hi i Hin). unfold i in Hi. lia. }
  assert (Hnext : next_object w' = Z.succ i) by done. rewrite Hnext.
  assert (Hst : stack w' = f i (stack w)) by done. unfold layers. rewrite Hst.
  assert (Hob : objects w' = if bool_decide (i ∈ pages (f i (stack w))) then <[i := p]> (objects w) else objects w) by done.
  assert (Hle : Forall (fun j => j < Z.succ i) (pages (stack w))) by (eapply Forall_impl; [exact Hi|]; cbn; lia).
  assert (Hold : forall l, l ⊆ pages (stack w) -> map (layer_of w') l = map (layer_of w) l).
  { intros l Hl. apply map_ext_in. intros j Hj%list_elem_of_In%Hl. unfold layer_of. rewrite Hob.
    case_bool_decide; [|done]. rewrite lookup_insert_ne; [done|]. by intros ->. }
  assert (Hnew : i ∈ pages (f i (stack w)) -> layer_of w' i = page_layer p (bool_decide (i ∈ answered w'))).
  { intros Hin. unfold layer_of. rewrite Hob, bool_decide_true, lookup_insert_eq by done. done. }
  assert (Htail : tail (pages (stack w)) ⊆ pages (stack w)).
  { destruct (pages (stack w)); [done|]. intros j Hj. apply elem_of_cons. by right. }
  destruct (Hf i (stack w)) as [E|[E|E]]; rewrite E.
  - split; [constructor; [lia|done]|]. right. eexists. left. cbn [map]. rewrite Hold by done.
    f_equal. apply Hnew. rewrite E. apply elem_of_cons. by left.
  - split; [constructor; [lia|]; by destruct (pages (stack w)); [|apply Forall_cons in Hle as [_ Hle]]|].
    right. eexists. right. cbn [map]. rewrite Hold by done.
    rewrite (Hnew ltac:(rewrite E; apply elem_of_cons; by left)). f_equal. by destruct (pages (stack w)).
  - split; [done|]. left. by apply Hold.
Qed.
Lemma enter_ok a0 f p (w : Window) :
  (forall i s, pages (f i s) = i :: pages s \/ pages (f i s) = i :: tail (pages s) \/ pages (f i s) = pages s) ->
  (page_layer p true <> Above -> Asking ∉ layers w) -> (page_layer p false = Asking -> waiting (app w)) ->
  window_ok a0 w -> window_ok a0 (enter p f w).
Proof.
  intros Hf Hfree Hwait [O1 O2 O3 O4 O5 O6]. destruct (enter_layers f p w Hf O4) as [Hi Hl].
  assert (Hab : forall a, page_layer p a <> Above -> Asking ∉ layers w) by (intros a Ha; apply Hfree; by destruct p).
  assert (Has : forall a, page_layer p a = Asking -> waiting (app w)) by (intros a Ha; apply Hwait; by destruct p, a).
  split; try done.
  - destruct Hl as [->|[a [-> | ->]]]; [done|..].
    + split; [|done]. intros Ha. destruct (decide (page_layer p a = Above)) as [|Hn]; [done|]. by destruct (Hab a Hn).
    + split; [|by apply ordered_tail]. intros Ha. destruct (decide (page_layer p a = Above)) as [|Hn]; [done|].
      destruct (Hab a Hn). destruct (layers w); [done|]. apply elem_of_cons. by right.
  - change (Asking ∈ layers (enter p f w) -> waiting (app w)).
    destruct Hl as [->|[a [-> | ->]]]; [done|..]; intros [Ha|Ha]%elem_of_cons; try (by eapply Has); apply O6; [done|].
    destruct (layers w); [done|]. apply elem_of_cons. by right.
Qed.
Lemma push_ok a0 p (w : Window) :
  (page_layer p true <> Above -> Asking ∉ layers w) -> (page_layer p false = Asking -> waiting (app w)) ->
  window_ok a0 w -> window_ok a0 (push_page p w).
Proof. intros Ha Hb. apply enter_ok; [|done..]. intros i s. destruct (pages_push i s); [by left|by do 2 right]. Qed.
Lemma replace_ok a0 p (w : Window) :
  (page_layer p true <> Above -> Asking ∉ layers w) -> (page_layer p false = Asking -> waiting (app w)) ->
  window_ok a0 w -> window_ok a0 (replace_page p w).
Proof. intros Ha Hb. apply enter_ok; [|done..]. intros i s. destruct (pages_replace i s); [right; by left|by do 2 right]. Qed.

(** ** What the signals put on screen *)

Lemma published_ok a0 n (w : Window) : window_ok a0 w -> window_ok a0 (publish n w).
Proof. by apply window_ok_eq. Qed.
Lemma of_receiver_ok a0 s (w : Window) : window_ok a0 w -> window_ok a0 (of_receiver w s).
Proof.
  intros Hw. destruct s; cbn [of_receiver]; [done|..].
  - unfold onRequestArrived. cbv zeta. set (w1 := if negb _ then push_page _ w else w).
    assert (Hw1 : window_ok a0 w1) by (unfold w1; destruct (negb _); [by apply push_ok|done]).
    destruct (_ && _); [by apply published_ok|done].
  - unfold showTransferPage. cbv zeta. destruct (qeq _ _); [done|].
    destruct (qeq _ _); [by apply replace_ok|by apply push_ok].
  - unfold onTransferFinished. destruct (_ || _); [done|]. by destruct (qeq _ _); apply published_ok.
Qed.
Lemma of_receivers_ok a0 l (w : Window) : window_ok a0 w -> window_ok a0 (foldl of_receiver w l).
Proof. revert w. induction l as [|s l IH]; intros w Hw; [done|]. by apply IH, of_receiver_ok. Qed.
Lemma of_sender_ok a0 s (w : Window) : is_pin s = false -> window_ok a0 w -> window_ok a0 (of_sender w s).
Proof.
  intros Hs Hw. destruct s; try done. cbn [of_sender]. unfold onFinished. destruct (_ || _); [done|].
  destruct (negb _); [done|by apply published_ok].
Qed.
Lemma of_senders_ok a0 l (w : Window) :
  Forall (fun s => is_pin s = false) l -> window_ok a0 w -> window_ok a0 (foldl of_sender w l).
Proof.
  revert w. induction l as [|s l IH]; intros w Hl Hw; [done|]. apply Forall_cons in Hl as [Hs Hl].
  apply IH; [done|]. by apply of_sender_ok.
Qed.
Lemma pin_ok a0 retry (w : Window) :
  Asking ∉ layers w -> waiting (app w) -> window_ok a0 w -> window_ok a0 (onPinRequired retry w).
Proof. intros Ha Hr Hw. unfold onPinRequired. cbv zeta. destruct (qeq _ _); [by apply replace_ok|by apply push_ok]. Qed.
Lemma news_app {A} (new l : list A) : news l (new ++ l) = rev new.
Proof. unfold news. rewrite length_app, Nat.add_sub. by rewrite take_app_length. Qed.
Lemma news_cons {A} (x : A) l : news l (x :: l) = [x].
Proof. exact (news_app [x] l). Qed.
Lemma news_same {A} (l : list A) : news l l = [].
Proof. exact (news_app [] l). Qed.

(** ** The calls *)

Definition sends_now (e : event) : bool := match e with SendFiles _ _ | SubmitPin _ => true | _ => false end.
Lemma orderly_run_snoc (a : App) l t e :
  AppFacts.orderly_run a (l ++ [(t, e)]) = AppFacts.orderly_run a l && AppFacts.orderly (App.run a l) e.
Proof.
  revert a. induction l as [|te l IH]; intros a; cbn [Datatypes.app AppFacts.orderly_run].
  - cbn [fst snd]. by rewrite andb_true_r.
  - by rewrite IH, andb_assoc.
Qed.
Definition told (t : Z) (e : event) (w : Window) : Window := w <| app ::= handle t e |> <| calls ::= cons (t, e) |>.
Lemma handle_waiting t e (a : App) :
  AppFacts.app_ok a -> sends_now e = false -> waiting a -> waiting (handle t e a).
Proof.
  intros (_ & Hs & _) He Ha. destruct e; try exact Ha; try done; by apply (stays_at_rest t).
Qed.
Lemma told_ok a0 t e (w : Window) :
  AppFacts.orderly (app w) e = true -> (sends_now e = true -> Asking ∉ layers w) ->
  window_ok a0 w -> window_ok a0 (told t e w).
Proof.
  intros Ho Hfree [O1 O2 O3 O4 O5 O6]. split; try done.
  - cbn [told calls app set_field rev]. change (handle t e (app w) = App.run a0 (rev (calls w) ++ [(t, e)])).
    unfold App.run. rewrite foldl_app. cbn. f_equal. exact O1.
  - change (AppFacts.orderly_run a0 (rev (calls w) ++ [(t, e)]) = true). rewrite orderly_run_snoc, O2, <- O1. exact Ho.
  - exact (AppFacts.app_handle_ok t e (app w) Ho O3).
  - change (Asking ∈ layers w -> waiting (handle t e (app w))). intros Ha.
    destruct (sends_now e) eqn:He; [by destruct (Hfree eq_refl)|]. by apply handle_waiting, O6.
Qed.
Lemma call_ok a0 t e (w : Window) :
  AppFacts.orderly (app w) e = true -> (sends_now e = true -> Asking ∉ layers w) ->
  window_ok a0 w -> window_ok a0 (call t e w).
Proof.
  intros Ho Hfree Hw. pose proof (told_ok a0 t e w Ho Hfree Hw) as Ht. unfold call. cbv zeta. fold (told t e w).
  change (w <| app := handle t e (app w) |> <| calls ::= cons (t, e) |>) with (told t e w).
  assert (Hl : layers (told t e w) = layers w) by done. pose proof (wo_asking a0 w Hw) as Hask.
  pose proof (wo_app a0 w Hw) as (_ & Hs & _). destruct (sending (S := S) e) as [e'|] eqn:He.
  - assert (Eh : handle t e (app w) = sender_did (SendService.handle t e' (sender (app w))) (app w)).
    { destruct e; try done; injection He as <-; done. }
    rewrite Eh. change (ReceiveService.emitted (receiver (sender_did _ (app w)))) with (ReceiveService.emitted (receiver (app w))).
    rewrite news_same. cbn [foldl]. change (sender (sender_did ?s (app w))) with s.
    destruct (sender_speaks t e' (sender (app w)) Hs) as [(new & En & Hnew)|((retry & En) & Hr & Hn)]; rewrite En.
    + rewrite news_app. apply of_senders_ok; [by apply Forall_rev|done].
    + rewrite news_cons. cbn [foldl of_sender]. apply pin_ok; [|change (waiting (handle t e (app w))); by rewrite Eh|done].
      rewrite Hl. intros Ha. by apply Hn, Hask.
  - assert (Es : SendService.emitted (sender (handle t e (app w))) = SendService.emitted (sender (app w))).
    { by destruct e. }
    rewrite Es, news_same. cbn [foldl]. by apply of_receivers_ok.
Qed.
(** A call that submits no PIN and sends nothing is always in order. *)
Lemma plain_call_ok a0 t e (w : Window) : sends_now e = false -> window_ok a0 w -> window_ok a0 (call t e w).
Proof. intros He. apply call_ok; [by destruct e|by rewrite He]. Qed.

(** A call that reaches the receiving half opens no PIN dialog. *)
Lemma enter_free f p (w : Window) :
  (forall i s, pages (f i s) = i :: pages s \/ pages (f i s) = i :: tail (pages s) \/ pages (f i s) = pages s) ->
  (forall a, page_layer p a <> Asking) -> Forall (fun i => i < next_object w) (pages (stack w)) ->
  Asking ∉ layers w -> Asking ∉ layers (enter p f w).
Proof.
  intros Hf Hp Hi Hw. destruct (enter_layers f p w Hf Hi) as [_ [->|[a [-> | ->]]]]; [done|..]; intros [Ha|Ha]%elem_of_cons.
  1,3: by destruct (Hp a). 1: by apply Hw. apply Hw. destruct (layers w); [done|]. apply elem_of_cons. by right.
Qed.
Lemma of_receiver_free a0 s (w : Window) : window_ok a0 w -> Asking ∉ layers w -> Asking ∉ layers (of_receiver w s).
Proof.
  intros Hw Hf. pose proof (wo_ids a0 w Hw) as Hi. destruct s; cbn [of_receiver]; [done|..].
  - unfold onRequestArrived. cbv zeta. set (w1 := if negb _ then push_page _ w else w).
    assert (Hw1 : Asking ∉ layers w1).
    { unfold w1. destruct (negb _); [|done]. apply enter_free; [|done..]. intros i s. destruct (pages_push i s); [by left|by do 2 right]. }
    by destruct (_ && _).
  - unfold showTransferPage. cbv zeta. destruct (qeq _ _); [done|]. destruct (qeq _ _); apply enter_free; try done; intros i s.
    + destruct (pages_replace i s); [right; by left|by do 2 right].
    + destruct (pages_push i s); [by left|by do 2 right].
  - unfold onTransferFinished. destruct (_ || _); [done|]. by destruct (qeq _ _).
Qed.
Lemma call_free a0 t e (w : Window) :
  sending (S := S) e = None -> window_ok a0 w -> Asking ∉ layers w -> Asking ∉ layers (call t e w).
Proof.
  intros He Hw Hf. assert (Ht : window_ok a0 (told t e w)) by (apply told_ok; [by destruct e|done..]).
  unfold call. cbv zeta. change (w <| app := handle t e (app w) |> <| calls ::= cons (t, e) |>) with (told t e w).
  assert (Es : SendService.emitted (sender (handle t e (app w))) = SendService.emitted (sender (app w))) by (by destruct e).
  rewrite Es, news_same. cbn [foldl]. assert (Hf' : Asking ∉ layers (told t e w)) by done. clear Hf. revert Ht Hf'.
  generalize (told t e w). induction (news _ _) as [|s l IH]; intros w' Hw' Hf'; [done|]. cbn [foldl].
  apply IH; [by apply of_receiver_ok|by eapply of_receiver_free].
Qed.

(** ** The gestures *)

(** No PIN is being asked for. *)
Definition free (w : Window) : Prop := Asking ∉ layers w.
Lemma current_layers i p (w : Window) :
  current w = Some (i, p) ->
  exists s, pages (stack w) = i :: s /\ objects w !! i = Some p
            /\ layers w = page_layer p (bool_decide (i ∈ answered w)) :: map (layer_of w) s.
Proof.
  unfold current, layers. destruct (pages (stack w)) as [|j s]; [done|]. intros Hc.
  destruct (objects w !! j) as [q|] eqn:Hq; [|done]. injection Hc as -> ->. exists s. split_and!; [done..|].
  cbn [map]. f_equal. unfold layer_of. by rewrite Hq.
Qed.
Lemma current_free a0 i p (w : Window) :
  window_ok a0 w -> current w = Some (i, p) -> (forall a, page_layer p a = Other) -> free w.
Proof.
  intros Hw (s & _ & _ & El)%current_layers Hp. pose proof (wo_layers a0 w Hw) as Ho. unfold free. rewrite El in Ho |- *.
  rewrite Hp in Ho |- *. intros [Ha|Ha]%elem_of_cons; [done|]. by apply ordered_free in Ho.
Qed.
Lemma dispatchSend_ok a0 t device (w : Window) : free w -> window_ok a0 w -> window_ok a0 (dispatchSend t device w).
Proof. intros Hf Hw. unfold dispatchSend. apply push_ok; [done..|]. by apply call_ok. Qed.
Lemma chooseFilesFor_ok a0 device (w : Window) : free w -> window_ok a0 w -> window_ok a0 (chooseFilesFor device w).
Proof. intros Hf Hw. unfold chooseFilesFor. apply push_ok; [done..|]. by apply (window_ok_eq a0 w). Qed.
Lemma startSend_ok a0 t device (w : Window) : free w -> window_ok a0 w -> window_ok a0 (startSend t device w).
Proof.
  intros Hf Hw. unfold startSend. destruct (SelectionModel.isEmpty _); [by apply chooseFilesFor_ok|].
  destruct (TransferModel.active _); [done|]. destruct (conflicts device); [by apply push_ok|by apply dispatchSend_ok].
Qed.
Lemma filesPicked_ok a0 t l (w : Window) : free w -> window_ok a0 w -> window_ok a0 (filesPicked t l w).
Proof.
  intros Hf Hw. unfold filesPicked. cbv zeta.
  match goal with |- context [startSend t _ ?x] => set (w1 := x) end.
  assert (Hw1 : window_ok a0 w1) by (by apply (window_ok_eq a0 w)).
  assert (Hf1 : free w1) by done. clearbody w1.
  match goal with |- window_ok a0 (match ?o with _ => _ end) => destruct o end; [|done].
  destruct (0 <? _); [by apply startSend_ok|done].
Qed.
Lemma answered_layers i (w : Window) : Forall2 quieter (layers w) (layers (answer_dialog i w)).
Proof.
  unfold layers. change (stack (answer_dialog i w)) with (stack w). induction (pages (stack w)) as [|j l IH]; constructor; [|done].
  unfold layer_of. change (objects (answer_dialog i w)) with (objects w).
  change (answered (answer_dialog i w)) with ({[i]} ∪ answered w). destruct (objects w !! j) as [p|]; [|by left].
  destruct p; try (by left). cbn [page_layer]. repeat case_bool_decide; [by left|set_solver|by right|by left].
Qed.
Lemma answer_dialog_ok a0 i (w : Window) : window_ok a0 w -> window_ok a0 (answer_dialog i w).
Proof.
  intros [O1 O2 O3 O4 O5 O6]. pose proof (answered_layers i w) as Hl. split; try done.
  - by eapply quieter_ordered.
  - intros Ha. apply O6. by eapply quieter_asking.
Qed.
(** Once the dialog on top is answered, none asks. *)
Lemma answer_top_free a0 i p (w : Window) :
  window_ok a0 w -> current w = Some (i, p) -> is_dialog p = true -> free (answer_dialog i w).
Proof.
  intros Hw Hc Hp. pose proof (answered_layers i w) as Hq. pose proof (wo_layers a0 w Hw) as Ho.
  apply current_layers in Hc as (s & Es & Ei & El). unfold free. rewrite El in Hq, Ho.
  assert (El' : layers (answer_dialog i w) = layer_of (answer_dialog i w) i :: map (layer_of (answer_dialog i w)) s).
  { unfold layers. change (stack (answer_dialog i w)) with (stack w). by rewrite Es. }
  rewrite El' in Hq |- *. apply Forall2_cons in Hq as [_ Hq]. intros [Ha|Ha]%elem_of_cons.
  - unfold layer_of in Ha. change (objects (answer_dialog i w)) with (objects w) in Ha. rewrite Ei in Ha.
    rewrite bool_decide_true in Ha by (apply elem_of_union; left; by apply elem_of_singleton). by destruct p.
  - apply (quieter_asking _ _ Hq) in Ha. revert Ha. apply (ordered_free _ _ Ho). by destruct p; try done; cbn; case_bool_decide.
Qed.

(** A dialog is accepted. *)
Lemma accept_dialog_ok a0 f (w : Window) :
  (forall i p g, current w = Some (i, p) -> is_dialog p = true -> i ∉ answered w -> f p = Some g ->
     free (answer_dialog i w) -> window_ok a0 (answer_dialog i w) -> window_ok a0 (g (answer_dialog i w))) ->
  window_ok a0 w -> window_ok a0 (accept_dialog f w).
Proof.
  intros Hf Hw. unfold accept_dialog. destruct (current w) as [[i p]|] eqn:Hc; [|done].
  destruct (is_dialog p) eqn:Hp; [|done]. case_bool_decide as Ha; [done|]. cbn [negb andb].
  destruct (f p) as [g|] eqn:Hg; [|done]. apply (Hf i p g); try done.
  - by eapply answer_top_free.
  - by apply answer_dialog_ok.
Qed.
Lemma givePin_ok a0 t pin (w : Window) :
  window_ok a0 w -> window_ok a0 (step t (GivePin pin) w).
Proof.
  intros Hw. apply accept_dialog_ok; [|done]. intros i p g Hc _ Ha Hg Hf Hw'. destruct p; try done.
  destruct (is_empty pin); [done|]. injection Hg as <-. apply call_ok; [|done..].
  cbn. apply bool_decide_eq_true. apply (wo_asking a0 w Hw). apply current_layers in Hc as (s & _ & _ & El).
  rewrite El, bool_decide_false by done. apply elem_of_cons. by left.
Qed.
Lemma page_answer_ok a0 t i yes (w : Window) : window_ok a0 w -> window_ok a0 (answer t i yes w).
Proof.
  intros Hw. unfold answer. case_bool_decide; [done|]. cbv zeta.
  destruct yes; apply plain_call_ok; try done; by apply (window_ok_eq a0 w).
Qed.
Lemma stop_ok a0 t (w : Window) : window_ok a0 w -> window_ok a0 (stop t w).
Proof. intros Hw. unfold stop. by destruct (is_sending w); apply plain_call_ok. Qed.
Lemma loadTranslation_ok a0 (w : Window) : window_ok a0 w -> window_ok a0 (loadTranslation w).
Proof. intros Hw. unfold loadTranslation. cbv zeta. destruct (loads _); [by apply (window_ok_eq a0 w)|done]. Qed.
Lemma onLanguageChanged_ok a0 (w : Window) : window_ok a0 w -> window_ok a0 (onLanguageChanged w).
Proof.
  intros Hw. unfold onLanguageChanged. cbv zeta. set (w1 := loadTranslation _).
  assert (Hw1 : window_ok a0 w1) by (apply loadTranslation_ok; by apply (window_ok_eq a0 w)).
  clearbody w1. destruct Hw1 as [O1 O2 O3 O4 O5 O6]. set (i := next_object w1). set (w2 := w1 <| stack := _ |> <| objects ::= _ |>
    <| next_object ::= _ |> <| pendingDevice := None |>).
  assert (El : layers w2 = [Other]).
  { unfold layers. change (stack w2) with (initial i). rewrite pages_initial. cbn [map]. unfold layer_of.
    change (objects w2) with (<[i := MainPage]> (objects w1)). by rewrite lookup_insert_eq. }
  split; try done; rewrite ?El.
  - change (stack w2) with (initial i). rewrite pages_initial. constructor; [|done].
    change (next_object w2) with (Z.succ i). lia.
  - split; [by intros ?%elem_of_nil|done].
  - by intros ?%list_elem_of_singleton.
Qed.
Lemma happens_ok a0 t e (w : Window) : pages_only e = false -> window_ok a0 w -> window_ok a0 (happens t e w).
Proof.
  intros He Hw. unfold happens. cbv zeta. assert (Hc : window_ok a0 (call t e w)) by (apply plain_call_ok; [by destruct e|done]).
  destruct (qeq _ _); [done|by apply onLanguageChanged_ok].
Qed.
Lemma destroy_ok a0 i (w : Window) :
  on_stack i w = false -> window_ok a0 w -> window_ok a0 (w <| objects ::= delete i |>).
Proof.
  intros Hi [O1 O2 O3 O4 O5 O6]. apply bool_decide_eq_false in Hi. set (w' := w <| objects ::= delete i |>).
  assert (El : layers w' = layers w).
  { unfold layers. apply map_ext_in. intros j Hj%list_elem_of_In. unfold layer_of.
    change (objects w') with (delete i (objects w)). rewrite lookup_delete_ne; [done|]. intros ->. by apply Hi. }
  split; rewrite ?El; done.
Qed.
Lemma shared_ok a0 l (w : Window) : window_ok a0 w -> window_ok a0 (receiveSharedFiles l w).
Proof.
  intros Hw. unfold receiveSharedFiles. destruct (is_empty l); [done|]. cbv zeta.
  match goal with |- context [currentObjectName ?x] => set (w1 := x) end.
  assert (Hw1 : window_ok a0 w1) by (by apply (window_ok_eq a0 w)). clearbody w1.
  destruct (_ && _); [by apply unwind_ok|done].
Qed.
Lemma pop_free (w : Window) : free w -> free (pop_page w).
Proof.
  unfold free, layers, pop_page. intros Hf Ha. apply Hf. revert Ha. change (layer_of (w <| stack ::= pop |>)) with (layer_of w).
  cbn. destruct (pages_pop (stack w)) as [E|E]; rewrite E; [|done]. destruct (pages (stack w)); [done|].
  intros Ha. apply elem_of_cons. by right.
Qed.
Lemma rejected_ok a0 t p (w : Window) : window_ok a0 w -> window_ok a0 (on_rejected t p w).
Proof.
  intros Hw. destruct p as [| | | |[]| | | | |]; try done; cbn [on_rejected];
    [by apply (window_ok_eq a0 w)|by apply plain_call_ok].
Qed.

Lemma change_ok a0 t o l (w : Window) : window_ok a0 w -> window_ok a0 (change t o l w).
Proof. by apply plain_call_ok. Qed.
Lemma togglePin_ok a0 t on (w : Window) : free w -> window_ok a0 w -> window_ok a0 (togglePin t on w).
Proof.
  intros Hf Hw. unfold togglePin. destruct (negb _); [done|]. cbv zeta. pose proof (change_ok a0 t (AppSettings.OpPinEnabled on) None w Hw).
  destruct (_ && _); [|done]. apply push_ok; [intros _|done..]. by eapply call_free.
Qed.
Lemma on_named_ok a0 name f (w : Window) :
  (free w -> window_ok a0 (f w)) -> window_ok a0 w -> window_ok a0 (on_named name f w).
Proof.
  intros Hf Hw. unfold on_named. destruct (current w) as [[i p]|] eqn:Hc; [|done]. destruct p; try done.
  destruct (qeq _ _); [|done]. apply Hf. by eapply current_free.
Qed.

Lemma window_step_ok a0 t g (w : Window) : window_ok a0 w -> window_ok a0 (step t g w).
Proof.
  intros Hw.
  assert (Hon : forall f : Z -> Page -> Window, (forall i p, current w = Some (i, p) -> window_ok a0 (f i p)) ->
    window_ok a0 match current w with Some (i, p) => f i p | None => w end).
  { intros f Hf. destruct (current w) as [[i p]|]; [by apply Hf|done]. }
  assert (Hfree : forall i p, current w = Some (i, p) -> (forall a, page_layer p a = Other) -> free w) by (intros; by eapply current_free).
  destruct g; cbn [step]; try (by apply (window_ok_eq a0 w)).
  - destruct (pages_only e) eqn:He; [done|by apply happens_ok].
  - apply (window_ok_pages a0 (settle (stack w))); rewrite ?pages_settle; try done; apply Hw.
  - apply Hon. intros i p _. destruct (is_dialog p); [done|by apply pop_ok].
  - apply Hon. intros i from Hc. destruct (opens w from p) eqn:Ho; [|done].
    apply push_ok; [|by destruct from, p|done]. intros _. eapply current_free; [done..|]. by destruct from.
  - apply Hon. intros i p Hc. destruct p; try done. by apply chooseFilesFor_ok; [eapply Hfree|].
  - apply Hon. intros i p Hc. destruct p; try done. apply pop_ok. by apply (window_ok_eq a0 w).
  - apply Hon. intros i p Hc. destruct p; try done. by apply startSend_ok; [eapply Hfree|].
  - apply Hon. intros i p Hc. destruct p; try done. apply push_ok; [intros _; by eapply Hfree|done..].
  - apply Hon. intros i p Hc. destruct p; try done. destruct (TransferModel.active _); [done|].
    apply startSend_ok; [apply pop_free; by eapply Hfree|by apply pop_ok].
  - apply accept_dialog_ok; [|done]. intros i p g Hc _ _ Hg Hf Hw'. destruct p as [| | | |[]| | | | |]; try done; injection Hg as <-.
    + by apply filesPicked_ok.
    + by apply (window_ok_eq a0 (answer_dialog i w)).
  - apply accept_dialog_ok; [|done]. intros i p g Hc _ _ Hg Hf Hw'. destruct p; try done. injection Hg as <-.
    by apply dispatchSend_ok.
  - by apply givePin_ok.
  - apply accept_dialog_ok; [|done]. intros i p g Hc _ _ Hg Hf Hw'. destruct p; try done.
    destruct (setting_op k text); [|done]. injection Hg as <-. by apply change_ok.
  - destruct (objects w !! i) as [p|]; [|done]. destruct (_ && _); [|done]. by apply rejected_ok, answer_dialog_ok.
  - apply on_named_ok; [|done]. intros Hf. by apply togglePin_ok.
  - apply Hon. intros i p _. destruct p as [| | | | | | | |[]|]; try done. unfold removePin. destruct (negb _); [done|].
    by apply pop_ok, change_ok, change_ok.
  - apply on_named_ok; [|done]. intros _. unfold rename. destruct (setting_op _ _); [by apply change_ok|done].
  - apply on_named_ok; [|done]. intros _. unfold lookUp. cbv zeta. destruct (is_empty _); [done|by apply plain_call_ok].
  - unfold on_request. apply Hon. intros i p _. destruct p; try done. by apply page_answer_ok.
  - unfold on_request. apply Hon. intros i p _. destruct p; try done. by apply pop_ok, page_answer_ok.
  - unfold on_request. apply Hon. intros i p _. destruct p; try done. apply pop_ok, page_answer_ok. by apply plain_call_ok.
  - apply Hon. intros i p _. destruct p; try done. destruct (is_over w); [by apply pop_ok|by apply stop_ok].
  - destruct (cover_busy w); [by apply stop_ok|done].
  - by apply shared_ok.
  - case_bool_decide; [by apply close_ok|done].
  - destruct (objects w !! i) as [p|]; [|done]. destruct (on_stack i w) eqn:Hi; [done|].
    pose proof (destroy_ok a0 i w Hi Hw) as Hw'. destruct p; try done. unfold onDestruction.
    destruct (_ && _); [by apply plain_call_ok|done].
Qed.
Lemma window_run_ok a0 history (w : Window) : window_ok a0 w -> window_ok a0 (run w history).
Proof. revert w. induction history as [|[t g] history IH]; intros w Hw; [done|]. by apply IH, window_step_ok. Qed.
Lemma open_window_ok (a0 : App) : AppFacts.app_ok a0 -> window_ok a0 (open_window a0).
Proof.
  intros Ha. apply loadTranslation_ok. set (w := mkWindow _ _ _ _ _ _ _ _ _ _ _ _).
  assert (Ep : pages (stack w) = [0]) by apply pages_initial.
  assert (El : layers w = [Other]).
  { unfold layers. rewrite Ep. cbn [map]. unfold layer_of. cbn [objects w]. by rewrite lookup_singleton_eq. }
  split; try done; rewrite ?El, ?Ep.
  - constructor; [|done]. cbn. lia.
  - split; [by intros ?%elem_of_nil|done].
  - by intros ?%list_elem_of_singleton.
Qed.

(** C14: the pages ask in turn. From start-up, over any history of gestures, dialogs and
    transitions, with anything the peers, the timers and the settings do in between:
    everything the program is told is a history in which a PIN is submitted only while
    no request of the sender is outstanding, so both services are in states they can
    be left in and see the same shared objects; and while a PIN dialog on the stack
    is open, the sender waits for its answer with nothing outstanding. *)
Theorem pages_ask_in_turn t0 l settings known history files gestures :
  let a0 := main t0 l settings known history files in
  let w := run (open_window a0) gestures in
  app w = App.run a0 (rev (calls w))
  /\ AppFacts.orderly_run a0 (rev (calls w)) = true
  /\ ReceiveFacts.service_ok ∅ (receiver (app w)) /\ SendFacts.sender_ok (sender (app w)) /\ AppFacts.shared (app w)
  /\ forall i retry peerAlias,
       i ∈ pages (stack w) -> objects w !! i = Some (PinDialog retry peerAlias) -> i ∉ answered w -> waiting (app w).
Proof.
  cbv zeta. set (w := run _ _).
  assert (Hw : window_ok (main t0 l settings known history files) w) by apply window_run_ok, open_window_ok, AppFacts.main_ok.
  clearbody w. destruct Hw as [O1 O2 (Hr & Hs & Hsh) O4 O5 O6]. split_and!; [done..|].
  intros i retry peerAlias Hi Hp Ha. apply O6. apply list_elem_of_fmap. exists i. split; [|done].
  unfold layer_of. by rewrite Hp, bool_decide_false.
Qed.

(** ** Consent *)

Lemma app_of_receiver s (w : Window) : app (of_receiver w s) = app w.
Proof.
  destruct s; cbn [of_receiver]; try done.
  - unfold onRequestArrived. cbv zeta. destruct (_ && _); by destruct (negb _).
  - unfold showTransferPage. cbv zeta. destruct (qeq _ _); [done|by destruct (qeq _ _)].
  - unfold onTransferFinished. destruct (_ || _); [done|by destruct (qeq _ _)].
Qed.
Lemma app_of_sender s (w : Window) : app (of_sender w s) = app w.
Proof.
  destruct s; cbn [of_sender]; try done.
  - unfold onPinRequired. cbv zeta. by destruct (qeq _ _).
  - unfold onFinished. destruct (_ || _); [done|by destruct (negb _)].
Qed.
Lemma app_signals {A} (f : Window -> A -> Window) l (w : Window) :
  (forall s w, app (f w s) = app w) -> app (foldl f w l) = app w.
Proof. intros Hf. revert w. induction l as [|s l IH]; intros w; [done|]. cbn [foldl]. by rewrite IH, Hf. Qed.
Lemma app_call t e (w : Window) : app (call t e w) = handle t e (app w).
Proof.
  unfold call. cbv zeta. rewrite (app_signals of_sender) by apply app_of_sender.
  by rewrite (app_signals of_receiver) by apply app_of_receiver.
Qed.
Lemma app_happens t e (w : Window) : app (happens t e w) = handle t e (app w).
Proof.
  unfold happens. cbv zeta. destruct (qeq _ _); [apply app_call|]. rewrite <- (app_call t e w).
  unfold onLanguageChanged, loadTranslation. cbv zeta. by destruct (loads _).
Qed.

Definition session (a : App) : qstring := ReceiveService.m_sessionId (receiver a).
(** What may begin a session. *)
Definition begins (e : event) : bool :=
  match e with Receiving (ReceiveService.Accept | ReceiveService.Http _ _) => true | _ => false end.
Lemma session_begins t e (a : App) :
  ReceiveFacts.service_ok ∅ (receiver a) -> session a = [] -> session (handle t e a) <> [] ->
  (e = Receiving ReceiveService.Accept /\ ReceiveService.m_pending (receiver a) <> None)
  \/ exists i h, e = Receiving (ReceiveService.Http i h) /\ AppSettings.quickSave (ReceiveService.m_settings (receiver a)) = true.
Proof.
  intros Hok Ha Hn. destruct e; try done. change (ReceiveService.m_sessionId (receive t e (receiver a)) <> []) in Hn.
  assert (Hplain : ReceiveService.m_sessionId (ReceiveService.handle t (receiver a) e) <> [] ->
    (Receiving e = Receiving ReceiveService.Accept /\ ReceiveService.m_pending (receiver a) <> None)
    \/ exists i h, Receiving e = Receiving (ReceiveService.Http i h)
                   /\ AppSettings.quickSave (ReceiveService.m_settings (receiver a)) = true).
  { intros Hh. destruct (ReceiveFacts.session_needs_consent _ t e Hok Ha Hh) as [[-> Hp]|(i & h & -> & Hq)]; [by left|].
    right. by exists i, h. }
  destruct e; try (by apply Hplain). destruct o; try (by apply Hplain). apply Hplain. intros Hh. apply Hn.
  unfold receive. cbv zeta. set (r := ReceiveService.handle _ _ _) in *.
  assert (Hr : ReceiveFacts.service_ok ∅ r) by (apply ReceiveFacts.handle_ok; [apply ReceiveFacts.no_probes|done]).
  clearbody r. destruct (negb _); [|done]. unfold onReceiveEnabledChanged. destruct (AppSettings.receiveEnabled _).
  - change (ReceiveService.m_sessionId (ReceiveService.startListening listened r).2 = []).
    by rewrite ReceiveFacts.startListening_session.
  - change (ReceiveService.m_sessionId (ReceiveService.stopListening t r) = []). by apply ReceiveFacts.stopListening_session.
Qed.
Lemma receiver_ok t e (a : App) :
  ReceiveFacts.service_ok ∅ (receiver a) -> ReceiveFacts.service_ok ∅ (receiver (handle t e a)).
Proof.
  intros Hr. destruct e; try (exact (AppFacts.own_ok _ _ (AppFacts.own_sender _ a) Hr)).
  - by apply AppFacts.receive_ok.
  - eapply ReceiveFacts.service_ok_eq, Hr. reflexivity.
  - eapply ReceiveFacts.service_ok_eq, Hr. reflexivity.
Qed.
Lemma no_session_run l (a : App) :
  Forall (fun te => begins te.2 = false) l -> ReceiveFacts.service_ok ∅ (receiver a) -> session a = [] ->
  session (App.run a l) = [].
Proof.
  revert a. induction l as [|[t e] l IH]; intros a Hl Hok Ha; [done|]. apply Forall_cons in Hl as [He Hl].
  apply IH; [done|by apply receiver_ok|]. cbn [fst snd] in *.
  destruct (decide (session (handle t e a) = [])) as [|Hn]; [done|].
  destruct (session_begins t e a Hok Ha Hn) as [[-> _]|(i & h & -> & _)]; done.
Qed.

(** Calls that begin no session, if any. *)
Definition quiet (w w' : Window) : Prop :=
  exists l, app w' = App.run (app w) l /\ Forall (fun te => begins te.2 = false) l.
#[local] Instance quiet_preorder : PreOrder quiet.
Proof.
  split; [by exists []|]. intros a b c (l1 & E1 & F1) (l2 & E2 & F2). exists (l1 ++ l2). split; [|by apply Forall_app].
  unfold App.run in *. by rewrite foldl_app, <- E1.
Qed.
Lemma quiet_same (w w' : Window) : app w' = app w -> quiet w w'.
Proof. intros E. by exists []. Qed.
Lemma quiet_pop (w w' : Window) : quiet w w' -> quiet w (pop_page w').
Proof. intros (l & E & Hl). by exists l. Qed.
Lemma quiet_call t e (w w' : Window) : begins e = false -> app w' = app w -> quiet w (call t e w').
Proof. intros He E. exists [(t, e)]. rewrite app_call, E. by repeat constructor. Qed.
Lemma quiet_dispatchSend t device (w : Window) : quiet w (dispatchSend t device w).
Proof.
  unfold dispatchSend. transitivity (call t (SendFiles device (SelectionModel.paths (selection w))) w); [by apply quiet_call|by apply quiet_same].
Qed.
Lemma quiet_startSend t device (w : Window) : quiet w (startSend t device w).
Proof.
  unfold startSend. destruct (SelectionModel.isEmpty _); [by apply quiet_same|].
  destruct (TransferModel.active _); [done|]. destruct (conflicts _); [by apply quiet_same|].
  apply quiet_dispatchSend.
Qed.
Lemma quiet_filesPicked t l (w : Window) : quiet w (filesPicked t l w).
Proof.
  unfold filesPicked. cbv zeta. match goal with |- context [startSend t _ ?x] => transitivity x; [by apply quiet_same|] end.
  match goal with |- quiet _ (match ?o with _ => _ end) => destruct o end; [|done].
  destruct (0 <? _); [apply quiet_startSend|done].
Qed.
Lemma quiet_decline t i (w : Window) : quiet w (answer t i false w).
Proof. unfold answer. case_bool_decide; [done|]. by apply quiet_call. Qed.
Lemma quiet_stop t (w : Window) : quiet w (stop t w).
Proof. unfold stop. by destruct (is_sending w); apply quiet_call. Qed.
Lemma quiet_accept_dialog f (w : Window) :
  (forall p g w', f p = Some g -> quiet w' (g w')) -> quiet w (accept_dialog f w).
Proof.
  intros Hf. unfold accept_dialog. destruct (current w) as [[i p]|]; [|done]. destruct (_ && _); [|done].
  destruct (f p) as [g|] eqn:Hg; [|done]. transitivity (answer_dialog i w); [by apply quiet_same|by eapply Hf].
Qed.

Lemma step_quiet t g (w : Window) :
  g <> TapAccept -> (forall e, g <> Happens e) -> quiet w (step t g w).
Proof.
  intros Hg Hh.
  assert (Hon : forall f : Z -> Page -> Window, (forall i p, quiet w (f i p)) ->
    quiet w match current w with Some (i, p) => f i p | None => w end).
  { intros f Hf. destruct (current w) as [[i p]|]; [by apply Hf|done]. }
  destruct g; cbn [step]; try done; try (by apply quiet_same).
  - by destruct (Hh e).
  - apply Hon. intros i p. destruct (is_dialog p); [done|by apply quiet_same].
  - apply Hon. intros i from. destruct (opens _ _ _); [by apply quiet_same|done].
  - apply Hon. intros i p. destruct p; by try apply quiet_same.
  - apply Hon. intros i p. destruct p; by try apply quiet_same.
  - apply Hon. intros i p. destruct p; try done. apply quiet_startSend.
  - apply Hon. intros i p. destruct p; by try apply quiet_same.
  - apply Hon. intros i p. destruct p; try done. destruct (TransferModel.active _); [done|].
    transitivity (pop_page w); [by apply quiet_same|apply quiet_startSend].
  - apply quiet_accept_dialog. intros p g w' Hp. destruct p as [| | | |[]| | | | |]; try done; injection Hp as <-.
    + apply quiet_filesPicked.
    + by apply quiet_same.
  - apply quiet_accept_dialog. intros p g w' Hp. destruct p; try done. injection Hp as <-. apply quiet_dispatchSend.
  - apply quiet_accept_dialog. intros p g w' Hp. destruct p; try done. destruct (is_empty pin); [done|]. injection Hp as <-.
    by apply quiet_call.
  - apply quiet_accept_dialog. intros p g w' Hp. destruct p; try done. destruct (setting_op k text); [|done].
    injection Hp as <-. by apply quiet_call.
  - destruct (objects w !! i) as [p|]; [|done]. destruct (_ && _); [|done].
    destruct p as [| | | |[]| | | | |]; cbn [on_rejected]; first [by apply quiet_same | by apply quiet_call].
  - unfold on_named. apply Hon. intros i p. destruct p; try done. destruct (qeq _ _); [|done]. unfold togglePin.
    destruct (negb _); [done|]. cbv zeta. transitivity (change t (AppSettings.OpPinEnabled on) None w); [by apply quiet_call|].
    destruct (_ && _); [by apply quiet_same|done].
  - apply Hon. intros i p. destruct p as [| | | | | | | |[]|]; try done. unfold removePin. destruct (negb _); [done|].
    apply quiet_pop. transitivity (change t (AppSettings.OpPin []) None w); by apply quiet_call.
  - unfold on_named. apply Hon. intros i p. destruct p; try done. destruct (qeq _ _); [|done]. unfold rename.
    destruct (setting_op _ _); [by apply quiet_call|done].
  - unfold on_named. apply Hon. intros i p. destruct p; try done. destruct (qeq _ _); [|done]. unfold lookUp. cbv zeta.
    destruct (is_empty _); [done|by apply quiet_call].
  - apply Hon. intros i p. destruct p; try done. apply quiet_pop, quiet_decline.
  - apply Hon. intros i p. destruct p; try done. apply quiet_pop.
    transitivity (block_peer t w); [by apply quiet_call|apply quiet_decline].
  - apply Hon. intros i p. destruct p; try done. destruct (is_over w); [by apply quiet_same|apply quiet_stop].
  - destruct (cover_busy w); [apply quiet_stop|done].
  - unfold receiveSharedFiles. destruct (is_empty _); [done|]. cbv zeta. destruct (_ && _); by apply quiet_same.
  - case_bool_decide; by apply quiet_same.
  - destruct (objects w !! i) as [p|]; [|done]. destruct (on_stack i w); [done|].
    destruct p; try (by apply quiet_same). unfold onDestruction. destruct (_ && _); [by apply quiet_call|by apply quiet_same].
Qed.

(** C15: receiving takes a tap. From start-up, over any history of the pages and of the
    program under them, a session with files to come begins in one of two ways: the
    person taps Accept on the page on top, which shows a request, waiting and not yet
    answered there; or a request arrives while quick save is switched on. No swipe,
    no dialog, no page that is destroyed and no tap elsewhere begins one. *)
Theorem receiving_takes_a_tap t0 l settings known history files gestures t g :
  let w := run (open_window (main t0 l settings known history files)) gestures in
  let w' := step t g w in
  session (app w) = [] -> session (app w') <> [] ->
  (g = TapAccept /\ ReceiveService.m_pending (receiver (app w)) <> None
   /\ exists i, current w = Some (i, ReceiveRequestPage) /\ i ∉ decided w)
  \/ exists i h, g = Happens (Receiving (ReceiveService.Http i h))
                 /\ AppSettings.quickSave (ReceiveService.m_settings (receiver (app w))) = true.
Proof.
  cbv zeta. set (w := run _ _).
  assert (Hw : window_ok (main t0 l settings known history files) w) by apply window_run_ok, open_window_ok, AppFacts.main_ok.
  clearbody w. destruct (wo_app _ w Hw) as (Hok & _ & _). intros Hi Hn.
  assert (Hc : (exists e, g = Happens e) \/ g = TapAccept \/ (g <> TapAccept /\ forall e, g <> Happens e)).
  { destruct g; try (by right; right); [left; by eexists|right; by left]. }
  destruct Hc as [[e ->]|[->|[Hg Hh]]].
  - right. cbn [step] in Hn. destruct (pages_only e) eqn:He; [done|]. rewrite app_happens in Hn.
    destruct (session_begins t e (app w) Hok Hi Hn) as [[-> _]|(i & h & -> & Hq)]; [done|by exists i, h].
  - left. split; [done|]. cbn [step] in Hn. unfold on_request in Hn. destruct (current w) as [[i p]|]; [|done].
    destruct p; try done. unfold answer in Hn. case_bool_decide as Hd; [done|]. cbv zeta in Hn. rewrite app_call in Hn.
    destruct (session_begins t _ (app w) Hok Hi Hn) as [[_ Hp]|(? & ? & ? & _)]; [|done].
    split; [done|]. by exists i.
  - destruct (step_quiet t g w Hg Hh) as (new & E & Hl). rewrite E in Hn. by destruct (Hn (no_session_run new _ Hl Hok Hi)).
Qed.
End PagesFacts.
End PagesFacts.
