(* ===== verification/ReferenceReceive.v ===== *)
(** * A reference world for discovery and the receiving service

    A network that answers, a disk that takes everything, and a first session:
    one peer asks to send one file of three bytes. The witnesses of Discovery,
    ReceiveFacts, ReceiveSizes and ReceiveChecks run on it. *)
From S2P Require Import Prelude Json Crypto Reference Protocol DeviceInfo SecureStore Certificate TlsClient.
From S2P Require Import KnownDevices AppSettings HistoryModel DeviceModel FileNames Network Discovery.
From S2P Require Import RateLimiter TransferModel TransferFacts HttpConnection HttpFacts HttpFrame ReferenceHttp HttpServer.
From S2P Require Import ReceiveService ReceiveFacts ReceiveHttp ReceiveSizes ReceiveChecks.

Module ReferenceReceive.
Import Reference ReferenceJson ReferenceCertificate ReferenceSettings ReferenceHttp.
#[local] Existing Instances Discovery.eta_Discovery HttpConnection.eta_Conn.

(** ** The parameters *)

(** A URL is its scheme, its host and the rest, at the default port. *)
#[export] Instance toy_url : UrlText := {|
  parse_url := fun text =>
    match split_on 47 text with
    | s :: _ :: h :: p => mkUrl (take (List.length s - 1) s) h None (List.concat (map (cons 47) p)) []
    | _ => mkUrl [] text None [] []
    end
|}.
#[export] Instance toy_network : NetworkState := {|
  allInterfaces := fun _ => [(1, true)];
  allIPv4 := fun _ => [(lit "127.0.0.1", true); (lit "10.0.0.7", false)];
  udp_bind := fun _ => true;
  udp_join := fun _ _ => true;
  udp_write := fun _ _ _ => true
|}.
#[export] Program Instance toy_disk : Disk := {|
  disk_mkpath := fun _ _ => true;
  disk_open := fun _ _ => true;
  disk_accepts := fun _ _ d => len d;
  disk_keeps := fun _ _ d => d;
  disk_rename := fun _ _ _ => true
|}.
Next Obligation. intros n p d. cbn. pose proof (len_nonneg d). lia. Qed.
Next Obligation. done. Qed.

(** ** Discovery *)

#[local] Abbreviation Store := (gmap qstring bytes).
Definition radio : Discovery.Discovery (S := Store) := Discovery.Discovery0 first_start DeviceModel.DeviceModel0 None.
Definition peer_info : jobject :=
  [] |>> jinsert (lit "alias") (JString (lit "Warm Fig")) |>> jinsert (lit "fingerprint") (JString (lit "abcd")).


Definition failed : Outcome := mkOutcome (Some (lit "refused")) 0 [] None.
Definition sweeping : list (Z * Discovery.event) :=
  [(0, Discovery.Start); (10, Discovery.ScanSubnet)].
Lemma sweep_ends_witness :
  let d := Discovery.run radio sweeping in
  Discovery.m_scanInFlight d = 24 /\ Discovery.remaining d = 506
  /\ exists id, Discovery.remaining (Discovery.handle 20 (Discovery.Finished id failed) d) = 506 - 1.
Proof.
  pose proof (Discovery.sweep_ends first_start DeviceModel.DeviceModel0 None sweeping) as Hends.
  assert (Hs : Discovery.m_scanning (Discovery.run radio sweeping) = true) by (vm_compute; reflexivity).
  assert (Hr : Discovery.remaining (Discovery.run radio sweeping) = 506) by (vm_compute; reflexivity).
  assert (Hf : Discovery.m_scanInFlight (Discovery.run radio sweeping) = 24) by (vm_compute; reflexivity).
  change (Discovery.Discovery0 first_start DeviceModel.DeviceModel0 None) with radio in Hends.
  cbv zeta in Hends |- *. revert Hends Hs Hr Hf. generalize (Discovery.run radio sweeping). intros d.
  intros (_ & _ & _ & Hon & _ & Hstep) Hs Hr Hf. split; [exact Hf|]. split; [exact Hr|].
  destruct (Hon Hs) as (id & r & Hid & Hk). exists id. rewrite (Hstep 20 id failed r Hid Hk), Hr. reflexivity.
Defined.

Definition shouting : list (option (qstring * bytes)) :=
  let object := jinsert (lit "announce") (JBool true) peer_info in
  replicate 5 (Some (lit "10.0.0.9", to_json (JObject object))).
(** Answered once when it first shouts, with a datagram and a POST; ten more
    shouts within the cooldown set off nothing. *)
Lemma reflection_is_bounded_witness :
  let d := Discovery.run radio [(0, Discovery.Start); (100, Discovery.Datagrams (take 1 shouting))] in
  List.length (Discovery.sent d) = 3%nat
  /\ exists log, Discovery.sent (Discovery.passes d [(200, shouting); (10099, shouting)])
                = List.concat (map snd log) ++ Discovery.sent d
       /\ Discovery.answered (lit "10.0.0.9") log = 0.
Proof.
  set (d := Discovery.run radio _). cbv zeta. split; [vm_compute; reflexivity|].
  destruct (Discovery.reflection_is_bounded d [(200, shouting); (10099, shouting)] 100)
    as (_ & log & Hs & _ & _ & Hk).
  - vm_compute. discriminate.
  - apply List.Forall_cons; [cbn; unfold Discovery.ResponseCooldownMs; lia|].
    apply List.Forall_cons; [cbn; unfold Discovery.ResponseCooldownMs; lia|]. constructor.
  - exists log. split; [exact Hs|]. destruct (Hk (lit "10.0.0.9")) as [_ Hk'].
    apply Hk'; vm_compute; [reflexivity|discriminate].
Defined.

(** ** The receiving service *)

Import ReceiveService.
Definition log : HistoryModel.HistoryModel (S := Store) := HistoryModel.HistoryModel0 ∅.
Definition arrives (i t : Z) (data : bytes) : Z * event := (t, Http i (HttpConnection.Data t data)).
Definition offer : bytes :=
  to_json (JObject ([] |>> jinsert (lit "info") (JObject peer_info)
    |>> jinsert (lit "files") (JObject [(lit "f1",
          JObject ([] |>> jinsert (lit "fileName") (JString (lit "a.txt"))
                      |>> jinsert (lit "size") (JNum (double_of_Z 3))))]))).
(** The peer asks; the person accepts; the file comes in two pieces. *)
Definition asking : list (Z * event) :=
  [(0, StartListening None); (1, Connection 1 (lit "10.0.0.9") None);
   arrives 1 2 (ln "POST /api/localsend/v2/prepare-upload HTTP/1.1" ++ ln "Content-Length: 2"
                ++ HttpConnection.crlf ++ offer)].
Definition accepting : list (Z * event) := asking ++ [(3, Accept)].
Definition asked : World := ReceiveFacts.run (World0 radio log ∅) asking.
Definition accepted : World := ReceiveFacts.run (World0 radio log ∅) accepting.
Definition upload_head : bytes :=
  lit "POST /api/localsend/v2/upload?sessionId=" ++ m_sessionId accepted
  ++ lit "&fileId=f1&token=" ++ default [] (m_tokens accepted !! lit "f1") ++ ln " HTTP/1.1"
  ++ ln "Content-Length: 3" ++ HttpConnection.crlf.
Definition uploading : list (Z * event) :=
  accepting ++ [(4, Connection 2 (lit "10.0.0.9") None); arrives 2 5 (upload_head ++ lit "ab")].
Definition sending : list (Z * event) := uploading ++ [arrives 2 6 (lit "c")].
Definition received : World := ReceiveFacts.run (World0 radio log ∅) sending.
Definition a_txt : qstring := lit "/home/Downloads/a.txt".

(** The end of the world: another peer, a restart of the listener. *)
Definition later : list (Z * event) :=
  [(7, StopListening); (8, StartListening None); (9, Connection 3 (lit "10.0.0.66") None);
   arrives 3 10 (lit "garbage")].
(** The named worlds, in the form of the theorems. *)
Lemma received_eq : ReceiveFacts.run (World0 radio log ∅) sending = received.
Proof. unfold received. reflexivity. Defined.
Lemma accepted_eq : ReceiveFacts.run (World0 radio log ∅) accepting = accepted.
Proof. unfold accepted. reflexivity. Defined.
Lemma asked_eq : ReceiveFacts.run (World0 radio log ∅) asking = asked.
Proof. unfold asked. reflexivity. Defined.
Lemma files_survive_witness :
  disk received !! a_txt = Some (lit "abc")
  /\ disk (ReceiveFacts.run received later) !! a_txt = Some (lit "abc").
Proof.
  assert (Hp : disk received !! a_txt = Some (lit "abc")) by (vm_compute; reflexivity).
  assert (Hu : m_uploads received = ∅) by (vm_compute; reflexivity).
  split; [exact Hp|].
  pose proof (ReceiveFacts.files_survive radio log ∅ sending later a_txt (lit "abc")) as Hf.
  cbv zeta in Hf. rewrite received_eq in Hf. apply Hf.
  - exact Hp.
  - intros i u Hi. rewrite Hu in Hi. discriminate.
  - intros [path Hpath]. apply (f_equal (fun l => rev l)) in Hpath. rewrite rev_app_distr in Hpath.
    vm_compute in Hpath. discriminate.
Defined.
Lemma consent_needed_witness : m_sessionId (handle 3 asked Accept) <> [] /\ m_pending asked <> None.
Proof.
  assert (Hs : m_sessionId (handle 3 asked Accept) <> []) by (vm_compute; discriminate).
  split; [exact Hs|].
  pose proof (ReceiveFacts.consent_needed radio log ∅ asking 3 Accept) as Hc.
  cbv zeta in Hc. rewrite asked_eq in Hc.
  destruct (Hc ltac:(vm_compute; reflexivity) Hs) as [[_ Hp]|(i & h & [=] & _)]. exact Hp.
Defined.
Lemma nothing_waits_forever_witness :
  ReceiveFacts.at_rest (handle 70000 accepted SessionIdle)
  /\ ReceiveFacts.at_rest (handle 95000 asked AcceptTimeout).
Proof.
  destruct (ReceiveFacts.nothing_waits_forever radio log ∅ accepting) as [Hs _].
  destruct (ReceiveFacts.nothing_waits_forever radio log ∅ asking) as [_ Hp].
  rewrite accepted_eq in Hs. rewrite asked_eq in Hp.
  assert (Ds : HttpConnection.deadline (m_idleTimer accepted) = Some 60003) by (vm_compute; reflexivity).
  assert (Dp : HttpConnection.deadline (m_acceptTimer asked) = Some 90002) by (vm_compute; reflexivity).
  split.
  - destruct (Hs ltac:(vm_compute; discriminate)) as (d & Hd & Hrest). apply Hrest.
    rewrite Ds in Hd. injection Hd as <-. lia.
  - destruct (Hp ltac:(vm_compute; discriminate)) as (d & Hd & Hrest). apply Hrest.
    rewrite Dp in Hd. injection Hd as <-. lia.
Defined.
(** The connection as it stands when its headers are announced. *)
Definition knocking : World :=
  put_conn 2 ((HttpConnection.Conn0 4 (lit "10.0.0.9") None)
    <| HttpConnection.m_path := lit "/api/localsend/v2/upload" |>
    <| HttpConnection.m_query :=
         list_to_map [(lit "sessionId", m_sessionId accepted); (lit "fileId", lit "f1");
                      (lit "token", default [] (m_tokens accepted !! lit "f1"))] |>) accepted.
Lemma upload_needs_capability_witness :
  m_uploads (handleUploadHeaders 5 2 knocking) !! 2 = Some (mkUpload 0 (a_txt ++ lit ".part") a_txt)
  /\ HttpConnection.m_peerAddress (the_conn 2 knocking) = m_sessionAddress knocking.
Proof.
  assert (Hu : m_uploads (handleUploadHeaders 5 2 knocking) !! 2 = Some (mkUpload 0 (a_txt ++ lit ".part") a_txt))
    by (vm_compute; reflexivity).
  split; [exact Hu|].
  destruct (ReceiveFacts.upload_needs_capability 5 2 knocking _ ltac:(vm_compute; reflexivity) Hu) as ((_ & _ & _ & Ha) & _).
  exact Ha.
Defined.
Lemma accepted_ok : ReceiveFacts.service_ok ∅ accepted.
Proof. apply ReceiveFacts.run_ok; [apply ReceiveFacts.no_probes|]. apply ReceiveFacts.World0_ok. done. Defined.
Lemma finish_settles_witness :
  TransferModel.m_state (m_transfer (finishSession 9 (lit "failed") accepted)) = TransferModel.Failed
  /\ m_tokens (finishSession 9 (lit "failed") accepted) = ∅.
Proof.
  destruct (ReceiveFacts.finish_settles 9 (lit "failed") accepted accepted_ok ltac:(vm_compute; discriminate))
    as (_ & _ & _ & Ht & _ & Hm & _).
  split; [rewrite Hm; vm_compute; reflexivity|exact Ht].
Defined.
(** Two of three bytes are in. *)
Definition arriving : World := ReceiveFacts.run (World0 radio log ∅) uploading.
Lemma arriving_eq : ReceiveFacts.run (World0 radio log ∅) uploading = arriving.
Proof. unfold arriving. reflexivity. Defined.
Lemma service_answers_once_witness :
  (HttpFacts.emissions HttpConnection.requestReady (the_conn 2 arriving) <= 1)%nat
  /\ HttpConnection.m_bodyReceived (the_conn 2 arriving) = 2
  /\ exists b, disk arriving !! (a_txt ++ lit ".part") = Some b /\ len b <= 3.
Proof.
  destruct (ReceiveSizes.service_answers_once radio log ∅ uploading 2) as ((_ & Hr & _) & _ & Hs & _).
  rewrite arriving_eq in Hr, Hs.
  assert (Hu : m_uploads arriving !! 2 = Some (mkUpload 0 (a_txt ++ lit ".part") a_txt)) by (vm_compute; reflexivity).
  assert (Hsize : TransferModel.size (TransferModel.entry 0 (m_transfer arriving)) = 3) by (vm_compute; reflexivity).
  split; [exact Hr|]. split; [vm_compute; reflexivity|].
  destruct (Hs _ Hu) as (_ & b & Hb & Hl). exists b. split; [exact Hb|].
  cbn [row] in Hl. rewrite Hsize in Hl. exact Hl.
Defined.

(** The request, when its body is in. *)
Definition requested : World :=
  put_conn 1 ((HttpConnection.Conn0 1 (lit "10.0.0.9") None) <| HttpConnection.m_body := offer |>)
    (World0 radio log ∅).
Lemma request_is_screened_witness :
  m_pending (handlePrepareUpload 2 1 requested) = Some 1.
Proof.
  destruct (ReceiveChecks.request_is_screened 2 1 requested) as [_ Hshown]. apply Hshown; [|vm_compute; reflexivity].
  split; [vm_compute; reflexivity|vm_compute; split; reflexivity|vm_compute; reflexivity|vm_compute; reflexivity| | |].
  - split; [vm_compute; discriminate|split; [vm_compute; reflexivity|vm_compute; discriminate]].
  - intros der Hd. vm_compute in Hd. discriminate.
  - intros kd Hk. vm_compute in Hk. discriminate.
Defined.
(** The upload, when its body is in. *)
#[local] Abbreviation complete := (writeData 2 (lit "c") arriving).2.
Lemma arriving_ok : ReceiveFacts.service_ok ∅ arriving.
Proof.
  unfold arriving. apply ReceiveFacts.run_ok; [apply ReceiveFacts.no_probes|]. apply ReceiveFacts.World0_ok. done.
Defined.
Lemma written_ok (i : Z) (d : bytes) (w : World (S := Store)) :
  ReceiveFacts.service_ok ∅ w -> ReceiveFacts.service_ok ∅ (writeData i d w).2.
Proof. exact (HttpFrame.framed_sink (Framed := ReceiveFacts.service_framed ∅ ReceiveFacts.no_probes) i d w). Defined.
Lemma done_means_delivered_witness :
  TransferFacts.row_status 0 (m_transfer (handleUploadFinished 6 2 complete)) = Some TransferModel.FileDone
  /\ ReceiveChecks.arrived 2 (mkUpload 0 (a_txt ++ lit ".part") a_txt) complete = lit "abc".
Proof.
  split; [|vm_compute; reflexivity].
  destruct (ReceiveChecks.done_means_delivered 6 2 (mkUpload 0 (a_txt ++ lit ".part") a_txt) complete
              (written_ok 2 (lit "c") arriving arriving_ok))
    as (Hdone & _ & _).
  - vm_compute. reflexivity.
  - vm_compute. reflexivity.
  - assert (Hu : m_uploads complete = {[2 := mkUpload 0 (a_txt ++ lit ".part") a_txt]}) by (vm_compute; reflexivity).
    intros j v Hj Hn. rewrite Hu in Hj. apply lookup_singleton_Some in Hj as [Hj _]. congruence.
  - apply Hdone. split; [vm_compute; discriminate|]. intros Hl. vm_compute in Hl. discriminate.
Defined.

End ReferenceReceive.
