(* ===== verification/ReferenceSend.v ===== *)
(** * A reference world for the sending service, and for the two ends together

    A file system of one file of three bytes; a sender on it; the receiver of
    ReferenceReceive facing it. The witnesses of SendFacts, Handover and
    Permission run on it. *)
From S2P Require Import Prelude Json Crypto Reference Protocol DeviceInfo SecureStore Certificate TlsClient.
From S2P Require Import KnownDevices AppSettings HistoryModel SelectionModel DeviceModel FileNames Network Discovery.
From S2P Require Import RateLimiter TransferModel TransferFacts HttpConnection HttpFacts HttpFrame ReferenceHttp HttpServer.
From S2P Require Import SendService SendFacts ReceiveService ReceiveFacts ReceiveHttp ReceiveChecks Handover Permission.
From S2P Require Import ReferenceReceive.

Module ReferenceSend.
Import Reference ReferenceJson ReferenceCertificate ReferenceSettings ReferenceHttp ReferenceReceive.
#[local] Existing Instances HttpConnection.eta_Conn.

(** ** The parameters *)

#[export] Instance toy_files : LocalFiles := {|
  is_readable_file := fun path => qeq path (lit "/home/a.txt");
  canonicalFilePath := fun path => path;
  info_fileName := fun _ => lit "a.txt";
  info_size := fun _ => 3;
  mime_type := fun _ => lit "text/plain";
  url_toLocalFile := fun url => drop 7 url
|}.
#[export] Instance toy_opens : OpenFiles := {| file_opens := fun _ _ => true |}.

(** ** The sender *)

#[local] Abbreviation Store := (gmap qstring bytes).
#[local] Abbreviation Sender := (SendService.World (S := Store)).
#[local] Abbreviation Receiver := (ReceiveService.World (S := Store)).
Definition settings : AppSettings.AppSettings (S := Store) := first_start.
Definition idle_transfer : TransferModel.TransferModel := TransferModel.TransferModel0.
Definition fig : list (qstring * variant) :=
  [(lit "alias", VString (lit "Warm Fig")); (lit "fingerprint", VString (lit "abcd"));
   (lit "address", VString (lit "10.0.0.9")); (lit "protocol", VString (lit "https"))].
Definition a_path : qstring := lit "file:///home/a.txt".
Definition start0 : Sender := SendService.World0 settings idle_transfer log None.
Definition begun : Sender := SendService.sendFiles 0 fig [a_path; lit "/home/none"] start0.

(** The peer asks for a PIN, gets it, agrees, and takes the file. *)
Definition row_id : qstring := TransferModel.id (SendService.entry 0 begun).
Definition answered (status : Z) (body : bytes) : Outcome := mkOutcome None status body None.
Definition yes : bytes :=
  to_json (JObject (jinsert (lit "files") (JObject [(row_id, JString (lit "cafe"))])
                     (jinsert (lit "sessionId") (JString (lit "5e55")) []))).
Definition asked_pin : list (Z * SendService.event (S := Store)) :=
  [(0, SendService.SendFiles fig [a_path; lit "/home/none"]); (1, SendService.Finished 0 (answered 401 []))].
Definition underway : list (Z * SendService.event (S := Store)) :=
  asked_pin ++ [(2, SendService.SubmitPin (lit "1234")); (3, SendService.Finished 1 (answered 200 yes))].
Definition waiting_pin : Sender := SendService.run start0 asked_pin.
Definition uploading : Sender := SendService.run start0 underway.
Lemma waiting_pin_eq : SendService.run (SendService.World0 settings idle_transfer log None) asked_pin = waiting_pin.
Proof. unfold waiting_pin. reflexivity. Defined.
Lemma uploading_eq : SendService.run (SendService.World0 settings idle_transfer log None) underway = uploading.
Proof. unfold uploading. reflexivity. Defined.
Lemma asked_pin_orderly : SendFacts.orderly_run (SendService.World0 settings idle_transfer log None) asked_pin = true.
Proof. vm_compute. reflexivity. Defined.
Lemma underway_orderly : SendFacts.orderly_run (SendService.World0 settings idle_transfer log None) underway = true.
Proof. vm_compute. reflexivity. Defined.

Lemma sender_never_stuck_witness :
  (exists retry l, SendService.emitted waiting_pin = SendService.pinRequired retry :: l)
  /\ is_Some (SendService.m_currentFile uploading).
Proof.
  pose proof (SendFacts.sender_never_stuck settings idle_transfer log None asked_pin asked_pin_orderly) as [Hp _].
  pose proof (SendFacts.sender_never_stuck settings idle_transfer log None underway underway_orderly) as (_ & _ & Hf).
  cbv zeta in Hp, Hf. rewrite waiting_pin_eq in Hp. rewrite uploading_eq in Hf. split.
  - destruct (Hp ltac:(vm_compute; reflexivity)) as [(id & (s & Hs & _) & _)|[_ Hl]]; [|exact Hl].
    exfalso. assert (He : SendService.replies waiting_pin = ∅) by (vm_compute; reflexivity).
    rewrite He, lookup_empty in Hs. discriminate.
  - apply Hf. exists 2, 0. vm_compute. reflexivity.
Defined.
Lemma upload_reply_settles_witness :
  TransferFacts.row_status 0 (SendService.m_transfer (SendService.handle 9 (SendService.Finished 2 (answered 200 [])) uploading))
    = Some TransferModel.FileDone.
Proof.
  pose proof (SendFacts.upload_reply_settles settings idle_transfer log None underway 9 2 0 (answered 200 []) underway_orderly) as Hu.
  cbv zeta in Hu. rewrite uploading_eq in Hu.
  destruct Hu as [Hu _]; [vm_compute; reflexivity|vm_compute; reflexivity|].
  transitivity (Some (if SendFacts.accepted (answered 200 []) then TransferModel.FileDone else TransferModel.FileFailed));
    [exact Hu|vm_compute; reflexivity].
Defined.

(** A catalogue in which the fig is blocked. *)
Definition wary : KnownDevices.KnownDevices (S := Store) :=
  KnownDevices.setBlocked 0 (lit "abcd") (lit "Warm Fig") true (KnownDevices.KnownDevices0 ∅).
Lemma nothing_leaves_unpinned_witness :
  SendService.sent (SendService.sendFiles 0 fig [a_path] (SendService.World0 settings idle_transfer log (Some wary))) = [].
Proof.
  destruct (SendFacts.nothing_leaves_unpinned settings idle_transfer log None []) as [_ Hb].
  destruct (Hb 0 fig [a_path] (SendService.World0 settings idle_transfer log (Some wary)) wary) as [Hs _];
    [reflexivity|vm_compute; reflexivity|exact Hs].
Defined.

(** ** The two ends *)

(** The file list on its way: what the sender posted is the body of a request. *)
Definition listed_body : bytes :=
  match SendService.sent begun with
  | r :: _ => match req_body r with Bytes b => b | _ => [] end
  | [] => []
  end.
Definition facing : Receiver :=
  ReceiveService.put_conn 1 ((HttpConnection.Conn0 1 (lit "10.0.0.7") None) <| HttpConnection.m_body := listed_body |>)
    (ReceiveService.World0 radio log ∅).
Lemma a_tellable x :
  x ∈ [a_path; lit "/home/none"] -> is_readable_file (SendService.localPathOf x) = true -> Handover.tellable (SendService.localPathOf x).
Proof.
  intros _ _. split.
  - split; [discriminate|vm_compute; reflexivity].
  - vm_compute. split; discriminate.
  - split; [|vm_compute; reflexivity]. cbn [mime_type toy_files]. apply DeviceInfo.clean_lit; reflexivity.
Defined.
Lemma begun_eq : SendService.sendFiles 0 fig [a_path; lit "/home/none"] start0 = begun.
Proof. unfold begun. reflexivity. Defined.
Lemma start0_settings : SendService.m_settings start0 = settings.
Proof. unfold start0. reflexivity. Defined.
Lemma settings_announceable : DeviceInfo.announceable (AppSettings.self settings).
Proof.
  split; try (vm_compute; (split; congruence) || congruence || (left; reflexivity) || (right; reflexivity)).
  - split; [apply DeviceInfo.clean_lit; vm_compute; reflexivity|vm_compute; discriminate].
  - apply DeviceInfo.clean_lit; vm_compute; reflexivity.
  - apply DeviceInfo.clean_lit; vm_compute; reflexivity.
  - split; [apply DeviceInfo.clean_lit; vm_compute; reflexivity|vm_compute; discriminate].
  - apply DeviceInfo.clean_lit; vm_compute; reflexivity.
Defined.
Lemma offer_arrives_witness :
  DeviceInfo.alias (DeviceInfo.fromPayload (ReceiveChecks.claimed_info 1 facing)) = DeviceInfo.alias (AppSettings.self settings)
  /\ row_id ∈ jkeys (ReceiveChecks.claimed_files 1 facing).
Proof.
  pose proof (Handover.offer_arrives 0 fig [a_path; lit "/home/none"] start0 1 facing listed_body a_tellable) as Ho.
  cbv zeta in Ho. rewrite begun_eq, start0_settings in Ho. destruct Ho as (Hinfo & _ & Hkeys & _).
  - exact settings_announceable.
  - split_and!; vm_compute; reflexivity.
  - reflexivity.
  - vm_compute. reflexivity.
  - destruct (SendService.sent begun) as [|req rest] eqn:Hs; [vm_compute in Hs; discriminate|].
    exists req, rest. split; [reflexivity|]. unfold listed_body. rewrite Hs.
    destruct (req_body req) eqn:Hb; [reflexivity|].
    apply (f_equal (fun l => match l with r :: _ => Some (req_body r) | [] => None end)) in Hs.
    rewrite Hb in Hs. vm_compute in Hs. discriminate.
  - reflexivity.
  - split; [revert Hinfo; generalize (AppSettings.self settings); intros d ->; reflexivity|]. apply Hkeys. exists (SendService.entry 0 begun). split; [|reflexivity].
    apply (list_elem_of_lookup_2 _ 0%nat). vm_compute. reflexivity.
Defined.

(** The person accepts; the answer goes back. *)
Definition prompted : Receiver := ReceiveService.handlePrepareUpload 2 1 facing.
Definition granting : Receiver := ReceiveService.accept 3 prompted.
Definition its_tokens : jobject :=
  [(row_id, JString (default [] (ReceiveService.m_tokens granting !! row_id)))].
Definition granted : Outcome := answered 200 (to_json (JObject (Permission.permission its_tokens granting))).
Lemma granting_eq : ReceiveService.accept 3 prompted = granting.
Proof. unfold granting. reflexivity. Defined.
Lemma permission_arrives_witness :
  (exists token, ReceiveService.m_tokens granting !! row_id = Some token
    /\ option_map (fun r => Network.url_query (req_url r)) (head (SendService.sent (SendService.onPrepareFinished 4 granted begun)))
       = Some [(lit "sessionId", ReceiveService.m_sessionId granting); (lit "fileId", row_id); (lit "token", token)])
  /\ exists response,
       ReceiveService.the_conn 1 granting = HttpConnection.respondJson 3 200 response (ReceiveService.the_conn 1 prompted)
       /\ forall req, SendService.sent (SendService.onPrepareFinished 4 (answered 200 (to_json (JObject response))) begun)
                      = req :: SendService.sent begun ->
          exists file token, ReceiveService.m_tokens granting !! file = Some token
            /\ Network.url_query (req_url req)
               = [(lit "sessionId", ReceiveService.m_sessionId granting); (lit "fileId", file); (lit "token", token)].
Proof.
  split; [eexists; split; vm_compute; reflexivity|].
  pose proof (Permission.permission_arrives 3 1 prompted) as Hp. cbv zeta in Hp.
  rewrite granting_eq in Hp.
  destruct Hp as (response & Hconn & Hsend).
  - vm_compute. reflexivity.
  - vm_compute. reflexivity.
  - assert (Hf : TransferModel.m_files (ReceiveService.m_transfer prompted)
      = [TransferModel.entry 0 (ReceiveService.m_transfer prompted)]) by (vm_compute; reflexivity).
    rewrite Hf. constructor; [|constructor]. split_and!; [vm_compute; discriminate|vm_compute; reflexivity|vm_compute; discriminate].
  - vm_compute. discriminate.
  - exists response. split; [exact Hconn|]. intros req Hreq.
    destruct (Hsend 4 None begun req) as (file & token & Hq & Ht & _);
      [vm_compute; reflexivity|exact Hreq|]. exists file, token. split; [exact Ht|exact Hq].
Defined.
End ReferenceSend.
