(* ===== verification/ReferenceApp.v ===== *)
(** * A reference world for the whole program

    [main] on the toy network, disk and file system; the witnesses of AppFacts
    run on it, and two histories in which the parts meet. *)
From S2P Require Import Prelude QtArg Json Crypto Reference Protocol DeviceInfo SecureStore Certificate TlsClient.
From S2P Require Import KnownDevices AppSettings HistoryModel SelectionModel DeviceModel FileNames Network Discovery.
From S2P Require Import RateLimiter TransferModel TransferFacts HttpConnection HttpFacts HttpFrame ReferenceHttp HttpServer.
From S2P Require Import SendService SendFacts ReceiveService ReceiveFacts App AppFacts ReferenceReceive ReferenceSend.

Module ReferenceApp.
Import Reference ReferenceJson ReferenceCertificate ReferenceSettings ReferenceHttp ReferenceReceive ReferenceSend.
Import App AppFacts.

#[local] Abbreviation Store := (gmap qstring bytes).
#[local] Abbreviation Program := (App (S := Store)).
Definition nobody : KnownDevices.KnownDevices (S := Store) := KnownDevices.KnownDevices0 ∅.
Definition launched : Program := main 0 None settings nobody log ∅.
Lemma launched_eq : main 0 None settings nobody log ∅ = launched.
Proof. unfold launched. reflexivity. Defined.

(** ** The switch *)

Definition searching : list (Z * event) := [(1, Discovering Discovery.ScanSubnet)].
Definition quiet_after : list (Z * event) :=
  [(3, Discovering Discovery.AnnounceTimeout); (4, Discovering (Discovery.Datagrams shouting));
   (701, Discovering Discovery.Shot); (5, Receiving ReceiveService.StopListening)].
Definition before_off : Program := run launched searching.
Lemma before_off_eq : run (main 0 None settings nobody log ∅) searching = before_off.
Proof. unfold before_off, launched. reflexivity. Defined.
Definition after_off : Program :=
  run (handle 2 (Receiving (ReceiveService.Settings (AppSettings.OpReceive false) None)) before_off) quiet_after.
Lemma switched_off_is_silent_witness :
  ReceiveService.isListening (receiver before_off) = true
  /\ ReceiveService.isListening (receiver after_off) = false
  /\ broadcasts (ReceiveService.m_discovery (receiver after_off)) = broadcasts (ReceiveService.m_discovery (receiver before_off)).
Proof.
  split; [vm_compute; reflexivity|].
  pose proof (switched_off_is_silent 0 None settings nobody log ∅ searching 2 None quiet_after) as Hs. cbv zeta in Hs.
  rewrite before_off_eq in Hs. destruct Hs as (Hl & _ & _ & Hb).
  - vm_compute. reflexivity.
  - repeat (constructor; [reflexivity|]). constructor.
  - split; [exact Hl|exact Hb].
Defined.
(** With receiving off from the start, the listener stays closed - and the device
    announces itself all the same. *)
Definition settings_off : AppSettings.AppSettings (S := Store) := AppSettings.setReceiveEnabled false settings.
Lemma announces_while_off :
  let a := main 0 None settings_off nobody log ∅ in
  ReceiveService.isListening (receiver a) = false
  /\ Discovery.isRunning (ReceiveService.m_discovery (receiver a)) = true
  /\ List.length (broadcasts (ReceiveService.m_discovery (receiver a))) = 1%nat.
Proof. vm_compute. split_and!; reflexivity. Qed.

(** ** Side by side *)

(** We are sending a file when somebody else asks to send us one. *)
Definition busy_both_ways : list (Z * event) :=
  [(1, SendFiles fig [a_path]); (2, SendReply 0 (answered 200 yes));
   (3, Receiving (ReceiveService.Connection 1 (lit "10.0.0.66") None));
   (4, Receiving (ReceiveService.Http 1 (HttpConnection.Data 4
         (ln "POST /api/localsend/v2/prepare-upload HTTP/1.1" ++ ln "Content-Length: 2" ++ HttpConnection.crlf ++ offer))))].
Definition crossed : Program := run launched busy_both_ways.
(** The request on screen has taken the rows over; the reply to our own upload then
    marks the stranger's file as done, before anybody has agreed to it. *)
Lemma reply_settles_the_strangers_file :
  let a := handle 5 (SendReply 1 (answered 200 [])) crossed in
  ReceiveService.m_pending (receiver a) = Some 1
  /\ map TransferModel.id (TransferModel.m_files (ReceiveService.m_transfer (receiver a))) = [lit "f1"]
  /\ TransferFacts.row_status 0 (ReceiveService.m_transfer (receiver a)) = Some TransferModel.FileDone
  /\ ReceiveService.disk (receiver a) = ∅.
Proof. vm_compute. split_and!; reflexivity. Qed.
End ReferenceApp.
