(* ===== verification/ReferencePages.v ===== *)
(** * A reference world for the pages

    A page stack that is the list of its pages, on the program of ReferenceApp:
    a transfer from the share sheet to the last page, a request that is accepted,
    and two histories in which the pages fall short. *)
From S2P Require Import Prelude QtArg Json Crypto Reference Protocol DeviceInfo SecureStore Certificate TlsClient.
From S2P Require Import KnownDevices AppSettings HistoryModel SelectionModel DeviceModel FileNames Network Discovery.
From S2P Require Import RateLimiter TransferModel TransferFacts HttpConnection HttpFacts HttpFrame ReferenceHttp HttpServer.
From S2P Require Import SendService SendFacts ReceiveService ReceiveFacts App AppFacts ReferenceReceive ReferenceSend.
From S2P Require Import ReferenceApp Pages PagesFacts.

Module ReferencePages.
Import Reference ReferenceJson ReferenceCertificate ReferenceSettings ReferenceHttp ReferenceReceive ReferenceSend ReferenceApp.
Import App Pages.

(** ** The parameters *)

#[export] Program Instance list_stack : PageStack := {|
  Stack := list Z;
  pages := fun s => s;
  initial := fun i => [i];
  push := cons;
  replace := fun i s => i :: tail s;
  pop := fun s => if (1 <? len s) then tail s else s;
  unwind := fun s => from_option (fun i => [i]) [] (last s);
  close := fun i => List.filter (fun j => negb (j =? i));
  settle := fun s => s
|}.
Next Obligation. done. Qed.
Next Obligation. intros i s. by left. Qed.
Next Obligation. intros i s. by left. Qed.
Next Obligation. intros s. cbn. destruct (1 <? len s); [by left|by right]. Qed.
Next Obligation. intros s. by left. Qed.
Next Obligation. done. Qed.
Next Obligation. done. Qed.
#[export] Instance toy_translations : Translations := {| loads := qeq (lit "harbour-localsend-fi") |}.

#[local] Abbreviation Store := (gmap qstring bytes).
#[local] Abbreviation Screen := (Window (S := Store)).
Definition opened : Screen := open_window launched.
Lemma opened_eq : open_window (main 0 None settings nobody log ∅) = opened.
Proof. unfold opened, launched. reflexivity. Defined.
Definition shown (w : Screen) : list (option Page) := map (fun i => objects w !! i) (pages (stack w)).

(** ** Sending, from the share sheet on *)

Definition found : gesture := Happens (Discovering (Discovery.Register peer_info (lit "10.0.0.9"))).
Definition asked_for_pin : list (Z * gesture) :=
  [(1, found); (2, Shared [Nothing; Object [] (lit "file:///home/a.txt") [] []]); (3, TapDevice 0);
   (4, Happens (SendReply 0 (ReferenceSend.answered 401 [])))].
Definition pin_open : Screen := run opened asked_for_pin.
Lemma pin_open_eq : run (open_window (main 0 None settings nobody log ∅)) asked_for_pin = pin_open.
Proof. unfold pin_open, opened, launched. reflexivity. Defined.
Lemma pages_ask_in_turn_witness :
  shown pin_open = [Some (PinDialog false (lit "Warm Fig")); Some TransferPage; Some MainPage]
  /\ SendService.m_busy (sender (app pin_open)) = true
  /\ SendService.m_reply (sender (app pin_open)) = None.
Proof.
  assert (Hs : shown pin_open = [Some (PinDialog false (lit "Warm Fig")); Some TransferPage; Some MainPage])
    by (vm_compute; reflexivity).
  split; [exact Hs|]. split; [vm_compute; reflexivity|].
  pose proof (PagesFacts.pages_ask_in_turn 0 None settings nobody log ∅ asked_for_pin) as Hp. cbv zeta in Hp.
  rewrite pin_open_eq in Hp. destruct Hp as (_ & _ & _ & _ & _ & Hpin).
  apply (Hpin 2 false (lit "Warm Fig")).
  - vm_compute. left.
  - vm_compute. reflexivity.
  - assert (Ha : answered pin_open = ∅) by (vm_compute; reflexivity). rewrite Ha. apply not_elem_of_empty.
Defined.
(** The PIN is given, the file goes, and Done leads back to the device list. *)
Lemma sent_from_the_share_sheet :
  let upload := run pin_open [(5, GivePin (lit "1234")); (5, Closed 2); (6, Happens (SendReply 1 (ReferenceSend.answered 200 yes)))] in
  shown upload = [Some TransferPage; Some MainPage] /\ keeps_awake upload = true /\ cover_busy upload = true
  /\ let w := run upload [(7, Activated false); (8, Happens (SendReply 2 (ReferenceSend.answered 200 []))); (9, TapTransferButton)] in
     shown w = [Some MainPage] /\ keeps_awake w = false
     /\ published w = [mkNotification (lit "1 file(s) sent") (lit "Warm Fig")]
     /\ SelectionModel.paths (selection w) = [lit "/home/a.txt"].
Proof. vm_compute. split_and!; reflexivity. Qed.

(** ** Receiving *)

Definition asks (i t : Z) : list (Z * gesture) :=
  [(t, Happens (Receiving (ReceiveService.Connection i (lit "10.0.0.66") None)));
   (t, Happens (Receiving (ReceiveService.Http i (HttpConnection.Data t
         (ln "POST /api/localsend/v2/prepare-upload HTTP/1.1" ++ ln "Content-Length: 2" ++ HttpConnection.crlf ++ offer)))))].
Definition request_shown : Screen := run opened (asks 1 1).
Lemma request_shown_eq : run (open_window (main 0 None settings nobody log ∅)) (asks 1 1) = request_shown.
Proof. unfold request_shown, opened, launched. reflexivity. Defined.
Lemma receiving_takes_a_tap_witness :
  shown request_shown = [Some ReceiveRequestPage; Some MainPage]
  /\ shown (step 2 TapAccept request_shown) = [Some TransferPage; Some MainPage]
  /\ exists i, current request_shown = Some (i, ReceiveRequestPage) /\ i ∉ decided request_shown.
Proof.
  split; [vm_compute; reflexivity|]. split; [vm_compute; reflexivity|].
  pose proof (PagesFacts.receiving_takes_a_tap 0 None settings nobody log ∅ (asks 1 1) 2 TapAccept) as Ht. cbv zeta in Ht.
  rewrite request_shown_eq in Ht. destruct Ht as [(_ & _ & Hi)|(i & h & Hg & _)].
  - vm_compute. reflexivity.
  - assert (Hn : is_empty (ReceiveService.m_sessionId (receiver (app (step 2 TapAccept request_shown)))) = false)
      by (vm_compute; reflexivity).
    unfold PagesFacts.session. intros He. rewrite He in Hn. discriminate Hn.
  - exact Hi.
  - discriminate Hg.
Defined.
(** Leaving the page without answering declines. *)
Lemma leaving_declines :
  let w := run request_shown [(2, SwipeBack); (3, Destroyed 1)] in
  shown w = [Some MainPage] /\ ReceiveService.m_pending (receiver (app w)) = None
  /\ calls w = (3, Receiving ReceiveService.Decline) :: calls request_shown.
Proof. vm_compute. split_and!; reflexivity. Qed.

(** ** Where the pages fall short *)

(** The request expires while its page is open, and Accept is tapped too late. The
    next request is shown on the same page, which counts as answered: none of its
    buttons does anything, and leaving the page declines nothing. *)
Lemma dead_buttons :
  let late := run request_shown [(90002, Happens (Receiving ReceiveService.AcceptTimeout)); (90003, TapAccept)] in
  let next := run late (asks 2 90004) in
  ReceiveService.m_pending (receiver (app late)) = None
  /\ ReceiveService.m_pending (receiver (app next)) = Some 2
  /\ shown next = [Some ReceiveRequestPage; Some MainPage]
  /\ calls (step 90005 TapAccept next) = calls next
  /\ let left := run next [(90005, TapDecline); (90006, Destroyed 1)] in
     shown left = [Some MainPage] /\ ReceiveService.m_pending (receiver (app left)) = Some 2.
Proof. vm_compute. split_and!; reflexivity. Qed.
(** A second transfer, accepted while the page of the first is still open, leaves
    that page below its own. *)
Lemma transfer_pages_pile_up :
  let first := run pin_open [(5, GivePin (lit "1234")); (5, Closed 2); (6, Happens (SendReply 1 (ReferenceSend.answered 200 yes)));
                             (7, Happens (SendReply 2 (ReferenceSend.answered 200 [])))] in
  shown (run first (asks 1 8 ++ [(9, TapAccept)])) = [Some TransferPage; Some TransferPage; Some MainPage].
Proof. vm_compute. reflexivity. Qed.

(** Requiring a PIN and then swiping the dialog back leaves the requirement on with
    no PIN behind it: a request that gives none is shown all the same. *)
Lemma pin_required_but_not_set :
  let on := run opened [(1, OpenPage (NamedPage (lit "settingsPage"))); (2, TogglePin true)] in
  let back := run on [(3, Rejected 2); (3, Closed 2)] in
  shown on = [Some (SettingDialog PinSetting); Some (NamedPage (lit "settingsPage")); Some MainPage]
  /\ AppSettings.pinEnabled (appSettings back) = true /\ AppSettings.pinIsSet (appSettings back) = false
  /\ shown (run back (asks 1 4)) = [Some ReceiveRequestPage; Some (NamedPage (lit "settingsPage")); Some MainPage].
Proof. vm_compute. split_and!; reflexivity. Qed.
(** What is typed for a port. *)
Lemma ports_read :
  parseInt (lit " 53317 ") = Some 53317 /\ parseInt (lit "80a") = Some 80 /\ parseInt (lit "-1") = Some (-1)
  /\ parseInt (lit "0x50") = Some 0 /\ parseInt (lit "port") = None
  /\ int_argument (parseInt (lit "4294967376")) = 80 /\ int_argument (parseInt []) = 0.
Proof. vm_compute. split_and!; reflexivity. Qed.

(** ** The language *)

(** A language with a file is installed, one without leaves the source texts; the
    view starts again at its first page either way. *)
Lemma language_reloads :
  let settings_page := run opened [(1, OpenPage (NamedPage (lit "settingsPage")))] in
  let finnish := run settings_page [(2, Happens (Receiving (ReceiveService.Settings (AppSettings.OpLanguage (lit "fi")) None)))] in
  let welsh := run finnish [(3, Happens (Receiving (ReceiveService.Settings (AppSettings.OpLanguage (lit "cy")) None)))] in
  shown settings_page = [Some (NamedPage (lit "settingsPage")); Some MainPage]
  /\ shown finnish = [Some MainPage] /\ translator finnish = Some (lit "harbour-localsend-fi")
  /\ shown welsh = [Some MainPage] /\ translator welsh = None.
Proof. vm_compute. split_and!; reflexivity. Qed.
End ReferencePages.
